(* ===== verification/_CoqProject ===== *)
-Q . S2P
Prelude.v
GoStrings.v
GoErrors.v
GoPath.v
GoTime.v
GoJson.v
JsonTree.v
GoUrl.v
GoDuration.v
Sha256.v
Spec.v
GoStrconv.v
GoTimeText.v
Validate.v
GoUtf8.v
JsonText.v
JsonTextFacts.v
RecordJson.v
RecordJsonFacts.v
Registry.v
Memory.v
Handoff.v
HandoffClient.v
HandoffJson.v
Ahv1.v
HandoffGrpc.v
HandoffHttp.v
HandoffFacts.v
Provenance.v
BackendTypes.v
Binding.v
HandoffLaws.v
HandoffWorld.v
Reconcile.v
Placement.v
K8sTypes.v
JobClient.v
LabelFacts.v
JobClientFacts.v
JobWatchFacts.v
Contract.v
ContractFacts.v
Adapter.v
AdapterFacts.v
Prog.v
Metrics.v
Runner.v
RunnerLogic.v
RunnerWrites.v
RunnerSafety.v
RunnerEvidence.v
RunnerTermination.v
MemoryWorld.v
MemoryFacts.v
MemoryTidy.v
Sqlite.v
SqliteRefines.v
SqliteOpen.v
Engine.v
EngineFacts.v
EngineSafety.v
Api.v
ApiFacts.v
Goroutines.v
ActiveRuns.v
EngineNew.v
Durable.v
ApiGrpc.v
ApiGrpcFacts.v
Main.v
MainFacts.v
SmokeClient.v
Summary.v
SummaryFacts.v
Scenarios.v
GoroutineWorld.v
DurableWorld.v
ClusterWorld.v
AdapterRunner.v
