(* ===== verification/Prelude.v ===== *)
(** * JUMI: a verification development for the run executor

    JUMI accepts a graph of containerised nodes as a run, executes it on a
    backend (Kubernetes Jobs), resolves the artifacts a node consumes through an
    artifact-handoff service, registers those it produces, and keeps runs, nodes,
    attempts and events in a registry that survives the process. This development
    models the program in Rocq and proves what makes it correct.

    ** The program's parts and the files that model them

    - [src/pkg/spec/types.go], [validate.go]: the data model ([Spec]) with its JSON
      tags ([RecordJson], [RecordJsonFacts]) and the guard on submitted specs with
      the defaulting of nodes ([Validate]).
    - [src/pkg/registry/registry.go], [memory.go]: the registry interface
      ([Registry]), the in-memory registry as atomic functions of four maps
      ([Memory]), its invariants and the behaviour of its operations
      ([MemoryFacts]). [sqlite.go]: the durable registry over four SQL tables
      ([Sqlite]), where every call of the driver may fail, its refinement of the
      in-memory one ([SqliteRefines]), and how its file is opened and its schema
      created ([SqliteOpen]).
    - [src/pkg/handoff/client.go]: the messages and their normalisation
      ([Handoff]), the client interface and the no-op client ([HandoffClient]),
      the tags of the messages ([HandoffJson]), the HTTP client ([HandoffHttp]).
      [grpc_client.go]: the gRPC client ([HandoffGrpc]) over the messages and the
      stub of [ahv1/] ([Ahv1]). That the clients agree and what all of them promise:
      [HandoffFacts], [HandoffLaws]; a small service: [HandoffWorld].
    - [src/pkg/provenance/manifest.go]: artifact manifests ([Provenance]).
      [src/pkg/backend/backend.go], [attempt_resolver.go]: the values exchanged
      with a backend ([BackendTypes]).
    - [src/pkg/executor/executor.go], the pure part: input bindings and their
      environment ([Binding]), placement ([Placement]); [reconcile.go]: the
      decision over durable facts ([Reconcile]).
    - the same files, the effectful part: [Prog] is the language of programs over
      calls; [Runner] is [nodeRunner], every method; [Engine] is [NoopEngine] and
      [DagEngine]: admission, cancellation, graph execution, finalisation,
      recovery. [Goroutines] runs them interleaved over one registry
      ([GoroutineWorld]: concrete schedules), on what a runner may write
      ([RunnerWrites]) and what the registry then answers ([MemoryTidy]).
      [ActiveRuns] is the engine's table of active runs, whose entries goroutines
      share; [EngineNew] is the engine object and its constructors.
    - A server on its durable registry: [Durable] puts the goroutines over the
      SQLite registry, from one opening of the file to the next
      ([DurableWorld]: concrete histories).
    - [src/pkg/spawner/k8s_jobclient.go]: the job built from a request, its guard,
      create, delete, snapshot and watch ([JobClient]) over the types of [K8sTypes];
      [LabelFacts], [JobClientFacts], [JobWatchFacts] are its properties.
    - [src/pkg/backend/spawner_k8s.go]: the request, environment and node contract
      of an attempt ([Contract], [ContractFacts]); preparing, starting, observing,
      waiting, canceling, collecting outputs, handles ([Adapter], [AdapterFacts]);
      the executor on this adapter ([AdapterRunner]); a small cluster
      ([ClusterWorld]).
    - [src/pkg/api/service.go], [src/pkg/observe/status.go]: the run service and the
      status snapshot ([Api], [ApiFacts]). [src/pkg/api/grpc.go]: the service over
      gRPC and its client ([ApiGrpc], [ApiGrpcFacts]).
    - [src/pkg/metrics/metrics.go]: the counters ([Metrics]).
    - [src/cmd/jumi/]: configuration, start, endpoints, shutdown, [lifecycle-check]
      ([Main], [MainFacts]).
    - [src/tools/jumi-smoke/]: [SmokeClient]. [src/tools/kubeslint-smoke-summary/],
      from its flags to the file it writes: [Summary], [SummaryFacts].
    - What the program uses of Go's standard library: strings and errors
      ([GoStrings], [GoErrors]), UTF-8 ([GoUtf8]), numbers ([GoStrconv]), paths and
      URLs ([GoPath], [GoUrl]), durations ([GoTime], [GoDuration]), the text of
      times ([GoTimeText]), SHA-256 ([Sha256]), JSON: codecs ([GoJson]), structures as trees ([JsonTree]), their
      text ([JsonText], [JsonTextFacts]). [Prelude] (this file) has record update,
      string equality tests, counting, map iteration and the shared automation.

    A method of the executor is a [prog]: a tree of calls (registry, backend,
    handoff, clock, engine table, graph library) with a continuation for every
    answer. A registry call is one event and atomic, as the registries' lock or
    transaction makes it. The same program is read in three ways: which calls it
    can make ([emits]), which properties hold whatever the calls answer ([wp] with
    a monitor as state), and what it computes on a concrete world ([run]).
    [MemoryWorld] serves the registry calls from [Memory] and leaves the others to
    an arbitrary environment. [RunnerLogic] lifts the rules to the runner's monad.
    The components below the executor are functions of a state of the world that
    classes describe: [Client] (handoff), [Cluster] (the API server), the stub of
    gRPC, the transport of HTTP.

    ** What the theorems show

    - Execution at most once per call and no invented success: [RunnerSafety],
      [RunnerEvidence]. [RunE] starts at most one execution, only behind a fence
      the registry confirmed; recovery and cancellation create nothing; a success
      is recorded only on evidence.
    - Any interleaving ([Goroutines]): however the goroutines of a server are
      scheduled and whatever the world answers, the in-memory registry only takes
      the steps of the program, no two allocations hand out the same attempt, and
      every execution was started by a node's runner behind a fence it had opened,
      at most one by each runner. A run that its runner marked as unresolved, when
      it is then asked for, is left to the next start ([ActiveRuns]).
    - Termination: [RunnerTermination], [MemoryWorld]. The retry loop ends on the
      in-memory registry. The smoke client's polling ends ([SmokeClient]).
    - Reconcile decisions are exactly the documented table ([Reconcile]).
    - The registry ([MemoryFacts]): well-formedness in every reachable state,
      allocation is all or nothing and never reuses an identity, attempts are
      numbered without gaps, the event log is append-only, lists are
      deterministic although Go's map iteration is not.
    - The SQLite registry refines it ([SqliteRefines]): from tables that represent
      a state, every method either fails with an error of the driver and changes
      nothing, or answers as the in-memory registry and leaves tables that
      represent its next state; the exceptions are spelled out in [same_answer].
      The records written must be read back from their JSON, which they are but
      for the exceptions of [RecordJsonFacts]; times are, as text, while their
      year has four digits ([GoTimeText]).
    - The life of a durable server ([Durable]): whatever the schedule, the failures
      of the driver and the ends of the process, the tables represent a registry
      that only takes the steps of the program, no two allocations hand out the same
      attempt, and a runner starts at most one execution, behind a fence it opened
      itself in the tables. Opening the file loses nothing of what is in it and ends
      with the schema complete or an error ([SqliteOpen]).
    - The engine on the in-memory registry ([EngineFacts]): what a run ends as,
      what finalising and canceling write and leave alone, which nodes a failed
      graph skips; and whatever its calls answer ([EngineSafety]): an unresolved
      run stays recoverable, the start-up sweep executes every non-terminal run
      once.
    - The pure parts: the guard accepts exactly the well-formed specs, defaulting,
      redaction, the binding contract, path and environment safety, placement.
    - The job client: submission is idempotent and answers only for its own job,
      deletion removes only the job meant, identity labels are legal, the watch
      sends one terminal event at most and reports a success only on evidence.
    - The adapter: a started node's handle is found again, the contract asks for
      what was resolved, outputs are collected only of the right pod and manifest;
      composed with the executor, an execution that failed is never recorded as
      failed, which is a defect.
    - The handoff clients: over both transports the same service is asked the same
      and answers the same; no request headers reach the executor; every gRPC call
      is bounded in time.
    - The service: what submitting a run does on every branch; every method of the
      gRPC client, over the JSON of the messages and the table of handlers, does
      what the method of the service does; the server serves only after a complete
      start and the recovery sweep.
    - [Scenarios] evaluates the executor on a small concrete world and holds the
      witnesses of the theorems about it; it also shows defects: a started
      attempt's record forgets its fence, so that a restart can start a job twice
      when its handle was not kept; a timed-out node reports success to the graph.

    ** Bounds and fuel

    [ValidateExecutableRunSpec]'s depth-first search runs on one unit of fuel more
    than there are nodes; [RunE] on 33, one resumed attempt and the 32
    realizations of [realizationAttemptCeiling]; reading a JSON text on its length
    and one. The first two are proved to be enough, the last for every text that
    is written. Loops over what the environment sends (watch, wait, observe, poll)
    take it as a list. [int] is 64 bits wide with wrap-around where the program
    counts durably ([int_add]); lengths of lists are unbounded integers. Times are
    nanoseconds.

    ** What is not modelled

    A commit that reports an error although it took effect; the SQL engine below
    the statements; the HTTP, gRPC and Kubernetes libraries below the calls the
    program makes of them, the remote [cat] among these, whose answers are
    arguments; the exporter of the metrics; the parsing of flags; the evaluation of
    a profile by kube-slint; the generated protocol code beyond the messages in use;
    the graph library, whose calls are events. Which goroutines exist at a time is
    not tied to the [go] statements: [Goroutines] and [Durable] allow any to be
    started at any time, which includes those. A call is atomic in them, also one
    that is several calls of a library; a process that ends in the middle of its
    calls is a schedule that stops, or in [Durable] a crash. *)
From stdpp Require Export base tactics option list gmap strings pretty.
From Stdlib Require Export ZArith Lia.

(** ** Record update

    [r <| f := v |>] is the record [r] with its field [f] replaced, the reading
    of a Go assignment [r.f = v]. A record type opts in by giving its
    eta-expansion; the updater of a field is computed from it. *)
Class Eta (R : Type) := eta : R -> R.

Class Setter {R T : Type} (f : R -> T) := setf : (T -> T) -> R -> R.

Arguments setf {R T} f {_} g r /.

Ltac derive_setter f :=
  let R := lazymatch type of f with ?R -> _ => R end in
  let T := lazymatch type of f with _ -> ?T => T end in
  exact (fun (g : T -> T) (r : R) =>
    ltac:(let inst := constr:(_ : Eta R) in
          let body := eval hnf in (inst r) in
          let body := eval pattern (f r) in body in
          lazymatch body with
          | ?b _ => let t := eval cbv beta in (b (g (f r))) in exact t
          end)).

#[export] Hint Extern 1 (Setter ?f) => (derive_setter f) : typeclass_instances.

Declare Scope jumi_scope.
Delimit Scope jumi_scope with jumi.
Notation "r <| f := v |>" := (setf f (fun _ => v) r)
  (at level 1, left associativity, f at level 9, v at level 200) : jumi_scope.
#[global] Open Scope jumi_scope.

(** ** Go integers

    Go's [int] is 64 bits wide on the supported platforms and wraps around. *)
Definition wrap64 (z : Z) : Z := ((z + 2 ^ 63) `mod` 2 ^ 64 - 2 ^ 63)%Z.

Definition int_add (x y : Z) : Z := wrap64 (x + y).

Definition int64_max : Z := 9223372036854775807.

Lemma wrap64_id z : (- 2 ^ 63 <= z < 2 ^ 63)%Z -> wrap64 z = z.
Proof. intros H. unfold wrap64. rewrite Z.mod_small; lia. Qed.

Lemma int_add_succ z : (0 <= z < int64_max)%Z -> int_add z 1 = (z + 1)%Z.
Proof. intros H. unfold int_add, int64_max in *. apply wrap64_id. lia. Qed.

(** ** Lists *)

(** The elements of a list for which a boolean test holds, counted in [Z] the
    way the code counts with [n++] over a slice held in memory. *)
Definition countb {A} (f : A -> bool) (l : list A) : Z :=
  Z.of_nat (length (List.filter f l)).

Lemma countb_cons {A} (f : A -> bool) x l :
  countb f (x :: l) = ((if f x then 1 else 0) + countb f l)%Z.
Proof. unfold countb. simpl. destruct (f x); simpl; lia. Qed.

Lemma countb_nonneg {A} (f : A -> bool) l : (0 <= countb f l)%Z.
Proof. unfold countb. lia. Qed.

Lemma countb_app {A} (f : A -> bool) l1 l2 :
  countb f (l1 ++ l2) = (countb f l1 + countb f l2)%Z.
Proof. unfold countb. rewrite List.filter_app, length_app. lia. Qed.

Lemma countb_perm {A} (f : A -> bool) l1 l2 :
  l1 ≡ₚ l2 -> countb f l1 = countb f l2.
Proof. induction 1; rewrite ?countb_cons in *; lia. Qed.

#[export] Instance countb_proper {A} (f : A -> bool) : Proper (Permutation ==> eq) (countb f).
Proof. intros l1 l2. apply countb_perm. Qed.

Lemma countb_le_length {A} (f : A -> bool) l : (countb f l <= Z.of_nat (length l))%Z.
Proof.
  unfold countb. induction l as [|x l IH]; simpl; [lia|].
  destruct (f x); simpl; lia.
Qed.

(** The first element of a list that satisfies a test ([for ... return]). *)
Fixpoint find_first {A} (f : A -> bool) (l : list A) : option A :=
  match l with
  | [] => None
  | x :: l => if f x then Some x else find_first f l
  end.

Lemma find_first_Some {A} (f : A -> bool) l x :
  find_first f l = Some x -> x ∈ l /\ f x = true.
Proof.
  induction l as [|y l IH]; simpl; [done|].
  destruct (f y) eqn:E; intros H; simplify_eq.
  - split; [apply elem_of_cons; auto | done].
  - destruct (IH H). split; [apply elem_of_cons; auto | done].
Qed.

Lemma find_first_None {A} (f : A -> bool) l :
  find_first f l = None <-> forall x, x ∈ l -> f x = false.
Proof.
  induction l as [|y l IH]; simpl.
  - split; [intros _ x Hx; by apply elem_of_nil in Hx | done].
  - destruct (f y) eqn:E; split.
    + done.
    + intros H. specialize (H y (list_elem_of_here _ _)). congruence.
    + intros H x [->|Hx]%elem_of_cons; [done|]. by apply IH.
    + intros H. apply IH. intros x Hx. apply H, elem_of_cons. auto.
Qed.

(** ** Relations *)
Lemma tc_inv_l {A} (R : relation A) x z : tc R x z -> exists y, R x y /\ rtc R y z.
Proof. destruct 1 as [y H|x y z H1 H2]; eauto using tc_rtc, rtc_refl. Qed.

Lemma tc_subrel {A} (R1 R2 : relation A) :
  (forall x y, R1 x y -> R2 x y) -> forall x y, tc R1 x y -> tc R2 x y.
Proof. induction 2; eauto using tc_once, tc_l. Qed.

(** ** Booleans and options *)
Lemma bool_decide_reflect_true (P : Prop) `{Decision P} : bool_decide P = true <-> P.
Proof. apply bool_decide_eq_true. Qed.

Definition is_some {A} (o : option A) : bool :=
  match o with Some _ => true | None => false end.

Lemma is_some_true {A} (o : option A) : is_some o = true <-> is_Some o.
Proof. destruct o; simpl; split; intros H; [eauto | done | done | by destruct H]. Qed.

(** String equality as the boolean test the code performs. *)
Definition streq (a b : string) : bool := bool_decide (a = b).

Lemma streq_eq a b : streq a b = true <-> a = b.
Proof. apply bool_decide_eq_true. Qed.

Lemma streq_neq a b : streq a b = false <-> a <> b.
Proof. apply bool_decide_eq_false. Qed.

Lemma streq_refl a : streq a a = true.
Proof. by apply streq_eq. Qed.

(** ** Map iteration

    Go visits the keys of a map in an unspecified order, each key once. The
    order is a parameter of every definition that ranges over a map. *)
Class RangeOrder := {
  range_keys : gset string -> list string;
  range_keys_perm s : range_keys s ≡ₚ elements s;
}.

Lemma elem_of_range_keys {RO : RangeOrder} s k : k ∈ range_keys s <-> k ∈ s.
Proof. by rewrite range_keys_perm, elem_of_elements. Qed.

Lemma NoDup_range_keys {RO : RangeOrder} s : NoDup (range_keys s).
Proof. rewrite range_keys_perm. apply NoDup_elements. Qed.

(** The order in which the library enumerates a set, to evaluate the model. *)
Definition elements_order : RangeOrder :=
  {| range_keys s := elements s; range_keys_perm s := Permutation_refl _ |}.

(** A nil map reads as the empty map; writing to it is a run-time panic, so
    every writer of the program allocates first. *)
Definition map_of (m : option (gmap string string)) : gmap string string :=
  default ∅ m.

(** [m[k]]: the zero value when the key is absent. *)
Definition map_get (m : option (gmap string string)) (k : string) : string :=
  default "" (map_of m !! k).

Lemma map_get_made m k : map_get (Some (map_of m)) k = map_get m k.
Proof. done. Qed.

(** ** Automation

    The development's hint database: lemmas that a component exports to its
    clients as "obviously usable". *)
Create HintDb jumi.
Create Rewrite HintDb jumi_counts.

#[export] Hint Resolve countb_nonneg countb_le_length streq_refl : jumi.
#[export] Hint Rewrite @countb_cons @countb_app : jumi_counts.

(** Turn every boolean string test of the context into the (in)equality it
    decides, substituting the equalities. *)
Ltac str_tests :=
  repeat match goal with
         | H : streq _ _ = true |- _ => apply streq_eq in H
         | H : streq _ _ = false |- _ => apply streq_neq in H
         | H : (_ && _) = true |- _ => apply andb_true_iff in H as [? ?]
         | H : (_ || _) = false |- _ => apply orb_false_iff in H as [? ?]
         | H : negb _ = true |- _ => apply negb_true_iff in H
         | H : negb _ = false |- _ => apply negb_false_iff in H
         end; simplify_eq/=.

(** Split on the matches of the goal one after the other, closing the branches
    that are immediate. *)
Ltac cases :=
  repeat (case_match; simplify_eq/=; try done).
