(* ===== verification/GoStrings.v ===== *)
(** * Go strings

    A Go string is a sequence of bytes; Rocq's [string] is the same thing. This
    file models the functions of packages [strings], [unicode/utf8] and
    [strconv] that the program calls, on bytes, with UTF-8 decoding written
    out. The Unicode category and case tables are a parameter
    ([UnicodeTables]): only their values on ASCII, which Go documents, are
    fixed. *)
From S2P Require Import Prelude.
From Stdlib Require Import Ascii NArith.
From stdpp Require Import sorting.

(** ** Prefixes, suffixes, concatenation *)

(** [strings.HasPrefix(s, p)] *)
Fixpoint has_prefix (p s : string) : bool :=
  match p, s with
  | EmptyString, _ => true
  | String a p, String b s => Ascii.eqb a b && has_prefix p s
  | String _ _, EmptyString => false
  end.

(** [s[n:]], for [n] within bounds. *)
Fixpoint str_drop (n : nat) (s : string) : string :=
  match n, s with
  | O, _ => s
  | S n, String _ s => str_drop n s
  | S _, EmptyString => EmptyString
  end.

(** [s[:n]], for [n] within bounds. *)
Fixpoint str_take (n : nat) (s : string) : string :=
  match n, s with
  | S n, String a s => String a (str_take n s)
  | _, _ => EmptyString
  end.

Fixpoint str_rev_app (s acc : string) : string :=
  match s with
  | EmptyString => acc
  | String a s => str_rev_app s (String a acc)
  end.

Definition str_rev (s : string) : string := str_rev_app s EmptyString.

(** [strings.HasSuffix(s, p)] *)
Definition has_suffix (p s : string) : bool := has_prefix (str_rev p) (str_rev s).

(** [strings.TrimPrefix(s, p)] *)
Definition trim_prefix (p s : string) : string :=
  if has_prefix p s then str_drop (String.length p) s else s.

(** [strings.TrimSuffix(s, p)] *)
Definition trim_suffix (p s : string) : string :=
  if has_suffix p s then str_take (String.length s - String.length p) s else s.

(** [strings.Join(l, sep)] *)
Fixpoint str_join (sep : string) (l : list string) : string :=
  match l with
  | [] => ""
  | [x] => x
  | x :: l => x +:+ sep +:+ str_join sep l
  end.

(** ** [util.FirstNonEmpty] *)
Fixpoint FirstNonEmpty (values : list string) : string :=
  match values with
  | [] => ""
  | v :: values => if negb (streq v "") then v else FirstNonEmpty values
  end.

(** ** [strings.TrimSpace]

    The characters with Unicode's White_Space property, in UTF-8. Removing the
    longest run of them at either end is what [TrimSpace] does: a byte sequence
    below decodes to that rune from the left, and from the right, whatever
    follows or precedes it. *)
Definition bytes_of (l : list N) : string :=
  fold_right (fun b s => String (ascii_of_N b) s) EmptyString l.

Definition space_runes : list string :=
  map bytes_of
    [[9]; [10]; [11]; [12]; [13]; [32]; [194; 133]; [194; 160]; [225; 154; 128];
     [226; 128; 128]; [226; 128; 129]; [226; 128; 130]; [226; 128; 131];
     [226; 128; 132]; [226; 128; 133]; [226; 128; 134]; [226; 128; 135];
     [226; 128; 136]; [226; 128; 137]; [226; 128; 138]; [226; 128; 168];
     [226; 128; 169]; [226; 128; 175]; [226; 129; 159]; [227; 128; 128]]%N.

Fixpoint trim_left_of (seqs : list string) (fuel : nat) (s : string) : string :=
  match fuel with
  | O => s
  | S fuel =>
      match find_first (fun q => has_prefix q s) seqs with
      | Some q => trim_left_of seqs fuel (str_drop (String.length q) s)
      | None => s
      end
  end.

Definition trim_of (seqs : list string) (s : string) : string :=
  let l := trim_left_of seqs (String.length s) s in
  str_rev (trim_left_of (map str_rev seqs) (String.length l) (str_rev l)).

Definition TrimSpace (s : string) : string := trim_of space_runes s.

(** [strings.Trim(s, cutset)] for a cutset of single-byte characters, and
    [strings.TrimRight]. *)
Definition single_bytes (cutset : string) : list string :=
  map (fun a => String a EmptyString) (String.list_ascii_of_string cutset).

Definition trim_cutset (cutset s : string) : string := trim_of (single_bytes cutset) s.

Definition trim_right_cutset (cutset s : string) : string :=
  str_rev (trim_left_of (single_bytes cutset) (String.length s) (str_rev s)).

(** ** ASCII case folding

    [strings.EqualFold(s, t)] for a [t] made of letters whose fold orbits are
    ASCII (neither 'k' nor 's'): byte-wise comparison up to ASCII case. *)
Definition ascii_lower (a : ascii) : ascii :=
  let n := N_of_ascii a in
  if ((65 <=? n) && (n <=? 90))%N then ascii_of_N (n + 32) else a.

Fixpoint ascii_map (f : ascii -> ascii) (s : string) : string :=
  match s with
  | EmptyString => EmptyString
  | String a s => String (f a) (ascii_map f s)
  end.

Definition EqualFold (s t : string) : bool :=
  streq (ascii_map ascii_lower s) (ascii_map ascii_lower t).

(** ** UTF-8 *)
Definition rune_error : N := 65533.

Definition in_range (lo hi b : N) : bool := ((lo <=? b) && (b <=? hi))%N.

(** The range of the second byte for a given lead byte ([acceptRanges]). *)
Definition second_ok (b0 b1 : N) : bool :=
  if (b0 =? 224)%N then in_range 160 191 b1
  else if (b0 =? 237)%N then in_range 128 159 b1
  else if (b0 =? 240)%N then in_range 144 191 b1
  else if (b0 =? 244)%N then in_range 128 143 b1
  else in_range 128 191 b1.

Definition cont_ok (b : N) : bool := in_range 128 191 b.

(** [utf8.DecodeRune] on a non-empty byte list: the rune and its width. *)
Definition decode_rune (bs : list N) : N * nat :=
  match bs with
  | [] => (rune_error, 0)
  | b0 :: r =>
      if (b0 <? 128)%N then (b0, 1)
      else match r with
      | b1 :: r =>
          if in_range 194 223 b0 then
            if cont_ok b1 then (((b0 - 192) * 64 + (b1 - 128))%N, 2) else (rune_error, 1)
          else if in_range 224 244 b0 then
            if second_ok b0 b1 then
              match r with
              | b2 :: r =>
                  if (b0 <? 240)%N then
                    if cont_ok b2
                    then (((b0 - 224) * 4096 + (b1 - 128) * 64 + (b2 - 128))%N, 3)
                    else (rune_error, 1)
                  else match r with
                       | b3 :: _ =>
                           if cont_ok b2 && cont_ok b3
                           then (((b0 - 240) * 262144 + (b1 - 128) * 4096
                                  + (b2 - 128) * 64 + (b3 - 128))%N, 4)
                           else (rune_error, 1)
                       | [] => (rune_error, 1)
                       end
              | [] => (rune_error, 1)
              end
            else (rune_error, 1)
          else (rune_error, 1)
      | [] => (rune_error, 1)
      end
  end.

Fixpoint runes_fuel (fuel : nat) (bs : list N) : list N :=
  match fuel, bs with
  | S fuel, _ :: _ =>
      let '(r, w) := decode_rune bs in r :: runes_fuel fuel (drop w bs)
  | _, _ => []
  end.

Definition bytes_N (s : string) : list N := map N_of_ascii (String.list_ascii_of_string s).

(** [for _, r := range s] *)
Definition runes (s : string) : list N := runes_fuel (String.length s) (bytes_N s).

(** [utf8.AppendRune] *)
Definition encode_rune (r : N) : string :=
  let r := if ((1114111 <? r) || in_range 55296 57343 r)%N then rune_error else r in
  if (r <? 128)%N then bytes_of [r]
  else if (r <? 2048)%N then bytes_of [192 + r / 64; 128 + r mod 64]%N
  else if (r <? 65536)%N
       then bytes_of [224 + r / 4096; 128 + (r / 64) mod 64; 128 + r mod 64]%N
  else bytes_of [240 + r / 262144; 128 + (r / 4096) mod 64;
                 128 + (r / 64) mod 64; 128 + r mod 64]%N.

(** ** Unicode tables *)
Class UnicodeTables := {
  unicode_IsLetter : N -> bool;
  unicode_IsDigit : N -> bool;
  unicode_ToUpper : N -> N;
  unicode_ToLower : N -> N;
  unicode_IsPrint : N -> bool;
}.

Definition ascii_upper_letter (r : N) : bool := in_range 65 90 r.
Definition ascii_lower_letter (r : N) : bool := in_range 97 122 r.
Definition ascii_digit (r : N) : bool := in_range 48 57 r.

(** What package [unicode] documents for ASCII. *)
Class UnicodeAscii (U : UnicodeTables) := {
  letter_ascii r : (r < 128)%N ->
    unicode_IsLetter r = ascii_upper_letter r || ascii_lower_letter r;
  digit_ascii r : (r < 128)%N -> unicode_IsDigit r = ascii_digit r;
  upper_ascii r : (r < 128)%N ->
    unicode_ToUpper r = if ascii_lower_letter r then (r - 32)%N else r;
  lower_ascii r : (r < 128)%N ->
    unicode_ToLower r = if ascii_upper_letter r then (r + 32)%N else r;
  print_ascii r : (r < 128)%N -> unicode_IsPrint r = in_range 32 126 r;
}.

(** Tables that know ASCII only: an instance to evaluate the model with. *)
Definition ascii_tables : UnicodeTables := {|
  unicode_IsLetter r := ascii_upper_letter r || ascii_lower_letter r;
  unicode_IsDigit := ascii_digit;
  unicode_ToUpper r := if ascii_lower_letter r then (r - 32)%N else r;
  unicode_ToLower r := if ascii_upper_letter r then (r + 32)%N else r;
  unicode_IsPrint := in_range 32 126;
|}.

Lemma ascii_tables_ok : UnicodeAscii ascii_tables.
Proof. by split. Qed.

(** [strings.ToUpper] and [strings.ToLower] *)
Definition ToUpper {U : UnicodeTables} (s : string) : string :=
  fold_right (fun r acc => encode_rune (unicode_ToUpper r) +:+ acc) "" (runes s).

Definition ToLower {U : UnicodeTables} (s : string) : string :=
  fold_right (fun r acc => encode_rune (unicode_ToLower r) +:+ acc) "" (runes s).

(** ** [strconv.Quote], the verb [%q] *)
Definition hex_digit (n : N) : string :=
  bytes_of [if (n <? 10)%N then 48 + n else 87 + n]%N.

Fixpoint hex_fixed (digits : nat) (n : N) : string :=
  match digits with
  | O => ""
  | S d => hex_fixed d (n / 16) +:+ hex_digit (n mod 16)
  end.

Definition quote_rune {U : UnicodeTables} (r : N) : string :=
  if ((r =? 34) || (r =? 92))%N then bytes_of [92; r]%N
  else if unicode_IsPrint r then encode_rune r
  else match r with
       | 7 => "\a" | 8 => "\b" | 12 => "\f" | 10 => "\n" | 13 => "\r"
       | 9 => "\t" | 11 => "\v"
       | _ => if ((r <? 32) || (r =? 127))%N then "\x" +:+ hex_fixed 2 r
              else if (r <? 65536)%N then "\u" +:+ hex_fixed 4 r
              else "\U" +:+ hex_fixed 8 r
       end%N.

Fixpoint quote_fuel {U : UnicodeTables} (fuel : nat) (bs : list N) : string :=
  match fuel, bs with
  | S fuel, b :: _ =>
      let '(r, w) := decode_rune bs in
      (if ((r =? rune_error)%N && (w =? 1)%nat) then "\x" +:+ hex_fixed 2 b
       else quote_rune r)
      +:+ quote_fuel fuel (drop w bs)
  | _, _ => ""
  end.

Definition dquote : string := bytes_of [34]%N.

Definition Quote {U : UnicodeTables} (s : string) : string :=
  dquote +:+ quote_fuel (String.length s) (bytes_N s) +:+ dquote.

(** ** Lemmas *)
Lemma has_prefix_app p s : has_prefix p (p +:+ s) = true.
Proof. induction p as [|a p IH]; simpl; [done|]. by rewrite Ascii.eqb_refl. Qed.

Lemma has_prefix_iff p s : has_prefix p s = true <-> exists t, s = p +:+ t.
Proof.
  split.
  - revert s; induction p as [|a p IH]; intros [|b s]; simpl; try done; eauto.
    intros [->%Ascii.eqb_eq H]%andb_true_iff.
    destruct (IH _ H) as [t ->]. by exists t.
  - intros [t ->]. apply has_prefix_app.
Qed.

Lemma FirstNonEmpty_empty values :
  FirstNonEmpty values = "" <-> forall v, v ∈ values -> v = "".
Proof.
  induction values as [|v l IH]; simpl.
  - split; [intros _ v Hv; by apply elem_of_nil in Hv | done].
  - destruct (streq v "") eqn:E; str_tests; split.
    + intros H w [->|Hw]%elem_of_cons; [done|]. by apply IH.
    + intros H. apply IH. intros w Hw. apply H, elem_of_cons. auto.
    + done.
    + intros H. apply H, elem_of_cons. auto.
Qed.

Lemma FirstNonEmpty_last l d : d <> "" -> FirstNonEmpty (l ++ [d]) <> "".
Proof.
  intros Hd H. apply Hd. apply (proj1 (FirstNonEmpty_empty _) H).
  apply elem_of_app; right; apply list_elem_of_here.
Qed.

Example TrimSpace_ex : TrimSpace "  a b	
" = "a b".
Proof. reflexivity. Qed.

Example ToUpper_ex : @ToUpper ascii_tables "Pending" = "PENDING".
Proof. reflexivity. Qed.

(** ** Characters of a string *)
Fixpoint str_forall (P : ascii -> bool) (s : string) : bool :=
  match s with EmptyString => true | String a s => P a && str_forall P s end.

Lemma str_forall_app P s t : str_forall P (s +:+ t) = str_forall P s && str_forall P t.
Proof. induction s as [|a s IH]; simpl; [done|]. by rewrite IH, andb_assoc. Qed.

Lemma str_forall_drop P n s : str_forall P s = true -> str_forall P (str_drop n s) = true.
Proof.
  revert n; induction s as [|a s IH]; intros [|n]; simpl; try done.
  intros [_ H]%andb_true_iff. by apply IH.
Qed.

Lemma str_forall_rev P s : str_forall P s = true -> str_forall P (str_rev s) = true.
Proof.
  assert (H : forall s acc, str_forall P s = true -> str_forall P acc = true ->
                str_forall P (str_rev_app s acc) = true).
  { clear s. induction s as [|a s IH]; simpl; [done|]. intros acc [Ha Hs]%andb_true_iff Hacc.
    apply IH; [done|]. simpl. by rewrite Ha. }
  intros Hs. by apply H.
Qed.

Lemma str_forall_trim P seqs s : str_forall P s = true -> str_forall P (trim_of seqs s) = true.
Proof.
  assert (H : forall seqs fuel s, str_forall P s = true ->
                str_forall P (trim_left_of seqs fuel s) = true).
  { clear. intros seqs fuel. induction fuel as [|fuel IH]; intros s Hs; simpl; [done|].
    destruct (find_first _ _); [|done]. by apply IH, str_forall_drop. }
  intros Hs. unfold trim_of. by apply str_forall_rev, H, str_forall_rev, H.
Qed.

Definition ascii_byte7 (a : ascii) : bool := (N_of_ascii a <? 128)%N.

(** Ranging over an ASCII string yields its bytes. *)
Lemma runes_ascii s : str_forall ascii_byte7 s = true -> runes s = bytes_N s.
Proof.
  unfold runes, bytes_N. induction s as [|a s IH]; simpl; [done|].
  intros [Ha Hs]%andb_true_iff. unfold ascii_byte7 in Ha. rewrite Ha. simpl.
  f_equal. by apply IH.
Qed.

Lemma encode_rune_ascii r : (r < 128)%N -> encode_rune r = String (ascii_of_N r) "".
Proof.
  intros H. unfold encode_rune, in_range.
  destruct (N.ltb_spec 1114111 r); [lia|]. destruct (N.leb_spec 55296 r); [lia|].
  cbn [orb andb]. destruct (N.ltb_spec r 128); [done|lia].
Qed.

(** ** Package [sort]

    The byte order of Go's strings; equal strings are the same, so that every
    sorting algorithm gives the same list. *)
Lemma string_leb_trans : forall a b c : string,
  String.leb a b = true -> String.leb b c = true -> String.leb a c = true.
Proof.
  unfold String.leb. induction a as [|x a IH]; intros [|y b] [|z c]; simpl; try done.
  specialize (IH b c).
  unfold Ascii.compare. destruct (N.compare_spec (Ascii.N_of_ascii x) (Ascii.N_of_ascii y)) as [E|E|E];
    destruct (N.compare_spec (Ascii.N_of_ascii y) (Ascii.N_of_ascii z)) as [E'|E'|E'];
    destruct (N.compare_spec (Ascii.N_of_ascii x) (Ascii.N_of_ascii z)) as [E''|E''|E'']; try done; lia.
Qed.

Definition string_before (a b : string) : Prop := String.leb a b = true.
#[export] Instance string_before_dec : RelDecision string_before.
Proof. intros a b. unfold string_before. apply _. Defined.
#[export] Instance string_before_trans : Transitive string_before.
Proof. intros a b c. apply string_leb_trans. Qed.
#[export] Instance string_before_antisymm : AntiSymm eq string_before.
Proof. intros a b. apply String.leb_antisym. Qed.
#[export] Instance string_before_total : Total string_before.
Proof. intros a b. apply String.leb_total. Qed.

(** [sort.Strings] *)
Definition sort_strings : list string -> list string := merge_sort string_before.

Lemma sort_strings_perm l : sort_strings l ≡ₚ l.
Proof. apply merge_sort_Permutation. Qed.

Lemma sort_strings_proper : Proper (Permutation ==> eq) sort_strings.
Proof.
  intros l l' H. apply (Sorted_unique string_before); try apply Sorted_merge_sort; try apply _.
  by rewrite !sort_strings_perm.
Qed.
#[export] Existing Instance sort_strings_proper.

(** ** Concatenation *)
Lemma app_eq_split (a s b t : string) :
  a +:+ s = b +:+ t ->
  (exists u, a = b +:+ u /\ t = u +:+ s) \/ (exists u, b = a +:+ u /\ s = u +:+ t).
Proof.
  revert b; induction a as [|x a IH]; intros [|y b] H; simpl in *; simplify_eq.
  - left. by exists "".
  - right. eauto.
  - left. eauto.
  - destruct (IH b) as [(u & -> & ->)|(u & -> & ->)]; [done|left; eauto|right; eauto].
Qed.

Lemma str_drop_app u s : str_drop (String.length u) (u +:+ s) = s.
Proof. by induction u. Qed.

Lemma str_take_app u s : str_take (String.length u) (u +:+ s) = u.
Proof. induction u as [|a u IH]; simpl; [by destruct s|by rewrite IH]. Qed.

Lemma length_str_app u s : String.length (u +:+ s) = String.length u + String.length s.
Proof. induction u as [|a u IH]; simpl; [done|by rewrite IH]. Qed.

Lemma str_app_nil u : u +:+ "" = u.
Proof. induction u as [|a u IH]; [done|].
  change (String a (u +:+ "") = String a u). by rewrite IH. Qed.

(** ** Strings as lists of characters *)
Abbreviation chars := String.list_ascii_of_string (only parsing).

Lemma chars_app s t : chars (s +:+ t) = chars s ++ chars t.
Proof. induction s as [|a s IH]; simpl; [done|]. by rewrite IH. Qed.

Lemma chars_rev s : chars (str_rev s) = reverse (chars s).
Proof.
  assert (H : forall s acc, chars (str_rev_app s acc) = reverse (chars s) ++ chars acc).
  { clear. induction s as [|a s IH]; intros acc; simpl; [done|].
    rewrite IH, reverse_cons, <- app_assoc. done. }
  unfold str_rev. rewrite H. simpl. by rewrite app_nil_r.
Qed.

Lemma chars_length s : length (chars s) = String.length s.
Proof. induction s as [|a s IH]; simpl; [done|]. by rewrite IH. Qed.

Lemma chars_forall P s : str_forall P s = true <-> Forall (fun a => P a = true) (chars s).
Proof.
  induction s as [|a s IH]; simpl; [by split|]. rewrite andb_true_iff, Forall_cons, IH. done.
Qed.

Lemma chars_take n s : chars (str_take n s) = take n (chars s).
Proof. revert n; induction s as [|a s IH]; intros [|n]; simpl; try done. by rewrite IH. Qed.

Lemma chars_inj s t : chars s = chars t -> s = t.
Proof.
  intros H. by rewrite <- (String.string_of_list_ascii_of_string s), H,
    String.string_of_list_ascii_of_string.
Qed.

Lemma str_app_assoc s t u : (s +:+ t) +:+ u = s +:+ t +:+ u.
Proof. apply chars_inj. by rewrite !chars_app, app_assoc. Qed.

Lemma str_rev_app_str s t : str_rev (s +:+ t) = str_rev t +:+ str_rev s.
Proof. apply chars_inj. by rewrite chars_app, !chars_rev, chars_app, reverse_app. Qed.

Lemma str_rev_rev s : str_rev (str_rev s) = s.
Proof. apply chars_inj. by rewrite !chars_rev, reverse_involutive. Qed.

Lemma has_suffix_iff p s : has_suffix p s = true <-> exists u, s = u +:+ p.
Proof.
  unfold has_suffix. rewrite has_prefix_iff. split.
  - intros [t Ht]. exists (str_rev t). by rewrite <- (str_rev_rev s), Ht, str_rev_app_str, str_rev_rev.
  - intros [u ->]. exists (str_rev u). apply str_rev_app_str.
Qed.

Lemma trim_suffix_app p s : trim_suffix p (s +:+ p) = s.
Proof.
  unfold trim_suffix. rewrite (proj2 (has_suffix_iff _ _)) by eauto.
  by rewrite length_str_app, Nat.add_sub, str_take_app.
Qed.

Lemma trim_prefix_app p s : trim_prefix p (p +:+ s) = s.
Proof. unfold trim_prefix. by rewrite has_prefix_app, str_drop_app. Qed.
