(* ===== verification/GoErrors.v ===== *)
(** * Go errors

    The errors that flow through the program as one inductive type: a
    sentinel made by [errors.New] (compared by identity, here by its text,
    which is different for every sentinel of the program), an error made by
    [fmt.Errorf] without or with [%w], the two errors of package [context], a
    [net.Error] such as the ones the HTTP transport returns, a gRPC status, and
    the handoff client's own [HTTPError]. [errors.Is], [errors.As] and
    [status.Code] are the searches along the chain of wrapped errors. *)
From S2P Require Import Prelude.

Inductive GrpcCode :=
  | CodeOK | CodeCanceled | CodeUnknown | CodeInvalidArgument
  | CodeDeadlineExceeded | CodeNotFound | CodeAlreadyExists
  | CodePermissionDenied | CodeResourceExhausted | CodeFailedPrecondition
  | CodeAborted | CodeOutOfRange | CodeUnimplemented | CodeInternal
  | CodeUnavailable | CodeDataLoss | CodeUnauthenticated.

#[export] Instance GrpcCode_eq_dec : EqDecision GrpcCode.
Proof. solve_decision. Defined.

Inductive GoError :=
  | ErrNew (text : string)
  | Errorf (text : string)
  | ErrorfW (text : string) (wrapped : GoError)
  | CtxCanceled
  | CtxDeadlineExceeded
  | NetError (text : string) (wrapped : option GoError)
  | GrpcStatus (code : GrpcCode) (text : string)
  | HTTPError (StatusCode : Z) (Op : string).

#[export] Instance GoError_eq_dec : EqDecision GoError.
Proof.
  assert (Hdec : forall a b : GoError, {a = b} + {a <> b}).
  { fix IH 1. intros a b.
    destruct a as [s|s|s a| | |s [a|]|c s|z s], b as [t|t|t b| | |t [b|]|d t|y t];
      try (right; congruence); try (left; reflexivity);
      try (destruct (decide (s = t)); [subst|right; congruence]);
      try (left; reflexivity).
    - destruct (IH a b); [left|right]; congruence.
    - destruct (IH a b); [left|right]; congruence.
    - destruct (decide (c = d)); [left|right]; congruence.
    - destruct (decide (z = y)); [left|right]; congruence. }
  exact Hdec.
Defined.

(** A Go call that returns [(v, error)]. *)
Inductive res (A : Type) :=
  | Ok (a : A)
  | Err (e : GoError).

Arguments Ok {A} a.
Arguments Err {A} e.

Definition is_ok {A} (r : res A) : bool := match r with Ok _ => true | Err _ => false end.

Definition res_err {A} (r : res A) : option GoError :=
  match r with Ok _ => None | Err e => Some e end.

(** [err.Error()] of the errors whose text the program inspects. *)
Definition error_text (e : GoError) : string :=
  match e with
  | ErrNew s | Errorf s | ErrorfW s _ | NetError s _ | GrpcStatus _ s => s
  | CtxCanceled => "context canceled"
  | CtxDeadlineExceeded => "context deadline exceeded"
  | HTTPError code op => "handoff " +:+ op +:+ " failed with status " +:+ pretty code
  end.

(** [fmt.Errorf] of a text, a colon and the error itself with [%w]. *)
Definition Wrapf (what : string) (err : GoError) : GoError :=
  ErrorfW (what +:+ ": " +:+ error_text err) err.

(** The error itself and the errors it wraps, outermost first. *)
Fixpoint error_chain (e : GoError) : list GoError :=
  e :: match e with
       | ErrorfW _ w => error_chain w
       | NetError _ (Some w) => error_chain w
       | _ => []
       end.

Definition errors_is (e target : GoError) : bool :=
  bool_decide (target ∈ error_chain e).

Definition is_net_error (e : GoError) : bool :=
  match e with NetError _ _ | CtxDeadlineExceeded => true | _ => false end.

(** [errors.As(err, &netErr)] *)
Definition errors_as_net (e : GoError) : bool := existsb is_net_error (error_chain e).

(** [errors.As(err, &httpErr)]: the status code of the first [HTTPError]. *)
Definition errors_as_http (e : GoError) : option Z :=
  match find_first (fun x => match x with HTTPError _ _ => true | _ => false end)
          (error_chain e) with
  | Some (HTTPError code _) => Some code
  | _ => None
  end.

(** [status.Code(err)] of a non-nil error. *)
Definition status_code (e : GoError) : GrpcCode :=
  match find_first (fun x => match x with GrpcStatus _ _ => true | _ => false end)
          (error_chain e) with
  | Some (GrpcStatus code _) => code
  | _ => CodeUnknown
  end.
