(* ===== verification/GoPath.v ===== *)
(** * Package [path/filepath] on Unix

    [Clean], [IsAbs], [IsLocal] and [Rel] by the rules the package documents:
    purely lexical processing of the slash-separated elements of a path. *)
From S2P Require Import Prelude GoStrings GoErrors.
From Stdlib Require Import Ascii.

(** The elements between slashes: [strings.Split(s, "/")]. *)
Fixpoint split_slash (s : string) : list string :=
  match s with
  | EmptyString => [EmptyString]
  | String a s =>
      if Ascii.eqb a "/" then EmptyString :: split_slash s
      else match split_slash s with
           | c :: cs => String a c :: cs
           | [] => [String a EmptyString]
           end
  end.

Definition join_slash (l : list string) : string := str_join "/" l.

Definition IsAbs (path : string) : bool := has_prefix "/" path.

(** One element against the stack of kept elements (innermost first): empty
    and "." elements vanish, ".." removes the element before it, and at the root
    it vanishes too. *)
Definition clean_step (rooted : bool) (kept : list string) (c : string) : list string :=
  if streq c "" || streq c "." then kept
  else if streq c ".." then
    match kept with
    | k :: rest => if streq k ".." then c :: kept else rest
    | [] => if rooted then [] else [c]
    end
  else c :: kept.

Definition clean_elements (rooted : bool) (cs : list string) : list string :=
  rev (fold_left (clean_step rooted) cs []).

Definition Clean (path : string) : string :=
  let rooted := IsAbs path in
  let body := join_slash (clean_elements rooted (split_slash path)) in
  if rooted then "/" +:+ body
  else if streq body "" then "." else body.

Definition IsLocal (path : string) : bool :=
  if IsAbs path || streq path "" then false
  else
    let dots := existsb (fun c => streq c "." || streq c "..") (split_slash path) in
    let path := if dots then Clean path else path in
    negb (streq path ".." || has_prefix "../" path).

Fixpoint strip_common (b t : list string) : list string * list string :=
  match b, t with
  | x :: b', y :: t' => if streq x y then strip_common b' t' else (b, t)
  | _, _ => (b, t)
  end.

Definition errRel : GoError := Errorf "Rel: can't make path relative".

Definition Rel (base targ : string) : res string :=
  let base := Clean base in
  let targ := Clean targ in
  if streq base targ then Ok "."
  else
    let base := if streq base "." then "" else base in
    if negb (Bool.eqb (IsAbs base) (IsAbs targ)) then Err errRel
    else
      let '(b, t) := strip_common (if streq base "" then [] else split_slash base)
                                  (split_slash targ) in
      match b with
      | c :: _ => if streq c ".." then Err errRel
                  else Ok (join_slash (map (fun _ => "..") b ++ t))
      | [] => Ok (join_slash t)
      end.

(** ** Lemmas *)
Definition plain (c : string) : Prop := c <> "" /\ c <> "." /\ c <> "..".

Fixpoint noslash (s : string) : bool :=
  match s with EmptyString => true | String a s => negb (Ascii.eqb a "/") && noslash s end.

Lemma split_slash_noslash s : Forall (fun c => noslash c = true) (split_slash s).
Proof.
  induction s as [|a s IH]; simpl; [by repeat constructor|].
  destruct (Ascii.eqb a "/") eqn:E; [by constructor|].
  destruct (split_slash s) as [|c cs]; simpl in *.
  - constructor; [|constructor]. simpl. by rewrite E.
  - apply Forall_cons in IH as [H1 H2]. constructor; [|done]. simpl. by rewrite E, H1.
Qed.

(** Cleaning keeps only elements of the path, and every kept element is plain
    except leading ".."s. *)
Definition kept_ok (l : list string) : Prop :=
  exists ps ds, l = ps ++ ds /\ Forall plain ps /\ Forall (fun c => c = "..") ds.

Lemma clean_step_ok rooted l c : kept_ok l -> kept_ok (clean_step rooted l c).
Proof.
  intros (ps & ds & -> & Hps & Hds). unfold clean_step.
  destruct (streq c "" || streq c ".") eqn:E1; [by exists ps, ds|].
  apply orb_false_iff in E1 as [E1 E1']. str_tests.
  destruct (streq c "..") eqn:E2; str_tests.
  - destruct ps as [|p ps]; simpl.
    + destruct ds as [|d ds]; [destruct rooted; [by exists [], []|]|].
      * exists [], [".."]. by repeat constructor.
      * apply Forall_cons in Hds as [-> Hds]. rewrite streq_refl.
        exists [], (".." :: ".." :: ds). repeat constructor; done.
    + apply Forall_cons in Hps as [(? & ? & Hp) Hps].
      rewrite (proj2 (streq_neq p "..")) by done. by exists ps, ds.
  - exists (c :: ps), ds. split_and!; [done | constructor; done | done].
Qed.

Lemma clean_fold_ok rooted cs l : kept_ok l -> kept_ok (fold_left (clean_step rooted) cs l).
Proof. revert l; induction cs as [|c cs IH]; intros l Hl; simpl; eauto using clean_step_ok. Qed.

Lemma clean_elements_ok rooted cs :
  exists ds ps, clean_elements rooted cs = ds ++ ps
    /\ Forall (fun c => c = "..") ds /\ Forall plain ps.
Proof.
  destruct (clean_fold_ok rooted cs []) as (ps & ds & E & Hps & Hds).
  { by exists [], []. }
  exists (rev ds), (rev ps). unfold clean_elements. rewrite E, rev_app_distr.
  split_and!; [done | by apply Forall_rev | by apply Forall_rev].
Qed.

Lemma clean_fold_subset (P : string -> Prop) rooted cs l :
  Forall P cs -> Forall P l -> Forall P (fold_left (clean_step rooted) cs l).
Proof.
  intros Hcs. revert l. induction Hcs as [|c cs Hc _ IH]; intros l Hl; simpl; [done|].
  apply IH. unfold clean_step. cases; try (apply Forall_cons in Hl as []); auto.
Qed.

Lemma clean_elements_noslash rooted s :
  Forall (fun c => noslash c = true) (clean_elements rooted (split_slash s)).
Proof.
  unfold clean_elements. apply Forall_rev, clean_fold_subset; [apply split_slash_noslash|constructor].
Qed.

Lemma split_slash_noslash_one c : noslash c = true -> split_slash c = [c].
Proof.
  induction c as [|a c IH]; simpl; [done|].
  intros [->%negb_true_iff H]%andb_true_iff. by rewrite IH.
Qed.

Lemma split_slash_app c s : noslash c = true -> split_slash (c +:+ "/" +:+ s) = c :: split_slash s.
Proof.
  induction c as [|a c IH]; simpl; [done|].
  intros [->%negb_true_iff H]%andb_true_iff. rewrite IH by done. done.
Qed.

Lemma split_join l : l <> [] -> Forall (fun c => noslash c = true) l ->
  split_slash (join_slash l) = l.
Proof.
  intros Hne H. induction H as [|c l Hc H IH]; [done|].
  destruct l as [|d l]; [by apply split_slash_noslash_one|].
  change (join_slash (c :: d :: l)) with (c +:+ "/" +:+ join_slash (d :: l)).
  rewrite split_slash_app by done. by rewrite IH.
Qed.

(** ** Cleaning is idempotent *)
Lemma clean_step_plain rooted l c : plain c -> clean_step rooted l c = c :: l.
Proof.
  intros (H1 & H2 & H3). unfold clean_step.
  rewrite (proj2 (streq_neq c "") H1), (proj2 (streq_neq c ".") H2), (proj2 (streq_neq c "..") H3).
  done.
Qed.

Lemma clean_fold_plain rooted ps l :
  Forall plain ps -> fold_left (clean_step rooted) ps l = rev ps ++ l.
Proof.
  intros H. revert l. induction H as [|p ps Hp _ IH]; intros l; simpl; [done|].
  rewrite clean_step_plain by done. rewrite IH, <- app_assoc. done.
Qed.

Lemma clean_fold_dots ds l :
  Forall (fun c => c = "..") ds -> Forall (fun c => c = "..") l ->
  fold_left (clean_step false) ds l = rev ds ++ l.
Proof.
  intros H. revert l. induction H as [|d ds -> _ IH]; intros l Hl; simpl; [done|].
  assert (E : clean_step false l ".." = ".." :: l).
  { destruct Hl as [|x l -> Hl]; reflexivity. }
  rewrite E, IH, <- app_assoc by (by constructor). done.
Qed.

Lemma clean_elements_fixed ds ps :
  Forall (fun c => c = "..") ds -> Forall plain ps ->
  clean_elements false (ds ++ ps) = ds ++ ps.
Proof.
  intros Hd Hp. unfold clean_elements. rewrite fold_left_app, (clean_fold_dots ds []) by (done || constructor).
  rewrite clean_fold_plain by done. by rewrite app_nil_r, rev_app_distr, !rev_involutive.
Qed.

(** A cleaned relative path is "." or the join of its elements. *)
Lemma Clean_relative path :
  IsAbs path = false ->
  Clean path = "." \/
  exists ds ps, ds ++ ps <> [] /\ Clean path = join_slash (ds ++ ps)
    /\ Forall (fun c => c = "..") ds /\ Forall plain ps
    /\ Forall (fun c => noslash c = true) (ds ++ ps).
Proof.
  intros Ha. unfold Clean. rewrite Ha.
  destruct (streq _ "") eqn:E; [by left|]. right.
  destruct (clean_elements_ok false (split_slash path)) as (ds & ps & Eq & Hd & Hp).
  exists ds, ps. rewrite <- Eq. split_and!; try done.
  - intros Hnil. by rewrite Hnil in E.
  - apply clean_elements_noslash.
Qed.

Lemma join_not_abs c l : noslash c = true -> c <> "" -> IsAbs (join_slash (c :: l)) = false.
Proof.
  destruct c as [|a c]; [done|]. cbn [noslash]. intros [Ha _]%andb_true_iff _.
  apply negb_true_iff in Ha. rewrite Ascii.eqb_sym in Ha.
  change (has_prefix "/" (join_slash (String a c :: l)) = false).
  assert (E : exists s, join_slash (String a c :: l) = String a s) by (destruct l; eexists; done).
  destruct E as [s ->]. cbn [has_prefix]. by rewrite Ha.
Qed.

Lemma Clean_join ds ps :
  ds ++ ps <> [] -> Forall (fun c => c = "..") ds -> Forall plain ps ->
  Forall (fun c => noslash c = true) (ds ++ ps) ->
  Clean (join_slash (ds ++ ps)) = join_slash (ds ++ ps) /\ IsAbs (join_slash (ds ++ ps)) = false.
Proof.
  intros Hne Hd Hp Hs.
  assert (Hfirst : exists c l, ds ++ ps = c :: l /\ noslash c = true /\ c <> "").
  { destruct Hd as [|d ds -> Hd]; [destruct Hp as [|p ps (H & _ & _) Hp]; [done|]|];
      simpl in *; apply Forall_cons in Hs as [Hs _]; eexists _, _; eauto. }
  destruct Hfirst as (c & l & E & Hc & Hc').
  assert (Ha : IsAbs (join_slash (ds ++ ps)) = false) by (rewrite E; by apply join_not_abs).
  split; [|done]. unfold Clean. rewrite Ha, split_join, clean_elements_fixed by done.
  case_match eqn:En; [|done]. str_tests. exfalso. revert En. rewrite E.
  unfold join_slash. destruct c; [done|]. by destruct l.
Qed.

#[local] Arguments has_prefix : simpl never.

(** [filepath.Rel] from a single-element base to a cleaned relative path: a
    result that does not climb out means the base is the path's first element. *)
Lemma Rel_under base targ rel :
  noslash base = true -> plain base -> IsAbs targ = false ->
  Rel base (Clean targ) = Ok rel ->
  streq rel "." = false -> streq rel ".." = false -> has_prefix "../" rel = false ->
  exists es, es <> [] /\ Forall plain es /\ Forall (fun c => noslash c = true) es
    /\ Clean targ = join_slash (base :: es) /\ rel = join_slash es.
Proof.
  intros Hb Hpl Ha. assert (Hcb : Clean base = base /\ IsAbs base = false).
  { apply (Clean_join [] [base]); repeat first [done | apply List.Forall_nil | apply List.Forall_cons]. }
  destruct Hcb as [Hcb Hab]. unfold Rel. rewrite Hcb.
  assert (Hnb : streq base "" = false /\ streq base "." = false).
  { destruct Hpl as (? & ? & ?). split; by apply streq_neq. }
  destruct Hnb as [Hb1 Hb2].
  destruct (Clean_relative targ Ha) as [->|(ds & ps & Hne & -> & Hd & Hp & Hs)].
  - change (Clean ".") with ".". rewrite Hb2, Hb1, Hab. simpl.
    rewrite (split_slash_noslash_one base) by done. simpl. rewrite Hb2.
    destruct (streq base "..") eqn:E; [done|]. by intros [= <-].
  - destruct (Clean_join ds ps) as [-> Hna]; [done..|]. rewrite Hb2, Hb1, Hab, Hna.
    rewrite (split_slash_noslash_one base), split_join by done.
    destruct (streq base (join_slash _)) eqn:E0; [by intros [= <-]|]. simpl.
    destruct (ds ++ ps) as [|c es] eqn:E; [done|]. simpl.
    destruct (streq base c) eqn:Ec; simpl.
    + str_tests. intros [= <-] _ _ _. apply Forall_cons in Hs as [_ Hs].
      destruct Hd as [|d ds -> Hd]; simplify_eq/=; [|by destruct Hpl as (_ & _ & [])].
      apply Forall_cons in Hp as [_ Hp].
      exists es. split_and!; try done. intros ->. done.
    + destruct (streq base "..") eqn:Eb; [done|]. intros [= <-] _ _. by simpl.
Qed.
