(* ===== verification/GoTime.v ===== *)
(** * Package [time]: durations

    A [time.Duration] is a number of nanoseconds. *)
From S2P Require Import Prelude GoStrings.

Definition Microsecond : Z := 1000.
Definition Millisecond : Z := 1000000.
Definition Second : Z := 1000000000.

(** [fmtFrac]: the fractional digits of [v / 10^prec] without trailing zeros,
    put in front of [acc], and the integer part. *)
Fixpoint fmt_frac (prec : nat) (v : Z) (print : bool) (acc : string) : string * Z :=
  match prec with
  | O => (if print then "." +:+ acc else acc, v)
  | S prec =>
      let digit := (v mod 10)%Z in
      let print := print || negb (digit =? 0)%Z in
      fmt_frac prec (v / 10) print (if print then pretty digit +:+ acc else acc)
  end.

(** The two bytes of the letter mu. *)
Definition mu : string := bytes_of [194; 181]%N.

(** [d.String()] *)
Definition Duration_String (d : Z) : string :=
  let u := Z.abs d in
  let body :=
    if (u =? 0)%Z then "0s"
    else if (u <? Second)%Z then
      let '(prec, unit) := if (u <? Microsecond)%Z then (0, "ns")
                           else if (u <? Millisecond)%Z then (3, mu +:+ "s") else (6, "ms") in
      let '(frac, u) := fmt_frac prec u false unit in
      pretty u +:+ frac
    else
      let '(frac, u) := fmt_frac 9 u false "s" in
      let secs := pretty (u mod 60)%Z +:+ frac in
      let m := (u / 60)%Z in
      if (m =? 0)%Z then secs
      else
        let mins := pretty (m mod 60)%Z +:+ "m" +:+ secs in
        let h := (m / 60)%Z in
        if (h =? 0)%Z then mins else pretty h +:+ "h" +:+ mins in
  if (d <? 0)%Z then "-" +:+ body else body.

(** [d.Truncate(m)], rounding toward zero. *)
Definition Truncate (d m : Z) : Z := if (m <=? 0)%Z then d else (d - Z.rem d m)%Z.

Example Duration_ex1 : Duration_String (1 * Second) = "1s".
Proof. vm_compute. reflexivity. Qed.

Example Duration_ex2 : Duration_String (Truncate 1234567890 (10 * Millisecond)) = "1.23s".
Proof. vm_compute. reflexivity. Qed.

Example Duration_ex3 : Duration_String (3723 * Second + 500 * Millisecond) = "1h2m3.5s".
Proof. vm_compute. reflexivity. Qed.
