(* ===== verification/GoJson.v ===== *)
(** * [encoding/json]

    The encoding of the values the program stores, as a parameter: the program
    relies on decoding what it encoded, value by value. *)
From S2P Require Import Prelude GoErrors.

(** [json.Marshal] and [json.Unmarshal] at one type. *)
Class Json (A : Type) := {
  Marshal : A -> res string;
  Unmarshal : string -> res A;
}.

(** The value survives its encoding. *)
Definition round_trips {A} `{Json A} (x : A) : Prop :=
  exists data, Marshal x = Ok data /\ Unmarshal data = Ok x.
