(* ===== verification/JsonTree.v ===== *)
(** * [encoding/json] on structures

    The values of JSON as trees, and the way [json.Marshal] and
    [json.NewDecoder(...).Decode] map a Go structure to one and back: a field
    under the name of its tag, left out when it is empty and the tag says
    [omitempty]; on the way back a key matches a field by name or else by folded
    name, an unknown key is skipped, [null] leaves a value as it is, and a value
    of the wrong kind is an error. A type says how by an instance of [JsonType],
    a structure by its list of fields. The text of a tree is that of [JsonText]. One
    thing is simpler than in Go: a slice that is given twice is
    decoded afresh. *)
From S2P Require Import Prelude GoStrings GoErrors.
From Stdlib Require Import Ascii.

(** A number is an integer literal or another one. *)
Inductive json :=
  | JNull
  | JBool (b : bool)
  | JInt (n : Z)
  | JFrac (literal : string)
  | JStr (s : string)
  | JArr (values : list json)
  | JObj (members : list (string * json)).

(** [jt_empty] is the test of [omitempty]; [jt_dec] decodes into a value. *)
Class JsonType (A : Type) := {
  jt_zero : A;
  jt_empty : A -> bool;
  jt_enc : A -> json;
  jt_dec : json -> A -> option A;
}.

Definition json_mismatch : GoError := ErrNew "json: cannot unmarshal value into Go value".

(** Decoding into a fresh variable. *)
Definition decode_json {A} `{JsonType A} (body : json) : res A :=
  match jt_dec body jt_zero with Some x => Ok x | None => Err json_mismatch end.

(** ** Scalars *)

(** Bytes that are not UTF-8 are written as the replacement character. *)
Definition ToValidUTF8 (s : string) : string :=
  str_join "" (map encode_rune (runes s)).

#[export] Instance string_json : JsonType string := {|
  jt_zero := "";
  jt_empty s := streq s "";
  jt_enc s := JStr (ToValidUTF8 s);
  jt_dec j old := match j with JStr s => Some s | JNull => Some old | _ => None end;
|}.

#[export] Instance bool_json : JsonType bool := {|
  jt_zero := false;
  jt_empty := negb;
  jt_enc := JBool;
  jt_dec j old := match j with JBool b => Some b | JNull => Some old | _ => None end;
|}.

Definition fits (bits n : Z) : bool := ((- 2 ^ (bits - 1) <=? n) && (n <? 2 ^ (bits - 1)))%Z.

(** A signed integer of a given width. *)
Definition int_json (bits : Z) : JsonType Z := {|
  jt_zero := 0%Z;
  jt_empty n := (n =? 0)%Z;
  jt_enc := JInt;
  jt_dec j old :=
    match j with
    | JInt n => if fits bits n then Some n else None
    | JNull => Some old
    | _ => None
    end;
|}.

#[export] Existing Instance int_json | 100.
#[export] Hint Extern 0 (JsonType Z) => exact (int_json 64) : typeclass_instances.

(** ** Pointers, slices and maps of strings *)
#[export] Instance pointer_json {A} `{JsonType A} : JsonType (option A) := {|
  jt_zero := None;
  jt_empty p := negb (is_some p);
  jt_enc p := match p with Some x => jt_enc x | None => JNull end;
  jt_dec j old :=
    match j with
    | JNull => Some None
    | _ => Some <$> jt_dec j (match old with Some x => x | None => jt_zero end)
    end;
|}.

#[export] Instance slice_json {A} `{JsonType A} : JsonType (list A) := {|
  jt_zero := [];
  jt_empty l := match l with [] => true | _ => false end;
  jt_enc l := JArr (map jt_enc l);
  jt_dec j old :=
    match j with
    | JNull => Some []
    | JArr values => mapM (fun v => jt_dec v jt_zero) values
    | _ => None
    end;
|}.

Fixpoint dec_members (members : list (string * json)) (m : gmap string string)
    : option (gmap string string) :=
  match members with
  | [] => Some m
  | (k, v) :: members =>
      match jt_dec (A := string) v "" with
      | Some s => dec_members members (<[k := s]> m)
      | None => None
      end
  end.

Definition enc_member (m : gmap string string) (k : string) : string * json :=
  (ToValidUTF8 k, jt_enc (default "" (m !! k))).

(** A map of strings; [None] is the nil map. *)
#[export] Instance map_json : JsonType (option (gmap string string)) := {|
  jt_zero := None;
  jt_empty m := bool_decide (default ∅ m = ∅);
  jt_enc m :=
    match m with
    | None => JNull
    | Some m => JObj (map (enc_member m) (sort_strings (fst <$> map_to_list m)))
    end;
  jt_dec j old :=
    match j with
    | JNull => Some None
    | JObj members => Some <$> dec_members members (default ∅ old)
    | _ => None
    end;
|}.

(** ** Structures *)
Record field (S : Type) := mkField {
  f_name : string;
  f_enc : S -> option json;
  f_dec : json -> S -> option S;
}.
Arguments mkField {S}.
Arguments f_name {S}.
Arguments f_enc {S}.
Arguments f_dec {S}.

(** A field with its tag: the name, and whether it says [omitempty]. *)
Definition jfield {S T} (name : string) (omitempty : bool) (get : S -> T)
    `{!Setter get} `{JsonType T} : field S := {|
  f_name := name;
  f_enc s := if omitempty && jt_empty (get s) then None else Some (jt_enc (get s));
  f_dec j s := (fun v => setf get (fun _ => v) s) <$> jt_dec j (get s);
|}.

(** The folding of names by the decoder: ASCII letters, and the two letters
    outside ASCII that fold to one, the long s and the Kelvin sign. *)
Fixpoint fold_name (name : string) : string :=
  match name with
  | String a ((String b rest) as tail) =>
      if (N_of_ascii a =? 197)%N && (N_of_ascii b =? 191)%N then String "s" (fold_name rest)
      else match rest with
           | String c rest' =>
               if (N_of_ascii a =? 226)%N && (N_of_ascii b =? 132)%N && (N_of_ascii c =? 170)%N
               then String "k" (fold_name rest')
               else String (ascii_lower a) (fold_name tail)
           | "" => String (ascii_lower a) (fold_name tail)
           end
  | String a "" => String (ascii_lower a) ""
  | "" => ""
  end.

Section struct.
Context {S : Type}.
Implicit Types (fs : list (field S)) (s : S).

Definition find_field fs (key : string) : option (field S) :=
  match find_first (fun f => streq (f_name f) key) fs with
  | Some f => Some f
  | None => find_first (fun f => streq (fold_name (f_name f)) (fold_name key)) fs
  end.

Fixpoint enc_fields fs s : list (string * json) :=
  match fs with
  | [] => []
  | f :: fs =>
      match f_enc f s with
      | Some v => (f_name f, v) :: enc_fields fs s
      | None => enc_fields fs s
      end
  end.

Fixpoint dec_fields fs (members : list (string * json)) s : option S :=
  match members with
  | [] => Some s
  | (k, v) :: members =>
      match find_field fs k with
      | None => dec_fields fs members s
      | Some f =>
          match f_dec f v s with
          | Some s => dec_fields fs members s
          | None => None
          end
      end
  end.

Definition struct_json (zero : S) fs : JsonType S := {|
  jt_zero := zero;
  jt_empty _ := false;
  jt_enc s := JObj (enc_fields fs s);
  jt_dec j old :=
    match j with
    | JNull => Some old
    | JObj members => dec_fields fs members old
    | _ => None
    end;
|}.
End struct.

(** ** Round trips

    A value that [jt_ok] accepts is read back as it was written. *)
Class JsonLaw (A : Type) `{JsonType A} := {
  jt_ok : A -> Prop;
  jt_round x : jt_ok x -> jt_dec (jt_enc x) jt_zero = Some x;
  jt_omits x : jt_ok x -> jt_empty x = true -> x = jt_zero;
}.

Definition valid_utf8 (s : string) : Prop := ToValidUTF8 s = s.

#[export] Instance string_law : JsonLaw string.
Proof.
  refine {| jt_ok := valid_utf8 |}; cbn.
  - by intros x ->.
  - intros x _. apply streq_eq.
Defined.

#[export] Instance bool_law : JsonLaw bool.
Proof. refine {| jt_ok := fun _ => True |}; [done|]. by intros []. Defined.

#[export] Instance int_law bits : JsonLaw Z (H := int_json bits).
Proof.
  refine {| jt_ok := fun n => fits bits n = true |}; cbn.
  - by intros x ->.
  - intros x _. apply Z.eqb_eq.
Defined.

(** A pointer to a type whose values are never written as [null]. *)
Class NeverNull (A : Type) `{JsonType A} := never_null : forall x, jt_enc x <> JNull.

#[export] Instance pointer_law {A} `{L : JsonLaw A} `{!NeverNull A} : JsonLaw (option A).
Proof.
  refine {| jt_ok := fun p => match p with Some x => jt_ok x | None => True end |}; cbn.
  - intros [x|] Hx; [|done]. pose proof (never_null x) as Hn. pose proof (jt_round x Hx) as Hr.
    destruct (jt_enc x); done || by rewrite Hr.
  - by intros [x|].
Defined.

#[export] Instance slice_law {A} `{L : JsonLaw A} : JsonLaw (list A).
Proof.
  refine {| jt_ok := Forall jt_ok |}; cbn.
  - intros x Hx. induction Hx as [|x l Hx _ IH]; [done|]. cbn. by rewrite (jt_round x Hx), IH.
  - by intros [|x l].
Defined.

Lemma dec_enc_members (m m' : gmap string string) keys :
  Forall (fun k => valid_utf8 k /\ valid_utf8 (default "" (m !! k))) keys ->
  dec_members (map (enc_member m) keys) m' =
  Some (foldl (fun m' k => <[k := default "" (m !! k)]> m') m' keys).
Proof.
  intros H. revert m'. induction H as [|k keys [Hk Hv] _ IH]; intros m'; [done|].
  cbn. by rewrite Hk, Hv, IH.
Qed.

Lemma foldl_written_lookup (m m' : gmap string string) keys k :
  foldl (fun m' k => <[k := default "" (m !! k)]> m') m' keys !! k =
  if decide (k ∈ keys) then Some (default "" (m !! k)) else m' !! k.
Proof.
  revert m'. induction keys as [|k' keys IH]; intros m'; [done|]. cbn. rewrite IH.
  destruct (decide (k ∈ keys)) as [Hk|Hk].
  - rewrite decide_True; [done|]. by apply list_elem_of_further.
  - destruct (decide (k = k')) as [->|Hne].
    + rewrite lookup_insert_eq, decide_True; [done|]. apply list_elem_of_here.
    + rewrite lookup_insert_ne by done. rewrite decide_False; [done|].
      intros [->|Hin]%elem_of_cons; done.
Qed.

Definition valid_member (k v : string) : Prop := valid_utf8 k /\ valid_utf8 v.

#[export] Instance map_law : JsonLaw (option (gmap string string)).
Proof.
  refine {| jt_ok := fun p => match p with Some m => m <> ∅ /\ map_Forall valid_member m | None => True end |}; cbn.
  - intros [m|] Hm; [|done]. destruct Hm as [_ Hm]. rewrite dec_enc_members.
    + cbn. do 2 f_equal. apply map_eq. intros k. rewrite foldl_written_lookup.
      rewrite (decide_ext _ (is_Some (m !! k))).
      * destruct (m !! k) as [v|] eqn:E; [by rewrite decide_True|].
        rewrite decide_False; [by rewrite lookup_empty|]. by intros [? ?].
      * rewrite sort_strings_perm, list_elem_of_fmap. setoid_rewrite elem_of_map_to_list'.
        split; [intros ([k' v] & -> & H); by exists v|intros [v H]; by exists (k, v)].
    + rewrite sort_strings_perm. apply Forall_fmap, Forall_forall. intros [k v] H.
      apply elem_of_map_to_list in H. cbn. rewrite H. apply (Hm k v H).
  - intros [m|] Hm H; [|done]. apply bool_decide_eq_true in H. by destruct Hm.
Defined.

(** Reading back a field that was written, into a structure where it still has
    its zero value. *)
Lemma dec_field {S T} name omit (get : S -> T) `{!Setter get} `{L : JsonLaw T}
    (all rest : list (field S)) x s :
  find_field all name = Some (jfield name omit get) ->
  jt_ok (get x) -> get s = jt_zero -> setf get (fun _ => jt_zero) s = s ->
  dec_fields all (enc_fields (jfield name omit get :: rest) x) s =
  dec_fields all (enc_fields rest x) (setf get (fun _ => get x) s).
Proof.
  intros Hf Hok Hz Hs. cbn [enc_fields jfield f_enc f_name].
  destruct (omit && jt_empty (get x)) eqn:E.
  - apply andb_true_iff in E as [_ E]. by rewrite (jt_omits _ Hok E), Hs.
  - cbn [dec_fields]. rewrite Hf. cbn [jfield f_dec]. by rewrite Hz, (jt_round _ Hok).
Qed.

(** The round trip of a structure, field by field. *)
Ltac read_field :=
  lazymatch goal with
  | |- dec_fields ?all (enc_fields (jfield ?n ?o ?g :: ?rest) ?x) ?s = _ =>
      etrans; [eapply (dec_field n o g all rest x s);
        [reflexivity | assumption | reflexivity | reflexivity]|];
      lazymatch goal with
      | |- dec_fields _ _ ?s' = _ => let t := eval cbn in s' in change s' with t
      end
  end.

Lemma struct_round {S} (zero : S) fs x :
  dec_fields fs (enc_fields fs x) zero = Some x ->
  @jt_dec _ (struct_json zero fs) (@jt_enc _ (struct_json zero fs) x) (@jt_zero _ (struct_json zero fs)) = Some x.
Proof. done. Qed.

Ltac head_of t :=
  lazymatch t with
  | ?f _ => head_of f
  | _ => t
  end.

Ltac read_struct fields x :=
  apply (struct_round _ fields x);
  let all := fresh "all" in
  let name := head_of fields in
  set (all := fields) at 1; unfold name; subst all;
  repeat read_field; destruct x; reflexivity.

(** The law of a structure whose [jt_ok] is that of its fields. *)
Ltac message_law fields x :=
  intros x ?; destruct_and?; read_struct fields x.

Lemma decode_encode {A} `{L : JsonLaw A} (x : A) : jt_ok x -> decode_json (jt_enc x) = Ok x.
Proof. intros Hx. unfold decode_json. by rewrite (jt_round x Hx). Qed.

#[global] Arguments jt_enc : simpl never.
#[global] Arguments jt_dec : simpl never.
