(* ===== verification/GoUrl.v ===== *)
(** * [net/url]

    Escaping of a value for the query of a URL, and its inverse. *)
From S2P Require Import Prelude GoStrings GoErrors.
From Stdlib Require Import Ascii.

(** [!shouldEscape(c, encodeQueryComponent)] *)
Definition unreserved (c : ascii) : bool :=
  let n := N_of_ascii c in
  ascii_upper_letter n || ascii_lower_letter n || ascii_digit n
  || existsb (Ascii.eqb c) ["-"; "_"; "."; "~"]%char.

(** A digit of [upperhex]. *)
Definition upper_hex (n : N) : ascii := ascii_of_N (if (n <? 10)%N then 48 + n else 55 + n).

Fixpoint QueryEscape (s : string) : string :=
  match s with
  | "" => ""
  | String c s =>
      let n := N_of_ascii c in
      if Ascii.eqb c " " then String "+" (QueryEscape s)
      else if unreserved c then String c (QueryEscape s)
      else String "%" (String (upper_hex (n / 16)) (String (upper_hex (n mod 16)) (QueryEscape s)))
  end.

(** [ishex] and [unhex] *)
Definition unhex (c : ascii) : option N :=
  let n := N_of_ascii c in
  if ascii_digit n then Some (n - 48)%N
  else if in_range 97 102 n then Some (n - 87)%N
  else if in_range 65 70 n then Some (n - 55)%N
  else None.

Fixpoint QueryUnescape (s : string) : option string :=
  match s with
  | "" => Some ""
  | String c s' =>
      if Ascii.eqb c "%" then
        match s' with
        | String h (String l rest) =>
            match unhex h, unhex l, QueryUnescape rest with
            | Some h, Some l, Some t => Some (String (ascii_of_N (16 * h + l)) t)
            | _, _, _ => None
            end
        | _ => None
        end
      else String (if Ascii.eqb c "+" then " " else c) <$> QueryUnescape s'
  end.

Lemma unreserved_plain c : unreserved c = true -> Ascii.eqb c "%" = false /\ Ascii.eqb c "+" = false.
Proof. destruct c as [[] [] [] [] [] [] [] []]; vm_compute; done. Qed.

(** The two digits of a byte are read back. *)
Lemma escaped_byte c :
  unhex (upper_hex (N_of_ascii c / 16)) = Some (N_of_ascii c / 16)%N /\
  unhex (upper_hex (N_of_ascii c mod 16)) = Some (N_of_ascii c mod 16)%N /\
  ascii_of_N (16 * (N_of_ascii c / 16) + N_of_ascii c mod 16) = c.
Proof. destruct c as [[] [] [] [] [] [] [] []]; vm_compute; done. Qed.

Lemma upper_hex_unreserved c :
  unreserved (upper_hex (N_of_ascii c / 16)) = true /\ unreserved (upper_hex (N_of_ascii c mod 16)) = true.
Proof. destruct c as [[] [] [] [] [] [] [] []]; vm_compute; done. Qed.

(** What is escaped is read back. *)
Lemma QueryUnescape_QueryEscape s : QueryUnescape (QueryEscape s) = Some s.
Proof.
  induction s as [|c s IH]; [done|]. cbn [QueryEscape].
  destruct (Ascii.eqb c " ") eqn:Es.
  { apply Ascii.eqb_eq in Es as ->. cbn. by rewrite IH. }
  destruct (unreserved c) eqn:Eu.
  - destruct (unreserved_plain c Eu) as [Ep Eq]. cbn. by rewrite Ep, Eq, IH.
  - destruct (escaped_byte c) as (E1 & E2 & E3). cbn [QueryUnescape Ascii.eqb].
    cbn [Bool.eqb]. by rewrite E1, E2, IH, E3.
Qed.

(** An escaped value contains no byte that ends it in a query. *)
Lemma QueryEscape_chars s :
  str_forall (fun c => unreserved c || Ascii.eqb c "+" || Ascii.eqb c "%") (QueryEscape s) = true.
Proof.
  induction s as [|c s IH]; [done|]. cbn [QueryEscape].
  destruct (Ascii.eqb c " "); [exact IH|]. destruct (unreserved c) eqn:Eu; cbn [str_forall].
  - by rewrite Eu, IH.
  - destruct (upper_hex_unreserved c) as [-> ->]. by rewrite IH, !orb_true_r.
Qed.
