(* ===== verification/GoDuration.v ===== *)
(** * [time.ParseDuration]

    The parser of Go's durations with its overflow checks on [uint64], the
    fraction computed in [float64] ([SpecFloat] with 53 bits of precision). *)
From S2P Require Import Prelude GoStrings GoErrors GoTime.
From Stdlib Require Import Ascii NArith Floats.SpecFloat.

Local Open Scope Z_scope.

(** [float64] *)
Definition f64 (z : Z) : spec_float := binary_normalize 53 1024 z 0 false.
Definition f64_mul : spec_float -> spec_float -> spec_float := SFmul 53 1024.
Definition f64_div : spec_float -> spec_float -> spec_float := SFdiv 53 1024.

(** [uint64(x)] of a finite non-negative [x] below [2^64]: truncation. *)
Definition f64_trunc (x : spec_float) : Z :=
  match x with
  | S754_finite false m e => Z.shiftl (Zpos m) e
  | _ => 0
  end.

Definition digit_of (a : ascii) : option Z :=
  let n := N_of_ascii a in if in_range 48 57 n then Some (Z.of_N n - 48) else None.

Definition two63 : Z := 9223372036854775808.

(** [leadingInt]: [None] is its overflow error. *)
Fixpoint leading_int (s : string) (x : Z) : option (Z * string) :=
  match s with
  | String a s' =>
      match digit_of a with
      | Some d =>
          if two63 / 10 <? x then None
          else let x := x * 10 + d in if two63 <? x then None else leading_int s' x
      | None => Some (x, s)
      end
  | EmptyString => Some (x, s)
  end.

(** [leadingFraction], with the scale it computes as a power of ten. *)
Fixpoint leading_fraction (s : string) (x scale : Z) (overflow : bool) : Z * Z * string :=
  match s with
  | String a s' =>
      match digit_of a with
      | Some d =>
          if overflow || ((two63 - 1) / 10 <? x) then leading_fraction s' x scale true
          else let y := x * 10 + d in
               if two63 <? y then leading_fraction s' x scale true
               else leading_fraction s' y (scale * 10) false
      | None => (x, scale, s)
      end
  | EmptyString => (x, scale, s)
  end.

(** The unit: the characters up to a digit or a period. *)
Fixpoint unit_name (s : string) : string * string :=
  match s with
  | String a s' =>
      if Ascii.eqb a "." || is_some (digit_of a) then ("", s)
      else let '(u, rest) := unit_name s' in (String a u, rest)
  | EmptyString => ("", "")
  end.

Definition mu_greek : string := bytes_of [206; 188]%N.

Definition unit_map (u : string) : option Z :=
  if streq u "ns" then Some 1
  else if streq u "us" || streq u (mu +:+ "s") || streq u (mu_greek +:+ "s") then Some Microsecond
  else if streq u "ms" then Some Millisecond
  else if streq u "s" then Some Second
  else if streq u "m" then Some (60 * Second)
  else if streq u "h" then Some (3600 * Second)
  else None.

(** One number with its unit: its value, or an error. *)
Definition parse_term (s : string) : option (Z * string) :=
  match s with
  | EmptyString => None
  | String a _ =>
      if negb (Ascii.eqb a "." || is_some (digit_of a)) then None
      else
        match leading_int s 0 with
        | None => None
        | Some (v, s1) =>
            let pre := negb (String.length s =? String.length s1)%nat in
            let '(f, scale, s2, post) :=
              match s1 with
              | String "." s1 =>
                  let '(f, scale, s2) := leading_fraction s1 0 1 false in
                  (f, scale, s2, negb (String.length s1 =? String.length s2)%nat)
              | _ => (0, 1, s1, false)
              end in
            if negb pre && negb post then None
            else
              let '(u, rest) := unit_name s2 in
              if streq u "" then None
              else
                match unit_map u with
                | None => None
                | Some unit =>
                    if two63 / unit <? v then None
                    else
                      let v := v * unit in
                      if 0 <? f then
                        let v := v + f64_trunc (f64_mul (f64 f) (f64_div (f64 unit) (f64 scale))) in
                        if two63 <? v then None else Some (v, rest)
                      else Some (v, rest)
                end
        end
  end.

(** The loop; every term consumes a character, so the length is enough fuel. *)
Fixpoint parse_terms (fuel : nat) (s : string) (d : Z) : option Z :=
  match fuel, s with
  | _, EmptyString => Some d
  | O, _ => None
  | S fuel, _ =>
      match parse_term s with
      | None => None
      | Some (v, rest) =>
          let d := (d + v) mod 2 ^ 64 in
          if two63 <? d then None else parse_terms fuel rest d
      end
  end.

(** The duration in nanoseconds, [None] for any of its errors. *)
Definition ParseDuration (s : string) : option Z :=
  let '(neg, s) := match s with
                   | String "-" s => (true, s)
                   | String "+" s => (false, s)
                   | _ => (false, s)
                   end in
  if streq s "0" then Some 0
  else if streq s "" then None
  else match parse_terms (String.length s) s 0 with
       | None => None
       | Some d => if neg then Some (- d) else if two63 - 1 <? d then None else Some d
       end.

Example ParseDuration_ex :
  ParseDuration "25s" = Some (25 * Second) /\ ParseDuration "1h1.5m" = Some (3690 * Second) /\
  ParseDuration "-1.5ms" = Some (-1500000) /\ ParseDuration ".1us" = Some 100 /\
  ParseDuration "0.3333333333333333333h" = Some 1200000000000 /\
  ParseDuration "2540400h10m10.1s" = Some 9145440610100000000 /\
  ParseDuration "9223372036854775808ns" = None /\ ParseDuration "" = None /\
  ParseDuration "3" = None /\ ParseDuration "." = None.
Proof. vm_compute. done. Qed.

(** ** The fuel is enough *)
Lemma leading_int_le s x y rest :
  leading_int s x = Some (y, rest) -> (String.length rest <= String.length s)%nat.
Proof.
  revert x. induction s as [|a s IH]; intros x; simpl; [intros [= _ <-]; done|].
  destruct (digit_of a); [|intros [= _ <-]; done]. destruct (_ <? x); [done|].
  destruct (two63 <? _); [done|]. intros H%IH. lia.
Qed.

Lemma leading_fraction_le s x sc o f sc' rest :
  leading_fraction s x sc o = (f, sc', rest) -> (String.length rest <= String.length s)%nat.
Proof.
  revert x sc o. induction s as [|a s IH]; intros x sc o; simpl; [by intros [= _ _ <-]|].
  destruct (digit_of a); [|by intros [= _ _ <-]].
  repeat case_match; intros Hr%IH; lia.
Qed.

Lemma unit_name_lt s u rest :
  unit_name s = (u, rest) -> u <> "" -> (String.length rest < String.length s)%nat.
Proof.
  assert (Hle : forall s u rest, unit_name s = (u, rest) -> (String.length rest <= String.length s)%nat).
  { clear. induction s as [|a s IH]; intros u rest; simpl; [by intros [= _ <-]|].
    destruct (_ || _); [by intros [= _ <-]|]. destruct (unit_name s) as [u' r'] eqn:E.
    intros [= _ <-]. specialize (IH _ _ eq_refl). lia. }
  destruct s as [|a s]; simpl; [by intros [= <- _]|].
  destruct (_ || _); [by intros [= <- _]|]. destruct (unit_name s) as [u' r'] eqn:E.
  intros [= _ <-] _. specialize (Hle _ _ _ E). lia.
Qed.

Lemma parse_term_shorter s v rest :
  parse_term s = Some (v, rest) -> (String.length rest < String.length s)%nat.
Proof.
  unfold parse_term. destruct s as [|a s]; [done|]. set (whole := String a s).
  destruct (negb _); [done|]. destruct (leading_int whole 0) as [[w s1]|] eqn:E1; [|done].
  apply leading_int_le in E1.
  set (q := match s1 with String "." s1 => _ | _ => _ end).
  assert (Hq : (String.length q.1.2 <= String.length s1)%nat).
  { subst q. destruct s1 as [|b s1]; [done|]. simpl.
    destruct b as [[] [] [] [] [] [] [] []]; try done.
    destruct (leading_fraction s1 0 1 false) as [[f sc] s2] eqn:E2.
    apply leading_fraction_le in E2. simpl. lia. }
  destruct q as [[[f sc] s2] post]. simpl in Hq. destruct (_ && _); [done|].
  destruct (unit_name s2) as [u r] eqn:E3. destruct (streq u "") eqn:E4; [done|]. str_tests.
  apply unit_name_lt in E3; [|done]. destruct (unit_map u); [|done]. destruct (_ <? w); [done|].
  assert (Hr : (String.length r < S (String.length s))%nat) by lia.
  destruct (0 <? f); [destruct (two63 <? _); [done|]|]; by intros [= _ <-].
Qed.

(** More fuel than characters changes nothing. *)
Lemma parse_terms_enough n m s d :
  (String.length s <= n)%nat -> (String.length s <= m)%nat -> parse_terms n s d = parse_terms m s d.
Proof.
  revert m s d. induction n as [|n IH]; intros m s d Hn Hm.
  - destruct s; [|simpl in Hn; lia]. by destruct m.
  - destruct m as [|m]; [destruct s; [done|simpl in Hm; lia]|]. cbn [parse_terms].
    destruct s as [|a s]; [done|]. destruct (parse_term (String a s)) as [[v rest]|] eqn:E; [|done].
    apply parse_term_shorter in E. destruct (two63 <? _); [done|]. apply IH; lia.
Qed.

(** ** Its range *)
Lemma parse_terms_range fuel s d x : 0 <= d <= two63 -> parse_terms fuel s d = Some x -> 0 <= x <= two63.
Proof.
  revert s d. induction fuel as [|fuel IH]; intros s d Hd; simpl.
  - destruct s; [|done]. intros [= <-]. lia.
  - destruct s as [|a s]; [intros [= <-]; lia|].
    destruct (parse_term _) as [[v rest]|]; [|done].
    destruct (Z.ltb_spec two63 ((d + v) mod 2 ^ 64)) as [|Hle]; [done|].
    apply IH. pose proof (Z.mod_pos_bound (d + v) (2 ^ 64)). lia.
Qed.

Lemma ParseDuration_range s d : ParseDuration s = Some d -> - 2 ^ 63 <= d < 2 ^ 63.
Proof.
  unfold ParseDuration. set (p := match s with String "-" s => _ | _ => _ end).
  destruct p as [neg t]. destruct (streq t "0"); [intros [= <-]; lia|]. destruct (streq t ""); [done|].
  destruct (parse_terms _ t 0) as [x|] eqn:E; [|done].
  apply parse_terms_range in E; [|unfold two63; lia]. unfold two63 in *.
  destruct neg; [intros [= <-]; lia|]. destruct (Z.ltb_spec (9223372036854775808 - 1) x); [done|].
  intros [= <-]. lia.
Qed.
