(* ===== verification/Sha256.v ===== *)
(** * [crypto/sha256] and [encoding/hex]

    What the job client uses of them: [sha256.Sum256] and
    [hex.EncodeToString], on bytes as integers below 256. *)
From S2P Require Import Prelude GoStrings.
From Stdlib Require Import Ascii NArith.

Local Open Scope N_scope.

Definition word (n : N) : N := n mod 4294967296.
Definition rotr (n x : N) : N := N.lor (N.shiftr x n) (word (N.shiftl x (32 - n))).

Definition round_constants : list N :=
  [1116352408; 1899447441; 3049323471; 3921009573; 961987163; 1508970993; 2453635748; 2870763221;
   3624381080; 310598401; 607225278; 1426881987; 1925078388; 2162078206; 2614888103; 3248222580;
   3835390401; 4022224774; 264347078; 604807628; 770255983; 1249150122; 1555081692; 1996064986;
   2554220882; 2821834349; 2952996808; 3210313671; 3336571891; 3584528711; 113926993; 338241895;
   666307205; 773529912; 1294757372; 1396182291; 1695183700; 1986661051; 2177026350; 2456956037;
   2730485921; 2820302411; 3259730800; 3345764771; 3516065817; 3600352804; 4094571909; 275423344;
   430227734; 506948616; 659060556; 883997877; 958139571; 1322822218; 1537002063; 1747873779;
   1955562222; 2024104815; 2227730452; 2361852424; 2428436474; 2756734187; 3204031479; 3329325298].

(** A digest in progress: the eight words. *)
Record digest := mkDigest { da : N; db : N; dc : N; dd : N; de : N; df : N; dg : N; dh : N }.

Definition initial_digest : digest :=
  mkDigest 1779033703 3144134277 1013904242 2773480762 1359893119 2600822924 528734635 1541459225.

Definition compress (s : digest) (kw : N * N) : digest :=
  let '(k, w) := kw in
  let s1 := N.lxor (N.lxor (rotr 6 (de s)) (rotr 11 (de s))) (rotr 25 (de s)) in
  let ch := N.lxor (N.land (de s) (df s)) (N.land (N.lxor (de s) 4294967295) (dg s)) in
  let t1 := word (dh s + s1 + ch + k + w) in
  let s0 := N.lxor (N.lxor (rotr 2 (da s)) (rotr 13 (da s))) (rotr 22 (da s)) in
  let maj := N.lxor (N.lxor (N.land (da s) (db s)) (N.land (da s) (dc s))) (N.land (db s) (dc s)) in
  mkDigest (word (t1 + s0 + maj)) (da s) (db s) (dc s) (word (dd s + t1)) (de s) (df s) (dg s).

(** The message schedule, newest word first; the 16 words of the block give 48 more. *)
Fixpoint schedule (n : nat) (rev_ws : list N) : list N :=
  match n with
  | O => rev_ws
  | S n =>
      let w i := nth i rev_ws 0 in
      let s0 := N.lxor (N.lxor (rotr 7 (w 14%nat)) (rotr 18 (w 14%nat))) (N.shiftr (w 14%nat) 3) in
      let s1 := N.lxor (N.lxor (rotr 17 (w 1%nat)) (rotr 19 (w 1%nat))) (N.shiftr (w 1%nat) 10) in
      schedule n (word (w 15%nat + s0 + w 6%nat + s1) :: rev_ws)
  end.

Definition block (s : digest) (ws : list N) : digest :=
  let t := foldl compress s (zip round_constants (rev (schedule 48 (rev ws)))) in
  mkDigest (word (da s + da t)) (word (db s + db t)) (word (dc s + dc t)) (word (dd s + dd t))
    (word (de s + de t)) (word (df s + df t)) (word (dg s + dg t)) (word (dh s + dh t)).

Definition be_bytes (x : N) : list N :=
  [x / 16777216 mod 256; x / 65536 mod 256; x / 256 mod 256; x mod 256].

Fixpoint be_words (bs : list N) : list N :=
  match bs with
  | a :: b :: c :: d :: bs => (a * 16777216 + b * 65536 + c * 256 + d) :: be_words bs
  | _ => []
  end.

(** The message, a one bit, zeros, and the length in bits on eight bytes. *)
Definition padded (msg : list N) : list N :=
  let l := N.of_nat (length msg) in
  msg ++ [128] ++ repeat 0 (N.to_nat ((55 + 64 - l mod 64) mod 64))
  ++ be_bytes (8 * l / 4294967296) ++ be_bytes (word (8 * l)).

Fixpoint blocks (fuel : nat) (s : digest) (ws : list N) : digest :=
  match fuel, ws with
  | S fuel, _ :: _ => blocks fuel (block s (take 16 ws)) (drop 16 ws)
  | _, _ => s
  end.

Definition Sum256 (msg : list N) : list N :=
  let ws := be_words (padded msg) in
  let s := blocks (length ws) initial_digest ws in
  be_bytes (da s) ++ be_bytes (db s) ++ be_bytes (dc s) ++ be_bytes (dd s)
  ++ be_bytes (de s) ++ be_bytes (df s) ++ be_bytes (dg s) ++ be_bytes (dh s).

(** [hex.EncodeToString] *)
Definition EncodeToString (bs : list N) : string :=
  fold_right (fun b acc => hex_fixed 2 b +:+ acc) "" bs.

Example Sum256_abc : EncodeToString (Sum256 (bytes_N "abc")) =
  "ba7816bf8f01cfea414140de5dae2223b00361a396177a9cb410ff61f20015ad".
Proof. vm_compute. reflexivity. Qed.

Example Sum256_two_blocks :
  EncodeToString (Sum256 (bytes_N "abcdbcdecdefdefgefghfghighijhijkijkljklmklmnlmnomnopnopq")) =
  "248d6a61d20638b8e5c026930c3e6039a33ce45964ff2167f6ecedd419db06c1".
Proof. vm_compute. reflexivity. Qed.

(** ** Lemmas *)
Definition hex_char (a : ascii) : bool :=
  let n := N_of_ascii a in in_range 48 57 n || in_range 97 102 n.

Lemma hex_digit_spec n : (n < 16) ->
  String.length (hex_digit n) = 1%nat /\ str_forall hex_char (hex_digit n) = true.
Proof.
  intros H. assert (E : n = N.of_nat (N.to_nat n)) by lia. rewrite E.
  assert (N.to_nat n < 16)%nat as Hn by lia. revert Hn. generalize (N.to_nat n) as k. intros k Hk.
  do 16 (destruct k as [|k]; [by split|]). lia.
Qed.

Lemma hex_fixed_spec d n :
  String.length (hex_fixed d n) = d /\ str_forall hex_char (hex_fixed d n) = true.
Proof.
  revert n; induction d as [|d IH]; intros n; simpl; [done|].
  destruct (IH (n / 16)) as [H1 H2]. destruct (hex_digit_spec (n mod 16)) as [H3 H4]; [by apply N.mod_lt|].
  rewrite length_str_app, str_forall_app, H1, H2, H3, H4. split; [lia|done].
Qed.

Lemma EncodeToString_spec bs :
  String.length (EncodeToString bs) = (2 * length bs)%nat /\
  str_forall hex_char (EncodeToString bs) = true.
Proof.
  unfold EncodeToString. induction bs as [|b bs [H1 H2]]; [done|]. cbn [fold_right].
  destruct (hex_fixed_spec 2 b) as [H3 H4].
  rewrite length_str_app, str_forall_app, H1, H2, H3, H4. cbn [length]. split; [lia|done].
Qed.

Lemma Sum256_length msg : length (Sum256 msg) = 32%nat.
Proof. reflexivity. Qed.
