(* ===== verification/Spec.v ===== *)
(** * Data model ([src/pkg/spec/types.go])

    The records and status enumerations the whole program works on, with the
    source's field names (prefixed by the record, since Rocq's field names
    share one name space). A [time.Time] is the number of nanoseconds since the
    epoch, a [*time.Time] an option; a Go map is [None] when nil, else a finite
    map; a slice is a list, and [RetryablePhases] keeps the difference between a
    nil and an empty slice because [reflect.DeepEqual] sees it. Each
    enumeration has one more constructor, [...Unset], for the zero value "" of
    its Go string type. [zero_T] is Go's zero value [T{}]. *)
From S2P Require Import Prelude.

Inductive RunStatus :=
  | RunStatusUnset
  | RunStatusAccepted
  | RunStatusAdmitted
  | RunStatusRunning
  | RunStatusSucceeded
  | RunStatusFailed
  | RunStatusCanceled.

#[export] Instance RunStatus_eq_dec : EqDecision RunStatus.
Proof. solve_decision. Defined.

Inductive NodeStatus :=
  | NodeStatusUnset
  | NodeStatusPending
  | NodeStatusReady
  | NodeStatusBuildingBindings
  | NodeStatusResolvingInputs
  | NodeStatusReleasing
  | NodeStatusStarting
  | NodeStatusRunning
  | NodeStatusSucceeded
  | NodeStatusFailed
  | NodeStatusCanceled
  | NodeStatusSkipped.

#[export] Instance NodeStatus_eq_dec : EqDecision NodeStatus.
Proof. solve_decision. Defined.

Inductive AttemptStatus :=
  | AttemptStatusUnset
  | AttemptStatusPrepared
  | AttemptStatusStarted
  | AttemptStatusCompleted
  | AttemptStatusErrored.

#[export] Instance AttemptStatus_eq_dec : EqDecision AttemptStatus.
Proof. solve_decision. Defined.

(** [string(status)] *)
Definition RunStatus_string (s : RunStatus) : string :=
  match s with
  | RunStatusUnset => ""
  | RunStatusAccepted => "Accepted"
  | RunStatusAdmitted => "Admitted"
  | RunStatusRunning => "Running"
  | RunStatusSucceeded => "Succeeded"
  | RunStatusFailed => "Failed"
  | RunStatusCanceled => "Canceled"
  end.

Definition NodeStatus_string (s : NodeStatus) : string :=
  match s with
  | NodeStatusUnset => ""
  | NodeStatusPending => "Pending"
  | NodeStatusReady => "Ready"
  | NodeStatusBuildingBindings => "BuildingBindings"
  | NodeStatusResolvingInputs => "ResolvingInputs"
  | NodeStatusReleasing => "Releasing"
  | NodeStatusStarting => "Starting"
  | NodeStatusRunning => "Running"
  | NodeStatusSucceeded => "Succeeded"
  | NodeStatusFailed => "Failed"
  | NodeStatusCanceled => "Canceled"
  | NodeStatusSkipped => "Skipped"
  end.

Definition AttemptStatus_IsTerminal (s : AttemptStatus) : bool :=
  match s with
  | AttemptStatusCompleted | AttemptStatusErrored => true
  | _ => false
  end.

Definition NodeStatus_IsTerminal (s : NodeStatus) : bool :=
  match s with
  | NodeStatusSucceeded | NodeStatusFailed | NodeStatusCanceled | NodeStatusSkipped => true
  | _ => false
  end.

Definition RunStatus_IsTerminal (s : RunStatus) : bool :=
  match s with
  | RunStatusSucceeded | RunStatusFailed | RunStatusCanceled => true
  | _ => false
  end.

(** [strconv.Itoa] is the decimal rendering with a leading minus sign. *)
Definition Itoa (z : Z) : string := pretty z.

Definition DeterministicAttemptID (runID nodeID : string) (attempt : Z) : string :=
  runID +:+ "-" +:+ nodeID +:+ "-attempt-" +:+ Itoa attempt.

Record FailurePolicy := mkFailurePolicy {
  fp_Mode : string;
}.

#[export] Instance eta_FailurePolicy : Eta FailurePolicy := fun r =>
  mkFailurePolicy
    (fp_Mode r).
#[export] Instance FailurePolicy_eq_dec : EqDecision FailurePolicy.
Proof. solve_decision. Defined.

Definition zero_FailurePolicy : FailurePolicy :=
  {| fp_Mode := "" |}.

Record RunMetadata := mkRunMetadata {
  rm_RunID : string;
  rm_SampleRunID : string;
  rm_SubmittedAt : Z;
  rm_FailurePolicy : FailurePolicy;
  rm_RequesterID : string;
  rm_TraceID : string;
  rm_SourceSystem : string;
}.

#[export] Instance eta_RunMetadata : Eta RunMetadata := fun r =>
  mkRunMetadata
    (rm_RunID r) (rm_SampleRunID r) (rm_SubmittedAt r) (rm_FailurePolicy r)
    (rm_RequesterID r) (rm_TraceID r) (rm_SourceSystem r).
#[export] Instance RunMetadata_eq_dec : EqDecision RunMetadata.
Proof. solve_decision. Defined.

Definition zero_RunMetadata : RunMetadata :=
  {| rm_RunID := "";
     rm_SampleRunID := ""; rm_SubmittedAt := 0;
     rm_FailurePolicy := zero_FailurePolicy; rm_RequesterID := "";
     rm_TraceID := ""; rm_SourceSystem := "" |}.

Record ResourceProfile := mkResourceProfile {
  rp_CPU : string;
  rp_Memory : string;
}.

#[export] Instance eta_ResourceProfile : Eta ResourceProfile := fun r =>
  mkResourceProfile
    (rp_CPU r) (rp_Memory r).

Definition zero_ResourceProfile : ResourceProfile :=
  {| rp_CPU := "";
     rp_Memory := "" |}.

#[export] Instance ResourceProfile_eq_dec : EqDecision ResourceProfile.
Proof. solve_decision. Defined.

Record TimeoutPolicy := mkTimeoutPolicy {
  tp_Seconds : Z;
}.

#[export] Instance eta_TimeoutPolicy : Eta TimeoutPolicy := fun r =>
  mkTimeoutPolicy
    (tp_Seconds r).

Definition zero_TimeoutPolicy : TimeoutPolicy :=
  {| tp_Seconds := 0 |}.

#[export] Instance TimeoutPolicy_eq_dec : EqDecision TimeoutPolicy.
Proof. solve_decision. Defined.

Record RetryPolicy := mkRetryPolicy {
  rtp_MaxAttempts : Z;
  rtp_RetryablePhases : option (list string);
  rtp_RetryDelayHint : string;
}.

#[export] Instance eta_RetryPolicy : Eta RetryPolicy := fun r =>
  mkRetryPolicy
    (rtp_MaxAttempts r) (rtp_RetryablePhases r) (rtp_RetryDelayHint r).

Definition zero_RetryPolicy : RetryPolicy :=
  {| rtp_MaxAttempts := 0;
     rtp_RetryablePhases := None; rtp_RetryDelayHint := "" |}.

#[export] Instance RetryPolicy_eq_dec : EqDecision RetryPolicy.
Proof. solve_decision. Defined.

Record CleanupPolicy := mkCleanupPolicy {
  cp_TTLSecondsAfterFinished : Z;
}.

#[export] Instance eta_CleanupPolicy : Eta CleanupPolicy := fun r =>
  mkCleanupPolicy
    (cp_TTLSecondsAfterFinished r).

Definition zero_CleanupPolicy : CleanupPolicy :=
  {|
     cp_TTLSecondsAfterFinished := 0 |}.

#[export] Instance CleanupPolicy_eq_dec : EqDecision CleanupPolicy.
Proof. solve_decision. Defined.

Record WeightedNodePreference := mkWeightedNodePreference {
  wnp_NodeName : string;
  wnp_Weight : Z;
}.

#[export] Instance eta_WeightedNodePreference : Eta WeightedNodePreference := fun r =>
  mkWeightedNodePreference
    (wnp_NodeName r) (wnp_Weight r).
#[export] Instance WeightedNodePreference_eq_dec : EqDecision WeightedNodePreference.
Proof. solve_decision. Defined.

Record PlacementHints := mkPlacementHints {
  ph_NodeSelector : option (gmap string string);
  ph_RequiredNodeName : string;
  ph_PreferredNodes : list WeightedNodePreference;
}.

#[export] Instance eta_PlacementHints : Eta PlacementHints := fun r =>
  mkPlacementHints
    (ph_NodeSelector r) (ph_RequiredNodeName r) (ph_PreferredNodes r).
#[export] Instance PlacementHints_eq_dec : EqDecision PlacementHints.
Proof. solve_decision. Defined.

Definition zero_PlacementHints : PlacementHints :=
  {|
     ph_NodeSelector := None; ph_RequiredNodeName := "";
     ph_PreferredNodes := [] |}.

Record Mount := mkMount {
  mt_Source : string;
  mt_Target : string;
  mt_Mode : string;
}.

#[export] Instance eta_Mount : Eta Mount := fun r =>
  mkMount (mt_Source r)
    (mt_Target r) (mt_Mode r).
#[export] Instance Mount_eq_dec : EqDecision Mount.
Proof. solve_decision. Defined.

Definition zero_Mount : Mount :=
  {| mt_Source := ""; mt_Target := "";
     mt_Mode := "" |}.

Record ArtifactBinding := mkArtifactBinding {
  ab_BindingName : string;
  ab_ChildInputName : string;
  ab_ProducerNodeID : string;
  ab_ProducerOutputName : string;
  ab_ArtifactID : string;
  ab_Required : bool;
  ab_ConsumePolicy : string;
  ab_ExpectedDigest : string;
}.

#[export] Instance eta_ArtifactBinding : Eta ArtifactBinding := fun r =>
  mkArtifactBinding
    (ab_BindingName r) (ab_ChildInputName r) (ab_ProducerNodeID r)
    (ab_ProducerOutputName r) (ab_ArtifactID r) (ab_Required r)
    (ab_ConsumePolicy r) (ab_ExpectedDigest r).
#[export] Instance ArtifactBinding_eq_dec : EqDecision ArtifactBinding.
Proof. solve_decision. Defined.

Definition zero_ArtifactBinding : ArtifactBinding :=
  {|
     ab_BindingName := ""; ab_ChildInputName := ""; ab_ProducerNodeID := "";
     ab_ProducerOutputName := ""; ab_ArtifactID := ""; ab_Required := false;
     ab_ConsumePolicy := ""; ab_ExpectedDigest := "" |}.

Record KueueHints := mkKueueHints {
  kh_QueueName : string;
  kh_WorkloadClass : string;
  kh_Labels : option (gmap string string);
}.

#[export] Instance eta_KueueHints : Eta KueueHints := fun r =>
  mkKueueHints
    (kh_QueueName r) (kh_WorkloadClass r) (kh_Labels r).
#[export] Instance KueueHints_eq_dec : EqDecision KueueHints.
Proof. solve_decision. Defined.

Definition zero_KueueHints : KueueHints :=
  {| kh_QueueName := "";
     kh_WorkloadClass := ""; kh_Labels := None |}.

Record Node := mkNode {
  n_NodeID : string;
  n_Image : string;
  n_Command : list string;
  n_Args : list string;
  n_Env : option (gmap string string);
  n_ExecutionClass : string;
  n_ResourceProfile : ResourceProfile;
  n_TimeoutPolicy : TimeoutPolicy;
  n_RetryPolicy : RetryPolicy;
  n_Mounts : list Mount;
  n_Inputs : list string;
  n_Outputs : list string;
  n_ArtifactBindings : list ArtifactBinding;
  n_WorkingDir : string;
  n_ServiceAccountName : string;
  n_Placement : option PlacementHints;
  n_CleanupPolicy : CleanupPolicy;
  n_Metadata : option (gmap string string);
  n_Kueue : option KueueHints;
}.

#[export] Instance eta_Node : Eta Node := fun r =>
  mkNode (n_NodeID r)
    (n_Image r) (n_Command r) (n_Args r) (n_Env r) (n_ExecutionClass r)
    (n_ResourceProfile r) (n_TimeoutPolicy r) (n_RetryPolicy r) (n_Mounts r)
    (n_Inputs r) (n_Outputs r) (n_ArtifactBindings r) (n_WorkingDir r)
    (n_ServiceAccountName r) (n_Placement r) (n_CleanupPolicy r)
    (n_Metadata r) (n_Kueue r).
#[export] Instance Node_eq_dec : EqDecision Node.
Proof. solve_decision. Defined.

Definition zero_Node : Node :=
  {| n_NodeID := ""; n_Image := "";
     n_Command := []; n_Args := []; n_Env := None; n_ExecutionClass := "";
     n_ResourceProfile := zero_ResourceProfile;
     n_TimeoutPolicy := zero_TimeoutPolicy; n_RetryPolicy := zero_RetryPolicy;
     n_Mounts := []; n_Inputs := []; n_Outputs := [];
     n_ArtifactBindings := []; n_WorkingDir := ""; n_ServiceAccountName := "";
     n_Placement := None; n_CleanupPolicy := zero_CleanupPolicy;
     n_Metadata := None; n_Kueue := None |}.

Record Graph := mkGraph {
  g_Nodes : list Node;
  g_Edges : list (list string);
}.

#[export] Instance eta_Graph : Eta Graph := fun r =>
  mkGraph (g_Nodes r)
    (g_Edges r).
#[export] Instance Graph_eq_dec : EqDecision Graph.
Proof. solve_decision. Defined.

Definition zero_Graph : Graph :=
  {| g_Nodes := []; g_Edges := [] |}.

Record Defaults := mkDefaults {
  df_ExecutionClass : string;
  df_ResourceProfile : ResourceProfile;
  df_TimeoutPolicy : TimeoutPolicy;
  df_RetryPolicy : RetryPolicy;
  df_CleanupPolicy : CleanupPolicy;
  df_Placement : option PlacementHints;
  df_Namespace : string;
}.

#[export] Instance eta_Defaults : Eta Defaults := fun r =>
  mkDefaults
    (df_ExecutionClass r) (df_ResourceProfile r) (df_TimeoutPolicy r)
    (df_RetryPolicy r) (df_CleanupPolicy r) (df_Placement r) (df_Namespace r).
#[export] Instance Defaults_eq_dec : EqDecision Defaults.
Proof. solve_decision. Defined.

Definition zero_Defaults : Defaults :=
  {| df_ExecutionClass := "";
     df_ResourceProfile := zero_ResourceProfile;
     df_TimeoutPolicy := zero_TimeoutPolicy;
     df_RetryPolicy := zero_RetryPolicy;
     df_CleanupPolicy := zero_CleanupPolicy; df_Placement := None;
     df_Namespace := "" |}.

Record ExecutableRunSpec := mkExecutableRunSpec {
  es_Run : RunMetadata;
  es_Graph : Graph;
  es_Defaults : Defaults;
  es_Metadata : option (gmap string string);
}.

#[export] Instance eta_ExecutableRunSpec : Eta ExecutableRunSpec := fun r =>
  mkExecutableRunSpec
    (es_Run r) (es_Graph r) (es_Defaults r) (es_Metadata r).
#[export] Instance ExecutableRunSpec_eq_dec : EqDecision ExecutableRunSpec.
Proof. solve_decision. Defined.

Definition zero_ExecutableRunSpec : ExecutableRunSpec :=
  {|
     es_Run := zero_RunMetadata; es_Graph := zero_Graph;
     es_Defaults := zero_Defaults; es_Metadata := None |}.

Record NodeObservation := mkNodeObservation {
  no_KueueObserved : bool;
  no_QueueName : string;
  no_WorkloadName : string;
  no_KueuePendingReason : string;
  no_KueueAdmitted : bool;
  no_PodName : string;
  no_PodNodeName : string;
  no_PodScheduled : bool;
  no_UnschedulableReason : string;
}.

#[export] Instance eta_NodeObservation : Eta NodeObservation := fun r =>
  mkNodeObservation
    (no_KueueObserved r) (no_QueueName r) (no_WorkloadName r)
    (no_KueuePendingReason r) (no_KueueAdmitted r) (no_PodName r)
    (no_PodNodeName r) (no_PodScheduled r) (no_UnschedulableReason r).
#[export] Instance NodeObservation_eq_dec : EqDecision NodeObservation.
Proof. solve_decision. Defined.

Definition zero_NodeObservation : NodeObservation :=
  {|
     no_KueueObserved := false; no_QueueName := ""; no_WorkloadName := "";
     no_KueuePendingReason := ""; no_KueueAdmitted := false; no_PodName := "";
     no_PodNodeName := ""; no_PodScheduled := false;
     no_UnschedulableReason := "" |}.

Record RunCounters := mkRunCounters {
  rc_TotalNodes : Z;
  rc_SucceededNodes : Z;
  rc_FailedNodes : Z;
  rc_CanceledNodes : Z;
  rc_SkippedNodes : Z;
  rc_RunningNodes : Z;
}.

#[export] Instance eta_RunCounters : Eta RunCounters := fun r =>
  mkRunCounters
    (rc_TotalNodes r) (rc_SucceededNodes r) (rc_FailedNodes r)
    (rc_CanceledNodes r) (rc_SkippedNodes r) (rc_RunningNodes r).

Definition zero_RunCounters : RunCounters :=
  {| rc_TotalNodes := 0;
     rc_SucceededNodes := 0; rc_FailedNodes := 0; rc_CanceledNodes := 0;
     rc_SkippedNodes := 0; rc_RunningNodes := 0 |}.

#[export] Instance RunCounters_eq_dec : EqDecision RunCounters.
Proof. solve_decision. Defined.

Record RunRecord := mkRunRecord {
  rr_RunID : string;
  rr_Status : RunStatus;
  rr_AcceptedAt : Z;
  rr_StartedAt : option Z;
  rr_FinishedAt : option Z;
  rr_CurrentBottleneckLocation : string;
  rr_TerminalStopCause : string;
  rr_TerminalFailureReason : string;
  rr_Counters : RunCounters;
  rr_Metadata : option (gmap string string);
  rr_Spec : ExecutableRunSpec;
}.

#[export] Instance eta_RunRecord : Eta RunRecord := fun r =>
  mkRunRecord
    (rr_RunID r) (rr_Status r) (rr_AcceptedAt r) (rr_StartedAt r)
    (rr_FinishedAt r) (rr_CurrentBottleneckLocation r)
    (rr_TerminalStopCause r) (rr_TerminalFailureReason r) (rr_Counters r)
    (rr_Metadata r) (rr_Spec r).
#[export] Instance RunRecord_eq_dec : EqDecision RunRecord.
Proof. solve_decision. Defined.

Definition zero_RunRecord : RunRecord :=
  {| rr_RunID := "";
     rr_Status := RunStatusUnset; rr_AcceptedAt := 0; rr_StartedAt := None;
     rr_FinishedAt := None; rr_CurrentBottleneckLocation := "";
     rr_TerminalStopCause := ""; rr_TerminalFailureReason := "";
     rr_Counters := zero_RunCounters; rr_Metadata := None;
     rr_Spec := zero_ExecutableRunSpec |}.

Record NodeRecord := mkNodeRecord {
  nr_RunID : string;
  nr_NodeID : string;
  nr_Status : NodeStatus;
  nr_CurrentBottleneckLocation : string;
  nr_TerminalStopCause : string;
  nr_TerminalFailureReason : string;
  nr_AttemptCount : Z;
  nr_RealizationAttemptCount : Z;
  nr_CurrentAttemptID : string;
  nr_CurrentAttemptHandleJSON : string;
  nr_StartedAt : option Z;
  nr_FinishedAt : option Z;
  nr_Observation : NodeObservation;
  nr_CausedByNodeID : string;
}.

#[export] Instance eta_NodeRecord : Eta NodeRecord := fun r =>
  mkNodeRecord
    (nr_RunID r) (nr_NodeID r) (nr_Status r) (nr_CurrentBottleneckLocation r)
    (nr_TerminalStopCause r) (nr_TerminalFailureReason r) (nr_AttemptCount r)
    (nr_RealizationAttemptCount r) (nr_CurrentAttemptID r)
    (nr_CurrentAttemptHandleJSON r) (nr_StartedAt r) (nr_FinishedAt r)
    (nr_Observation r) (nr_CausedByNodeID r).
#[export] Instance NodeRecord_eq_dec : EqDecision NodeRecord.
Proof. solve_decision. Defined.

Definition zero_NodeRecord : NodeRecord :=
  {| nr_RunID := "";
     nr_NodeID := ""; nr_Status := NodeStatusUnset;
     nr_CurrentBottleneckLocation := ""; nr_TerminalStopCause := "";
     nr_TerminalFailureReason := ""; nr_AttemptCount := 0;
     nr_RealizationAttemptCount := 0; nr_CurrentAttemptID := "";
     nr_CurrentAttemptHandleJSON := ""; nr_StartedAt := None;
     nr_FinishedAt := None; nr_Observation := zero_NodeObservation;
     nr_CausedByNodeID := "" |}.

Record AttemptRecord := mkAttemptRecord {
  ar_RunID : string;
  ar_NodeID : string;
  ar_AttemptID : string;
  ar_Status : AttemptStatus;
  ar_StartedAt : option Z;
  ar_FinishedAt : option Z;
  ar_TerminalStopCause : string;
  ar_TerminalFailureReason : string;
  ar_BackendHandleJSON : string;
  ar_SubmissionWindowOpenedAt : option Z;
  ar_CancellationRequestedAt : option Z;
  ar_CancellationReason : string;
  ar_ProcessCompletedAt : option Z;
  ar_RealizationReattemptableAt : option Z;
}.

#[export] Instance eta_AttemptRecord : Eta AttemptRecord := fun r =>
  mkAttemptRecord
    (ar_RunID r) (ar_NodeID r) (ar_AttemptID r) (ar_Status r) (ar_StartedAt r)
    (ar_FinishedAt r) (ar_TerminalStopCause r) (ar_TerminalFailureReason r)
    (ar_BackendHandleJSON r) (ar_SubmissionWindowOpenedAt r)
    (ar_CancellationRequestedAt r) (ar_CancellationReason r)
    (ar_ProcessCompletedAt r) (ar_RealizationReattemptableAt r).
#[export] Instance AttemptRecord_eq_dec : EqDecision AttemptRecord.
Proof. solve_decision. Defined.

Definition zero_AttemptRecord : AttemptRecord :=
  {| ar_RunID := "";
     ar_NodeID := ""; ar_AttemptID := ""; ar_Status := AttemptStatusUnset;
     ar_StartedAt := None; ar_FinishedAt := None; ar_TerminalStopCause := "";
     ar_TerminalFailureReason := ""; ar_BackendHandleJSON := "";
     ar_SubmissionWindowOpenedAt := None; ar_CancellationRequestedAt := None;
     ar_CancellationReason := ""; ar_ProcessCompletedAt := None;
     ar_RealizationReattemptableAt := None |}.

Record EventRecord := mkEventRecord {
  ev_RunID : string;
  ev_NodeID : string;
  ev_AttemptID : string;
  ev_Type : string;
  ev_Message : string;
  ev_OccurredAt : Z;
  ev_Level : string;
  ev_StopCause : string;
  ev_FailureReason : string;
}.

#[export] Instance eta_EventRecord : Eta EventRecord := fun r =>
  mkEventRecord
    (ev_RunID r) (ev_NodeID r) (ev_AttemptID r) (ev_Type r) (ev_Message r)
    (ev_OccurredAt r) (ev_Level r) (ev_StopCause r) (ev_FailureReason r).
#[export] Instance EventRecord_eq_dec : EqDecision EventRecord.
Proof. solve_decision. Defined.

Definition zero_EventRecord : EventRecord :=
  {| ev_RunID := "";
     ev_NodeID := ""; ev_AttemptID := ""; ev_Type := ""; ev_Message := "";
     ev_OccurredAt := 0; ev_Level := ""; ev_StopCause := "";
     ev_FailureReason := "" |}.


(** ** Lemmas *)
Lemma string_app_inv_l s t u : s +:+ t = s +:+ u -> t = u.
Proof. apply String.app_inj. Qed.

(** For a fixed node the attempt identity determines the attempt number. *)
Lemma DeterministicAttemptID_inj runID nodeID n m :
  DeterministicAttemptID runID nodeID n = DeterministicAttemptID runID nodeID m -> n = m.
Proof.
  unfold DeterministicAttemptID, Itoa. intros H.
  do 4 apply string_app_inv_l in H. by apply (inj pretty) in H.
Qed.

Lemma DeterministicAttemptID_nonempty runID nodeID n :
  DeterministicAttemptID runID nodeID n <> "".
Proof. unfold DeterministicAttemptID. by destruct runID. Qed.
