(* ===== verification/GoStrconv.v ===== *)
(** * Package [strconv]

    [ParseInt] in base ten, and that it reads back what [Itoa] writes. *)
From S2P Require Import Prelude GoStrings GoDuration Spec.
From Stdlib Require Import Ascii NArith.
From stdpp Require Import numbers.

Local Open Scope Z_scope.

(** [strconv.ParseUint] in base ten without its bound, of at least one digit. *)
Fixpoint parse_digits (s : string) (acc : Z) : option Z :=
  match s with
  | EmptyString => Some acc
  | String a s => match digit_of a with Some d => parse_digits s (acc * 10 + d) | None => None end
  end.

Definition parse_unsigned (s : string) : option Z :=
  if streq s "" then None else parse_digits s 0.

(** [strconv.ParseInt(s, 10, 64)], [None] for any of its errors. *)
Definition ParseInt (s : string) : option Z :=
  let '(neg, digits) := match s with
                        | String "-" s => (true, s)
                        | String "+" s => (false, s)
                        | _ => (false, s)
                        end in
  match parse_unsigned digits with
  | None => None
  | Some n =>
      if neg then (if two63 <? n then None else Some (- n))
      else if two63 - 1 <? n then None else Some n
  end.

Example ParseInt_ex :
  ParseInt "42" = Some 42 /\ ParseInt "-7" = Some (-7) /\ ParseInt "+9223372036854775807" = Some int64_max /\
  ParseInt "9223372036854775808" = None /\ ParseInt "-9223372036854775808" = Some (- two63) /\
  ParseInt "" = None /\ ParseInt "1_0" = None /\ ParseInt " 1" = None.
Proof. vm_compute. done. Qed.

(** ** Reading back *)
Lemma digit_of_pretty d : (d < 10)%N -> digit_of (pretty_N_char d) = Some (Z.of_N d).
Proof.
  intros H. assert (E : d = N.of_nat (N.to_nat d)) by lia. rewrite E.
  assert (N.to_nat d < 10)%nat as Hn by lia. revert Hn. generalize (N.to_nat d) as k. intros k Hk.
  do 10 (destruct k as [|k]; [done|]). lia.
Qed.

Lemma parse_digits_go n s : forall acc,
  exists k, parse_digits (pretty_N_go n s) acc = parse_digits s (acc * 10 ^ k + Z.of_N n) /\ 0 <= k.
Proof.
  revert s. induction (N.lt_wf_0 n) as [n _ IH]. intros s acc.
  destruct (decide (0 < n)%N) as [Hn|Hn].
  - rewrite pretty_N_go_step by done.
    destruct (IH (n / 10)%N (N.div_lt n 10 Hn eq_refl) (String (pretty_N_char (n mod 10)) s) acc) as (k & -> & Hk).
    cbn [parse_digits]. rewrite digit_of_pretty by (by apply N.mod_lt).
    exists (k + 1). split; [|lia]. f_equal. rewrite Z.pow_add_r by lia.
    pose proof (N.div_mod n 10). lia.
  - assert (n = 0%N) as -> by lia. exists 0. rewrite pretty_N_go_0. split; [f_equal; lia|lia].
Qed.

Lemma parse_digits_pretty (n : N) : parse_digits (pretty n) 0 = Some (Z.of_N n).
Proof.
  unfold pretty, pretty_N. case_decide as E; [by subst|].
  by destruct (parse_digits_go n "" 0) as (k & -> & _).
Qed.

(** The first character of a printed number is a digit. *)
Lemma pretty_N_starts (n : N) : exists a s d, pretty n = String a s /\ digit_of a = Some d.
Proof.
  pose proof (parse_digits_pretty n) as H. destruct (pretty n) as [|a s] eqn:E.
  - exfalso. unfold pretty, pretty_N in E. case_decide; [done|].
    assert (Hl : forall m t, (String.length t <= String.length (pretty_N_go m t))%nat /\
               ((0 < m)%N -> (0 < String.length (pretty_N_go m t))%nat)).
    { intros m. induction (N.lt_wf_0 m) as [m _ IH]. intros t.
      destruct (decide (0 < m)%N) as [Hm|Hm].
      - rewrite pretty_N_go_step by done.
        destruct (IH (m / 10)%N (N.div_lt m 10 Hm eq_refl) (String (pretty_N_char (m mod 10)) t)) as [H1 _].
        simpl in H1. lia.
      - assert (m = 0%N) as -> by lia. rewrite pretty_N_go_0. split; [done|lia]. }
    destruct (Hl n "") as [_ Hp]. rewrite E in Hp. simpl in Hp. lia.
  - simpl in H. destruct (digit_of a) as [d|] eqn:Ed; [|done]. by exists a, s, d.
Qed.

Lemma ParseInt_pretty (n : N) : Z.of_N n < two63 -> ParseInt (pretty n) = Some (Z.of_N n).
Proof.
  intros Hn. unfold ParseInt, parse_unsigned. pose proof (parse_digits_pretty n) as H.
  destruct (pretty_N_starts n) as (a & s & d & E & Ed). rewrite E in H |- *.
  assert (Hs : (match String a s with String "-" s => (true, s) | String "+" s => (false, s)
                | _ => (false, String a s) end) = (false, String a s)).
  { destruct a as [[] [] [] [] [] [] [] []]; done || discriminate Ed. }
  rewrite Hs. cbn [streq]. change (streq (String a s) "") with false. rewrite H.
  destruct (Z.ltb_spec (two63 - 1) (Z.of_N n)); [lia|done].
Qed.

(** What [Itoa] writes of a size, [ParseInt] reads. *)
Lemma ParseInt_Itoa z : 0 <= z < two63 -> ParseInt (Itoa z) = Some z.
Proof.
  intros Hz. unfold Itoa. destruct z as [|p|p]; [done| |lia].
  apply (ParseInt_pretty (Npos p)). lia.
Qed.
