(* ===== verification/GoTimeText.v ===== *)
(** * The text of a time ([time.RFC3339Nano])

    A time is a number of nanoseconds since the Unix epoch, in UTC: what
    [t.UTC().Format(time.RFC3339Nano)] and [time.Time.MarshalJSON] write of it, what
    [time.Time.UnmarshalJSON] reads, and that a time is read back when its year has
    at most four digits. *)
From S2P Require Import Prelude GoStrings GoTime GoDuration Spec GoStrconv.
From Stdlib Require Import Ascii.
From stdpp Require Import numbers.

Local Open Scope Z_scope.

(** ** The calendar

    The month, and the day of the month, of the days of a year that begins with the
    first of March, which is day 0. *)
Definition month_day (doy : Z) : Z * Z :=
  let mp := (5 * doy + 2) / 153 in
  (if mp <? 10 then mp + 3 else mp - 9, doy - (153 * mp + 2) / 5 + 1).

(** The days before a year of a cycle of 400 years, which has 146097 days. *)
Definition before_year (yoe : Z) : Z := 365 * yoe + yoe / 4 - yoe / 100.

(** The year, month and day of the month of a day of the cycle, in the proleptic
    Gregorian calendar. *)
Definition of_cycle (doe : Z) : Z * Z * Z :=
  let yoe := (doe - doe / 1460 + doe / 36524 - doe / 146096) / 365 in
  let '(m, d) := month_day (doe - before_year yoe) in
  (if m <=? 2 then yoe + 1 else yoe, m, d).

(** The date of a day after 1970-01-01. *)
Definition civil (days : Z) : Z * Z * Z :=
  let z := days + 719468 in
  let '(y, m, d) := of_cycle (z mod 146097) in (y + z / 146097 * 400, m, d).

Definition leap (y : Z) : bool := (y mod 4 =? 0) && (negb (y mod 100 =? 0) || (y mod 400 =? 0)).

Definition days_in (y m : Z) : Z :=
  if m =? 2 then if leap y then 29 else 28
  else if (m =? 4) || (m =? 6) || (m =? 9) || (m =? 11) then 30 else 31.

(** The day of a year that begins in March. *)
Definition day_of_year (m d : Z) : Z := (153 * ((m + 9) mod 12) + 2) / 5 + d - 1.

Definition days_of (y m d : Z) : Z :=
  let y := if m <=? 2 then y - 1 else y in
  before_year (y mod 400) + day_of_year m d + y / 400 * 146097 - 719468.

(** The last day of such a year is the 29th of February, and the others are days of
    every year. *)
Definition day_ok (doy : Z) : bool :=
  let '(m, d) := month_day doy in
  (day_of_year m d =? doy) && (1 <=? m) && (m <=? 12) && (1 <=? d) &&
  (if doy =? 365 then (m =? 2) && (d =? 29) else d <=? days_in 1 m).

Lemma days_ok : forallb (fun k => day_ok (Z.of_nat k)) (seq 0 366) = true.
Proof. vm_compute. reflexivity. Qed.

Lemma days_in_common y m : days_in 1 m <= days_in y m.
Proof. unfold days_in. change (leap 1) with false. repeat case_match; lia. Qed.

Lemma month_day_ok doy m d y : 0 <= doy <= 365 -> (doy = 365 -> leap y = true) -> month_day doy = (m, d) ->
  day_of_year m d = doy /\ 1 <= m <= 12 /\ 1 <= d /\ (m <= 2 -> d <= days_in y m) /\
  (2 < m -> forall y', d <= days_in y' m).
Proof.
  intros Hd Hl E. pose proof days_ok as H. rewrite forallb_forall in H.
  specialize (H (Z.to_nat doy)). rewrite Z2Nat.id in H by lia. unfold day_ok in H. rewrite E in H.
  rewrite !andb_true_iff, !Z.leb_le, Z.eqb_eq in H. destruct H as ((((H1 & H2) & H3) & H4) & H5).
  { apply in_seq. lia. }
  split_and!; [done|lia|lia|done| |]; (destruct (Z.eqb_spec doy 365) as [Hl'|]; [|intros; etrans; [by apply Z.leb_le|apply days_in_common]]);
    apply andb_true_iff in H5 as [->%Z.eqb_eq ->%Z.eqb_eq]; [|lia].
  intros _. unfold days_in. by rewrite Hl.
Qed.

(** The year of a day of the cycle. *)
Lemma year_of_day doe : 0 <= doe < 146097 ->
  let yoe := (doe - doe / 1460 + doe / 36524 - doe / 146096) / 365 in
  0 <= yoe < 400 /\ 0 <= doe - before_year yoe <= 365 /\
  (doe - before_year yoe = 365 -> leap (yoe + 1) = true).
Proof.
  intros H yoe. unfold before_year, leap.
  assert (Hq : forall a b, 0 < b -> a = b * (a / b) + a mod b /\ 0 <= a mod b < b).
  { intros a b Hb. split; [apply Z.div_mod; lia|by apply Z.mod_pos_bound]. }
  pose proof (Hq doe 1460 eq_refl). pose proof (Hq doe 36524 eq_refl). pose proof (Hq doe 146096 eq_refl).
  pose proof (Hq (doe - doe / 1460 + doe / 36524 - doe / 146096) 365 eq_refl) as Hy. fold yoe in Hy.
  pose proof (Hq yoe 4 eq_refl). pose proof (Hq yoe 100 eq_refl).
  assert (doe / 146096 = 0 \/ doe / 146096 = 1) by lia. assert (0 <= doe / 36524 <= 4) by lia.
  assert (0 <= yoe < 400) by lia. split_and!; [lia..|]. intros Hl.
  rewrite andb_true_iff, orb_true_iff, negb_true_iff, !Z.eqb_eq, Z.eqb_neq.
  pose proof (Hq (yoe + 1) 4 eq_refl). pose proof (Hq (yoe + 1) 100 eq_refl). pose proof (Hq (yoe + 1) 400 eq_refl).
  split; [lia|]. destruct (Z.eq_dec ((yoe + 1) mod 100) 0); [right|by left]. lia.
Qed.

Lemma days_in_cycle y m c : days_in (y + c * 400) m = days_in y m.
Proof.
  assert (H : forall k, k ∈ [4; 100; 400] -> (y + c * 400) mod k = y mod k).
  { intros k Hk. rewrite !elem_of_cons in Hk.
    destruct Hk as [->|[->|[->|Hk%not_elem_of_nil]]]; [| | |done].
    - by replace (y + c * 400) with (y + c * 100 * 4) by lia; rewrite Z.mod_add.
    - by replace (y + c * 400) with (y + c * 4 * 100) by lia; rewrite Z.mod_add.
    - by rewrite Z.mod_add. }
  unfold days_in, leap. rewrite !H by (rewrite !elem_of_cons; eauto). done.
Qed.

(** A day is found by its date, which is one of the calendar. *)
Lemma civil_days days y m d : civil days = (y, m, d) ->
  days_of y m d = days /\ 1 <= m <= 12 /\ 1 <= d <= days_in y m.
Proof.
  unfold civil, of_cycle. set (z := days + 719468).
  destruct (year_of_day (z mod 146097)) as (Hy & Hd & Hl); [by apply Z.mod_pos_bound|].
  set (yoe := _ / 365) in *. destruct (month_day _) as [m0 d0] eqn:E.
  destruct (month_day_ok _ m0 d0 (yoe + 1) Hd Hl E) as (H1 & H2 & H3 & H4 & H5).
  intros [= <- <- <-]. rewrite days_in_cycle.
  split; [|split; [done|destruct (Z.leb_spec m0 2); auto with lia]].
  unfold days_of. cbv zeta.
  replace (if m0 <=? 2 then (if m0 <=? 2 then yoe + 1 else yoe) + z / 146097 * 400 - 1
           else (if m0 <=? 2 then yoe + 1 else yoe) + z / 146097 * 400)
    with (yoe + z / 146097 * 400) by (destruct (m0 <=? 2); lia).
  rewrite Z.mod_add, Z.div_add, (Z.mod_small yoe), (Z.div_small yoe) by lia.
  rewrite H1. pose proof (Z.div_mod z 146097). subst z. lia.
Qed.

(** ** Writing *)
Fixpoint zeros (n : nat) : string :=
  match n with O => "" | S n => "0" +:+ zeros n end.

(** [n] on at least [w] digits. *)
Definition pad (w : nat) (n : Z) : string :=
  let s := Itoa n in
  zeros (w - String.length s) +:+ s.

(** The digits of a fraction without their trailing zeros. *)
Fixpoint trim_zeros (w : nat) (n : Z) : string :=
  match w with
  | O => ""
  | S w' => if n mod 10 =? 0 then trim_zeros w' (n / 10) else pad w n
  end.

Definition fraction (ns : Z) : string :=
  if ns =? 0 then "" else "." +:+ trim_zeros 9 ns.

Definition format_time (t : Z) : string :=
  let secs := t / Second in
  let '(y, m, d) := civil (secs / 86400) in
  let s := secs mod 86400 in
  pad 4 y +:+ "-" +:+ pad 2 m +:+ "-" +:+ pad 2 d +:+ "T" +:+ pad 2 (s / 3600) +:+ ":"
    +:+ pad 2 (s / 60 mod 60) +:+ ":" +:+ pad 2 (s mod 60) +:+ fraction (t mod Second) +:+ "Z".

(** ** Reading *)

(** Exactly [w] digits. *)
Fixpoint read_digits (w : nat) (s : string) (acc : Z) : option (Z * string) :=
  match w, s with
  | O, _ => Some (acc, s)
  | S w, String a s => d ← digit_of a; read_digits w s (acc * 10 + d)
  | S _, EmptyString => None
  end.

Definition read_char (c : ascii) (s : string) : option string :=
  match s with String a s => if Ascii.eqb a c then Some s else None | EmptyString => None end.

Fixpoint skip_digits (s : string) : string :=
  match s with
  | String a s' => if is_some (digit_of a) then skip_digits s' else s
  | EmptyString => s
  end.

(** Digits as [w] of them, the missing ones zero and the others ignored. *)
Fixpoint fraction_digits (w : nat) (s : string) (acc : Z) : Z * string :=
  match w with
  | O => (acc, skip_digits s)
  | S w' =>
      match s with
      | String a s' =>
          match digit_of a with
          | Some d => fraction_digits w' s' (acc * 10 + d)
          | None => (acc * 10 ^ Z.of_nat w, s)
          end
      | EmptyString => (acc * 10 ^ Z.of_nat w, s)
      end
  end.

(** A point counts when a digit follows. *)
Definition read_fraction (s : string) : Z * string :=
  match s with
  | String "." (String a s') => if is_some (digit_of a) then fraction_digits 9 (String a s') 0 else (0, s)
  | _ => (0, s)
  end.

(** [Z] or an offset from UTC, at the end of the text. *)
Definition read_zone (s : string) : option Z :=
  match s with
  | String "Z" s => if streq s "" then Some 0 else None
  | String sign s =>
      neg ← (if Ascii.eqb sign "-" then Some true else if Ascii.eqb sign "+" then Some false else None);
      '(h, s) ← read_digits 2 s 0;
      s ← read_char ":" s;
      '(mi, s) ← read_digits 2 s 0;
      if (h <? 24) && (mi <? 60) && streq s "" then
        Some ((if neg : bool then -1 else 1) * (h * 3600 + mi * 60))
      else None
  | EmptyString => None
  end.

Definition parse_time (s : string) : option Z :=
  '(y, s) ← read_digits 4 s 0;
  s ← read_char "-" s;
  '(m, s) ← read_digits 2 s 0;
  s ← read_char "-" s;
  '(d, s) ← read_digits 2 s 0;
  s ← read_char "T" s;
  '(h, s) ← read_digits 2 s 0;
  s ← read_char ":" s;
  '(mi, s) ← read_digits 2 s 0;
  s ← read_char ":" s;
  '(sec, s) ← read_digits 2 s 0;
  let '(ns, s) := read_fraction s in
  offset ← read_zone s;
  if (1 <=? m) && (m <=? 12) && (1 <=? d) && (d <=? days_in y m) && (h <? 24) && (mi <? 60) && (sec <? 60)
  then Some ((days_of y m d * 86400 + h * 3600 + mi * 60 + sec - offset) * Second + ns)
  else None.

Example format_time_ex :
  format_time 0 = "1970-01-01T00:00:00Z" /\ format_time 1500000000 = "1970-01-01T00:00:01.5Z" /\
  format_time (-1) = "1969-12-31T23:59:59.999999999Z" /\
  format_time (951782400 * Second + 120) = "2000-02-29T00:00:00.00000012Z".
Proof. vm_compute. done. Qed.

Example parse_time_ex :
  parse_time "1970-01-01T00:00:01.5Z" = Some 1500000000 /\
  parse_time "2000-02-29T01:00:00+01:00" = Some (951782400 * Second) /\
  parse_time "1900-02-29T00:00:00Z" = None /\ parse_time "1970-01-01T24:00:00Z" = None /\
  parse_time "1970-01-01T00:00:00.Z" = None /\ parse_time "1970-01-01T00:00:00" = None /\
  parse_time "1970-01-01T00:00:00.1234567899Z" = Some 123456789 /\ parse_time "70-01-01T00:00:00Z" = None.
Proof. vm_compute. done. Qed.

(** ** Digits *)

(** The last [w] digits of [n], in front of [s]. *)
Fixpoint dec (w : nat) (n : Z) (s : string) : string :=
  match w with
  | O => s
  | S w => dec w (n / 10) (String (pretty_N_char (Z.to_N (n mod 10))) s)
  end.

Lemma dec_app w n s t : dec w n s +:+ t = dec w n (s +:+ t).
Proof. revert n s. induction w as [|w IH]; intros n s; [done|]. cbn [dec]. by rewrite IH. Qed.

Lemma div_bounds w n : 0 <= n < 10 ^ Z.of_nat (S w) -> 0 <= n / 10 < 10 ^ Z.of_nat w /\ n = n / 10 * 10 + n mod 10 /\ 0 <= n mod 10 < 10.
Proof.
  intros Hn. pose proof (Z.div_mod n 10 ltac:(lia)). pose proof (Z.mod_pos_bound n 10 eq_refl).
  rewrite Nat2Z.inj_succ, Z.pow_succ_r in Hn by lia. lia.
Qed.

Lemma zeros_snoc k s : zeros k +:+ String "0" s = zeros (S k) +:+ s.
Proof. induction k as [|k IH]; [done|]. cbn [zeros]. rewrite !str_app_assoc, IH. done. Qed.

Lemma dec_zero w s : dec w 0 s = zeros w +:+ s.
Proof. revert s. induction w as [|w IH]; intros s; [done|]. cbn [dec]. rewrite Zdiv_0_l, IH. apply zeros_snoc. Qed.

(** [pretty_N_go] stops at the last digit that is not zero. *)
Lemma dec_go w : forall n s, 0 <= n < 10 ^ Z.of_nat w ->
  exists k, dec w n s = zeros k +:+ pretty_N_go (Z.to_N n) s /\
    (k + String.length (pretty_N_go (Z.to_N n) s) = w + String.length s)%nat.
Proof.
  induction w as [|w IH]; intros n s Hn.
  { assert (n = 0) as -> by lia. exists 0%nat. by rewrite pretty_N_go_0. }
  destruct (div_bounds w n Hn) as (Hd & _ & _). destruct (decide (n = 0)) as [->|Hz].
  { rewrite dec_zero. rewrite pretty_N_go_0. by exists (S w). }
  cbn [dec]. destruct (IH _ (String (pretty_N_char (Z.to_N (n mod 10))) s) Hd) as (k & -> & Hk).
  exists k. rewrite (pretty_N_go_step (Z.to_N n)) by lia.
  rewrite Z2N.inj_div, Z2N.inj_mod in * by lia. split; [done|]. simpl in Hk |- *. lia.
Qed.

Lemma pad_dec w n : (0 < w)%nat -> 0 <= n < 10 ^ Z.of_nat w -> pad w n = dec w n "".
Proof.
  intros Hw Hn. unfold pad, Itoa. destruct (decide (n = 0)) as [->|Hz].
  { rewrite dec_zero. destruct w as [|w]; [lia|]. change (pretty 0%Z) with "0". simpl String.length.
    replace (S w - 1)%nat with w by lia. apply zeros_snoc. }
  destruct (dec_go w n "" Hn) as (k & -> & Hk). simpl in Hk.
  assert (pretty n = pretty_N_go (Z.to_N n) "") as E.
  { destruct n as [|p|p]; [lia| |lia]. change (pretty (Npos p) = pretty_N_go (Npos p) ""). unfold pretty, pretty_N. by case_decide. }
  rewrite E. f_equal. f_equal. lia.
Qed.

Lemma read_digits_add w v s acc :
  read_digits (w + v) s acc = '(a, s) ← read_digits w s acc; read_digits v s a.
Proof.
  revert s acc. induction w as [|w IH]; intros s acc; [done|]. destruct s as [|a s]; [done|].
  simpl. destruct (digit_of a) as [d|]; [|done]. simpl. apply IH.
Qed.

Lemma read_dec w : forall n s acc, 0 <= n < 10 ^ Z.of_nat w ->
  read_digits w (dec w n s) acc = Some (acc * 10 ^ Z.of_nat w + n, s).
Proof.
  induction w as [|w IH]; intros n s acc Hn.
  { simpl. assert (n = 0) as -> by lia. by rewrite Z.mul_1_r, Z.add_0_r. }
  destruct (div_bounds w n Hn) as (Hd & E & Hm). rewrite <- Nat.add_1_r, read_digits_add at 1.
  cbn [dec]. rewrite IH by done. cbn. rewrite digit_of_pretty by lia. cbn.
  rewrite Z2N.id by lia. do 2 f_equal. rewrite Nat2Z.inj_succ, Z.pow_succ_r by lia. lia.
Qed.

Lemma read_pad w n s : (0 < w)%nat -> 0 <= n < 10 ^ Z.of_nat w ->
  read_digits w (pad w n +:+ s) 0 = Some (n, s).
Proof. intros Hw Hn. rewrite pad_dec, dec_app, read_dec by done. done. Qed.

(** ** Fractions *)
Lemma fraction_dec w v : forall n s acc, 0 <= n < 10 ^ Z.of_nat w ->
  fraction_digits (w + v) (dec w n s) acc = fraction_digits v s (acc * 10 ^ Z.of_nat w + n).
Proof.
  revert v. induction w as [|w IH]; intros v n s acc Hn.
  { simpl. assert (n = 0) as -> by lia. by rewrite Z.mul_1_r, Z.add_0_r. }
  destruct (div_bounds w n Hn) as (Hd & E & Hm). cbn [dec].
  replace (S w + v)%nat with (w + S v)%nat by lia. rewrite IH by done. cbn [fraction_digits].
  rewrite digit_of_pretty by lia. f_equal. rewrite Z2N.id, Nat2Z.inj_succ, Z.pow_succ_r by lia. lia.
Qed.

Lemma fraction_trimmed w v : forall n acc, 0 < n < 10 ^ Z.of_nat w ->
  fraction_digits (w + v) (trim_zeros w n +:+ "Z") acc = ((acc * 10 ^ Z.of_nat w + n) * 10 ^ Z.of_nat v, "Z").
Proof.
  revert v. induction w as [|w IH]; intros v n acc Hn; [simpl in Hn; lia|].
  destruct (div_bounds w n) as (Hd & E & Hm); [lia|]. cbn [trim_zeros].
  destruct (Z.eqb_spec (n mod 10) 0) as [Hz|Hz].
  - replace (S w + v)%nat with (w + S v)%nat by lia. rewrite IH by lia. f_equal.
    rewrite !Nat2Z.inj_succ, !Z.pow_succ_r by lia. nia.
  - rewrite pad_dec, dec_app, fraction_dec by lia. destruct v; cbn; [f_equal; lia|done].
Qed.

Lemma read_written_fraction ns : 0 <= ns < Second -> read_fraction (fraction ns +:+ "Z") = (ns, "Z").
Proof.
  intros Hns. unfold fraction. destruct (Z.eqb_spec ns 0) as [->|Hz]; [done|].
  assert (Hf : fraction_digits 9 (trim_zeros 9 ns +:+ "Z") 0 = (ns, "Z")).
  { rewrite (fraction_trimmed 9 0) by (unfold Second in Hns; simpl; lia). f_equal. lia. }
  assert (Hc : exists a s, trim_zeros 9 ns +:+ "Z" = String a s /\ is_some (digit_of a) = true).
  { destruct (trim_zeros 9 ns +:+ "Z") as [|a s]; [simpl in Hf; by injection Hf|].
    exists a, s. split; [done|]. simpl in Hf. destruct (digit_of a); [done|]. injection Hf as E. lia. }
  destruct Hc as (a & s & E & Ha). rewrite str_app_assoc, E in *.
  change ("." +:+ String a s) with (String "." (String a s)). unfold read_fraction. by rewrite Ha.
Qed.

(** ** The round trip *)
Definition four_digits (t : Z) : Prop := 0 <= (civil (t / Second / 86400)).1.1 <= 9999.

Lemma clock_split s : 0 <= s < 86400 ->
  0 <= s / 3600 < 24 /\ 0 <= s / 60 mod 60 < 60 /\ 0 <= s mod 60 < 60 /\
  s / 3600 * 3600 + s / 60 mod 60 * 60 + s mod 60 = s.
Proof.
  intros Hs. replace (s / 3600) with (s / 60 / 60) by (by rewrite Z.div_div).
  pose proof (Z.div_mod s 60). pose proof (Z.div_mod (s / 60) 60).
  pose proof (Z.mod_pos_bound s 60). pose proof (Z.mod_pos_bound (s / 60) 60). lia.
Qed.

Lemma read_char_one c s : read_char c (String c "" +:+ s) = Some s.
Proof. simpl. by rewrite Ascii.eqb_refl. Qed.

Lemma parse_format t : four_digits t -> parse_time (format_time t) = Some t.
Proof.
  unfold four_digits, format_time. intros Hy.
  set (secs := t / Second) in *. set (s := secs mod 86400) in *.
  pose proof (civil_days (secs / 86400)) as Hc. destruct (civil (secs / 86400)) as [[y m] d]. cbn in Hy.
  destruct (Hc y m d eq_refl) as (Hdays & Hm & Hd).
  assert (d <= 31) by (revert Hd; unfold days_in; repeat case_match; lia).
  destruct (clock_split s) as (H1 & H2 & H3 & H4); [by apply Z.mod_pos_bound|].
  assert (Hns : 0 <= t mod Second < Second) by (by apply Z.mod_pos_bound).
  unfold parse_time.
  do 5 (rewrite read_pad by (simpl; lia); cbn [mbind option_bind]; rewrite read_char_one; cbn [mbind option_bind]).
  rewrite read_pad by (simpl; lia). cbn [mbind option_bind].
  rewrite read_written_fraction by done. cbn [read_zone mbind option_bind].
  change (streq "" "") with true. cbn [mbind option_bind].
  rewrite Hdays.
  repeat match goal with
  | |- context [?a <=? ?b] => destruct (Z.leb_spec a b); [|lia]
  | |- context [?a <? ?b] => destruct (Z.ltb_spec a b); [|lia]
  end. cbn [andb]. f_equal.
  pose proof (Z.div_mod secs 86400). pose proof (Z.div_mod t Second). subst s secs. unfold Second in *. lia.
Qed.
