(* ===== verification/Validate.v ===== *)
(** * Submission checks ([src/pkg/spec/validate.go])

    [ValidateExecutableRunSpec] (the guard of [SubmitRun]) and [ApplyDefaults].
    The depth-first search of the source closes over two maps that every
    recursive call updates; here they are a state that is passed along. Its
    recursion is not structural, so it runs on fuel: one more than the number
    of nodes is enough ([visit_spec] proves it never runs out). *)
From S2P Require Import Prelude GoStrings GoErrors Spec.

Definition hostnameNodeSelectorKey : string := "kubernetes.io/hostname".
Definition userLabelPrefix : string := "user.jumi.io/".

Section validate.
  Context {U : UnicodeTables} {RO : RangeOrder}.

(** ** Per-node checks: the body of the first loop after the duplicate test *)
Definition check_placement (n : Node) : option GoError :=
  match n_Placement n with
  | Some p =>
      if negb (streq (ph_RequiredNodeName p) "") && is_some (ph_NodeSelector p) then
        let existing := TrimSpace (map_get (ph_NodeSelector p) hostnameNodeSelectorKey) in
        if negb (streq existing "") && negb (streq existing (ph_RequiredNodeName p))
        then Some (Errorf ("node " +:+ n_NodeID n +:+ ": requiredNodeName "
                           +:+ Quote (ph_RequiredNodeName p)
                           +:+ " conflicts with nodeSelector["
                           +:+ Quote hostnameNodeSelectorKey +:+ "]=" +:+ Quote existing))
        else None
      else None
  | None => None
  end.

Definition check_kueue (n : Node) : option GoError :=
  match n_Kueue n with
  | Some k =>
      match find_first (fun key => negb (has_prefix userLabelPrefix key))
              (range_keys (dom (map_of (kh_Labels k)))) with
      | Some key => Some (Errorf ("node " +:+ n_NodeID n +:+ ": kueue.labels[" +:+ Quote key
                                  +:+ "] must use user.jumi.io/ prefix"))
      | None => None
      end
  | None => None
  end.

Definition check_binding (n : Node) (b : ArtifactBinding) : option GoError :=
  if streq (ab_BindingName b) "" then
    Some (Errorf ("node " +:+ n_NodeID n +:+ ": artifactBindings[].bindingName is required"))
  else if streq (ab_ProducerNodeID b) "" then
    Some (Errorf ("node " +:+ n_NodeID n +:+ ": artifactBinding " +:+ ab_BindingName b
                  +:+ " producerNodeId is required"))
  else if streq (ab_ProducerOutputName b) "" then
    Some (Errorf ("node " +:+ n_NodeID n +:+ ": artifactBinding " +:+ ab_BindingName b
                  +:+ " producerOutputName is required"))
  else None.

(** The first error of a loop that returns on error. *)
Fixpoint first_err {A} (check : A -> option GoError) (l : list A) : option GoError :=
  match l with
  | [] => None
  | x :: l => match check x with Some e => Some e | None => first_err check l end
  end.

Definition check_node (n : Node) : option GoError :=
  if streq (n_Image n) "" then
    Some (Errorf ("node " +:+ n_NodeID n +:+ ": image is required"))
  else if (rtp_MaxAttempts (n_RetryPolicy n) <? 0)%Z then
    Some (Errorf ("node " +:+ n_NodeID n +:+ ": retryPolicy.maxAttempts must be >= 0"))
  else if (tp_Seconds (n_TimeoutPolicy n) <? 0)%Z then
    Some (Errorf ("node " +:+ n_NodeID n +:+ ": timeoutPolicy.seconds must be >= 0"))
  else match check_placement n with
       | Some e => Some e
       | None => match check_kueue n with
                 | Some e => Some e
                 | None => first_err (check_binding n) (n_ArtifactBindings n)
                 end
       end.

(** The first loop: the set of node identifiers, or the first error. *)
Fixpoint collect_nodes (ns : list Node) (nodes : gset string) : res (gset string) :=
  match ns with
  | [] => Ok nodes
  | n :: ns =>
      if streq (n_NodeID n) "" then Err (Errorf "graph.nodes[].nodeId is required")
      else if bool_decide (n_NodeID n ∈ nodes)
      then Err (Errorf ("duplicate nodeId: " +:+ n_NodeID n))
      else match check_node n with
           | Some e => Err e
           | None => collect_nodes ns ({[ n_NodeID n ]} ∪ nodes)
           end
  end.

Abbreviation adjacency := (gmap string (list string)).

Definition adj_of (adj : adjacency) (n : string) : list string := default [] (adj !! n).

(** The second loop: the adjacency map, or the first error. *)
Fixpoint collect_edges (nodes : gset string) (es : list (list string)) (adj : adjacency)
    : res adjacency :=
  match es with
  | [] => Ok adj
  | e :: es =>
      match e with
      | [from; to] =>
          if streq from to then Err (Errorf ("self-loop is not allowed: " +:+ from))
          else if negb (bool_decide (from ∈ nodes))
          then Err (Errorf ("edge source node does not exist: " +:+ from))
          else if negb (bool_decide (to ∈ nodes))
          then Err (Errorf ("edge target node does not exist: " +:+ to))
          else collect_edges nodes es (<[from := adj_of adj from ++ [to]]> adj)
      | _ => Err (Errorf "each edge must have exactly two endpoints")
      end
  end.

(** ** The depth-first search *)
Record dfs := mkdfs { seen : gset string; stack : gset string }.

#[export] Instance eta_dfs : Eta dfs := fun r => mkdfs (seen r) (stack r).

Definition errCycle : GoError := Errorf "graph must be acyclic".

(** [for _, next := range ...  { if err := visit(next); err != nil { return err } }] *)
Fixpoint visit_all (visit1 : string -> dfs -> option (dfs * option GoError))
    (nexts : list string) (st : dfs) : option (dfs * option GoError) :=
  match nexts with
  | [] => Some (st, None)
  | next :: nexts =>
      match visit1 next st with
      | Some (st, None) => visit_all visit1 nexts st
      | stop => stop
      end
  end.

Fixpoint visit (adj : adjacency) (fuel : nat) (node : string) (st : dfs)
    : option (dfs * option GoError) :=
  match fuel with
  | O => None
  | S fuel =>
      if bool_decide (node ∈ stack st) then Some (st, Some errCycle)
      else if bool_decide (node ∈ seen st) then Some (st, None)
      else
        let st := mkdfs ({[ node ]} ∪ seen st) ({[ node ]} ∪ stack st) in
        match visit_all (visit adj fuel) (adj_of adj node) st with
        | Some (st, None) => Some (st <| stack := stack st ∖ {[ node ]} |>, None)
        | stop => stop
        end
  end.

Definition check_acyclic (nodes : gset string) (adj : adjacency) : option GoError :=
  match visit_all (visit adj (S (size nodes))) (range_keys nodes) (mkdfs ∅ ∅) with
  | Some (_, err) => err
  | None => Some errCycle
  end.

(** The assignment of the default failure policy at the top of the source acts
    on the function's own copy of the spec and has no effect: see
    [runGraph], which treats the empty mode as fail-fast. *)
Definition ValidateExecutableRunSpec (spec : ExecutableRunSpec) : option GoError :=
  if streq (rm_RunID (es_Run spec)) "" then Some (Errorf "run.runId is required")
  else if (length (g_Nodes (es_Graph spec)) =? 0)%nat
  then Some (Errorf "graph.nodes must not be empty")
  else match collect_nodes (g_Nodes (es_Graph spec)) ∅ with
       | Err e => Some e
       | Ok nodes =>
           match collect_edges nodes (g_Edges (es_Graph spec)) ∅ with
           | Err e => Some e
           | Ok adj => check_acyclic nodes adj
           end
       end.

(** ** [ApplyDefaults] *)
(** Each conditional assignment of the loop body reads and writes one field
    only, so [if c { n.F = v }] is written [F := if c then v else F]. *)
Definition apply_defaults_node (defaults : Defaults) (n : Node) : Node :=
  n <| n_ExecutionClass :=
         if streq (n_ExecutionClass n) "" && negb (streq (df_ExecutionClass defaults) "")
         then df_ExecutionClass defaults else n_ExecutionClass n |>
    <| n_ResourceProfile :=
         if bool_decide (n_ResourceProfile n = zero_ResourceProfile)
            && negb (bool_decide (df_ResourceProfile defaults = zero_ResourceProfile))
         then df_ResourceProfile defaults else n_ResourceProfile n |>
    <| n_TimeoutPolicy :=
         if (tp_Seconds (n_TimeoutPolicy n) =? 0)%Z
            && negb (tp_Seconds (df_TimeoutPolicy defaults) =? 0)%Z
         then df_TimeoutPolicy defaults else n_TimeoutPolicy n |>
    <| n_RetryPolicy :=
         if (rtp_MaxAttempts (n_RetryPolicy n) =? 0)%Z
            && bool_decide (n_RetryPolicy n = zero_RetryPolicy)
            && negb (bool_decide (df_RetryPolicy defaults = zero_RetryPolicy))
         then df_RetryPolicy defaults else n_RetryPolicy n |>
    <| n_CleanupPolicy :=
         if bool_decide (n_CleanupPolicy n = zero_CleanupPolicy)
            && negb (bool_decide (df_CleanupPolicy defaults = zero_CleanupPolicy))
         then df_CleanupPolicy defaults else n_CleanupPolicy n |>
    <| n_Placement :=
         if negb (is_some (n_Placement n)) && is_some (df_Placement defaults)
         then df_Placement defaults else n_Placement n |>.

Definition ApplyDefaults (graph : Graph) (defaults : Defaults) : Graph :=
  graph <| g_Nodes := map (apply_defaults_node defaults) (g_Nodes graph) |>.

(** ** What an accepted spec is *)
Definition edge (spec : ExecutableRunSpec) (a b : string) : Prop :=
  [a; b] ∈ g_Edges (es_Graph spec).

Definition binding_ok (b : ArtifactBinding) : Prop :=
  ab_BindingName b <> "" /\ ab_ProducerNodeID b <> "" /\ ab_ProducerOutputName b <> "".

Definition placement_ok (p : PlacementHints) : Prop :=
  ph_RequiredNodeName p <> "" -> forall sel, ph_NodeSelector p = Some sel ->
  let existing := TrimSpace (default "" (sel !! hostnameNodeSelectorKey)) in
  existing = "" \/ existing = ph_RequiredNodeName p.

Record node_ok (n : Node) : Prop := {
  node_ok_id : n_NodeID n <> "";
  node_ok_image : n_Image n <> "";
  node_ok_attempts : (0 <= rtp_MaxAttempts (n_RetryPolicy n))%Z;
  node_ok_timeout : (0 <= tp_Seconds (n_TimeoutPolicy n))%Z;
  node_ok_placement : forall p, n_Placement n = Some p -> placement_ok p;
  node_ok_kueue : forall k key, n_Kueue n = Some k ->
    is_Some (map_of (kh_Labels k) !! key) -> has_prefix userLabelPrefix key = true;
  node_ok_bindings : Forall binding_ok (n_ArtifactBindings n);
}.

Definition node_ids (spec : ExecutableRunSpec) : list string :=
  map n_NodeID (g_Nodes (es_Graph spec)).

Definition edge_ok (ids : list string) (e : list string) : Prop :=
  exists a b, e = [a; b] /\ a <> b /\ a ∈ ids /\ b ∈ ids.

(** The promise of [ValidateExecutableRunSpec] to the executor. *)
Record WellFormed (spec : ExecutableRunSpec) : Prop := {
  wf_run : rm_RunID (es_Run spec) <> "";
  wf_nonempty : g_Nodes (es_Graph spec) <> [];
  wf_nodes : Forall node_ok (g_Nodes (es_Graph spec));
  wf_unique : NoDup (node_ids spec);
  wf_edges : Forall (edge_ok (node_ids spec)) (g_Edges (es_Graph spec));
  wf_acyclic : forall a, ~ tc (edge spec) a a;
}.

(** ** Lemmas: the node and edge loops *)
Lemma first_err_None {A} (check : A -> option GoError) l :
  first_err check l = None <-> Forall (fun x => check x = None) l.
Proof.
  induction l as [|x l IH]; simpl; [split; constructor|].
  rewrite Forall_cons, <- IH. destruct (check x); naive_solver.
Qed.

Lemma check_placement_None n :
  check_placement n = None <-> forall p, n_Placement n = Some p -> placement_ok p.
Proof.
  unfold check_placement, placement_ok, map_get, map_of.
  destruct (n_Placement n) as [p|]; [|naive_solver].
  destruct (streq (ph_RequiredNodeName p) "") eqn:E1; str_tests.
  { split; [intros _ ? [= <-] ?|]; done. }
  destruct (ph_NodeSelector p) as [sel|] eqn:E2; simpl.
  - destruct (streq _ "") eqn:E3; simpl; [|destruct (streq _ (ph_RequiredNodeName p)) eqn:E4];
      simpl; str_tests; split; try done.
    + intros _ ? [= <-] _ ? E. rewrite E2 in E. simplify_eq. auto.
    + intros _ ? [= <-] _ ? E. rewrite E2 in E. simplify_eq. auto.
    + intros H. destruct (H p eq_refl E1 sel E2); done.
  - split; [intros _ ? [= <-] ??; congruence | done].
Qed.

Lemma check_kueue_None n :
  check_kueue n = None <->
  forall k key, n_Kueue n = Some k -> is_Some (map_of (kh_Labels k) !! key) ->
    has_prefix userLabelPrefix key = true.
Proof.
  unfold check_kueue. destruct (n_Kueue n) as [k|]; [|naive_solver].
  destruct (find_first _ _) as [key|] eqn:E; split; try done.
  - intros H. apply find_first_Some in E as [Hin Hp].
    apply elem_of_range_keys, elem_of_dom in Hin.
    rewrite (H k key eq_refl Hin) in Hp. done.
  - intros _ k' key [= <-] Hs. eapply find_first_None in E.
    + apply negb_false_iff in E. exact E.
    + by apply elem_of_range_keys, elem_of_dom.
Qed.

Lemma check_binding_None n b : check_binding n b = None <-> binding_ok b.
Proof. unfold check_binding, binding_ok. cases; str_tests; naive_solver. Qed.

Lemma check_node_None n :
  n_NodeID n <> "" -> check_node n = None <-> node_ok n.
Proof.
  intros Hid. unfold check_node.
  destruct (streq (n_Image n) "") eqn:E1; str_tests; [split; [done|intros []; done]|].
  destruct (Z.ltb_spec (rtp_MaxAttempts (n_RetryPolicy n)) 0); [split; [done|intros []; lia]|].
  destruct (Z.ltb_spec (tp_Seconds (n_TimeoutPolicy n)) 0); [split; [done|intros []; lia]|].
  assert (Hb : first_err (check_binding n) (n_ArtifactBindings n) = None
               <-> Forall binding_ok (n_ArtifactBindings n)).
  { rewrite first_err_None. apply Forall_iff. intros b. apply check_binding_None. }
  pose proof (check_placement_None n) as Hp. pose proof (check_kueue_None n) as Hk.
  split.
  - intros Hnone. destruct (check_placement n); [done|]. destruct (check_kueue n); [done|].
    split; try done; [by apply Hp | by apply Hk | by apply Hb].
  - intros [????? ??]. rewrite (proj2 Hp), (proj2 Hk) by done. by apply Hb.
Qed.

Lemma collect_nodes_spec ns nodes out :
  collect_nodes ns nodes = Ok out <->
  Forall node_ok ns /\ NoDup (map n_NodeID ns)
  /\ (forall x, x ∈ map n_NodeID ns -> x ∉ nodes)
  /\ out = list_to_set (map n_NodeID ns) ∪ nodes.
Proof.
  revert nodes; induction ns as [|n ns IH]; intros nodes; simpl.
  - split.
    + intros [= <-]. split_and!; [constructor | constructor | | set_solver].
      intros x Hx. by apply elem_of_nil in Hx.
    + intros (_ & _ & _ & ->). f_equal. set_solver.
  - rewrite Forall_cons, NoDup_cons.
    destruct (streq (n_NodeID n) "") eqn:E1; str_tests.
    { split; [done|]. intros ([[] _] & _). done. }
    case_bool_decide as Hin.
    { split; [done|]. intros (_ & _ & H & _). destruct (H (n_NodeID n)); [set_solver|done]. }
    pose proof (check_node_None n E1) as Hn.
    destruct (check_node n) as [e|].
    { split; [done|]. intros ([H _] & _). by apply Hn in H. }
    rewrite IH. split.
    + intros (H1 & H2 & H3 & ->). split_and!; try done.
      * by apply Hn.
      * intros Hx. specialize (H3 _ Hx). set_solver.
      * intros x [->|Hx]%elem_of_cons; [done|]. specialize (H3 _ Hx). set_solver.
      * set_solver.
    + intros ([_ H1] & [Hx H2] & H3 & ->). split_and!; try done.
      * intros y Hy. specialize (H3 y). set_solver.
      * set_solver.
Qed.

Lemma adj_of_insert adj a l n :
  adj_of (<[a := l]> adj) n = if decide (a = n) then l else adj_of adj n.
Proof. unfold adj_of. rewrite lookup_insert. by case_decide. Qed.

Lemma collect_edges_spec nodes es adj out :
  collect_edges nodes es adj = Ok out ->
  Forall (edge_ok (elements nodes)) es
  /\ forall a b, b ∈ adj_of out a <-> [a; b] ∈ es \/ b ∈ adj_of adj a.
Proof.
  revert adj; induction es as [|e es IH]; intros adj; simpl.
  { intros [= <-]. split; [constructor|]. set_solver. }
  destruct e as [|a [|b [|]]]; try done.
  destruct (streq a b) eqn:E1; str_tests; [done|].
  case_bool_decide as Ha; simpl; [|done]. case_bool_decide as Hb; simpl; [|done].
  intros (H1 & H2)%IH. split.
  - constructor; [|done]. exists a, b. by rewrite !elem_of_elements.
  - intros x y. rewrite H2, adj_of_insert, elem_of_cons.
    case_decide; subst; [rewrite elem_of_app, list_elem_of_singleton|]; naive_solver.
Qed.

Lemma collect_edges_complete nodes es adj :
  Forall (edge_ok (elements nodes)) es -> exists out, collect_edges nodes es adj = Ok out.
Proof.
  intros H. revert adj; induction H as [|e es (a & b & -> & Hne & Ha & Hb) _ IH];
    intros adj; simpl; [by eexists|].
  apply elem_of_elements in Ha, Hb.
  rewrite (proj2 (streq_neq a b) Hne), !bool_decide_true by done. simpl. apply IH.
Qed.

(** ** Lemmas: the depth-first search

    A node is finished when it has been seen and left the stack. *)
Definition done_set (st : dfs) : gset string := seen st ∖ stack st.

Record dfs_inv (adj : adjacency) (st : dfs) : Prop := {
  inv_stack : stack st ⊆ seen st;
  inv_closed : forall d m, d ∈ done_set st -> m ∈ adj_of adj d -> m ∈ done_set st;
  inv_acyclic : forall d, d ∈ done_set st -> ~ tc (fun a b => b ∈ adj_of adj a) d d;
}.

Lemma done_reach adj st d m :
  dfs_inv adj st -> d ∈ done_set st -> rtc (fun a b => b ∈ adj_of adj a) d m ->
  m ∈ done_set st.
Proof. intros Hinv Hd. induction 1; eauto using inv_closed. Qed.

(** What one call promises: it does not run out of fuel, and either finishes
    [n] and restores the stack, or has found a cycle. *)
Definition visit_post (adj : adjacency) (ns : list string) (st : dfs)
    (out : option (dfs * option GoError)) : Prop :=
  exists st' err, out = Some (st', err) /\
    match err with
    | None => dfs_inv adj st' /\ seen st ⊆ seen st' /\ stack st' = stack st
              /\ forall n, n ∈ ns -> n ∈ done_set st'
    | Some e => e = errCycle /\ exists m, tc (fun a b => b ∈ adj_of adj a) m m
    end.

Lemma visit_all_spec adj visit1 (P : dfs -> Prop) ns st :
  (forall n st, n ∈ ns -> P st -> dfs_inv adj st ->
     visit_post adj [n] st (visit1 n st)) ->
  (forall st st', P st -> seen st ⊆ seen st' -> stack st' = stack st -> P st') ->
  P st -> dfs_inv adj st ->
  visit_post adj ns st (visit_all visit1 ns st).
Proof.
  intros Hvisit Hmono. revert st. induction ns as [|n ns IH]; intros st HP Hinv; simpl.
  { exists st, None. split_and!; try done. intros n Hn. by apply elem_of_nil in Hn. }
  destruct (Hvisit n st) as (st1 & err & -> & Hpost); [set_solver | done | done |].
  destruct err as [e|]; [by exists st1, (Some e)|].
  destruct Hpost as (Hinv1 & Hseen & Hstack & Hn).
  destruct (IH ltac:(intros; apply Hvisit; set_solver) st1) as (st2 & err2 & -> & Hpost2);
    [by eapply Hmono | done |].
  exists st2, err2. split; [done|]. destruct err2 as [e|]; [done|].
  destruct Hpost2 as (Hinv2 & Hseen2 & Hstack2 & Hns).
  split_and!; [done | set_solver | congruence |].
  intros x [->|Hx]%elem_of_cons; [|by apply Hns].
  specialize (Hn n (list_elem_of_here _ _)). unfold done_set in *. rewrite Hstack2. set_solver.
Qed.

(** Entering a fresh node keeps the invariant: the new node is on the stack. *)
Lemma dfs_inv_push adj st n :
  dfs_inv adj st -> n ∉ seen st ->
  dfs_inv adj (mkdfs ({[ n ]} ∪ seen st) ({[ n ]} ∪ stack st)).
Proof.
  intros Hinv Hn.
  assert (Hd : done_set (mkdfs ({[ n ]} ∪ seen st) ({[ n ]} ∪ stack st)) = done_set st).
  { unfold done_set. simpl. set_solver. }
  destruct Hinv as [H1 H2 H3]. split; rewrite ?Hd; simpl; try done. set_solver.
Qed.

(** Leaving a node all of whose successors are finished keeps it. *)
Lemma dfs_inv_pop adj st K n :
  dfs_inv adj st -> stack st = {[ n ]} ∪ K -> n ∉ K ->
  (forall m, m ∈ adj_of adj n -> m ∈ done_set st) ->
  dfs_inv adj (st <| stack := stack st ∖ {[ n ]} |>) /\ stack st ∖ {[ n ]} = K
  /\ n ∈ done_set (st <| stack := stack st ∖ {[ n ]} |>).
Proof.
  intros Hinv HK Hn Hsucc.
  assert (HnS : n ∈ seen st) by (apply (inv_stack _ _ Hinv); set_solver).
  assert (Hd : done_set (st <| stack := stack st ∖ {[ n ]} |>) = {[ n ]} ∪ done_set st).
  { unfold done_set. simpl. rewrite HK. apply set_eq. intros x.
    destruct (decide (x = n)); set_solver. }
  assert (Hnd : n ∉ done_set st) by (unfold done_set; set_solver).
  split_and!; [|set_solver | rewrite Hd; set_solver].
  split; rewrite ?Hd.
  - simpl. pose proof (inv_stack _ _ Hinv). set_solver.
  - intros d m [->%elem_of_singleton|Hm]%elem_of_union Hadj; [set_solver|].
    apply elem_of_union_r. by eapply inv_closed.
  - intros d [->%elem_of_singleton|Hm]%elem_of_union; [|by eapply inv_acyclic].
    intros Hcyc. apply Hnd. destruct (tc_inv_l _ _ _ Hcyc) as (m & Hm & Hr).
    eapply done_reach; eauto.
Qed.

Lemma visit_spec adj nodes fuel n st :
  (forall a b, b ∈ adj_of adj a -> b ∈ nodes) ->
  n ∈ nodes -> size (nodes ∖ seen st) < fuel -> dfs_inv adj st ->
  (forall k, k ∈ stack st -> tc (fun a b => b ∈ adj_of adj a) k n) ->
  visit_post adj [n] st (visit adj fuel n st).
Proof.
  intros Hadj. revert n st. induction fuel as [|fuel IH]; intros n st Hn Hsize Hinv Hpath; [lia|].
  simpl. case_bool_decide as Hstack.
  { exists st, (Some errCycle). split_and!; [done..|]. exists n. by apply Hpath. }
  case_bool_decide as Hseen.
  { exists st, None. split_and!; try done.
    intros x ->%list_elem_of_singleton. unfold done_set. set_solver. }
  set (st1 := mkdfs ({[ n ]} ∪ seen st) ({[ n ]} ∪ stack st)).
  assert (Hsize1 : size (nodes ∖ seen st1) < fuel).
  { assert (size (nodes ∖ seen st1) < size (nodes ∖ seen st)); [|lia].
    apply subset_size. unfold st1. simpl. set_solver. }
  destruct (visit_all_spec adj (visit adj fuel)
              (fun s => seen st1 ⊆ seen s /\ stack s = stack st1) (adj_of adj n) st1)
    as (st2 & err & -> & Hpost).
  { intros m s Hm (Hs1 & Hs2) Hs. apply IH; try done.
    - by eapply Hadj.
    - eapply Nat.le_lt_trans; [apply subseteq_size | exact Hsize1]. set_solver.
    - rewrite Hs2. intros k [->%elem_of_singleton|Hk]%elem_of_union; [by apply tc_once|].
      eapply tc_r; [by apply Hpath|done]. }
  { intros s s' (Ha & Hb) Hc Hd. split; [set_solver|congruence]. }
  { done. }
  { by apply dfs_inv_push. }
  destruct err as [e|]; [by exists st2, (Some e)|].
  destruct Hpost as (Hinv2 & Hseen2 & Hstack2 & Hsucc).
  destruct (dfs_inv_pop adj st2 (stack st) n) as (H1 & H2 & H3); try done.
  eexists _, None. split; [done|]. split_and!; try done.
  - unfold st1 in Hseen2. simpl in *. set_solver.
  - by intros x ->%list_elem_of_singleton.
Qed.

Lemma check_acyclic_spec nodes adj :
  (forall a b, b ∈ adj_of adj a -> a ∈ nodes /\ b ∈ nodes) ->
  check_acyclic nodes adj = None <-> forall a, ~ tc (fun a b => b ∈ adj_of adj a) a a.
Proof.
  intros Hadj. unfold check_acyclic.
  destruct (visit_all_spec adj (visit adj (S (size nodes))) (fun s => stack s = ∅)
              (range_keys nodes) (mkdfs ∅ ∅)) as (st & err & -> & Hpost).
  { intros n s Hn%elem_of_range_keys Hs Hinv. apply (visit_spec adj nodes); try done.
    - intros a b Hb. by destruct (Hadj a b Hb).
    - apply Nat.lt_succ_r, subseteq_size. set_solver.
    - rewrite Hs. set_solver. }
  { intros. congruence. }
  { done. }
  { split; unfold done_set; simpl; set_solver. }
  destruct err as [e|].
  - destruct Hpost as (-> & m & Hm). split; [done|]. intros H. by destruct (H m).
  - destruct Hpost as (Hinv & _ & _ & Hall). split; [|done]. intros _ a Ha.
    destruct (decide (a ∈ nodes)) as [Hin|Hout].
    + apply (inv_acyclic _ _ Hinv a); [|done]. by apply Hall, elem_of_range_keys.
    + destruct (tc_inv_l _ _ _ Ha) as (m & Hm & _). by destruct (Hadj _ _ Hm).
Qed.

(** C38. The submission guard accepts exactly the well-formed specs: node
    identifiers present and pairwise distinct, every node's own fields legal,
    every edge between two different known nodes, and no cycle in the graph.
    In particular the depth-first search always terminates within its fuel, and
    its verdict does not depend on the order in which Go ranges over the maps. *)
Theorem ValidateExecutableRunSpec_iff (spec : ExecutableRunSpec) :
  ValidateExecutableRunSpec spec = None <-> WellFormed spec.
Proof.
  unfold ValidateExecutableRunSpec.
  destruct (streq (rm_RunID (es_Run spec)) "") eqn:E1; str_tests.
  { split; [done|]. by intros []. }
  destruct (Nat.eqb_spec (length (g_Nodes (es_Graph spec))) 0) as [E2|E2].
  { split; [done|]. intros []. by apply length_zero_iff_nil in E2. }
  assert (E2' : g_Nodes (es_Graph spec) <> []) by (by intros H; rewrite H in E2).
  destruct (collect_nodes (g_Nodes (es_Graph spec)) ∅) as [nodes|e] eqn:E3.
  2: { split; [done|]. intros [_ _ H1 H2 _ _].
       assert (Hok : collect_nodes (g_Nodes (es_Graph spec)) ∅
                     = Ok (list_to_set (node_ids spec) ∪ ∅))
         by (apply collect_nodes_spec; split_and!; set_solver).
       congruence. }
  apply collect_nodes_spec in E3 as (Hok & Hdup & _ & Hnodes).
  fold (node_ids spec) in *.
  assert (Hids : forall x, x ∈ nodes <-> x ∈ node_ids spec) by (subst; set_solver).
  assert (Hedge : forall es, Forall (edge_ok (elements nodes)) es <->
                             Forall (edge_ok (node_ids spec)) es).
  { intros es. apply Forall_iff. intros e. unfold edge_ok.
    by setoid_rewrite elem_of_elements; setoid_rewrite Hids. }
  destruct (collect_edges nodes (g_Edges (es_Graph spec)) ∅) as [adj|e] eqn:E4.
  2: { split; [done|]. intros [_ _ _ _ H _]. apply Hedge in H.
       apply collect_edges_complete with (adj := ∅) in H as [out Hout]. congruence. }
  apply collect_edges_spec in E4 as (Hes & Hadj).
  assert (Hadj' : forall a b, b ∈ adj_of adj a <-> edge spec a b).
  { intros a b. rewrite Hadj. unfold adj_of. rewrite lookup_empty. set_solver. }
  rewrite check_acyclic_spec.
  - assert (Htc : forall a, tc (fun a b => b ∈ adj_of adj a) a a <-> tc (edge spec) a a).
    { intros a. split; apply tc_subrel; intros x y; apply Hadj'. }
    setoid_rewrite Htc. split.
    + intros H. split; try done. by apply Hedge.
    + by intros [].
  - intros a b Hab. apply Hadj' in Hab.
    rewrite Forall_forall in Hes. destruct (Hes _ Hab) as (x & y & [= -> ->] & _ & Hx & Hy).
    by rewrite <- !elem_of_elements.
Qed.

(** ** Lemmas: defaults *)

(** What each field of a node is after the defaults have been applied. *)
Definition default_field {A} (unset : A -> bool) (d v : A) : A :=
  if unset v && negb (unset d) then d else v.

Lemma default_field_idemp {A} (unset : A -> bool) d v :
  default_field unset d (default_field unset d v) = default_field unset d v.
Proof.
  unfold default_field.
  destruct (unset v) eqn:Hv, (unset d) eqn:Hd; simpl; by rewrite ?Hv, ?Hd.
Qed.

Definition resources_unset (r : ResourceProfile) := bool_decide (r = zero_ResourceProfile).
Definition timeout_unset (t : TimeoutPolicy) := (tp_Seconds t =? 0)%Z.
Definition retry_unset (r : RetryPolicy) := bool_decide (r = zero_RetryPolicy).
Definition cleanup_unset (c : CleanupPolicy) := bool_decide (c = zero_CleanupPolicy).

Definition placement_unset (p : option PlacementHints) := negb (is_some p).

Lemma apply_defaults_node_fields d n :
  apply_defaults_node d n =
    n <| n_ExecutionClass := default_field (fun s => streq s "") (df_ExecutionClass d) (n_ExecutionClass n) |>
      <| n_ResourceProfile := default_field resources_unset (df_ResourceProfile d) (n_ResourceProfile n) |>
      <| n_TimeoutPolicy := default_field timeout_unset (df_TimeoutPolicy d) (n_TimeoutPolicy n) |>
      <| n_RetryPolicy := default_field retry_unset (df_RetryPolicy d) (n_RetryPolicy n) |>
      <| n_CleanupPolicy := default_field cleanup_unset (df_CleanupPolicy d) (n_CleanupPolicy n) |>
      <| n_Placement := default_field placement_unset (df_Placement d) (n_Placement n) |>.
Proof.
  assert (Hr : forall r, (rtp_MaxAttempts r =? 0)%Z && bool_decide (r = zero_RetryPolicy) = retry_unset r).
  { intros r. unfold retry_unset. case_bool_decide; [by subst|]. by rewrite andb_false_r. }
  unfold apply_defaults_node, default_field, placement_unset.
  by rewrite Hr, negb_involutive.
Qed.

(** Applying the defaults a second time changes nothing. The executor
    applies them at every execution of a run, to the nodes of a record that the
    memory registry shares with its callers, so this is what makes a recovered
    run see the nodes its first execution saw. *)
Theorem ApplyDefaults_idempotent (graph : Graph) (defaults : Defaults) :
  ApplyDefaults (ApplyDefaults graph defaults) defaults = ApplyDefaults graph defaults.
Proof.
  unfold ApplyDefaults. simpl. f_equal. rewrite map_map. apply map_ext. intros n.
  rewrite !apply_defaults_node_fields. simpl. by rewrite !default_field_idemp.
Qed.

(** A default that would itself pass the checks made on nodes. *)
Record defaults_ok (d : Defaults) : Prop := {
  dok_attempts : (0 <= rtp_MaxAttempts (df_RetryPolicy d))%Z;
  dok_timeout : (0 <= tp_Seconds (df_TimeoutPolicy d))%Z;
  dok_placement : forall p, df_Placement d = Some p -> placement_ok p;
}.

Lemma apply_defaults_node_ok d n : defaults_ok d -> node_ok n -> node_ok (apply_defaults_node d n).
Proof.
  intros [Ha Ht Hp] [H1 H2 H3 H4 H5 H6 H7]. rewrite apply_defaults_node_fields.
  split; simpl; try done; unfold default_field; case_match; try done.
Qed.

Definition with_defaults (spec : ExecutableRunSpec) : ExecutableRunSpec :=
  spec <| es_Graph := ApplyDefaults (es_Graph spec) (es_Defaults spec) |>.

(** If the defaults of a spec are themselves legal, the spec the executor
    runs after filling them in is still one the guard accepts: names, edges and
    acyclicity are untouched and every node field stays legal. (The guard does
    not look at the defaults: without the hypothesis this fails, see
    [ApplyDefaults_unchecked].) *)
Theorem ApplyDefaults_valid (spec : ExecutableRunSpec) :
  defaults_ok (es_Defaults spec) ->
  ValidateExecutableRunSpec spec = None ->
  ValidateExecutableRunSpec (with_defaults spec) = None.
Proof.
  intros Hd. rewrite !ValidateExecutableRunSpec_iff.
  assert (Hids : node_ids (with_defaults spec) = node_ids spec).
  { unfold node_ids. simpl. rewrite map_map. apply map_ext. intros n.
    by rewrite apply_defaults_node_fields. }
  intros [H1 H2 H3 H4 H5 H6]. split; rewrite ?Hids; simpl; try done.
  - by intros ?%map_eq_nil.
  - apply List.Forall_map. eapply Forall_impl; [exact H3|]. intros n. by apply apply_defaults_node_ok.
Qed.
End validate.

(** ** Concrete specs *)
Definition ex_node (id : string) : Node :=
  zero_Node <| n_NodeID := id |> <| n_Image := "img" |>.

Definition ex_spec : ExecutableRunSpec :=
  zero_ExecutableRunSpec
    <| es_Run := zero_RunMetadata <| rm_RunID := "r1" |> |>
    <| es_Graph := mkGraph [ex_node "a"; ex_node "b"; ex_node "c"]
                     [["a"; "b"]; ["b"; "c"]; ["a"; "c"]] |>.

Example ex_spec_accepted :
  @ValidateExecutableRunSpec ascii_tables elements_order ex_spec = None.
Proof. vm_compute. reflexivity. Qed.

Example ex_cycle_rejected :
  @ValidateExecutableRunSpec ascii_tables elements_order
    (ex_spec <| es_Graph := mkGraph [ex_node "a"; ex_node "b"] [["a"; "b"]; ["b"; "a"]] |>)
  = Some errCycle.
Proof. vm_compute. reflexivity. Qed.

Lemma ApplyDefaults_valid_witness :
  @ValidateExecutableRunSpec ascii_tables elements_order
    (with_defaults (ex_spec <| es_Defaults := zero_Defaults
        <| df_RetryPolicy := zero_RetryPolicy <| rtp_MaxAttempts := 3%Z |> |> |>)) = None.
Proof.
  apply ApplyDefaults_valid.
  - split; simpl; [lia | lia | done].
  - vm_compute. reflexivity.
Defined.

(** The guard accepts this spec, yet the nodes that are executed carry a
    negative attempt budget taken from the defaults. *)
Theorem ApplyDefaults_unchecked :
  let spec := ex_spec <| es_Defaults := zero_Defaults
        <| df_RetryPolicy := zero_RetryPolicy <| rtp_MaxAttempts := (-1)%Z |> |> |> in
  @ValidateExecutableRunSpec ascii_tables elements_order spec = None
  /\ @ValidateExecutableRunSpec ascii_tables elements_order (with_defaults spec) <> None.
Proof. split; [vm_compute; reflexivity | vm_compute; discriminate]. Qed.

