(* ===== verification/GoUtf8.v ===== *)
(** * Package [unicode/utf8]: encoding and decoding are inverse

    A rune that is written is read back, whatever follows it; decoding only ever
    gives runes that can be written; so replacing the invalid bytes of a string is
    idempotent. *)
From S2P Require Import Prelude GoStrings.
From Stdlib Require Import Ascii ZifyN.

(** The runes that have an encoding. *)
Definition scalar (r : N) : Prop := (r < 55296 \/ 57343 < r <= 1114111)%N.

Lemma bytes_N_app s t : bytes_N (s +:+ t) = bytes_N s ++ bytes_N t.
Proof. unfold bytes_N. by rewrite chars_app, map_app. Qed.

Lemma bytes_N_of l : Forall (fun b => b < 256)%N l -> bytes_N (bytes_of l) = l.
Proof.
  induction 1 as [|b l Hb _ IH]; [done|].
  change (N_of_ascii (ascii_of_N b) :: bytes_N (bytes_of l) = b :: l). by rewrite IH, N_ascii_embedding.
Qed.

Lemma bytes_N_inj s t : bytes_N s = bytes_N t -> s = t.
Proof.
  unfold bytes_N. intros H. apply chars_inj. revert H. generalize (chars s), (chars t).
  induction l as [|a l IH]; intros [|b m] H; try done. injection H as Hab Hl. f_equal; [|by apply IH].
  by rewrite <- (ascii_N_embedding a), Hab, ascii_N_embedding.
Qed.

Ltac div_mod_lia := zify; Z.to_euclidean_division_equations; lia.

(** Decide the comparisons of a goal by arithmetic. *)
Ltac decide_ranges :=
  unfold second_ok, cont_ok, in_range;
  repeat match goal with
  | |- context [(?a <? ?b)%N] => destruct (N.ltb_spec a b); try (exfalso; div_mod_lia)
  | |- context [(?a <=? ?b)%N] => destruct (N.leb_spec a b); try (exfalso; div_mod_lia)
  | |- context [(?a =? ?b)%N] => destruct (N.eqb_spec a b); try (exfalso; div_mod_lia)
  end; cbn [andb orb].

(** The bytes of an encoded rune. *)
Definition rune_bytes (r : N) : list N :=
  (if r <? 128 then [r]
   else if r <? 2048 then [192 + r / 64; 128 + r mod 64]
   else if r <? 65536 then [224 + r / 4096; 128 + (r / 64) mod 64; 128 + r mod 64]
   else [240 + r / 262144; 128 + (r / 4096) mod 64; 128 + (r / 64) mod 64; 128 + r mod 64])%N.

Lemma bytes_N_encode r : scalar r -> bytes_N (encode_rune r) = rune_bytes r.
Proof.
  intros Hr. unfold encode_rune.
  assert (H : ((1114111 <? r) || in_range 55296 57343 r)%N = false).
  { unfold scalar in Hr. by decide_ranges. }
  rewrite H. unfold rune_bytes, scalar in *.
  destruct (N.ltb_spec r 128); [|destruct (N.ltb_spec r 2048); [|destruct (N.ltb_spec r 65536)]];
    apply bytes_N_of; repeat constructor; div_mod_lia.
Qed.

(** The digits of a rune in base 64. *)
Lemma rune_digits r :
  exists a b c d, (r = a * 262144 + b * 4096 + c * 64 + d /\ b < 64 /\ c < 64 /\ d < 64 /\
    r / 64 = a * 4096 + b * 64 + c /\ r / 4096 = a * 64 + b /\ r / 262144 = a /\
    r mod 64 = d /\ (r / 64) mod 64 = c /\ (r / 4096) mod 64 = b)%N.
Proof.
  exists (r / 262144)%N, ((r / 4096) mod 64)%N, ((r / 64) mod 64)%N, (r mod 64)%N. split_and!; div_mod_lia.
Qed.

Ltac decide_linear :=
  unfold second_ok, cont_ok, in_range;
  repeat match goal with
  | |- context [(?a <? ?b)%N] => destruct (N.ltb_spec a b); try (exfalso; lia)
  | |- context [(?a <=? ?b)%N] => destruct (N.leb_spec a b); try (exfalso; lia)
  | |- context [(?a =? ?b)%N] => destruct (N.eqb_spec a b); try (exfalso; lia)
  end; cbn [andb orb].

Lemma decode_encode_rune r rest :
  scalar r -> decode_rune (rune_bytes r ++ rest) = (r, length (rune_bytes r)).
Proof.
  intros Hr. unfold scalar, rune_bytes in *.
  destruct (rune_digits r) as (a & b & c & d & E & Hb & Hc & Hd & -> & -> & -> & -> & -> & ->).
  destruct (N.ltb_spec r 128); [|destruct (N.ltb_spec r 2048); [|destruct (N.ltb_spec r 65536)]];
    cbn [app length decode_rune]; decide_linear; f_equal; lia.
Qed.

Lemma decode_rune_scalar bs : Forall (fun b => b < 256)%N bs -> scalar (decode_rune bs).1.
Proof.
  intros H. unfold decode_rune, scalar, rune_error. repeat case_match; cbn [fst]; try lia;
  unfold second_ok, cont_ok, in_range in *; destruct_and?; repeat case_match; rewrite ?Forall_cons in H; destruct_and?;
  rewrite ?andb_true_iff, ?N.leb_le, ?N.ltb_lt, ?N.ltb_ge, ?N.eqb_eq, ?N.eqb_neq in *; lia.
Qed.

Lemma bytes_N_lt s : Forall (fun b => b < 256)%N (bytes_N s).
Proof.
  unfold bytes_N. induction (chars s) as [|a l IH]; constructor; [|done]. apply N_ascii_bounded.
Qed.

Lemma bytes_N_length s : length (bytes_N s) = String.length s.
Proof. unfold bytes_N. by rewrite length_map, chars_length. Qed.

Lemma runes_scalar s : Forall scalar (runes s).
Proof.
  unfold runes. generalize (bytes_N_lt s). generalize (bytes_N s), (String.length s).
  intros bs n. revert bs. induction n as [|n IH]; intros [|b bs] H; cbn [runes_fuel]; try constructor.
  pose proof (decode_rune_scalar _ H) as Hs. destruct (decode_rune (b :: bs)) as [r w].
  constructor; [done|]. by apply IH, Forall_drop.
Qed.

(** The text of a list of runes. *)
Definition text_of (rs : list N) : string := str_join "" (map encode_rune rs).

Lemma str_join_cons x l : str_join "" (x :: l) = x +:+ str_join "" l.
Proof. destruct l; [symmetry; apply str_app_nil|done]. Qed.

Lemma bytes_N_join (f : N -> string) rs :
  bytes_N (str_join "" (map f rs)) = concat (map (fun r => bytes_N (f r)) rs).
Proof.
  induction rs as [|r rs IH]; [done|]. cbn [map concat]. by rewrite str_join_cons, bytes_N_app, IH.
Qed.

Lemma rune_bytes_nonempty r : 1 <= length (rune_bytes r).
Proof. unfold rune_bytes. repeat case_match; cbn; lia. Qed.

Lemma runes_text_of rs : Forall scalar rs -> runes (text_of rs) = rs.
Proof.
  intros H. unfold runes. rewrite <- bytes_N_length. unfold text_of. rewrite bytes_N_join.
  enough (He : forall fuel, length (concat (map (fun r => bytes_N (encode_rune r)) rs)) <= fuel ->
    runes_fuel fuel (concat (map (fun r => bytes_N (encode_rune r)) rs)) = rs) by (by apply He).
  induction H as [|r rs Hr _ IH]; intros fuel Hf; [by destruct fuel|].
  cbn [map concat] in *. rewrite bytes_N_encode in * by done. rewrite length_app in Hf.
  pose proof (rune_bytes_nonempty r). destruct fuel as [|fuel]; [lia|].
  assert (E : rune_bytes r ++ concat (map (fun r => bytes_N (encode_rune r)) rs) <> [])
    by (destruct (rune_bytes r); [cbn in *; lia|done]).
  cbn [runes_fuel]. destruct (rune_bytes r ++ _) as [|b bs] eqn:Eb; [done|]. rewrite <- Eb.
  rewrite decode_encode_rune by done. rewrite drop_app_length. f_equal. apply IH. lia.
Qed.

Lemma text_of_runes_idem s : text_of (runes (text_of (runes s))) = text_of (runes s).
Proof. by rewrite runes_text_of by apply runes_scalar. Qed.
