(* ===== verification/JsonText.v ===== *)
(** * [encoding/json]: the text of a value

    The text [json.Marshal] writes for a tree, with the escapes of its strings
    (quotes, control characters, the characters of HTML, the two line separators of
    JavaScript), and the reading of a text: white space, literals, numbers, strings
    with all escapes and surrogate pairs, arrays and objects. A text is decoded only
    when all of it is valid, so reading the tree first changes nothing. Left out: the
    limit of 10,000 nested values. Last, reading what was written. *)
From S2P Require Import Prelude GoStrings GoUtf8 GoErrors GoDuration GoStrconv Spec JsonTree.
From Stdlib Require Import Ascii ZifyN.

(** ** Writing *)
Definition unicode_escape (r : N) : string := "\u" +:+ hex_fixed 4 r.

Definition escape_rune (r : N) : string :=
  match r with
  | 34 | 92 => bytes_of [92; r]
  | 8 => "\b"
  | 12 => "\f"
  | 10 => "\n"
  | 13 => "\r"
  | 9 => "\t"
  | 60 | 62 | 38 | 8232 | 8233 => unicode_escape r
  | _ => if (r <? 32)%N then unicode_escape r else encode_rune r
  end%N.

Definition json_quote (s : string) : string :=
  dquote +:+ str_join "" (map escape_rune (runes s)) +:+ dquote.

Fixpoint json_text (j : json) : string :=
  match j with
  | JNull => "null"
  | JBool true => "true"
  | JBool false => "false"
  | JInt n => Itoa n
  | JFrac literal => literal
  | JStr s => json_quote s
  | JArr values => "[" +:+ str_join "," (map json_text values) +:+ "]"
  | JObj members =>
      "{" +:+ str_join "," (map (fun kv => json_quote kv.1 +:+ ":" +:+ json_text kv.2) members) +:+ "}"
  end.

(** ** Reading, over the bytes of the text *)
Definition json_space (b : N) : bool := ((b =? 32) || (b =? 9) || (b =? 10) || (b =? 13))%N.

Fixpoint skip_space (bs : list N) : list N :=
  match bs with
  | b :: bs' => if json_space b then skip_space bs' else bs
  | [] => []
  end.

Fixpoint span {A} (P : A -> bool) (l : list A) : list A * list A :=
  match l with
  | x :: l' => if P x then let '(a, b) := span P l' in (x :: a, b) else ([], l)
  | [] => ([], [])
  end.

Definition hex_value (b : N) : option N :=
  (if in_range 48 57 b then Some (b - 48)
   else if in_range 97 102 b then Some (b - 87)
   else if in_range 65 70 b then Some (b - 55)
   else None)%N.

Definition hex4 (bs : list N) : option (N * list N) :=
  match bs with
  | a :: b :: c :: d :: rest =>
      match hex_value a, hex_value b, hex_value c, hex_value d with
      | Some a, Some b, Some c, Some d => Some ((((a * 16 + b) * 16 + c) * 16 + d)%N, rest)
      | _, _, _, _ => None
      end
  | _ => None
  end.

(** [utf16.DecodeRune], when both are halves of a pair. *)
Definition surrogate_pair (r1 r2 : N) : option N :=
  if in_range 55296 56319 r1 && in_range 56320 57343 r2
  then Some ((r1 - 55296) * 1024 + (r2 - 56320) + 65536)%N else None.

(** The rune of [\u] and its digits: a half of a pair alone is the replacement
    character. *)
Definition unicode_unescape (bs : list N) : option (N * list N) :=
  match hex4 bs with
  | None => None
  | Some (r, rest) =>
      if in_range 55296 57343 r then
        match rest with
        | 92%N :: 117%N :: low =>
            match hex4 low with
            | Some (r2, rest2) =>
                match surrogate_pair r r2 with
                | Some r => Some (r, rest2)
                | None => Some (rune_error, rest)
                end
            | None => Some (rune_error, rest)
            end
        | _ => Some (rune_error, rest)
        end
      else Some (r, rest)
  end.

Definition unescape (b : N) : option N :=
  match b with
  | 34 | 92 | 47 => Some b
  | 98 => Some 8
  | 102 => Some 12
  | 110 => Some 10
  | 114 => Some 13
  | 116 => Some 9
  | _ => None
  end%N.

Definition emit (r : N) (read : option (string * list N)) : option (string * list N) :=
  match read with
  | Some (s, rest) => Some (encode_rune r +:+ s, rest)
  | None => None
  end.

(** The rest of a string, after its opening quote. *)
Fixpoint read_string (fuel : nat) (bs : list N) : option (string * list N) :=
  match fuel, bs with
  | S fuel, b :: rest =>
      if (b =? 34)%N then Some ("", rest)
      else if (b =? 92)%N then
        match rest with
        | 117%N :: rest =>
            match unicode_unescape rest with
            | Some (r, rest) => emit r (read_string fuel rest)
            | None => None
            end
        | c :: rest =>
            match unescape c with
            | Some r => emit r (read_string fuel rest)
            | None => None
            end
        | [] => None
        end
      else if (b <? 32)%N then None
      else let '(r, w) := decode_rune bs in emit r (read_string fuel (drop w bs))
  | _, _ => None
  end.

Definition digit_byte (b : N) : bool := in_range 48 57 b.
Definition number_byte (b : N) : bool :=
  (digit_byte b || (b =? 43) || (b =? 45) || (b =? 46) || (b =? 69) || (b =? 101))%N.

Definition strip_minus (bs : list N) : bool * list N :=
  match bs with
  | 45%N :: bs => (true, bs)
  | _ => (false, bs)
  end.

(** One zero, or digits of which the first is not zero. *)
Definition integer_digits (ds : list N) : bool :=
  match ds with
  | [] => false
  | [_] => true
  | d :: _ => negb (d =? 48)%N
  end.

Definition nonempty (ds : list N) : bool := match ds with [] => false | _ => true end.

(** The fraction and the exponent of a number. *)
Definition number_tail (bs : list N) : bool :=
  let '(ok, bs) := match bs with
                   | 46%N :: bs => let '(ds, bs) := span digit_byte bs in (nonempty ds, bs)
                   | _ => (true, bs)
                   end in
  ok && match bs with
        | [] => true
        | e :: bs =>
            let bs := match bs with 43%N :: bs => bs | 45%N :: bs => bs | _ => bs end in
            let '(ds, bs) := span digit_byte bs in
            ((e =? 69) || (e =? 101))%N && nonempty ds && negb (nonempty bs)
        end.

Definition read_number (literal : list N) : option json :=
  let '(neg, bs) := strip_minus literal in
  let '(ds, tail) := span digit_byte bs in
  if integer_digits ds then
    match tail with
    | [] => (fun n => JInt (if neg then - n else n)%Z) <$> parse_digits (bytes_of ds) 0
    | _ => if number_tail tail then Some (JFrac (bytes_of literal)) else None
    end
  else None.

(** A value, the rest of an array after its opening bracket and first white space,
    the rest of an object. *)
Fixpoint read_value (fuel : nat) (bs : list N) : option (json * list N) :=
  match fuel with
  | O => None
  | S fuel =>
      match skip_space bs with
      | 110 :: 117 :: 108 :: 108 :: rest => Some (JNull, rest)
      | 116 :: 114 :: 117 :: 101 :: rest => Some (JBool true, rest)
      | 102 :: 97 :: 108 :: 115 :: 101 :: rest => Some (JBool false, rest)
      | 34 :: rest =>
          match read_string (length rest) rest with
          | Some (s, rest) => Some (JStr s, rest)
          | None => None
          end
      | 91 :: rest =>
          match skip_space rest with
          | 93 :: rest => Some (JArr [], rest)
          | _ => match read_values fuel rest with
                 | Some (values, rest) => Some (JArr values, rest)
                 | None => None
                 end
          end
      | 123 :: rest =>
          match skip_space rest with
          | 125 :: rest => Some (JObj [], rest)
          | _ => match read_members fuel rest with
                 | Some (members, rest) => Some (JObj members, rest)
                 | None => None
                 end
          end
      | bs =>
          let '(literal, rest) := span number_byte bs in
          match read_number literal with
          | Some j => Some (j, rest)
          | None => None
          end
      end
  end%N
with read_values (fuel : nat) (bs : list N) : option (list json * list N) :=
  match fuel with
  | O => None
  | S fuel =>
      match read_value fuel bs with
      | None => None
      | Some (v, rest) =>
          match skip_space rest with
          | 93 :: rest => Some ([v], rest)
          | 44 :: rest =>
              match read_values fuel rest with
              | Some (vs, rest) => Some (v :: vs, rest)
              | None => None
              end
          | _ => None
          end
      end
  end%N
with read_members (fuel : nat) (bs : list N) : option (list (string * json) * list N) :=
  match fuel with
  | O => None
  | S fuel =>
      match skip_space bs with
      | 34 :: rest =>
          match read_string (length rest) rest with
          | None => None
          | Some (k, rest) =>
              match skip_space rest with
              | 58 :: rest =>
                  match read_value fuel rest with
                  | None => None
                  | Some (v, rest) =>
                      match skip_space rest with
                      | 125 :: rest => Some ([(k, v)], rest)
                      | 44 :: rest =>
                          match read_members fuel rest with
                          | Some (kvs, rest) => Some ((k, v) :: kvs, rest)
                          | None => None
                          end
                      | _ => None
                      end
                  end
              | _ => None
              end
          end
      | _ => None
      end
  end%N.

(** [json.Unmarshal] up to the tree: one value and nothing after it. Every step
    consumes a byte, so the length of the text is fuel enough. *)
Definition json_read (s : string) : option json :=
  match read_value (S (String.length s)) (bytes_N s) with
  | Some (j, rest) => if nonempty (skip_space rest) then None else Some j
  | None => None
  end.

(** A text with its quotes written as apostrophes. *)
Definition quoted (s : string) : string :=
  ascii_map (fun a => if Ascii.eqb a "'" then ascii_of_N 34 else a) s.

Example json_read_ex :
  json_read (quoted " { 'a' : [1, -2.5e3, '\u0041\ud83d\ude00' , null ] } ") =
    Some (JObj [("a", JArr [JInt 1; JFrac "-2.5e3"; JStr ("A" +:+ encode_rune 128512); JNull])]) /\
  json_read "01" = None /\ json_read "[1,]" = None /\ json_read "{} x" = None /\
  json_text (JObj [("k", JStr ("<" +:+ dquote))]) = quoted "{'k':'\u003c\''}" /\
  json_read (json_text (JArr [JInt (-7); JObj []; JStr (bytes_of [8; 31; 127]%N)])) =
    Some (JArr [JInt (-7); JObj []; JStr (bytes_of [8; 31; 127]%N)]).
Proof. vm_compute. done. Qed.
