(* ===== verification/JsonTextFacts.v ===== *)
(** * Reading back the text of a JSON value

    What is written for a tree of integers and UTF-8 strings is read as that tree;
    the fuel of the reader is always enough. *)
From S2P Require Import Prelude GoStrings GoUtf8 GoErrors GoDuration GoStrconv Spec JsonTree JsonText.
From Stdlib Require Import Ascii ZifyN.
From stdpp Require Import numbers pretty.

(** ** Strings *)
Definition hex_byte (n : N) : N := (if n <? 10 then 48 + n else 87 + n)%N.

Lemma hex_value_digit n : (n < 16)%N -> hex_value (hex_byte n) = Some n.
Proof. intros H. unfold hex_value, hex_byte. decide_ranges; f_equal; lia. Qed.

Lemma bytes_N_hex_digit n : (n < 16)%N -> bytes_N (hex_digit n) = [hex_byte n].
Proof. intros H. apply (bytes_N_of [hex_byte n]). repeat constructor. unfold hex_byte. case_match; lia. Qed.

Lemma hex4_fixed r rest : (r < 65536)%N -> hex4 (bytes_N (hex_fixed 4 r) ++ rest) = Some (r, rest).
Proof.
  intros H. cbn [hex_fixed]. rewrite !bytes_N_app, !bytes_N_hex_digit by (by apply N.mod_lt).
  change (bytes_N "") with (@nil N). cbn [app hex4]. rewrite !hex_value_digit by (by apply N.mod_lt). f_equal. f_equal. div_mod_lia.
Qed.

(** The step of the reader on an escaped rune. *)
Definition reads_as (bs : list N) (r : N) : Prop :=
  forall fuel rest, read_string (S fuel) (bs ++ rest) = emit r (read_string fuel rest).

Lemma reads_unicode r :
  (r < 55296)%N -> reads_as (bytes_N (unicode_escape r)) r.
Proof.
  intros Hr fuel rest. unfold unicode_escape. rewrite bytes_N_app, <- app_assoc.
  change (bytes_N "\u") with [92; 117]%N. cbn [app read_string].
  change (92 =? 34)%N with false. change (92 =? 92)%N with true. cbn iota.
  unfold unicode_unescape. rewrite hex4_fixed by lia.
  assert (E : in_range 55296 57343 r = false) by (by decide_ranges). by rewrite E.
Qed.

Lemma reads_plain r : scalar r -> (32 <= r)%N -> r <> 34%N -> r <> 92%N -> reads_as (rune_bytes r) r.
Proof.
  intros Hs H32 H34 H92 fuel rest. pose proof (rune_bytes_nonempty r) as Hn.
  assert (Hb : exists b bs, rune_bytes r = b :: bs /\ ((b =? 34)%N = false /\ (b =? 92)%N = false /\ (b <? 32)%N = false)).
  { unfold rune_bytes. repeat case_match; eexists _, _; (split; [reflexivity|]);
      decide_ranges; repeat split; done || (exfalso; div_mod_lia). }
  destruct Hb as (b & bs & Eb & E1 & E2 & E3). pose proof (decode_encode_rune r rest Hs) as Hd.
  rewrite Eb in *. cbn [app read_string]. rewrite E1, E2, E3.
  change (b :: bs ++ rest) with ((b :: bs) ++ rest). rewrite Hd. by rewrite drop_app_length.
Qed.

Lemma reads_escaped r : scalar r -> reads_as (bytes_N (escape_rune r)) r.
Proof.
  intros Hs.
  assert (Hd : r <> 34%N -> r <> 92%N ->
    reads_as (bytes_N (if (r <? 32)%N then unicode_escape r else encode_rune r)) r).
  { intros H34 H92. destruct (N.ltb_spec r 32); [apply reads_unicode; lia|].
    rewrite bytes_N_encode by done. by apply reads_plain. }
  unfold escape_rune. repeat case_match; try (by apply Hd); try (by intros fuel rest);
    by apply reads_unicode.
Qed.

Lemma length_escaped r : 1 <= length (bytes_N (escape_rune r)).
Proof.
  assert (H : forall r, 1 <= length (bytes_N (encode_rune r))).
  { clear. intros r. rewrite bytes_N_length. unfold encode_rune. generalize (if ((1114111 <? r) || in_range 55296 57343 r)%N then rune_error else r). intros r'.
    destruct (r' <? 128)%N; [cbn; lia|]. destruct (r' <? 2048)%N; [cbn; lia|].
    destruct (r' <? 65536)%N; cbn; lia. }
  assert (Hu : forall r, 1 <= length (bytes_N (unicode_escape r))).
  { intros r'. unfold unicode_escape. rewrite bytes_N_app, length_app. cbn. lia. }
  unfold escape_rune. repeat case_match; try apply H; try apply Hu; cbn; lia.
Qed.

Lemma reads_escapes rs rest fuel :
  Forall scalar rs -> length (concat (map (fun r => bytes_N (escape_rune r)) rs)) < fuel ->
  read_string fuel (concat (map (fun r => bytes_N (escape_rune r)) rs) ++ 34%N :: rest) =
  Some (text_of rs, rest).
Proof.
  intros H. revert fuel. induction H as [|r rs Hr _ IH]; intros [|fuel] Hf; try (cbn in Hf; lia); [done|].
  cbn [map concat] in *. rewrite length_app in Hf. pose proof (length_escaped r).
  rewrite <- app_assoc, (reads_escaped r Hr fuel), IH by lia. unfold text_of, emit. cbn [map].
  by rewrite str_join_cons.
Qed.

Definition quote_bytes (s : string) : list N :=
  concat (map (fun r => bytes_N (escape_rune r)) (runes s)) ++ [34%N].

Lemma bytes_N_quote s : bytes_N (json_quote s) = 34%N :: quote_bytes s.
Proof. unfold json_quote. by rewrite !bytes_N_app, bytes_N_join. Qed.

Lemma read_quoted s rest :
  valid_utf8 s ->
  read_string (length (quote_bytes s ++ rest)) (quote_bytes s ++ rest) = Some (s, rest).
Proof.
  intros Hs. unfold quote_bytes. rewrite <- app_assoc. cbn [app].
  rewrite reads_escapes; [|apply runes_scalar|rewrite length_app; cbn; lia].
  f_equal. f_equal. exact Hs.
Qed.

(** ** Integers *)
Lemma bytes_of_N s : bytes_of (bytes_N s) = s.
Proof. apply bytes_N_inj, bytes_N_of, bytes_N_lt. Qed.

Lemma digit_of_byte a d : digit_of a = Some d -> digit_byte (N_of_ascii a) = true.
Proof. unfold digit_of, digit_byte. by destruct (in_range 48 57 _). Qed.

Lemma parse_digits_bytes s acc n : parse_digits s acc = Some n -> Forall (fun b => digit_byte b = true) (bytes_N s).
Proof.
  unfold bytes_N. revert acc. induction s as [|a s IH]; intros acc; cbn; [constructor|].
  destruct (digit_of a) as [d|] eqn:E; [|done]. intros H. constructor; [by eapply digit_of_byte|by eapply IH].
Qed.

Lemma pretty_N_go_nonzero n s :
  (0 < n)%N -> exists a t, pretty_N_go n s = String a t /\ (N_of_ascii a =? 48)%N = false.
Proof.
  revert s. induction (N.lt_wf_0 n) as [n _ IH]. intros s Hn. rewrite pretty_N_go_step by done.
  destruct (decide (0 < n / 10)%N) as [Hq|Hq].
  - apply IH; [by apply N.div_lt|done].
  - assert (n / 10 = 0)%N as -> by lia. rewrite pretty_N_go_0. eexists _, _. split; [reflexivity|].
    assert (H : (0 < n < 10)%N) by (pose proof (N.div_mod n 10); pose proof (N.mod_lt n 10); lia).
    rewrite N.mod_small by lia.
    assert (E : n = N.of_nat (N.to_nat n)) by lia. rewrite E.
    assert (0 < N.to_nat n < 10)%nat as Hk by lia. revert Hk. generalize (N.to_nat n) as k. intros k Hk.
    do 10 (destruct k as [|k]; [done || lia|]). lia.
Qed.

Lemma integer_digits_pretty (n : N) : integer_digits (bytes_N (pretty n)) = true.
Proof.
  unfold pretty, pretty_N. case_decide as E; [done|].
  destruct (pretty_N_go_nonzero n "" ltac:(lia)) as (a & t & -> & Ha). unfold bytes_N. cbn.
  destruct (map _ _); [done|]. by rewrite Ha.
Qed.

Lemma span_all {A} (P : A -> bool) l rest :
  Forall (fun x => P x = true) l -> match rest with x :: _ => P x = false | [] => True end ->
  span P (l ++ rest) = (l, rest).
Proof.
  intros H Hr. induction H as [|x l Hx _ IH]; cbn.
  - destruct rest as [|x rest]; [done|]. cbn. by rewrite Hr.
  - by rewrite Hx, IH.
Qed.

Lemma read_digits (n : N) :
  let '(ds, tail) := span digit_byte (bytes_N (pretty n)) in
  integer_digits ds = true /\ tail = [] /\ parse_digits (bytes_of ds) 0 = Some (Z.of_N n).
Proof.
  pose proof (parse_digits_pretty n) as H. pose proof (parse_digits_bytes _ _ _ H) as Hd.
  rewrite <- (app_nil_r (bytes_N (pretty n))), span_all by done.
  by rewrite integer_digits_pretty, bytes_of_N.
Qed.

Definition starts (bs : list N) : Prop :=
  exists b rest, bs = b :: rest /\ b ∈ [45; 48; 49; 50; 51; 52; 53; 54; 55; 56; 57]%N.

Lemma digit_starts (n : N) : starts (bytes_N (pretty n)) /\ strip_minus (bytes_N (pretty n)) = (false, bytes_N (pretty n)).
Proof.
  destruct (pretty_N_starts n) as (a & s & d & E & Ed). rewrite E. apply digit_of_byte in Ed.
  unfold bytes_N. cbn [String.list_ascii_of_string map]. revert Ed. generalize (N_of_ascii a) as b.
  intros b Ed. assert (H : b ∈ [48; 49; 50; 51; 52; 53; 54; 55; 56; 57]%N).
  { unfold digit_byte, in_range in Ed. rewrite andb_true_iff, !N.leb_le in Ed. rewrite !elem_of_cons. lia. }
  split; [exists b, (map N_of_ascii (chars s)); split; [done|by right]|].
  repeat (apply elem_of_cons in H as [->|H]; [done|]). by apply elem_of_nil in H.
Qed.

Lemma integer_text z :
  starts (bytes_N (Itoa z)) /\ read_number (bytes_N (Itoa z)) = Some (JInt z) /\
  Forall (fun b => number_byte b = true) (bytes_N (Itoa z)).
Proof.
  assert (Hn : forall n : N, Forall (fun b => number_byte b = true) (bytes_N (pretty n))).
  { intros n. eapply Forall_impl; [exact (parse_digits_bytes _ _ _ (parse_digits_pretty n))|].
    intros b Hb. unfold number_byte. by rewrite Hb. }
  unfold read_number. destruct z as [|p|p].
  - split; [|split; [done|apply (Hn 0%N)]]. exists 48%N, []. split; [done|]. right. left.
  - change (Itoa (Z.pos p)) with (pretty (N.pos p)). destruct (digit_starts (N.pos p)) as [Hs ->].
    pose proof (read_digits (N.pos p)) as Hr. destruct (span _ _) as [ds tail].
    destruct Hr as (-> & -> & ->). split; [done|split; [done|apply Hn]].
  - change (bytes_N (Itoa (Z.neg p))) with (45%N :: bytes_N (pretty (N.pos p))). cbn [strip_minus].
    pose proof (read_digits (N.pos p)) as Hr. destruct (span _ _) as [ds tail].
    destruct Hr as (-> & -> & ->). split; [|split; [done|by constructor]].
    eexists _, _. split; [reflexivity|]. left.
Qed.

(** ** Values *)

(** The trees the program writes: no number but integers, strings of UTF-8. *)
Fixpoint written (j : json) : bool :=
  match j with
  | JFrac _ => false
  | JStr s => streq (ToValidUTF8 s) s
  | JArr values => forallb written values
  | JObj members => forallb (fun kv => streq (ToValidUTF8 kv.1) kv.1 && written kv.2) members
  | _ => true
  end.

Definition stops (rest : list N) : Prop :=
  match rest with b :: _ => number_byte b = false | [] => True end.

Abbreviation text j := (bytes_N (json_text j)).
Abbreviation member_text kv := (json_quote kv.1 +:+ ":" +:+ json_text kv.2).
Abbreviation values_text vs := (bytes_N (str_join "," (map json_text vs))).
Abbreviation members_text kvs := (bytes_N (str_join "," (map (fun kv => member_text kv) kvs))).

Lemma join_cons (x : string) l :
  exists tail, bytes_N (str_join "," (x :: l)) = bytes_N x ++ tail.
Proof.
  destruct l as [|y l]; [exists []; by rewrite app_nil_r|].
  change (str_join "," (x :: y :: l)) with (x +:+ "," +:+ str_join "," (y :: l)). rewrite bytes_N_app. by eexists.
Qed.

Lemma values_cons v v' vs : values_text (v :: v' :: vs) = text v ++ 44%N :: values_text (v' :: vs).
Proof.
  change (str_join "," (map json_text (v :: v' :: vs))) with
    (json_text v +:+ "," +:+ str_join "," (map json_text (v' :: vs))).
  by rewrite !bytes_N_app.
Qed.

Lemma members_cons kv kv' kvs :
  members_text (kv :: kv' :: kvs) = bytes_N (member_text kv) ++ 44%N :: members_text (kv' :: kvs).
Proof.
  change (str_join "," (map (fun kv => member_text kv) (kv :: kv' :: kvs))) with
    (member_text kv +:+ "," +:+ str_join "," (map (fun kv => member_text kv) (kv' :: kvs))).
  by rewrite (bytes_N_app (member_text kv)), (bytes_N_app ",").
Qed.

Lemma member_bytes (kv : string * json) :
  bytes_N (member_text kv) = 34%N :: quote_bytes kv.1 ++ 58%N :: text kv.2.
Proof. by rewrite !bytes_N_app, bytes_N_quote. Qed.

(** How the text of a value starts. *)
Lemma text_starts j :
  written j = true ->
  exists b rest, text j = b :: rest /\
    b ∈ [110; 116; 102; 34; 91; 123; 45; 48; 49; 50; 51; 52; 53; 54; 55; 56; 57]%N.
Proof.
  intros H. destruct j as [|[]|n|l|s|vs|ms]; try (eexists _, _; split; [reflexivity|set_solver]); [|done].
  destruct (integer_text n) as [(b & rest & E & Hb) _]. exists b, rest. split; [exact E|].
  do 6 apply list_elem_of_further. exact Hb.
Qed.

Lemma text_length j : written j = true -> 1 <= length (text j).
Proof. intros H. destruct (text_starts j H) as (b & rest & -> & _). cbn. lia. Qed.

(** The number branch. *)
Lemma read_integer z fuel rest :
  stops rest -> read_value (S fuel) (text (JInt z) ++ rest) = Some (JInt z, rest).
Proof.
  intros Hr. change (text (JInt z)) with (bytes_N (Itoa z)).
  destruct (integer_text z) as ((b & bs & E & Hb) & Hn & Hf).
  assert (Hs : span number_byte (bytes_N (Itoa z) ++ rest) = (bytes_N (Itoa z), rest)) by (by apply span_all).
  rewrite E in *. clear E Hf.
  repeat (apply elem_of_cons in Hb as [->|Hb];
    [cbn [app] in Hs |- *; cbn -[span number_byte read_number]; by rewrite Hs, Hn|]).
  by apply elem_of_nil in Hb.
Qed.

(** White space is not skipped where there is none, and a closing bracket is not
    taken for a value. *)
Lemma value_no_space j rest : written j = true -> skip_space (text j ++ rest) = text j ++ rest.
Proof.
  intros H. destruct (text_starts j H) as (b & bs & -> & Hb).
  repeat (apply elem_of_cons in Hb as [->|Hb]; [done|]). by apply elem_of_nil in Hb.
Qed.

Lemma value_no_close {A} j rest (f : list N -> A) x :
  written j = true ->
  match text j ++ rest with 93%N :: rest => f rest | _ => x end = x.
Proof.
  intros H. destruct (text_starts j H) as (b & bs & -> & Hb).
  repeat (apply elem_of_cons in Hb as [->|Hb]; [done|]). by apply elem_of_nil in Hb.
Qed.

(** The branches of the reader, as equations. *)
Lemma read_value_string fuel rest :
  read_value (S fuel) (34%N :: rest) =
  match read_string (length rest) rest with Some (s, rest) => Some (JStr s, rest) | None => None end.
Proof. reflexivity. Qed.

Lemma read_value_array fuel bs :
  read_value (S fuel) (91%N :: bs) =
  match skip_space bs with
  | 93%N :: rest => Some (JArr [], rest)
  | _ => match read_values fuel bs with Some (vs, rest) => Some (JArr vs, rest) | None => None end
  end.
Proof. reflexivity. Qed.

Lemma read_value_object fuel bs :
  read_value (S fuel) (123%N :: bs) =
  match skip_space bs with
  | 125%N :: rest => Some (JObj [], rest)
  | _ => match read_members fuel bs with Some (ms, rest) => Some (JObj ms, rest) | None => None end
  end.
Proof. reflexivity. Qed.

Lemma read_values_step fuel bs v rest :
  read_value fuel bs = Some (v, rest) ->
  read_values (S fuel) bs =
  match skip_space rest with
  | 93%N :: rest => Some ([v], rest)
  | 44%N :: rest =>
      match read_values fuel rest with Some (vs, rest) => Some (v :: vs, rest) | None => None end
  | _ => None
  end.
Proof. intros H. cbn [read_values]. by rewrite H. Qed.

Lemma read_members_step fuel bs k v bs' rest :
  read_string (length bs) bs = Some (k, 58%N :: bs') ->
  read_value fuel bs' = Some (v, rest) ->
  read_members (S fuel) (34%N :: bs) =
  match skip_space rest with
  | 125%N :: rest => Some ([(k, v)], rest)
  | 44%N :: rest =>
      match read_members fuel rest with Some (kvs, rest) => Some ((k, v) :: kvs, rest) | None => None end
  | _ => None
  end.
Proof.
  intros Hk Hv. change (read_members (S fuel) (34%N :: bs)) with
    (match read_string (length bs) bs with
     | None => None
     | Some (k, rest) =>
         match skip_space rest with
         | 58%N :: rest =>
             match read_value fuel rest with
             | None => None
             | Some (v, rest) =>
                 match skip_space rest with
                 | 125%N :: rest => Some ([(k, v)], rest)
                 | 44%N :: rest =>
                     match read_members fuel rest with
                     | Some (kvs, rest) => Some ((k, v) :: kvs, rest)
                     | None => None
                     end
                 | _ => None
                 end
             end
         | _ => None
         end
     end).
  rewrite Hk. cbn [skip_space]. change (json_space 58) with false. cbn iota. by rewrite Hv.
Qed.

Section read.
Context (fuel : nat).

Definition reads_value (fuel : nat) : Prop := forall j rest,
  written j = true -> stops rest -> length (text j) < fuel ->
  read_value fuel (text j ++ rest) = Some (j, rest).

Definition reads_values (fuel : nat) : Prop := forall v vs rest,
  forallb written (v :: vs) = true -> length (values_text (v :: vs)) + 1 < fuel ->
  read_values fuel (values_text (v :: vs) ++ 93%N :: rest) = Some (v :: vs, rest).

Definition reads_members (fuel : nat) : Prop := forall kv kvs rest,
  forallb (fun kv => streq (ToValidUTF8 kv.1) kv.1 && written kv.2) (kv :: kvs) = true ->
  length (members_text (kv :: kvs)) + 1 < fuel ->
  read_members fuel (members_text (kv :: kvs) ++ 125%N :: rest) = Some (kv :: kvs, rest).

Context (IHj : reads_value fuel) (IHvs : reads_values fuel) (IHms : reads_members fuel).

Lemma value_step : reads_value (S fuel).
Proof.
  intros j rest Hw Hr Hf. destruct j as [|[]|n|l|s|vs|ms]; [done..|by apply read_integer|done| | |].
  - change (text (JStr s)) with (bytes_N (json_quote s)). rewrite bytes_N_quote.
    cbn [app]. rewrite read_value_string, read_quoted; [done|by apply streq_eq].
  - change (text (JArr vs)) with (91%N :: bytes_N (str_join "," (map json_text vs) +:+ "]")) in *.
    rewrite bytes_N_app in *. cbn [app length] in *. rewrite length_app in Hf. change (length (bytes_N "]")) with 1 in Hf.
    rewrite <- app_assoc. change (bytes_N "]" ++ rest) with (93%N :: rest).
    rewrite read_value_array. destruct vs as [|v vs]; [done|].
    rewrite IHvs by (done || lia). destruct (join_cons (json_text v) (map json_text vs)) as [tail Et].
    cbn [written forallb] in Hw. apply andb_true_iff in Hw as [Hv _].
    cbn [map]. rewrite Et, <- app_assoc, value_no_space by done. by apply value_no_close.
  - change (text (JObj ms)) with (123%N :: bytes_N (str_join "," (map (fun kv => member_text kv) ms) +:+ "}")) in *.
    rewrite bytes_N_app in *. cbn [app length] in *. rewrite length_app in Hf. change (length (bytes_N "}")) with 1 in Hf.
    rewrite <- app_assoc. change (bytes_N "}" ++ rest) with (125%N :: rest).
    rewrite read_value_object. destruct ms as [|kv ms]; [done|].
    rewrite IHms by (done || lia). destruct (join_cons (member_text kv) (map (fun kv => member_text kv) ms)) as [tail Et].
    cbn [map]. by rewrite Et, member_bytes.
Qed.

Lemma values_step : reads_values (S fuel).
Proof.
  intros v vs rest Hw Hf. cbn [forallb] in Hw. apply andb_true_iff in Hw as [Hv Hvs].
  destruct vs as [|v' vs].
  - change (values_text [v]) with (text v) in *. rewrite (read_values_step _ _ v (93%N :: rest)); [done|].
    apply IHj; done || lia.
  - rewrite values_cons in *. rewrite length_app in Hf. cbn [length] in Hf.
    rewrite <- app_assoc. cbn [app]. pose proof (text_length v Hv).
    rewrite (read_values_step _ _ v (44%N :: values_text (v' :: vs) ++ 93%N :: rest)).
    + cbn [skip_space]. change (json_space 44) with false. cbn iota. by rewrite IHvs by (done || lia).
    + apply IHj; done || lia.
Qed.

Lemma members_step : reads_members (S fuel).
Proof.
  intros kv kvs rest Hw Hf. cbn [forallb] in Hw. apply andb_true_iff in Hw as [Hv Hvs].
  apply andb_true_iff in Hv as [Hk%streq_eq Hv]. destruct kv as [k v]. cbn [fst snd] in *.
  destruct kvs as [|kv' kvs].
  - change (members_text [(k, v)]) with (bytes_N (member_text (k, v))) in *. rewrite member_bytes in *.
    cbn [app length fst snd] in *. rewrite <- app_assoc. cbn [app]. rewrite length_app in Hf. cbn [length] in Hf.
    rewrite (read_members_step _ _ k v (text v ++ 125%N :: rest) (125%N :: rest)); [done| |apply IHj; done || lia].
    by apply read_quoted.
  - rewrite members_cons, member_bytes in *. cbn [app length fst snd] in *.
    rewrite !length_app in Hf. cbn [length] in Hf.
    rewrite <- !app_assoc. cbn [app]. rewrite <- ?app_assoc. cbn [app].
    rewrite (read_members_step _ _ k v (text v ++ 44%N :: members_text (kv' :: kvs) ++ 125%N :: rest)
      (44%N :: members_text (kv' :: kvs) ++ 125%N :: rest)); [ | |apply IHj; done || lia].
    + cbn [skip_space]. change (json_space 44) with false. cbn iota. by rewrite IHms by (done || lia).
    + by apply read_quoted.
Qed.
End read.

Lemma read_text fuel : reads_value fuel /\ reads_values fuel /\ reads_members fuel.
Proof.
  induction fuel as [|fuel (IHj & IHvs & IHms)]; [repeat split; intros ???; lia|].
  split; [by apply value_step|split; [by apply values_step|by apply members_step]].
Qed.

(** The text that is written is read as the tree, in full. *)
Lemma read_written j : written j = true -> json_read (json_text j) = Some j.
Proof.
  intros H. unfold json_read. rewrite <- bytes_N_length.
  destruct (read_text (S (length (text j)))) as [Hr _]. pose proof (Hr j [] H I ltac:(lia)) as E.
  rewrite app_nil_r in E. by rewrite E.
Qed.
