(* ===== verification/RecordJson.v ===== *)
(** * The JSON of specs and records ([src/pkg/spec/types.go])

    The tags of every structure of the data model, as the gRPC API receives the
    spec and the SQLite registry stores the records, and [json.Marshal] and
    [json.Unmarshal] of a record, with the text of [JsonText] and the
    text of a [time.Time] of [GoTimeText]. A slice is a list, whose empty form stands
    for a nil slice too, which is written [null]. Bytes of a string that are not
    UTF-8 are written as the replacement character itself and not as its escape,
    which is read alike. *)
From S2P Require Import Prelude GoStrings GoErrors GoJson GoTimeText JsonTree JsonText Spec.

(** [time.Time.MarshalJSON] and its inverse. *)
Definition time_json : JsonType Z := {|
  jt_zero := 0%Z;
  jt_empty _ := false;
  jt_enc t := JStr (format_time t);
  jt_dec j old :=
    match j with
    | JStr s => parse_time s
    | JNull => Some old
    | _ => None
    end;
|}.

(** A slice of strings of which nil and empty are told apart. *)
Definition phases_json : JsonType (option (list string)) := {|
  jt_zero := None;
  jt_empty l := match l with Some (_ :: _) => false | _ => true end;
  jt_enc l := match l with Some l => jt_enc l | None => JNull end;
  jt_dec j old :=
    match j with
    | JNull => Some None
    | _ => Some <$> jt_dec j jt_zero
    end;
|}.

(** A string type with named values; other texts are not values of the model. *)
Definition enum_json {S} (zero : S) (name : S -> string) (all : list S) : JsonType S := {|
  jt_zero := zero;
  jt_empty s := streq (name s) "";
  jt_enc s := JStr (name s);
  jt_dec j old :=
    match j with
    | JStr t => find_first (fun s => streq (name s) t) all
    | JNull => Some old
    | _ => None
    end;
|}.

Definition run_statuses : list RunStatus :=
  [RunStatusUnset; RunStatusAccepted; RunStatusAdmitted; RunStatusRunning; RunStatusSucceeded;
   RunStatusFailed; RunStatusCanceled].

Definition node_statuses : list NodeStatus :=
  [NodeStatusUnset; NodeStatusPending; NodeStatusReady; NodeStatusBuildingBindings;
   NodeStatusResolvingInputs; NodeStatusReleasing; NodeStatusStarting; NodeStatusRunning;
   NodeStatusSucceeded; NodeStatusFailed; NodeStatusCanceled; NodeStatusSkipped].

Definition attempt_statuses : list AttemptStatus :=
  [AttemptStatusUnset; AttemptStatusPrepared; AttemptStatusStarted; AttemptStatusCompleted;
   AttemptStatusErrored].

Definition AttemptStatus_string (s : AttemptStatus) : string :=
  match s with
  | AttemptStatusUnset => ""
  | AttemptStatusPrepared => "Prepared"
  | AttemptStatusStarted => "Started"
  | AttemptStatusCompleted => "Completed"
  | AttemptStatusErrored => "Errored"
  end.

#[export] Instance RunStatus_json : JsonType RunStatus :=
  enum_json RunStatusUnset RunStatus_string run_statuses.
#[export] Instance NodeStatus_json : JsonType NodeStatus :=
  enum_json NodeStatusUnset NodeStatus_string node_statuses.
#[export] Instance AttemptStatus_json : JsonType AttemptStatus :=
  enum_json AttemptStatusUnset AttemptStatus_string attempt_statuses.

(** ** The tags *)
Definition FailurePolicy_fields : list (field FailurePolicy) := [
  jfield "mode" false fp_Mode
].
#[export] Instance FailurePolicy_json : JsonType FailurePolicy :=
  struct_json zero_FailurePolicy FailurePolicy_fields.

Definition RunMetadata_fields : list (field RunMetadata) := [
  jfield "runId" false rm_RunID;
  jfield "sampleRunId" true rm_SampleRunID;
  jfield "submittedAt" false rm_SubmittedAt (H := time_json);
  jfield "failurePolicy" false rm_FailurePolicy;
  jfield "requesterId" true rm_RequesterID;
  jfield "traceId" true rm_TraceID;
  jfield "sourceSystem" true rm_SourceSystem
].
#[export] Instance RunMetadata_json : JsonType RunMetadata :=
  struct_json zero_RunMetadata RunMetadata_fields.

Definition ResourceProfile_fields : list (field ResourceProfile) := [
  jfield "cpu" true rp_CPU;
  jfield "memory" true rp_Memory
].
#[export] Instance ResourceProfile_json : JsonType ResourceProfile :=
  struct_json zero_ResourceProfile ResourceProfile_fields.

Definition TimeoutPolicy_fields : list (field TimeoutPolicy) := [
  jfield "seconds" true tp_Seconds
].
#[export] Instance TimeoutPolicy_json : JsonType TimeoutPolicy :=
  struct_json zero_TimeoutPolicy TimeoutPolicy_fields.

Definition RetryPolicy_fields : list (field RetryPolicy) := [
  jfield "maxAttempts" true rtp_MaxAttempts;
  jfield "retryablePhases" true rtp_RetryablePhases (H := phases_json);
  jfield "retryDelayHint" true rtp_RetryDelayHint
].
#[export] Instance RetryPolicy_json : JsonType RetryPolicy :=
  struct_json zero_RetryPolicy RetryPolicy_fields.

Definition CleanupPolicy_fields : list (field CleanupPolicy) := [
  jfield "ttlSecondsAfterFinished" true cp_TTLSecondsAfterFinished (H := int_json 32)
].
#[export] Instance CleanupPolicy_json : JsonType CleanupPolicy :=
  struct_json zero_CleanupPolicy CleanupPolicy_fields.

Definition WeightedNodePreference_fields : list (field WeightedNodePreference) := [
  jfield "nodeName" true wnp_NodeName;
  jfield "weight" true wnp_Weight (H := int_json 32)
].
#[export] Instance WeightedNodePreference_json : JsonType WeightedNodePreference :=
  struct_json (mkWeightedNodePreference "" 0) WeightedNodePreference_fields.

Definition PlacementHints_fields : list (field PlacementHints) := [
  jfield "nodeSelector" true ph_NodeSelector;
  jfield "requiredNodeName" true ph_RequiredNodeName;
  jfield "preferredNodes" true ph_PreferredNodes
].
#[export] Instance PlacementHints_json : JsonType PlacementHints :=
  struct_json zero_PlacementHints PlacementHints_fields.

Definition Mount_fields : list (field Mount) := [
  jfield "source" false mt_Source;
  jfield "target" false mt_Target;
  jfield "mode" true mt_Mode
].
#[export] Instance Mount_json : JsonType Mount :=
  struct_json zero_Mount Mount_fields.

Definition ArtifactBinding_fields : list (field ArtifactBinding) := [
  jfield "bindingName" false ab_BindingName;
  jfield "childInputName" true ab_ChildInputName;
  jfield "producerNodeId" false ab_ProducerNodeID;
  jfield "producerOutputName" false ab_ProducerOutputName;
  jfield "artifactId" true ab_ArtifactID;
  jfield "required" true ab_Required;
  jfield "consumePolicy" true ab_ConsumePolicy;
  jfield "expectedDigest" true ab_ExpectedDigest
].
#[export] Instance ArtifactBinding_json : JsonType ArtifactBinding :=
  struct_json zero_ArtifactBinding ArtifactBinding_fields.

Definition KueueHints_fields : list (field KueueHints) := [
  jfield "queueName" true kh_QueueName;
  jfield "workloadClass" true kh_WorkloadClass;
  jfield "labels" true kh_Labels
].
#[export] Instance KueueHints_json : JsonType KueueHints :=
  struct_json zero_KueueHints KueueHints_fields.

Definition Node_fields : list (field Node) := [
  jfield "nodeId" false n_NodeID;
  jfield "image" false n_Image;
  jfield "command" false n_Command;
  jfield "args" false n_Args;
  jfield "env" true n_Env;
  jfield "executionClass" true n_ExecutionClass;
  jfield "resourceProfile" true n_ResourceProfile;
  jfield "timeoutPolicy" true n_TimeoutPolicy;
  jfield "retryPolicy" true n_RetryPolicy;
  jfield "mounts" true n_Mounts;
  jfield "inputs" true n_Inputs;
  jfield "outputs" true n_Outputs;
  jfield "artifactBindings" true n_ArtifactBindings;
  jfield "workingDir" true n_WorkingDir;
  jfield "serviceAccountName" true n_ServiceAccountName;
  jfield "placement" true n_Placement;
  jfield "cleanupPolicy" true n_CleanupPolicy;
  jfield "metadata" true n_Metadata;
  jfield "kueue" true n_Kueue
].
#[export] Instance Node_json : JsonType Node :=
  struct_json zero_Node Node_fields.

Definition Graph_fields : list (field Graph) := [
  jfield "nodes" false g_Nodes;
  jfield "edges" false g_Edges
].
#[export] Instance Graph_json : JsonType Graph :=
  struct_json zero_Graph Graph_fields.

Definition Defaults_fields : list (field Defaults) := [
  jfield "executionClass" true df_ExecutionClass;
  jfield "resourceProfile" true df_ResourceProfile;
  jfield "timeoutPolicy" true df_TimeoutPolicy;
  jfield "retryPolicy" true df_RetryPolicy;
  jfield "cleanupPolicy" true df_CleanupPolicy;
  jfield "placement" true df_Placement;
  jfield "namespace" true df_Namespace
].
#[export] Instance Defaults_json : JsonType Defaults :=
  struct_json zero_Defaults Defaults_fields.

Definition ExecutableRunSpec_fields : list (field ExecutableRunSpec) := [
  jfield "run" false es_Run;
  jfield "graph" false es_Graph;
  jfield "defaults" true es_Defaults;
  jfield "metadata" true es_Metadata
].
#[export] Instance ExecutableRunSpec_json : JsonType ExecutableRunSpec :=
  struct_json zero_ExecutableRunSpec ExecutableRunSpec_fields.

Definition NodeObservation_fields : list (field NodeObservation) := [
  jfield "kueueObserved" true no_KueueObserved;
  jfield "queueName" true no_QueueName;
  jfield "workloadName" true no_WorkloadName;
  jfield "kueuePendingReason" true no_KueuePendingReason;
  jfield "kueueAdmitted" true no_KueueAdmitted;
  jfield "podName" true no_PodName;
  jfield "podNodeName" true no_PodNodeName;
  jfield "podScheduled" true no_PodScheduled;
  jfield "unschedulableReason" true no_UnschedulableReason
].
#[export] Instance NodeObservation_json : JsonType NodeObservation :=
  struct_json zero_NodeObservation NodeObservation_fields.

Definition RunCounters_fields : list (field RunCounters) := [
  jfield "totalNodes" true rc_TotalNodes;
  jfield "succeededNodes" true rc_SucceededNodes;
  jfield "failedNodes" true rc_FailedNodes;
  jfield "canceledNodes" true rc_CanceledNodes;
  jfield "skippedNodes" true rc_SkippedNodes;
  jfield "runningNodes" true rc_RunningNodes
].
#[export] Instance RunCounters_json : JsonType RunCounters :=
  struct_json zero_RunCounters RunCounters_fields.

Definition RunRecord_fields : list (field RunRecord) := [
  jfield "runId" false rr_RunID;
  jfield "status" false rr_Status;
  jfield "acceptedAt" false rr_AcceptedAt (H := time_json);
  jfield "startedAt" true rr_StartedAt (H := pointer_json (H := time_json));
  jfield "finishedAt" true rr_FinishedAt (H := pointer_json (H := time_json));
  jfield "currentBottleneckLocation" true rr_CurrentBottleneckLocation;
  jfield "terminalStopCause" true rr_TerminalStopCause;
  jfield "terminalFailureReason" true rr_TerminalFailureReason;
  jfield "counters" true rr_Counters;
  jfield "metadata" true rr_Metadata;
  jfield "spec" false rr_Spec
].
#[export] Instance RunRecord_json : JsonType RunRecord :=
  struct_json zero_RunRecord RunRecord_fields.

Definition NodeRecord_fields : list (field NodeRecord) := [
  jfield "runId" false nr_RunID;
  jfield "nodeId" false nr_NodeID;
  jfield "status" false nr_Status;
  jfield "currentBottleneckLocation" true nr_CurrentBottleneckLocation;
  jfield "terminalStopCause" true nr_TerminalStopCause;
  jfield "terminalFailureReason" true nr_TerminalFailureReason;
  jfield "attemptCount" true nr_AttemptCount;
  jfield "realizationAttemptCount" true nr_RealizationAttemptCount;
  jfield "currentAttemptId" true nr_CurrentAttemptID;
  jfield "currentAttemptHandleJson" true nr_CurrentAttemptHandleJSON;
  jfield "startedAt" true nr_StartedAt (H := pointer_json (H := time_json));
  jfield "finishedAt" true nr_FinishedAt (H := pointer_json (H := time_json));
  jfield "observation" true nr_Observation;
  jfield "causedByNodeId" true nr_CausedByNodeID
].
#[export] Instance NodeRecord_json : JsonType NodeRecord :=
  struct_json zero_NodeRecord NodeRecord_fields.

Definition AttemptRecord_fields : list (field AttemptRecord) := [
  jfield "runId" false ar_RunID;
  jfield "nodeId" false ar_NodeID;
  jfield "attemptId" false ar_AttemptID;
  jfield "status" false ar_Status;
  jfield "startedAt" true ar_StartedAt (H := pointer_json (H := time_json));
  jfield "finishedAt" true ar_FinishedAt (H := pointer_json (H := time_json));
  jfield "terminalStopCause" true ar_TerminalStopCause;
  jfield "terminalFailureReason" true ar_TerminalFailureReason;
  jfield "backendHandleJson" true ar_BackendHandleJSON;
  jfield "submissionWindowOpenedAt" true ar_SubmissionWindowOpenedAt (H := pointer_json (H := time_json));
  jfield "cancellationRequestedAt" true ar_CancellationRequestedAt (H := pointer_json (H := time_json));
  jfield "cancellationReason" true ar_CancellationReason;
  jfield "processCompletedAt" true ar_ProcessCompletedAt (H := pointer_json (H := time_json));
  jfield "realizationReattemptableAt" true ar_RealizationReattemptableAt (H := pointer_json (H := time_json))
].
#[export] Instance AttemptRecord_json : JsonType AttemptRecord :=
  struct_json zero_AttemptRecord AttemptRecord_fields.

Definition EventRecord_fields : list (field EventRecord) := [
  jfield "runId" false ev_RunID;
  jfield "nodeId" true ev_NodeID;
  jfield "attemptId" true ev_AttemptID;
  jfield "type" false ev_Type;
  jfield "message" true ev_Message;
  jfield "occurredAt" false ev_OccurredAt (H := time_json);
  jfield "level" true ev_Level;
  jfield "stopCause" true ev_StopCause;
  jfield "failureReason" true ev_FailureReason
].
#[export] Instance EventRecord_json : JsonType EventRecord :=
  struct_json zero_EventRecord EventRecord_fields.


(** [json.Marshal] and [json.Unmarshal] of a record. *)
Definition tree_codec {A} `{JsonType A} : Json A := {|
  Marshal x := Ok (json_text (jt_enc x));
  Unmarshal s :=
    match json_read s with
    | Some j => decode_json j
    | None => Err (ErrNew "invalid character")
    end;
|}.
