(* ===== verification/RecordJsonFacts.v ===== *)
(** * Records survive their JSON

    Every structure of the data model is read back as it was written, as long as
    its strings are UTF-8, its integers fit, the years of its times have four digits
    and no map or list of phases is empty without being nil; what the last exception
    costs. *)
From S2P Require Import Prelude GoStrings GoErrors GoTime GoStrconv GoTimeText GoJson JsonTree JsonText GoUtf8 JsonTextFacts Spec Validate RecordJson GoDuration.
From Stdlib Require Import Ascii.

#[export] Instance time_law : JsonLaw Z (H := time_json).
Proof. refine (Build_JsonLaw Z time_json four_digits _ _); [exact parse_format|done]. Defined.

#[export] Instance time_never : NeverNull Z (H := time_json).
Proof. by intros x. Qed.

#[export] Instance phases_law : JsonLaw (option (list string)) (H := phases_json).
Proof.
  refine (Build_JsonLaw _ phases_json (fun l =>
    match l with Some l => l <> [] /\ jt_ok l | None => True end) _ _).
  - intros [l|] H; [|done]. destruct H as [_ H]. change (Some <$> jt_dec (jt_enc l) jt_zero = Some (Some l)).
    by rewrite (jt_round l H).
  - intros [[|x l]|] H; cbn; [by destruct H|done|done].
Defined.

Lemma enum_law {S} (zero : S) name all :
  (forall s, find_first (fun s' => streq (name s') (name s)) all = Some s) ->
  (forall s, name s = "" -> s = zero) ->
  JsonLaw S (H := enum_json zero name all).
Proof.
  intros Hf Hz. refine (Build_JsonLaw S (enum_json zero name all) (fun _ => True) _ _).
  - intros s _. apply Hf.
  - intros s _ H%streq_eq. by apply Hz.
Defined.

#[export] Instance RunStatus_law : JsonLaw RunStatus.
Proof. apply enum_law; by intros []. Defined.
#[export] Instance NodeStatus_law : JsonLaw NodeStatus.
Proof. apply enum_law; by intros []. Defined.
#[export] Instance AttemptStatus_law : JsonLaw AttemptStatus.
Proof. apply enum_law; by intros []. Defined.

#[export] Instance FailurePolicy_law : JsonLaw FailurePolicy.
Proof.
  refine {| jt_ok x :=
      jt_ok (fp_Mode x) |}; [|done].
  message_law FailurePolicy_fields x.
Defined.

#[export] Instance RunMetadata_law : JsonLaw RunMetadata.
Proof.
  refine {| jt_ok x :=
      jt_ok (rm_RunID x) /\ jt_ok (rm_SampleRunID x) /\
      jt_ok (H := time_json) (rm_SubmittedAt x) /\ jt_ok (rm_FailurePolicy x) /\
      jt_ok (rm_RequesterID x) /\ jt_ok (rm_TraceID x) /\ jt_ok (rm_SourceSystem x) |}; [|done].
  message_law RunMetadata_fields x.
Defined.

#[export] Instance ResourceProfile_law : JsonLaw ResourceProfile.
Proof.
  refine {| jt_ok x :=
      jt_ok (rp_CPU x) /\ jt_ok (rp_Memory x) |}; [|done].
  message_law ResourceProfile_fields x.
Defined.

#[export] Instance TimeoutPolicy_law : JsonLaw TimeoutPolicy.
Proof.
  refine {| jt_ok x :=
      jt_ok (tp_Seconds x) |}; [|done].
  message_law TimeoutPolicy_fields x.
Defined.

#[export] Instance RetryPolicy_law : JsonLaw RetryPolicy.
Proof.
  refine {| jt_ok x :=
      jt_ok (rtp_MaxAttempts x) /\ jt_ok (H := phases_json) (rtp_RetryablePhases x) /\
      jt_ok (rtp_RetryDelayHint x) |}; [|done].
  message_law RetryPolicy_fields x.
Defined.

#[export] Instance CleanupPolicy_law : JsonLaw CleanupPolicy.
Proof.
  refine {| jt_ok x :=
      jt_ok (H := int_json 32) (cp_TTLSecondsAfterFinished x) |}; [|done].
  message_law CleanupPolicy_fields x.
Defined.

#[export] Instance WeightedNodePreference_law : JsonLaw WeightedNodePreference.
Proof.
  refine {| jt_ok x :=
      jt_ok (wnp_NodeName x) /\ jt_ok (H := int_json 32) (wnp_Weight x) |}; [|done].
  message_law WeightedNodePreference_fields x.
Defined.

#[export] Instance PlacementHints_law : JsonLaw PlacementHints.
Proof.
  refine {| jt_ok x :=
      jt_ok (ph_NodeSelector x) /\ jt_ok (ph_RequiredNodeName x) /\ jt_ok (ph_PreferredNodes x) |}; [|done].
  message_law PlacementHints_fields x.
Defined.

#[export] Instance PlacementHints_never : NeverNull PlacementHints.
Proof. by intros x. Qed.

#[export] Instance Mount_law : JsonLaw Mount.
Proof.
  refine {| jt_ok x :=
      jt_ok (mt_Source x) /\ jt_ok (mt_Target x) /\ jt_ok (mt_Mode x) |}; [|done].
  message_law Mount_fields x.
Defined.

#[export] Instance ArtifactBinding_law : JsonLaw ArtifactBinding.
Proof.
  refine {| jt_ok x :=
      jt_ok (ab_BindingName x) /\ jt_ok (ab_ChildInputName x) /\ jt_ok (ab_ProducerNodeID x) /\
      jt_ok (ab_ProducerOutputName x) /\ jt_ok (ab_ArtifactID x) /\ jt_ok (ab_Required x) /\
      jt_ok (ab_ConsumePolicy x) /\ jt_ok (ab_ExpectedDigest x) |}; [|done].
  message_law ArtifactBinding_fields x.
Defined.

#[export] Instance KueueHints_law : JsonLaw KueueHints.
Proof.
  refine {| jt_ok x :=
      jt_ok (kh_QueueName x) /\ jt_ok (kh_WorkloadClass x) /\ jt_ok (kh_Labels x) |}; [|done].
  message_law KueueHints_fields x.
Defined.

#[export] Instance KueueHints_never : NeverNull KueueHints.
Proof. by intros x. Qed.

#[export] Instance Node_law : JsonLaw Node.
Proof.
  refine {| jt_ok x :=
      jt_ok (n_NodeID x) /\ jt_ok (n_Image x) /\ jt_ok (n_Command x) /\ jt_ok (n_Args x) /\
      jt_ok (n_Env x) /\ jt_ok (n_ExecutionClass x) /\ jt_ok (n_ResourceProfile x) /\
      jt_ok (n_TimeoutPolicy x) /\ jt_ok (n_RetryPolicy x) /\ jt_ok (n_Mounts x) /\
      jt_ok (n_Inputs x) /\ jt_ok (n_Outputs x) /\ jt_ok (n_ArtifactBindings x) /\
      jt_ok (n_WorkingDir x) /\ jt_ok (n_ServiceAccountName x) /\ jt_ok (n_Placement x) /\
      jt_ok (n_CleanupPolicy x) /\ jt_ok (n_Metadata x) /\ jt_ok (n_Kueue x) |}; [|done].
  message_law Node_fields x.
Defined.

#[export] Instance Graph_law : JsonLaw Graph.
Proof.
  refine {| jt_ok x :=
      jt_ok (g_Nodes x) /\ jt_ok (g_Edges x) |}; [|done].
  message_law Graph_fields x.
Defined.

#[export] Instance Defaults_law : JsonLaw Defaults.
Proof.
  refine {| jt_ok x :=
      jt_ok (df_ExecutionClass x) /\ jt_ok (df_ResourceProfile x) /\ jt_ok (df_TimeoutPolicy x) /\
      jt_ok (df_RetryPolicy x) /\ jt_ok (df_CleanupPolicy x) /\ jt_ok (df_Placement x) /\
      jt_ok (df_Namespace x) |}; [|done].
  message_law Defaults_fields x.
Defined.

#[export] Instance ExecutableRunSpec_law : JsonLaw ExecutableRunSpec.
Proof.
  refine {| jt_ok x :=
      jt_ok (es_Run x) /\ jt_ok (es_Graph x) /\ jt_ok (es_Defaults x) /\ jt_ok (es_Metadata x) |}; [|done].
  message_law ExecutableRunSpec_fields x.
Defined.

#[export] Instance NodeObservation_law : JsonLaw NodeObservation.
Proof.
  refine {| jt_ok x :=
      jt_ok (no_KueueObserved x) /\ jt_ok (no_QueueName x) /\ jt_ok (no_WorkloadName x) /\
      jt_ok (no_KueuePendingReason x) /\ jt_ok (no_KueueAdmitted x) /\ jt_ok (no_PodName x) /\
      jt_ok (no_PodNodeName x) /\ jt_ok (no_PodScheduled x) /\ jt_ok (no_UnschedulableReason x) |}; [|done].
  message_law NodeObservation_fields x.
Defined.

#[export] Instance RunCounters_law : JsonLaw RunCounters.
Proof.
  refine {| jt_ok x :=
      jt_ok (rc_TotalNodes x) /\ jt_ok (rc_SucceededNodes x) /\ jt_ok (rc_FailedNodes x) /\
      jt_ok (rc_CanceledNodes x) /\ jt_ok (rc_SkippedNodes x) /\ jt_ok (rc_RunningNodes x) |}; [|done].
  message_law RunCounters_fields x.
Defined.

#[export] Instance RunRecord_law : JsonLaw RunRecord.
Proof.
  refine {| jt_ok x :=
      jt_ok (rr_RunID x) /\ jt_ok (rr_Status x) /\ jt_ok (H := time_json) (rr_AcceptedAt x) /\
      jt_ok (H := pointer_json (H := time_json)) (rr_StartedAt x) /\
      jt_ok (H := pointer_json (H := time_json)) (rr_FinishedAt x) /\
      jt_ok (rr_CurrentBottleneckLocation x) /\ jt_ok (rr_TerminalStopCause x) /\
      jt_ok (rr_TerminalFailureReason x) /\ jt_ok (rr_Counters x) /\ jt_ok (rr_Metadata x) /\
      jt_ok (rr_Spec x) |}; [|done].
  message_law RunRecord_fields x.
Defined.

#[export] Instance NodeRecord_law : JsonLaw NodeRecord.
Proof.
  refine {| jt_ok x :=
      jt_ok (nr_RunID x) /\ jt_ok (nr_NodeID x) /\ jt_ok (nr_Status x) /\
      jt_ok (nr_CurrentBottleneckLocation x) /\ jt_ok (nr_TerminalStopCause x) /\
      jt_ok (nr_TerminalFailureReason x) /\ jt_ok (nr_AttemptCount x) /\
      jt_ok (nr_RealizationAttemptCount x) /\ jt_ok (nr_CurrentAttemptID x) /\
      jt_ok (nr_CurrentAttemptHandleJSON x) /\
      jt_ok (H := pointer_json (H := time_json)) (nr_StartedAt x) /\
      jt_ok (H := pointer_json (H := time_json)) (nr_FinishedAt x) /\ jt_ok (nr_Observation x) /\
      jt_ok (nr_CausedByNodeID x) |}; [|done].
  message_law NodeRecord_fields x.
Defined.

#[export] Instance AttemptRecord_law : JsonLaw AttemptRecord.
Proof.
  refine {| jt_ok x :=
      jt_ok (ar_RunID x) /\ jt_ok (ar_NodeID x) /\ jt_ok (ar_AttemptID x) /\
      jt_ok (ar_Status x) /\ jt_ok (H := pointer_json (H := time_json)) (ar_StartedAt x) /\
      jt_ok (H := pointer_json (H := time_json)) (ar_FinishedAt x) /\
      jt_ok (ar_TerminalStopCause x) /\ jt_ok (ar_TerminalFailureReason x) /\
      jt_ok (ar_BackendHandleJSON x) /\
      jt_ok (H := pointer_json (H := time_json)) (ar_SubmissionWindowOpenedAt x) /\
      jt_ok (H := pointer_json (H := time_json)) (ar_CancellationRequestedAt x) /\
      jt_ok (ar_CancellationReason x) /\
      jt_ok (H := pointer_json (H := time_json)) (ar_ProcessCompletedAt x) /\
      jt_ok (H := pointer_json (H := time_json)) (ar_RealizationReattemptableAt x) |}; [|done].
  message_law AttemptRecord_fields x.
Defined.

#[export] Instance EventRecord_law : JsonLaw EventRecord.
Proof.
  refine {| jt_ok x :=
      jt_ok (ev_RunID x) /\ jt_ok (ev_NodeID x) /\ jt_ok (ev_AttemptID x) /\ jt_ok (ev_Type x) /\
      jt_ok (ev_Message x) /\ jt_ok (H := time_json) (ev_OccurredAt x) /\ jt_ok (ev_Level x) /\
      jt_ok (ev_StopCause x) /\ jt_ok (ev_FailureReason x) |}; [|done].
  message_law EventRecord_fields x.
Defined.

(** ** Texts of ASCII are UTF-8 *)
Definition ascii_only (s : string) : Prop := Forall (fun b => b < 128)%N (bytes_N s).

Lemma ascii_valid s : ascii_only s -> valid_utf8 s.
Proof.
  unfold ascii_only. intros H. assert (Hr : runes s = bytes_N s).
  { apply runes_ascii. revert H. unfold bytes_N. induction s as [|a s IH]; [done|]. cbn.
    intros [Ha Hs]%Forall_cons. rewrite IH by done. unfold ascii_byte7. rewrite (proj2 (N.ltb_lt _ _) Ha). done. }
  unfold valid_utf8, ToValidUTF8. rewrite Hr. clear Hr. revert H. unfold bytes_N.
  induction s as [|a s IH]; [done|]. cbn [String.list_ascii_of_string map].
  intros [Ha Hs]%Forall_cons. rewrite str_join_cons, encode_rune_ascii, IH, ascii_N_embedding by done. done.
Qed.

Lemma ascii_app s t : ascii_only s -> ascii_only t -> ascii_only (s +:+ t).
Proof. unfold ascii_only. rewrite bytes_N_app. by apply Forall_app_2. Qed.

Lemma ascii_Itoa n : ascii_only (Itoa n).
Proof.
  destruct (integer_text n) as (_ & _ & H). eapply Forall_impl; [exact H|].
  intros b. unfold number_byte, digit_byte, in_range. rewrite !orb_true_iff, andb_true_iff, !N.eqb_eq, !N.leb_le. lia.
Qed.

Lemma ascii_pad w n : ascii_only (pad w n).
Proof.
  apply ascii_app; [|apply ascii_Itoa]. induction (w - _)%nat as [|k IH]; [constructor|].
  apply ascii_app; [by repeat constructor|done].
Qed.

Lemma ascii_trimmed w n : ascii_only (trim_zeros w n).
Proof. revert n. induction w as [|w IH]; intros n; [constructor|]. cbn [trim_zeros]. case_match; [apply IH|apply ascii_pad]. Qed.

Lemma format_time_valid t : valid_utf8 (format_time t).
Proof.
  apply ascii_valid. unfold format_time. destruct (civil _) as [[y m] d].
  repeat (apply ascii_app; [first [apply ascii_pad|by repeat constructor|idtac]|]); [|by repeat constructor].
  unfold fraction. case_match; [constructor|]. apply ascii_app; [by repeat constructor|apply ascii_trimmed].
Qed.

(** ** Every record has a text that is read as its tree *)
Class Written (A : Type) `{JsonType A} := enc_written : forall x, written (jt_enc x) = true.

Lemma ToValidUTF8_valid s : streq (ToValidUTF8 (ToValidUTF8 s)) (ToValidUTF8 s) = true.
Proof. apply streq_eq, text_of_runes_idem. Qed.

#[export] Instance string_written : Written string.
Proof. exact ToValidUTF8_valid. Qed.
#[export] Instance bool_written : Written bool.
Proof. done. Qed.
#[export] Instance int_written bits : Written Z (H := int_json bits).
Proof. done. Qed.
#[export] Instance time_written : Written Z (H := time_json).
Proof. intros t. apply streq_eq, format_time_valid. Qed.

#[export] Instance pointer_written {A} `{Written A} : Written (option A).
Proof. intros [x|]; [exact (enc_written x)|done]. Qed.

#[export] Instance slice_written {A} `{Written A} : Written (list A).
Proof.
  intros l. change (forallb written (map jt_enc l) = true).
  induction l as [|x l IH]; [done|]. cbn. by rewrite enc_written.
Qed.

#[export] Instance phases_written : Written (option (list string)) (H := phases_json).
Proof. intros [l|]; [exact (enc_written l)|done]. Qed.

#[export] Instance map_written : Written (option (gmap string string)).
Proof.
  intros [m|]; [|done].
  change (forallb (fun kv => streq (ToValidUTF8 kv.1) kv.1 && written kv.2)
    (map (enc_member m) (sort_strings (fst <$> map_to_list m))) = true).
  generalize (sort_strings (fst <$> map_to_list m)). intros l.
  induction l as [|k l IH]; [done|]. cbn [map forallb enc_member fst snd].
  by rewrite ToValidUTF8_valid, enc_written.
Qed.

Lemma enum_written {S} (zero : S) name all :
  (forall s, valid_utf8 (name s)) -> Written S (H := enum_json zero name all).
Proof. intros H s. apply streq_eq, H. Qed.

#[export] Instance RunStatus_written : Written RunStatus.
Proof. apply enum_written. by intros []. Qed.
#[export] Instance NodeStatus_written : Written NodeStatus.
Proof. apply enum_written. by intros []. Qed.
#[export] Instance AttemptStatus_written : Written AttemptStatus.
Proof. apply enum_written. by intros []. Qed.

Definition field_written {S} (f : field S) : Prop :=
  valid_utf8 (f_name f) /\ forall x j, f_enc f x = Some j -> written j = true.

Lemma jfield_written {S T} name omit (get : S -> T) `{!Setter get} `{Written T} :
  valid_utf8 name -> field_written (jfield name omit get).
Proof.
  intros Hn. split; [done|]. intros x j. cbn. destruct (omit && _); intros E; [done|].
  injection E as <-. apply enc_written.
Qed.

Lemma struct_written {S} (zero : S) fs :
  Forall field_written fs -> Written S (H := struct_json zero fs).
Proof.
  intros H x. change (forallb (fun kv => streq (ToValidUTF8 kv.1) kv.1 && written kv.2) (enc_fields fs x) = true).
  induction H as [|f fs [Hn Hj] _ IH]; [done|]. cbn [enc_fields].
  destruct (f_enc f x) as [j|] eqn:E; [|done]. cbn [forallb fst snd].
  rewrite (Hj _ _ E), IH. by rewrite (proj2 (streq_eq _ _) Hn).
Qed.

Ltac struct_written fields :=
  apply struct_written; let name := head_of fields in unfold name; repeat (apply Forall_cons_2; [refine (jfield_written _ _ _ _); reflexivity|]);
  apply Forall_nil_2.

#[export] Instance FailurePolicy_written : Written FailurePolicy.
Proof. struct_written FailurePolicy_fields. Qed.
#[export] Instance RunMetadata_written : Written RunMetadata.
Proof. struct_written RunMetadata_fields. Qed.
#[export] Instance ResourceProfile_written : Written ResourceProfile.
Proof. struct_written ResourceProfile_fields. Qed.
#[export] Instance TimeoutPolicy_written : Written TimeoutPolicy.
Proof. struct_written TimeoutPolicy_fields. Qed.
#[export] Instance RetryPolicy_written : Written RetryPolicy.
Proof. struct_written RetryPolicy_fields. Qed.
#[export] Instance CleanupPolicy_written : Written CleanupPolicy.
Proof. struct_written CleanupPolicy_fields. Qed.
#[export] Instance WeightedNodePreference_written : Written WeightedNodePreference.
Proof. struct_written WeightedNodePreference_fields. Qed.
#[export] Instance PlacementHints_written : Written PlacementHints.
Proof. struct_written PlacementHints_fields. Qed.
#[export] Instance Mount_written : Written Mount.
Proof. struct_written Mount_fields. Qed.
#[export] Instance ArtifactBinding_written : Written ArtifactBinding.
Proof. struct_written ArtifactBinding_fields. Qed.
#[export] Instance KueueHints_written : Written KueueHints.
Proof. struct_written KueueHints_fields. Qed.
#[export] Instance Node_written : Written Node.
Proof. struct_written Node_fields. Qed.
#[export] Instance Graph_written : Written Graph.
Proof. struct_written Graph_fields. Qed.
#[export] Instance Defaults_written : Written Defaults.
Proof. struct_written Defaults_fields. Qed.
#[export] Instance ExecutableRunSpec_written : Written ExecutableRunSpec.
Proof. struct_written ExecutableRunSpec_fields. Qed.
#[export] Instance NodeObservation_written : Written NodeObservation.
Proof. struct_written NodeObservation_fields. Qed.
#[export] Instance RunCounters_written : Written RunCounters.
Proof. struct_written RunCounters_fields. Qed.
#[export] Instance RunRecord_written : Written RunRecord.
Proof. struct_written RunRecord_fields. Qed.
#[export] Instance NodeRecord_written : Written NodeRecord.
Proof. struct_written NodeRecord_fields. Qed.
#[export] Instance AttemptRecord_written : Written AttemptRecord.
Proof. struct_written AttemptRecord_fields. Qed.
#[export] Instance EventRecord_written : Written EventRecord.
Proof. struct_written EventRecord_fields. Qed.

(** ** The codec of the registry *)
Lemma codec_round {A} `{L : JsonLaw A} `{!Written A} (x : A) :
  jt_ok x -> round_trips (H := tree_codec) x.
Proof.
  intros Hx. exists (json_text (jt_enc x)). split; [done|]. cbn.
  by rewrite read_written, decode_encode by (done || apply enc_written).
Qed.

(** C13. Every record of the registry, and a spec as it is submitted, is read back
    from its JSON as it was written, tags and all, when its strings are UTF-8, its
    integers fit their width, the years of its times have four digits, and no map or
    list of retryable phases is empty without being nil. *)
Theorem records_survive_json :
  (forall x : RunRecord, jt_ok x -> round_trips (H := tree_codec) x) /\
  (forall x : NodeRecord, jt_ok x -> round_trips (H := tree_codec) x) /\
  (forall x : AttemptRecord, jt_ok x -> round_trips (H := tree_codec) x) /\
  (forall x : EventRecord, jt_ok x -> round_trips (H := tree_codec) x) /\
  (forall x : ExecutableRunSpec, jt_ok x -> round_trips (H := tree_codec) x).
Proof.
  split; [exact (fun x => codec_round (L := RunRecord_law) x)|].
  split; [exact (fun x => codec_round (L := NodeRecord_law) x)|].
  split; [exact (fun x => codec_round (L := AttemptRecord_law) x)|].
  split; [exact (fun x => codec_round (L := EventRecord_law) x)|].
  exact (fun x => codec_round (L := ExecutableRunSpec_law) x).
Qed.

Lemma enc_fields_ext {S} (fs : list (field S)) x y :
  Forall (fun f => f_enc f x = f_enc f y) fs -> enc_fields fs x = enc_fields fs y.
Proof. induction 1 as [|f fs H _ IH]; [done|]. cbn [enc_fields]. by rewrite H, IH. Qed.

(** The exception has an effect. A node whose list of retryable phases is empty but
    not nil keeps its retry policy when defaults are applied to the submitted spec,
    and takes that of the defaults once the spec has been stored and read back. *)
Lemma empty_phases_lost (node : Node) :
  n_RetryPolicy node = zero_RetryPolicy <| rtp_RetryablePhases := Some [] |> ->
  jt_ok (node <| n_RetryPolicy := zero_RetryPolicy |>) ->
  exists stored, decode_json (jt_enc node) = Ok stored /\
    n_RetryPolicy stored = zero_RetryPolicy.
Proof.
  intros Hr Hok.
  assert (He : jt_enc node = jt_enc (node <| n_RetryPolicy := zero_RetryPolicy |>)).
  { apply (f_equal JObj), enc_fields_ext. unfold Node_fields. repeat constructor.
    cbn [f_enc jfield]. by rewrite Hr. }
  exists (node <| n_RetryPolicy := zero_RetryPolicy |>). rewrite He. split; [|reflexivity].
  exact (decode_encode _ Hok).
Qed.

(** ** An instance *)
Module Stored.
Definition record : NodeRecord :=
  zero_NodeRecord <| nr_RunID := "r" |> <| nr_NodeID := "n" |> <| nr_Status := NodeStatusSucceeded |>
    <| nr_AttemptCount := 2%Z |> <| nr_StartedAt := Some (1767225600 * Second)%Z |>
    <| nr_FinishedAt := Some (1767225600 * Second + 500)%Z |> <| nr_TerminalFailureReason := "<&>" |>.

Lemma record_ok : jt_ok record.
Proof. vm_compute. repeat split; discriminate. Qed.
End Stored.

Lemma records_survive_json_witness : round_trips (H := tree_codec) Stored.record.
Proof. exact (proj1 (proj2 records_survive_json) Stored.record Stored.record_ok). Defined.
