(* ===== verification/Registry.v ===== *)
(** * The registry interface ([src/pkg/registry/registry.go])

    [Registry R] says that a state of type [R] can serve the operations the
    rest of the program uses; an operation returns the new state and its Go
    result. The clock is an argument where the source reads [time.Now]. An
    update closure returns a value besides the new record: the variables of the
    caller that the closure assigns; or it returns an error. *)
From S2P Require Import Prelude GoErrors Spec.

Definition ErrRunNotFound : GoError := ErrNew "run not found".
Definition ErrNodeNotFound : GoError := ErrNew "node not found".
Definition ErrRunAlreadyExists : GoError := ErrNew "run already exists".
Definition ErrAttemptNotFound : GoError := ErrNew "attempt not found".
Definition ErrAttemptNonTerminal : GoError := ErrNew "current attempt is non-terminal".

Class Registry (R : Type) := {
  reg_CreateRun : R -> RunRecord -> list NodeRecord -> R * res unit;
  reg_GetRun : R -> string -> res RunRecord;
  reg_ListRuns : R -> res (list RunRecord);
  reg_GetNode : R -> string -> string -> res NodeRecord;
  reg_ListNodes : R -> string -> res (list NodeRecord);
  reg_ListAttempts : R -> string -> string -> res (list AttemptRecord);
  reg_ListEvents : R -> string -> Z -> res (list EventRecord);
  reg_UpdateRun {X} : R -> string -> (RunRecord -> res (X * RunRecord)) -> R * res X;
  reg_UpdateNode {X} : R -> string -> string -> (NodeRecord -> res (X * NodeRecord)) -> R * res X;
  reg_UpsertAttempt : R -> AttemptRecord -> R * res unit;
  reg_AppendEvent : R -> EventRecord -> R * res unit;
  reg_GetCurrentAttempt : R -> string -> string -> res (AttemptRecord * bool);
  reg_AllocateCurrentAttempt : R -> Z -> string -> string -> R * res AttemptRecord;
  reg_OpenSemanticAttempt : R -> string -> string -> string -> Z -> R * res unit;
  reg_PersistSubmissionFence : R -> string -> string -> string -> Z -> R * res unit;
  reg_PersistBackendHandle : R -> string -> string -> string -> string -> R * res unit;
  reg_PersistCancellationIntent : R -> string -> string -> string -> Z -> string -> R * res unit;
  reg_PersistProcessCompleted : R -> string -> string -> string -> Z -> R * res unit;
}.

(** The closures the executor passes always return [nil]. *)
Definition infallible {R X} (f : R -> X * R) : R -> res (X * R) := fun x => Ok (f x).
