(* ===== verification/Memory.v ===== *)
(** * The in-memory registry ([src/pkg/registry/memory.go])

    [MemoryRegistry] as four finite maps, one definition per method. Every
    method runs under the registry's lock, so a method is one atomic function
    of the state. A write to an inner map that was never made would be a panic
    in Go ([errNilMap] here); the registry invariant [reg_wf] excludes it. *)
From S2P Require Import Prelude GoErrors Spec Registry.
From stdpp Require Import sorting.

Record MemoryRegistry := mkMemoryRegistry {
  mr_runs : gmap string RunRecord;
  mr_nodes : gmap string (gmap string NodeRecord);
  mr_attempts : gmap string (gmap string (gmap string AttemptRecord));
  mr_events : gmap string (list EventRecord);
}.

#[export] Instance eta_MemoryRegistry : Eta MemoryRegistry := fun r =>
  mkMemoryRegistry (mr_runs r) (mr_nodes r) (mr_attempts r) (mr_events r).

Definition NewMemoryRegistry : MemoryRegistry := mkMemoryRegistry ∅ ∅ ∅ ∅.

Definition errNilMap : GoError := ErrNew "panic: assignment to entry in nil map".

(** [r.attempts[runID][nodeID]], where a missing map reads as empty. *)
Definition node_attempts (r : MemoryRegistry) (runID nodeID : string)
    : gmap string AttemptRecord :=
  default ∅ (mr_attempts r !! runID ≫= (.!! nodeID)).

Definition get_attempt (r : MemoryRegistry) (runID nodeID attemptID : string)
    : option AttemptRecord :=
  node_attempts r runID nodeID !! attemptID.

Definition get_node (r : MemoryRegistry) (runID nodeID : string) : option NodeRecord :=
  mr_nodes r !! runID ≫= (.!! nodeID).

(** [r.nodes[runID][nodeID] = node] *)
Definition put_node (r : MemoryRegistry) (runID nodeID : string) (node : NodeRecord)
    : MemoryRegistry :=
  r <| mr_nodes := alter (fun m => <[nodeID := node]> m) runID (mr_nodes r) |>.

(** [r.attempts[runID][nodeID][attemptID] = attempt] *)
Definition put_attempt (r : MemoryRegistry) (runID nodeID attemptID : string)
    (a : AttemptRecord) : MemoryRegistry :=
  r <| mr_attempts :=
         alter (alter (fun m => <[attemptID := a]> m) nodeID) runID (mr_attempts r) |>.

Definition has_attempt_map (r : MemoryRegistry) (runID nodeID : string) : bool :=
  is_some (mr_attempts r !! runID ≫= (.!! nodeID)).

(** ** Reads *)
Definition GetRun (r : MemoryRegistry) (runID : string) : res RunRecord :=
  match mr_runs r !! runID with
  | Some record => Ok record
  | None => Err ErrRunNotFound
  end.

Definition accepted_before (a b : RunRecord) : Prop := (rr_AcceptedAt a <= rr_AcceptedAt b)%Z.
#[export] Instance accepted_before_dec : RelDecision accepted_before.
Proof. intros a b. unfold accepted_before. apply _. Defined.

(** The slice is filled in map order and sorted by [AcceptedAt] alone, so runs
    accepted at the same instant come in an unspecified order. *)
Definition ListRuns {RO : RangeOrder} (r : MemoryRegistry) : res (list RunRecord) :=
  Ok (merge_sort accepted_before
        (omap (fun k => mr_runs r !! k) (range_keys (dom (mr_runs r))))).

Definition lockedGetNode (r : MemoryRegistry) (runID nodeID : string) : res NodeRecord :=
  match mr_nodes r !! runID with
  | None => Err ErrRunNotFound
  | Some runNodes =>
      match runNodes !! nodeID with
      | None => Err ErrNodeNotFound
      | Some node => Ok node
      end
  end.

(** The public read does not return [ErrNodeNotFound] for a missing node but a
    fresh error with its own text. *)
Definition GetNode (r : MemoryRegistry) (runID nodeID : string) : res NodeRecord :=
  match mr_nodes r !! runID with
  | None => Err ErrRunNotFound
  | Some nodes =>
      match nodes !! nodeID with
      | Some node => Ok node
      | None => Err (Errorf ("node not found: " +:+ runID +:+ "/" +:+ nodeID))
      end
  end.

Definition id_before (a b : NodeRecord) : Prop := String.leb (nr_NodeID a) (nr_NodeID b) = true.
#[export] Instance id_before_dec : RelDecision id_before.
Proof. intros a b. unfold id_before. apply _. Defined.

Definition ListNodes {RO : RangeOrder} (r : MemoryRegistry) (runID : string)
    : res (list NodeRecord) :=
  match mr_nodes r !! runID with
  | None => Err ErrRunNotFound
  | Some nodes => Ok (merge_sort id_before (omap (fun k => nodes !! k) (range_keys (dom nodes))))
  end.

Definition attempt_before (a b : AttemptRecord) : Prop :=
  String.leb (ar_AttemptID a) (ar_AttemptID b) = true.
#[export] Instance attempt_before_dec : RelDecision attempt_before.
Proof. intros a b. unfold attempt_before. apply _. Defined.

Definition ListAttempts {RO : RangeOrder} (r : MemoryRegistry) (runID nodeID : string)
    : res (list AttemptRecord) :=
  match mr_attempts r !! runID with
  | None => Err ErrRunNotFound
  | Some runAttempts =>
      match runAttempts !! nodeID with
      | None => Err ErrNodeNotFound
      | Some attempts =>
          Ok (merge_sort attempt_before
                (omap (fun k => attempts !! k) (range_keys (dom attempts))))
      end
  end.

Definition ListEvents (r : MemoryRegistry) (runID : string) (limit : Z)
    : res (list EventRecord) :=
  match mr_events r !! runID with
  | None => Err ErrRunNotFound
  | Some events =>
      if (limit <=? 0)%Z || (Z.of_nat (length events) <=? limit)%Z then Ok events
      else Ok (drop (length events - Z.to_nat limit) events)
  end.

Definition GetCurrentAttempt (r : MemoryRegistry) (runID nodeID : string)
    : res (AttemptRecord * bool) :=
  match lockedGetNode r runID nodeID with
  | Err e => Err e
  | Ok node =>
      if streq (nr_CurrentAttemptID node) "" then Ok (zero_AttemptRecord, false)
      else match get_attempt r runID nodeID (nr_CurrentAttemptID node) with
           | Some attempt => Ok (attempt, true)
           | None => Ok (zero_AttemptRecord, false)
           end
  end.

(** ** Writes *)
Definition CreateRun (r : MemoryRegistry) (record : RunRecord) (nodes : list NodeRecord)
    : MemoryRegistry * res unit :=
  let runID := rr_RunID record in
  if is_some (mr_runs r !! runID) then (r, Err ErrRunAlreadyExists)
  else
    (r <| mr_runs := <[runID := record]> (mr_runs r) |>
       <| mr_nodes := <[runID := foldl (fun m node => <[nr_NodeID node := node]> m) ∅ nodes]>
                        (mr_nodes r) |>
       <| mr_attempts := <[runID := foldl (fun m node => <[nr_NodeID node := ∅]> m) ∅ nodes]>
                           (mr_attempts r) |>
       <| mr_events := <[runID := []]> (mr_events r) |>, Ok tt).

Definition UpdateRun {X} (r : MemoryRegistry) (runID : string)
    (update : RunRecord -> res (X * RunRecord)) : MemoryRegistry * res X :=
  match mr_runs r !! runID with
  | None => (r, Err ErrRunNotFound)
  | Some record =>
      match update record with
      | Err e => (r, Err e)
      | Ok (x, record) => (r <| mr_runs := <[runID := record]> (mr_runs r) |>, Ok x)
      end
  end.

Definition UpdateNode {X} (r : MemoryRegistry) (runID nodeID : string)
    (update : NodeRecord -> res (X * NodeRecord)) : MemoryRegistry * res X :=
  match lockedGetNode r runID nodeID with
  | Err e => (r, Err e)
  | Ok node =>
      match update node with
      | Err e => (r, Err e)
      | Ok (x, node) => (put_node r runID nodeID node, Ok x)
      end
  end.

Definition UpsertAttempt (r : MemoryRegistry) (record : AttemptRecord)
    : MemoryRegistry * res unit :=
  match mr_attempts r !! ar_RunID record with
  | None => (r, Err ErrRunNotFound)
  | Some runAttempts =>
      match runAttempts !! ar_NodeID record with
      | None => (r, Err ErrNodeNotFound)
      | Some _ =>
          (put_attempt r (ar_RunID record) (ar_NodeID record) (ar_AttemptID record) record, Ok tt)
      end
  end.

Definition AppendEvent (r : MemoryRegistry) (event : EventRecord) : MemoryRegistry * res unit :=
  if is_some (mr_runs r !! ev_RunID event) then
    (r <| mr_events := <[ev_RunID event :=
            default [] (mr_events r !! ev_RunID event) ++ [event]]> (mr_events r) |>, Ok tt)
  else (r, Err ErrRunNotFound).

Definition lockedMutateAttempt (r : MemoryRegistry) (runID nodeID attemptID : string)
    (mutate : AttemptRecord -> AttemptRecord) : MemoryRegistry * res unit :=
  match mr_attempts r !! runID with
  | None => (r, Err ErrRunNotFound)
  | Some runAttempts =>
      match runAttempts !! nodeID with
      | None => (r, Err ErrNodeNotFound)
      | Some nodeAttempts =>
          match nodeAttempts !! attemptID with
          | None => (r, Err ErrAttemptNotFound)
          | Some attempt => (put_attempt r runID nodeID attemptID (mutate attempt), Ok tt)
          end
      end
  end.

Definition AllocateCurrentAttempt (r : MemoryRegistry) (now : Z) (runID nodeID : string)
    : MemoryRegistry * res AttemptRecord :=
  match lockedGetNode r runID nodeID with
  | Err e => (r, Err e)
  | Ok node =>
      let unresolved :=
        if streq (nr_CurrentAttemptID node) "" then false
        else match get_attempt r runID nodeID (nr_CurrentAttemptID node) with
             | Some cur => negb (AttemptStatus_IsTerminal (ar_Status cur))
             | None => false
             end in
      if unresolved then (r, Err ErrAttemptNonTerminal)
      else if negb (has_attempt_map r runID nodeID) then (r, Err errNilMap)
      else
        let next := int_add (nr_RealizationAttemptCount node) 1 in
        let attemptID := DeterministicAttemptID runID nodeID next in
        let attempt := zero_AttemptRecord
              <| ar_RunID := runID |> <| ar_NodeID := nodeID |>
              <| ar_AttemptID := attemptID |> <| ar_Status := AttemptStatusPrepared |>
              <| ar_StartedAt := Some now |> in
        let node := node <| nr_RealizationAttemptCount := next |>
              <| nr_CurrentAttemptID := attemptID |> <| nr_Status := NodeStatusReady |>
              <| nr_CurrentBottleneckLocation := "release_wait" |>
              <| nr_StartedAt := Some now |> in
        (put_node (put_attempt r runID nodeID attemptID attempt) runID nodeID node, Ok attempt)
  end.

Definition open_fence (openedAt : Z) (a : AttemptRecord) : AttemptRecord :=
  a <| ar_SubmissionWindowOpenedAt := Some openedAt |>.

Definition OpenSemanticAttempt (r : MemoryRegistry) (runID nodeID attemptID : string)
    (openedAt : Z) : MemoryRegistry * res unit :=
  match lockedGetNode r runID nodeID with
  | Err e => (r, Err e)
  | Ok node =>
      if negb (streq (nr_CurrentAttemptID node) attemptID) then (r, Err ErrAttemptNotFound)
      else match lockedMutateAttempt r runID nodeID attemptID (open_fence openedAt) with
           | (r, Err e) => (r, Err e)
           | (r, Ok _) =>
               (put_node r runID nodeID
                  (node <| nr_AttemptCount := int_add (nr_AttemptCount node) 1 |>), Ok tt)
           end
  end.

Definition PersistSubmissionFence (r : MemoryRegistry) (runID nodeID attemptID : string)
    (openedAt : Z) : MemoryRegistry * res unit :=
  lockedMutateAttempt r runID nodeID attemptID (open_fence openedAt).

Definition PersistBackendHandle (r : MemoryRegistry) (runID nodeID attemptID handleJSON : string)
    : MemoryRegistry * res unit :=
  match lockedMutateAttempt r runID nodeID attemptID
          (fun a => a <| ar_BackendHandleJSON := handleJSON |>) with
  | (r, Err e) => (r, Err e)
  | (r, Ok _) =>
      let node := default zero_NodeRecord (get_node r runID nodeID) in
      if streq (nr_CurrentAttemptID node) attemptID
      then (put_node r runID nodeID (node <| nr_CurrentAttemptHandleJSON := handleJSON |>), Ok tt)
      else (r, Ok tt)
  end.

Definition PersistCancellationIntent (r : MemoryRegistry) (runID nodeID attemptID : string)
    (requestedAt : Z) (reason : string) : MemoryRegistry * res unit :=
  lockedMutateAttempt r runID nodeID attemptID
    (fun a => a <| ar_CancellationRequestedAt := Some requestedAt |>
                <| ar_CancellationReason := reason |>).

Definition PersistProcessCompleted (r : MemoryRegistry) (runID nodeID attemptID : string)
    (completedAt : Z) : MemoryRegistry * res unit :=
  lockedMutateAttempt r runID nodeID attemptID
    (fun a => a <| ar_ProcessCompletedAt := Some completedAt |>).

#[export] Instance MemoryRegistry_registry {RO : RangeOrder} : Registry MemoryRegistry := {|
  reg_CreateRun := CreateRun;
  reg_GetRun := GetRun;
  reg_ListRuns := ListRuns;
  reg_GetNode := GetNode;
  reg_ListNodes := ListNodes;
  reg_ListAttempts := ListAttempts;
  reg_ListEvents := ListEvents;
  reg_UpdateRun := @UpdateRun;
  reg_UpdateNode := @UpdateNode;
  reg_UpsertAttempt := UpsertAttempt;
  reg_AppendEvent := AppendEvent;
  reg_GetCurrentAttempt := GetCurrentAttempt;
  reg_AllocateCurrentAttempt := AllocateCurrentAttempt;
  reg_OpenSemanticAttempt := OpenSemanticAttempt;
  reg_PersistSubmissionFence := PersistSubmissionFence;
  reg_PersistBackendHandle := PersistBackendHandle;
  reg_PersistCancellationIntent := PersistCancellationIntent;
  reg_PersistProcessCompleted := PersistProcessCompleted;
|}.

(** ** The maps underneath *)
Lemma get_node_locked r runID nodeID :
  lockedGetNode r runID nodeID =
  match get_node r runID nodeID with
  | Some n => Ok n
  | None => match mr_nodes r !! runID with None => Err ErrRunNotFound | Some _ => Err ErrNodeNotFound end
  end.
Proof. unfold lockedGetNode, get_node. by destruct (mr_nodes r !! runID) as [ns|]; simpl; [destruct (ns !! nodeID)|]. Qed.

Lemma get_node_put r runID nodeID n runID' nodeID' :
  get_node r runID nodeID <> None ->
  get_node (put_node r runID nodeID n) runID' nodeID' =
  if decide (runID = runID' /\ nodeID = nodeID') then Some n else get_node r runID' nodeID'.
Proof.
  unfold get_node, put_node. simpl. intros H. destruct (mr_nodes r !! runID) as [ns|] eqn:E; [|done].
  case_decide as Hd.
  - destruct Hd as [<- <-]. rewrite lookup_alter_eq, E. simpl. by rewrite lookup_insert_eq.
  - destruct (decide (runID = runID')) as [<-|]; [|by rewrite lookup_alter_ne].
    rewrite lookup_alter_eq, E. simpl. by rewrite lookup_insert_ne by naive_solver.
Qed.

Lemma get_node_put_attempt r runID nodeID attemptID a runID' nodeID' :
  get_node (put_attempt r runID nodeID attemptID a) runID' nodeID' = get_node r runID' nodeID'.
Proof. done. Qed.

Lemma put_node_attempts r runID nodeID n : mr_attempts (put_node r runID nodeID n) = mr_attempts r.
Proof. done. Qed.

Lemma get_attempt_put_node r runID nodeID n a b c :
  get_attempt (put_node r runID nodeID n) a b c = get_attempt r a b c.
Proof. done. Qed.

Lemma get_attempt_put r runID nodeID attemptID a runID' nodeID' attemptID' :
  has_attempt_map r runID nodeID = true ->
  get_attempt (put_attempt r runID nodeID attemptID a) runID' nodeID' attemptID' =
  if decide (runID = runID' /\ nodeID = nodeID' /\ attemptID = attemptID')
  then Some a else get_attempt r runID' nodeID' attemptID'.
Proof.
  unfold has_attempt_map, get_attempt, node_attempts, put_attempt. simpl.
  destruct (mr_attempts r !! runID) as [ns|] eqn:E; [|done]. simpl.
  destruct (ns !! nodeID) as [m|] eqn:E'; [|done]. intros _.
  destruct (decide (runID = runID')) as [<-|]; [|by rewrite lookup_alter_ne, decide_False by naive_solver].
  rewrite lookup_alter_eq, E. simpl.
  destruct (decide (nodeID = nodeID')) as [<-|];
    [|by rewrite lookup_alter_ne, decide_False by naive_solver].
  rewrite lookup_alter_eq, E'. simpl.
  destruct (decide (attemptID = attemptID')) as [<-|].
  - by rewrite lookup_insert_eq, decide_True.
  - by rewrite lookup_insert_ne, decide_False by naive_solver.
Qed.

(** Every mutation of an attempt: its outcome, and what it changes. *)
Lemma mutate_attempt_spec r runID nodeID attemptID f :
  lockedMutateAttempt r runID nodeID attemptID f =
  match get_attempt r runID nodeID attemptID with
  | Some a => (put_attempt r runID nodeID attemptID (f a), Ok tt)
  | None => (r, Err (match mr_attempts r !! runID with
                     | None => ErrRunNotFound
                     | Some ns => match ns !! nodeID with None => ErrNodeNotFound
                                  | Some _ => ErrAttemptNotFound end
                     end))
  end.
Proof.
  unfold lockedMutateAttempt, get_attempt, node_attempts.
  destruct (mr_attempts r !! runID) as [ns|]; simpl; [|by rewrite lookup_empty].
  destruct (ns !! nodeID) as [m|]; simpl; [|by rewrite lookup_empty]. by destruct (m !! attemptID).
Qed.

Lemma has_map_of_attempt r runID nodeID attemptID a :
  get_attempt r runID nodeID attemptID = Some a -> has_attempt_map r runID nodeID = true.
Proof.
  unfold get_attempt, node_attempts, has_attempt_map.
  destruct (mr_attempts r !! runID) as [ns|]; simpl; [|by rewrite lookup_empty].
  destruct (ns !! nodeID); simpl; [done|by rewrite lookup_empty].
Qed.
