(* ===== verification/Handoff.v ===== *)
(** * The artifact-handoff client ([src/pkg/handoff/client.go])

    The messages exchanged with the artifact-handoff service, the no-op client,
    and the normalisation every client applies to a resolve response. Pointers
    to structures are options. [normalizeResolveBindingResponse] writes through
    the pointers of its argument; a plan built from a candidate shares the
    candidate's location, but both are redacted, so working on values gives the
    same response. *)
From S2P Require Import Prelude GoStrings GoErrors.

Record ResolveBindingRequest := mkResolveBindingRequest {
  rq_RunID : string;
  rq_SampleRunID : string;
  rq_ChildNodeID : string;
  rq_BindingName : string;
  rq_ChildInputName : string;
  rq_ProducerNodeID : string;
  rq_ProducerAttemptID : string;
  rq_ChildAttemptID : string;
  rq_ProducerOutputName : string;
  rq_ArtifactID : string;
  rq_ConsumePolicy : string;
  rq_ExpectedDigest : string;
  rq_Required : bool;
  rq_TargetNodeName : string;
}.

#[export] Instance eta_ResolveBindingRequest : Eta ResolveBindingRequest := fun r =>
  mkResolveBindingRequest
    (rq_RunID r) (rq_SampleRunID r) (rq_ChildNodeID r) (rq_BindingName r)
    (rq_ChildInputName r) (rq_ProducerNodeID r) (rq_ProducerAttemptID r)
    (rq_ChildAttemptID r) (rq_ProducerOutputName r) (rq_ArtifactID r)
    (rq_ConsumePolicy r) (rq_ExpectedDigest r) (rq_Required r)
    (rq_TargetNodeName r).

Definition zero_ResolveBindingRequest : ResolveBindingRequest :=
  {|
     rq_RunID := ""; rq_SampleRunID := ""; rq_ChildNodeID := "";
     rq_BindingName := ""; rq_ChildInputName := ""; rq_ProducerNodeID := "";
     rq_ProducerAttemptID := ""; rq_ChildAttemptID := "";
     rq_ProducerOutputName := ""; rq_ArtifactID := ""; rq_ConsumePolicy := "";
     rq_ExpectedDigest := ""; rq_Required := false; rq_TargetNodeName := "" |}.

Record PlacementIntent := mkPlacementIntent {
  pi_Mode : string;
  pi_NodeName : string;
}.

#[export] Instance eta_PlacementIntent : Eta PlacementIntent := fun r =>
  mkPlacementIntent
    (pi_Mode r) (pi_NodeName r).

Definition zero_PlacementIntent : PlacementIntent :=
  {| pi_Mode := "";
     pi_NodeName := "" |}.

Record NodeLocalLocation := mkNodeLocalLocation {
  nl_NodeName : string;
  nl_Path : string;
}.

#[export] Instance eta_NodeLocalLocation : Eta NodeLocalLocation := fun r =>
  mkNodeLocalLocation
    (nl_NodeName r) (nl_Path r).

Definition zero_NodeLocalLocation : NodeLocalLocation :=
  {|
     nl_NodeName := ""; nl_Path := "" |}.

Record HTTPSource := mkHTTPSource {
  hs_URI : string;
  hs_Headers : option (gmap string string);
}.

#[export] Instance eta_HTTPSource : Eta HTTPSource := fun r =>
  mkHTTPSource
    (hs_URI r) (hs_Headers r).

Definition zero_HTTPSource : HTTPSource :=
  {| hs_URI := "";
     hs_Headers := None |}.

Record ArtifactLocation := mkArtifactLocation {
  al_NodeLocal : option NodeLocalLocation;
  al_HTTP : option HTTPSource;
}.

#[export] Instance eta_ArtifactLocation : Eta ArtifactLocation := fun r =>
  mkArtifactLocation
    (al_NodeLocal r) (al_HTTP r).

Definition zero_ArtifactLocation : ArtifactLocation :=
  {|
     al_NodeLocal := None; al_HTTP := None |}.

Record MaterializationPlan := mkMaterializationPlan {
  mp_Mode : string;
  mp_URI : string;
  mp_ExpectedDigest : string;
  mp_ExpectedSize : Z;
  mp_SourceLocation : option ArtifactLocation;
  mp_LocalPath : string;
}.

#[export] Instance eta_MaterializationPlan : Eta MaterializationPlan := fun r =>
  mkMaterializationPlan
    (mp_Mode r) (mp_URI r) (mp_ExpectedDigest r) (mp_ExpectedSize r)
    (mp_SourceLocation r) (mp_LocalPath r).

Definition zero_MaterializationPlan : MaterializationPlan :=
  {|
     mp_Mode := ""; mp_URI := ""; mp_ExpectedDigest := "";
     mp_ExpectedSize := 0; mp_SourceLocation := None; mp_LocalPath := "" |}.

Record MaterializationCondition := mkMaterializationCondition {
  mc_Kind : string;
  mc_NodeName : string;
  mc_BackendID : string;
  mc_SourceRef : string;
  mc_State : string;
}.

#[export] Instance eta_MaterializationCondition : Eta MaterializationCondition := fun r =>
  mkMaterializationCondition
    (mc_Kind r) (mc_NodeName r) (mc_BackendID r) (mc_SourceRef r) (mc_State r).

Record MaterializationCandidate := mkMaterializationCandidate {
  cd_Priority : Z;
  cd_Mode : string;
  cd_SourceRef : string;
  cd_ExpectedDigest : string;
  cd_ExpectedSize : Z;
  cd_LocalPath : string;
  cd_SourceLocation : option ArtifactLocation;
  cd_URI : string;
  cd_Conditions : list MaterializationCondition;
}.

#[export] Instance eta_MaterializationCandidate : Eta MaterializationCandidate := fun r =>
  mkMaterializationCandidate
    (cd_Priority r) (cd_Mode r) (cd_SourceRef r) (cd_ExpectedDigest r)
    (cd_ExpectedSize r) (cd_LocalPath r) (cd_SourceLocation r) (cd_URI r)
    (cd_Conditions r).

Definition zero_MaterializationCandidate : MaterializationCandidate :=
  {|
     cd_Priority := 0; cd_Mode := ""; cd_SourceRef := "";
     cd_ExpectedDigest := ""; cd_ExpectedSize := 0; cd_LocalPath := "";
     cd_SourceLocation := None; cd_URI := ""; cd_Conditions := [] |}.

Record ResolveBindingResponse := mkResolveBindingResponse {
  rs_ResolutionStatus : string;
  rs_Decision : string;
  rs_PlacementIntent : PlacementIntent;
  rs_MaterializationPlan : MaterializationPlan;
  rs_MaterializationCandidates : list MaterializationCandidate;
  rs_Reason : string;
  rs_Retryable : bool;
  rs_SourceNodeName : string;
  rs_ArtifactURI : string;
  rs_RequiresMaterialization : bool;
}.

#[export] Instance eta_ResolveBindingResponse : Eta ResolveBindingResponse := fun r =>
  mkResolveBindingResponse
    (rs_ResolutionStatus r) (rs_Decision r) (rs_PlacementIntent r)
    (rs_MaterializationPlan r) (rs_MaterializationCandidates r) (rs_Reason r)
    (rs_Retryable r) (rs_SourceNodeName r) (rs_ArtifactURI r)
    (rs_RequiresMaterialization r).

Definition zero_ResolveBindingResponse : ResolveBindingResponse :=
  {|
     rs_ResolutionStatus := ""; rs_Decision := "";
     rs_PlacementIntent := zero_PlacementIntent;
     rs_MaterializationPlan := zero_MaterializationPlan;
     rs_MaterializationCandidates := []; rs_Reason := "";
     rs_Retryable := false; rs_SourceNodeName := ""; rs_ArtifactURI := "";
     rs_RequiresMaterialization := false |}.

Record NotifyNodeTerminalRequest := mkNotifyNodeTerminalRequest {
  nt_SampleRunID : string;
  nt_NodeID : string;
  nt_AttemptID : string;
  nt_TerminalState : string;
}.

#[export] Instance eta_NotifyNodeTerminalRequest : Eta NotifyNodeTerminalRequest := fun r =>
  mkNotifyNodeTerminalRequest
    (nt_SampleRunID r) (nt_NodeID r) (nt_AttemptID r) (nt_TerminalState r).

Definition zero_NotifyNodeTerminalRequest : NotifyNodeTerminalRequest :=
  {|
     nt_SampleRunID := ""; nt_NodeID := ""; nt_AttemptID := "";
     nt_TerminalState := "" |}.

Record RegisterArtifactRequest := mkRegisterArtifactRequest {
  ra_SampleRunID : string;
  ra_ProducerNodeID : string;
  ra_ProducerAttemptID : string;
  ra_OutputName : string;
  ra_ArtifactID : string;
  ra_Digest : string;
  ra_NodeName : string;
  ra_URI : string;
  ra_LogicalURI : string;
  ra_Locations : list ArtifactLocation;
  ra_SizeBytes : Z;
}.

#[export] Instance eta_RegisterArtifactRequest : Eta RegisterArtifactRequest := fun r =>
  mkRegisterArtifactRequest
    (ra_SampleRunID r) (ra_ProducerNodeID r) (ra_ProducerAttemptID r)
    (ra_OutputName r) (ra_ArtifactID r) (ra_Digest r) (ra_NodeName r)
    (ra_URI r) (ra_LogicalURI r) (ra_Locations r) (ra_SizeBytes r).

Definition zero_RegisterArtifactRequest : RegisterArtifactRequest :=
  {|
     ra_SampleRunID := ""; ra_ProducerNodeID := "";
     ra_ProducerAttemptID := ""; ra_OutputName := ""; ra_ArtifactID := "";
     ra_Digest := ""; ra_NodeName := ""; ra_URI := ""; ra_LogicalURI := "";
     ra_Locations := []; ra_SizeBytes := 0 |}.


(** ** Normalisation *)
Definition is_empty_trimmed (s : string) : bool := streq (TrimSpace s) "".

Definition isZeroMaterializationPlan (plan : MaterializationPlan) : bool :=
  is_empty_trimmed (mp_Mode plan) && is_empty_trimmed (mp_URI plan)
  && is_empty_trimmed (mp_ExpectedDigest plan)
  && negb (is_some (mp_SourceLocation plan))
  && is_empty_trimmed (mp_LocalPath plan).

Definition planFromCandidate (candidate : MaterializationCandidate) : MaterializationPlan :=
  {| mp_Mode := cd_Mode candidate;
     mp_URI := cd_URI candidate;
     mp_ExpectedDigest := cd_ExpectedDigest candidate;
     mp_ExpectedSize := cd_ExpectedSize candidate;
     mp_SourceLocation := cd_SourceLocation candidate;
     mp_LocalPath := cd_LocalPath candidate |}.

Definition redactArtifactLocation (location : ArtifactLocation) : ArtifactLocation :=
  match al_HTTP location with
  | None => location
  | Some h => location <| al_HTTP := Some (h <| hs_Headers := None |>) |>
  end.

Definition redactResolveBindingResponse (resolved : ResolveBindingResponse)
    : ResolveBindingResponse :=
  resolved
    <| rs_MaterializationPlan := (rs_MaterializationPlan resolved)
         <| mp_SourceLocation :=
              redactArtifactLocation <$> mp_SourceLocation (rs_MaterializationPlan resolved) |> |>
    <| rs_MaterializationCandidates :=
         map (fun c => c <| cd_SourceLocation := redactArtifactLocation <$> cd_SourceLocation c |>)
             (rs_MaterializationCandidates resolved) |>.

Definition normalizeResolveBindingResponse (resolved : ResolveBindingResponse)
    : ResolveBindingResponse :=
  let resolved :=
    if streq (pi_NodeName (rs_PlacementIntent resolved)) ""
       && negb (streq (rs_SourceNodeName resolved) "")
    then resolved <| rs_PlacementIntent :=
           (rs_PlacementIntent resolved) <| pi_NodeName := rs_SourceNodeName resolved |> |>
    else resolved in
  let resolved :=
    if streq (pi_Mode (rs_PlacementIntent resolved)) ""
       && negb (streq (pi_NodeName (rs_PlacementIntent resolved)) "")
    then resolved <| rs_PlacementIntent :=
           (rs_PlacementIntent resolved) <| pi_Mode := "required_node" |> |>
    else resolved in
  let resolved :=
    match rs_MaterializationCandidates resolved with
    | c :: _ =>
        if isZeroMaterializationPlan (rs_MaterializationPlan resolved)
        then resolved <| rs_MaterializationPlan := planFromCandidate c |>
        else resolved
    | [] => resolved
    end in
  let resolved := redactResolveBindingResponse resolved in
  let resolved :=
    if streq (mp_URI (rs_MaterializationPlan resolved)) ""
       && negb (streq (rs_ArtifactURI resolved) "")
    then resolved <| rs_MaterializationPlan :=
           (rs_MaterializationPlan resolved) <| mp_URI := rs_ArtifactURI resolved |> |>
    else resolved in
  if streq (mp_Mode (rs_MaterializationPlan resolved)) "" then
    resolved <| rs_MaterializationPlan :=
      (rs_MaterializationPlan resolved)
        <| mp_Mode := if rs_RequiresMaterialization resolved then "remote_fetch"
                      else if negb (streq (mp_URI (rs_MaterializationPlan resolved)) "")
                      then "remote_fetch" else "none" |> |>
  else resolved.

(** ** The no-op client *)
Definition Noop_ResolveBinding (req : ResolveBindingRequest) : res ResolveBindingResponse :=
  Ok (normalizeResolveBindingResponse
        (zero_ResolveBindingResponse
           <| rs_ResolutionStatus := "RESOLVED" |>
           <| rs_Decision := "noop" |>
           <| rs_PlacementIntent :=
                {| pi_Mode := "preferred_node";
                   pi_NodeName := FirstNonEmpty [rq_TargetNodeName req; rq_ProducerNodeID req] |} |>
           <| rs_MaterializationPlan := zero_MaterializationPlan <| mp_Mode := "none" |> |>)).

(** ** No response keeps the headers of an HTTP source *)
Definition location_redacted (l : option ArtifactLocation) : Prop :=
  forall loc h, l = Some loc -> al_HTTP loc = Some h -> hs_Headers h = None.

Lemma redact_location_redacted l : location_redacted (redactArtifactLocation <$> l).
Proof.
  unfold location_redacted, redactArtifactLocation. intros loc h.
  destruct l as [[nl [http|]]|]; simpl; intros; simplify_eq/=; done.
Qed.

Lemma redact_redacted r :
  location_redacted (mp_SourceLocation (rs_MaterializationPlan (redactResolveBindingResponse r)))
  /\ Forall (fun c => location_redacted (cd_SourceLocation c))
       (rs_MaterializationCandidates (redactResolveBindingResponse r)).
Proof.
  split; [apply redact_location_redacted|].
  simpl. apply List.Forall_map, Forall_forall. intros c _. apply redact_location_redacted.
Qed.

(** Whatever is normalised, no location keeps the headers of an HTTP source, and
    the materialization mode is set. *)
Lemma normalize_redacted (resolved : ResolveBindingResponse) :
  let out := normalizeResolveBindingResponse resolved in
  location_redacted (mp_SourceLocation (rs_MaterializationPlan out))
  /\ Forall (fun c => location_redacted (cd_SourceLocation c)) (rs_MaterializationCandidates out)
  /\ mp_Mode (rs_MaterializationPlan out) <> "".
Proof.
  cbv zeta. unfold normalizeResolveBindingResponse.
  match goal with |- context [redactResolveBindingResponse ?r] => generalize r end.
  intros r. destruct (redact_redacted r) as [H1 H2].
  revert H1 H2. generalize (redactResolveBindingResponse r). clear r. intros r H1 H2.
  destruct (streq (mp_URI _) "" && _); simpl;
    destruct (streq (mp_Mode _) "") eqn:Em; simpl; str_tests; split_and!; try done;
    by case_match; [|case_match].
Qed.

(** Normalising twice is normalising once. *)
Lemma redact_location_idemp l :
  redactArtifactLocation (redactArtifactLocation l) = redactArtifactLocation l.
Proof. destruct l as [nl [h|]]; done. Qed.
