(* ===== verification/HandoffClient.v ===== *)
(** * The handoff client interface ([src/pkg/handoff/client.go])

    What the executor calls, as a class over the state of the world, and the
    no-op client. A context is known by its deadline. *)
From S2P Require Import Prelude GoStrings GoErrors Handoff.

Record FinalizeSampleRunRequest := mkFinalizeSampleRunRequest { fr_SampleRunID : string }.
Record EvaluateGCRequest := mkEvaluateGCRequest { gr_SampleRunID : string }.
Record GetSampleRunLifecycleRequest := mkGetSampleRunLifecycleRequest { lr_SampleRunID : string }.

#[export] Instance eta_FinalizeSampleRunRequest : Eta FinalizeSampleRunRequest := fun r =>
  mkFinalizeSampleRunRequest (fr_SampleRunID r).
#[export] Instance eta_EvaluateGCRequest : Eta EvaluateGCRequest := fun r =>
  mkEvaluateGCRequest (gr_SampleRunID r).

Record SampleRunLifecycle := mkSampleRunLifecycle {
  lc_SampleRunID : string;
  lc_Finalized : bool;
  lc_FinalizedAt : string;
  lc_RetentionPolicySource : string;
  lc_RetentionDuration : string;
  lc_RetentionUntil : string;
  lc_GCEligible : bool;
  lc_GCEligibleAt : string;
  lc_GCBlockedReason : string;
  lc_TerminalNodeCount : Z;
  lc_SucceededNodeCount : Z;
  lc_FailedNodeCount : Z;
  lc_CanceledNodeCount : Z;
  lc_RetainedArtifactCount : Z;
  lc_RetainedArtifactBytes : Z;
}.

#[export] Instance eta_SampleRunLifecycle : Eta SampleRunLifecycle := fun r =>
  mkSampleRunLifecycle
    (lc_SampleRunID r) (lc_Finalized r) (lc_FinalizedAt r) (lc_RetentionPolicySource r)
    (lc_RetentionDuration r) (lc_RetentionUntil r) (lc_GCEligible r) (lc_GCEligibleAt r)
    (lc_GCBlockedReason r) (lc_TerminalNodeCount r) (lc_SucceededNodeCount r)
    (lc_FailedNodeCount r) (lc_CanceledNodeCount r) (lc_RetainedArtifactCount r)
    (lc_RetainedArtifactBytes r).

Definition zero_SampleRunLifecycle : SampleRunLifecycle :=
  {| lc_SampleRunID := ""; lc_Finalized := false; lc_FinalizedAt := "";
     lc_RetentionPolicySource := ""; lc_RetentionDuration := ""; lc_RetentionUntil := "";
     lc_GCEligible := false; lc_GCEligibleAt := ""; lc_GCBlockedReason := "";
     lc_TerminalNodeCount := 0; lc_SucceededNodeCount := 0; lc_FailedNodeCount := 0;
     lc_CanceledNodeCount := 0; lc_RetainedArtifactCount := 0; lc_RetainedArtifactBytes := 0 |}.

(** A [context.Context]: its deadline, in nanoseconds. *)
Record context := mkContext { cx_Deadline : option Z }.

(** [handoff.Client]. The lifecycle comes with whether the sample run was found. *)
Class Client (W : Type) := {
  cl_ResolveBinding : W -> context -> ResolveBindingRequest -> W * res ResolveBindingResponse;
  cl_RegisterArtifact : W -> context -> RegisterArtifactRequest -> W * option GoError;
  cl_NotifyNodeTerminal : W -> context -> NotifyNodeTerminalRequest -> W * option GoError;
  cl_FinalizeSampleRun : W -> context -> FinalizeSampleRunRequest -> W * option GoError;
  cl_EvaluateGC : W -> context -> EvaluateGCRequest -> W * option GoError;
  cl_GetSampleRunLifecycle : W -> context -> GetSampleRunLifecycleRequest ->
    W * res (SampleRunLifecycle * bool);
}.

(** ** The no-op client *)
Definition Noop_GetSampleRunLifecycle (req : GetSampleRunLifecycleRequest)
    : res (SampleRunLifecycle * bool) :=
  Ok (zero_SampleRunLifecycle <| lc_SampleRunID := lr_SampleRunID req |>, false).

Definition NoopClient (W : Type) : Client W := {|
  cl_ResolveBinding w _ req := (w, Noop_ResolveBinding req);
  cl_RegisterArtifact w _ _ := (w, None);
  cl_NotifyNodeTerminal w _ _ := (w, None);
  cl_FinalizeSampleRun w _ _ := (w, None);
  cl_EvaluateGC w _ _ := (w, None);
  cl_GetSampleRunLifecycle w _ req := (w, Noop_GetSampleRunLifecycle req);
|}.
