(* ===== verification/HandoffJson.v ===== *)
(** * The JSON of the handoff messages ([src/pkg/handoff/client.go])

    The tags of the structures that travel over HTTP, and that each is read back
    as it was written. *)
From S2P Require Import Prelude GoStrings GoErrors Handoff HandoffClient JsonTree.

(** ** The tags *)
Definition PlacementIntent_fields : list (field PlacementIntent) := [
  jfield "mode" true pi_Mode;
  jfield "nodeName" true pi_NodeName
].
#[export] Instance PlacementIntent_json : JsonType PlacementIntent :=
  struct_json zero_PlacementIntent PlacementIntent_fields.

Definition NodeLocalLocation_fields : list (field NodeLocalLocation) := [
  jfield "nodeName" true nl_NodeName;
  jfield "path" true nl_Path
].
#[export] Instance NodeLocalLocation_json : JsonType NodeLocalLocation :=
  struct_json zero_NodeLocalLocation NodeLocalLocation_fields.

Definition HTTPSource_fields : list (field HTTPSource) := [
  jfield "uri" true hs_URI;
  jfield "headers" true hs_Headers
].
#[export] Instance HTTPSource_json : JsonType HTTPSource :=
  struct_json zero_HTTPSource HTTPSource_fields.

Definition ArtifactLocation_fields : list (field ArtifactLocation) := [
  jfield "nodeLocal" true al_NodeLocal;
  jfield "http" true al_HTTP
].
#[export] Instance ArtifactLocation_json : JsonType ArtifactLocation :=
  struct_json zero_ArtifactLocation ArtifactLocation_fields.

Definition MaterializationPlan_fields : list (field MaterializationPlan) := [
  jfield "mode" true mp_Mode;
  jfield "uri" true mp_URI;
  jfield "expectedDigest" true mp_ExpectedDigest;
  jfield "expectedSizeBytes" true mp_ExpectedSize;
  jfield "sourceLocation" true mp_SourceLocation;
  jfield "localPath" true mp_LocalPath
].
#[export] Instance MaterializationPlan_json : JsonType MaterializationPlan :=
  struct_json zero_MaterializationPlan MaterializationPlan_fields.

Definition zero_MaterializationCondition : MaterializationCondition :=
  {| mc_Kind := ""; mc_NodeName := ""; mc_BackendID := ""; mc_SourceRef := ""; mc_State := "" |}.

Definition MaterializationCondition_fields : list (field MaterializationCondition) := [
  jfield "kind" false mc_Kind;
  jfield "nodeName" true mc_NodeName;
  jfield "backendId" true mc_BackendID;
  jfield "sourceRef" true mc_SourceRef;
  jfield "state" true mc_State
].
#[export] Instance MaterializationCondition_json : JsonType MaterializationCondition :=
  struct_json zero_MaterializationCondition MaterializationCondition_fields.

Definition MaterializationCandidate_fields : list (field MaterializationCandidate) := [
  jfield "priority" false cd_Priority;
  jfield "mode" true cd_Mode;
  jfield "sourceRef" true cd_SourceRef;
  jfield "expectedDigest" true cd_ExpectedDigest;
  jfield "expectedSizeBytes" true cd_ExpectedSize;
  jfield "localPath" true cd_LocalPath;
  jfield "sourceLocation" true cd_SourceLocation;
  jfield "uri" true cd_URI;
  jfield "conditions" true cd_Conditions
].
#[export] Instance MaterializationCandidate_json : JsonType MaterializationCandidate :=
  struct_json zero_MaterializationCandidate MaterializationCandidate_fields.

Definition ResolveBindingResponse_fields : list (field ResolveBindingResponse) := [
  jfield "resolutionStatus" false rs_ResolutionStatus;
  jfield "decision" false rs_Decision;
  jfield "placementIntent" false rs_PlacementIntent;
  jfield "materializationPlan" false rs_MaterializationPlan;
  jfield "materializationCandidates" true rs_MaterializationCandidates;
  jfield "reason" true rs_Reason;
  jfield "retryable" true rs_Retryable;
  jfield "sourceNodeName" true rs_SourceNodeName;
  jfield "artifactURI" true rs_ArtifactURI;
  jfield "requiresMaterialization" true rs_RequiresMaterialization
].
#[export] Instance ResolveBindingResponse_json : JsonType ResolveBindingResponse :=
  struct_json zero_ResolveBindingResponse ResolveBindingResponse_fields.

Definition NotifyNodeTerminalRequest_fields : list (field NotifyNodeTerminalRequest) := [
  jfield "sampleRunId" false nt_SampleRunID;
  jfield "nodeId" false nt_NodeID;
  jfield "attemptId" true nt_AttemptID;
  jfield "terminalState" false nt_TerminalState
].
#[export] Instance NotifyNodeTerminalRequest_json : JsonType NotifyNodeTerminalRequest :=
  struct_json zero_NotifyNodeTerminalRequest NotifyNodeTerminalRequest_fields.

Definition FinalizeSampleRunRequest_fields : list (field FinalizeSampleRunRequest) := [
  jfield "sampleRunId" false fr_SampleRunID
].
#[export] Instance FinalizeSampleRunRequest_json : JsonType FinalizeSampleRunRequest :=
  struct_json (mkFinalizeSampleRunRequest "") FinalizeSampleRunRequest_fields.

Definition EvaluateGCRequest_fields : list (field EvaluateGCRequest) := [
  jfield "sampleRunId" false gr_SampleRunID
].
#[export] Instance EvaluateGCRequest_json : JsonType EvaluateGCRequest :=
  struct_json (mkEvaluateGCRequest "") EvaluateGCRequest_fields.

Definition SampleRunLifecycle_fields : list (field SampleRunLifecycle) := [
  jfield "sampleRunId" true lc_SampleRunID;
  jfield "finalized" true lc_Finalized;
  jfield "finalizedAt" true lc_FinalizedAt;
  jfield "retentionPolicySource" true lc_RetentionPolicySource;
  jfield "retentionDuration" true lc_RetentionDuration;
  jfield "retentionUntil" true lc_RetentionUntil;
  jfield "gcEligible" true lc_GCEligible;
  jfield "gcEligibleAt" true lc_GCEligibleAt;
  jfield "gcBlockedReason" true lc_GCBlockedReason;
  jfield "terminalNodeCount" true lc_TerminalNodeCount (H := int_json 32);
  jfield "succeededNodeCount" true lc_SucceededNodeCount (H := int_json 32);
  jfield "failedNodeCount" true lc_FailedNodeCount (H := int_json 32);
  jfield "canceledNodeCount" true lc_CanceledNodeCount (H := int_json 32);
  jfield "retainedArtifactCount" true lc_RetainedArtifactCount (H := int_json 32);
  jfield "retainedArtifactBytes" true lc_RetainedArtifactBytes
].
#[export] Instance SampleRunLifecycle_json : JsonType SampleRunLifecycle :=
  struct_json zero_SampleRunLifecycle SampleRunLifecycle_fields.
