(* ===== verification/Ahv1.v ===== *)
(** * The messages of the handoff protocol ([src/pkg/handoff/ahv1/ah_v1.pb.go])

    The structures the gRPC client fills in and reads, field by field in the
    order of the file; a pointer to a message is an option, and a getter of a nil
    pointer answers the zero value. The stub is a class: the generated code hands
    a message to the connection and fails or answers a message. *)
From S2P Require Import Prelude GoErrors HandoffClient.

Record ah_NodeLocalLocation := mkAhNodeLocalLocation { anl_NodeName : string; anl_Path : string }.
Record ah_HttpSource := mkAhHttpSource { ahs_Uri : string }.

(** The oneof [Backend]. *)
Inductive ah_Backend :=
  | ArtifactLocation_NodeLocal (location : option ah_NodeLocalLocation)
  | ArtifactLocation_Http (source : option ah_HttpSource).

Record ah_ArtifactLocation := mkAhArtifactLocation { aal_Backend : option ah_Backend }.

Record ah_ArtifactRef := mkAhArtifactRef {
  aar_SampleRunId : string;
  aar_ProducerNodeId : string;
  aar_OutputName : string;
  aar_ArtifactId : string;
  aar_Digest : string;
  aar_NodeName : string;
  aar_Uri : string;
  aar_SizeBytes : Z;
  aar_ProducerAttemptId : string;
  aar_LogicalUri : string;
  aar_Locations : list (option ah_ArtifactLocation);
}.

Record ah_ArtifactBinding := mkAhArtifactBinding {
  aab_BindingName : string;
  aab_SampleRunId : string;
  aab_ChildNodeId : string;
  aab_ChildInputName : string;
  aab_ProducerNodeId : string;
  aab_ProducerOutputName : string;
  aab_ConsumePolicy : string;
  aab_Required : bool;
  aab_ExpectedDigest : string;
  aab_ArtifactId : string;
  aab_ProducerAttemptId : string;
  aab_ChildAttemptId : string;
}.

Record ah_ResolveHandoffRequest := mkAhResolveHandoffRequest {
  arh_Binding : option ah_ArtifactBinding;
  arh_TargetNodeName : string;
}.

Record ah_PlacementIntent := mkAhPlacementIntent { api_Mode : string; api_NodeName : string }.

Record ah_MaterializationPlan := mkAhMaterializationPlan {
  amp_Mode : string;
  amp_Uri : string;
  amp_ExpectedDigest : string;
  amp_ExpectedSizeBytes : Z;
  amp_SourceLocation : option ah_ArtifactLocation;
  amp_LocalPath : string;
}.

Record ah_MaterializationCondition := mkAhMaterializationCondition {
  amc_Kind : string;
  amc_NodeName : string;
  amc_BackendId : string;
  amc_SourceRef : string;
  amc_State : string;
}.

Record ah_MaterializationCandidate := mkAhMaterializationCandidate {
  acd_Priority : Z;
  acd_Mode : string;
  acd_SourceRef : string;
  acd_ExpectedDigest : string;
  acd_ExpectedSizeBytes : Z;
  acd_LocalPath : string;
  acd_SourceLocation : option ah_ArtifactLocation;
  acd_Uri : string;
  acd_Conditions : list (option ah_MaterializationCondition);
}.

Record ah_ResolveHandoffResponse := mkAhResolveHandoffResponse {
  ahr_ResolutionStatus : string;
  ahr_Decision : string;
  ahr_PlacementIntent : option ah_PlacementIntent;
  ahr_MaterializationPlan : option ah_MaterializationPlan;
  ahr_Reason : string;
  ahr_Retryable : bool;
  ahr_MaterializationCandidates : list (option ah_MaterializationCandidate);
}.

Record ah_NotifyNodeTerminalRequest := mkAhNotifyNodeTerminalRequest {
  ant_SampleRunId : string;
  ant_NodeId : string;
  ant_TerminalState : string;
  ant_AttemptId : string;
}.

Record ah_GetSampleRunLifecycleResponse := mkAhGetSampleRunLifecycleResponse {
  alc_SampleRunId : string;
  alc_Finalized : bool;
  alc_FinalizedAt : string;
  alc_RetentionPolicySource : string;
  alc_RetentionDuration : string;
  alc_RetentionUntil : string;
  alc_GcEligible : bool;
  alc_GcEligibleAt : string;
  alc_GcBlockedReason : string;
  alc_TerminalNodeCount : Z;
  alc_SucceededNodeCount : Z;
  alc_FailedNodeCount : Z;
  alc_CanceledNodeCount : Z;
  alc_RetainedArtifactCount : Z;
  alc_RetainedArtifactBytes : Z;
}.

(** [ahv1.ArtifactHandoffResolverClient], the methods the client calls; a request
    that is one string and an answer that is not read are left as that. *)
Class ArtifactHandoffResolverClient (W : Type) := {
  ah_RegisterArtifact : W -> context -> option ah_ArtifactRef -> W * option GoError;
  ah_ResolveHandoff : W -> context -> ah_ResolveHandoffRequest -> W * res ah_ResolveHandoffResponse;
  ah_NotifyNodeTerminal : W -> context -> ah_NotifyNodeTerminalRequest -> W * option GoError;
  ah_FinalizeSampleRun : W -> context -> string -> W * option GoError;
  ah_EvaluateGC : W -> context -> string -> W * option GoError;
  ah_GetSampleRunLifecycle : W -> context -> string -> W * res ah_GetSampleRunLifecycleResponse;
}.
