(* ===== verification/HandoffGrpc.v ===== *)
(** * The gRPC handoff client ([src/pkg/handoff/grpc_client.go])

    Every method of [GRPCClient] over the stub of [Ahv1]. The state is that of
    the world, the clock's reading for the next call and the counters
    incremented so far. *)
From S2P Require Import Prelude GoErrors Handoff HandoffClient Ahv1.

(** ** Conversions *)
Definition grpcArtifactLocationFromClient (location : ArtifactLocation) : option ah_ArtifactLocation :=
  match al_NodeLocal location, al_HTTP location with
  | Some l, _ =>
      Some (mkAhArtifactLocation
        (Some (ArtifactLocation_NodeLocal (Some (mkAhNodeLocalLocation (nl_NodeName l) (nl_Path l))))))
  | None, Some h =>
      Some (mkAhArtifactLocation (Some (ArtifactLocation_Http (Some (mkAhHttpSource (hs_URI h))))))
  | None, None => None
  end.

Fixpoint grpcArtifactLocations (locations : list ArtifactLocation) : list (option ah_ArtifactLocation) :=
  match locations with
  | [] => []
  | location :: locations =>
      match grpcArtifactLocationFromClient location with
      | Some converted => Some converted :: grpcArtifactLocations locations
      | None => grpcArtifactLocations locations
      end
  end.

(** Getters of a pointer that may be nil. *)
Definition get {M T} (f : M -> T) (zero : T) (m : option M) : T :=
  match m with Some m => f m | None => zero end.

Definition grpcArtifactLocation (location : option ah_ArtifactLocation) : option ArtifactLocation :=
  match location ≫= aal_Backend with
  | Some (ArtifactLocation_NodeLocal l) =>
      Some (mkArtifactLocation (Some (mkNodeLocalLocation (get anl_NodeName "" l) (get anl_Path "" l))) None)
  | Some (ArtifactLocation_Http h) =>
      Some (mkArtifactLocation None (Some (mkHTTPSource (get ahs_Uri "" h) None)))
  | None => None
  end.

Definition grpcCondition (condition : option ah_MaterializationCondition) : MaterializationCondition := {|
  mc_Kind := get amc_Kind "" condition;
  mc_NodeName := get amc_NodeName "" condition;
  mc_BackendID := get amc_BackendId "" condition;
  mc_SourceRef := get amc_SourceRef "" condition;
  mc_State := get amc_State "" condition |}.

Definition grpcCandidate (candidate : ah_MaterializationCandidate) : MaterializationCandidate := {|
  cd_Priority := acd_Priority candidate;
  cd_Mode := acd_Mode candidate;
  cd_SourceRef := acd_SourceRef candidate;
  cd_ExpectedDigest := acd_ExpectedDigest candidate;
  cd_ExpectedSize := acd_ExpectedSizeBytes candidate;
  cd_LocalPath := acd_LocalPath candidate;
  cd_SourceLocation := grpcArtifactLocation (acd_SourceLocation candidate);
  cd_URI := acd_Uri candidate;
  cd_Conditions := map grpcCondition (acd_Conditions candidate) |}.

Definition grpcMaterializationCandidates (candidates : list (option ah_MaterializationCandidate))
    : list MaterializationCandidate :=
  omap (fmap grpcCandidate) candidates.

Definition grpcPlan (plan : option ah_MaterializationPlan) : MaterializationPlan := {|
  mp_Mode := get amp_Mode "" plan;
  mp_URI := get amp_Uri "" plan;
  mp_ExpectedDigest := get amp_ExpectedDigest "" plan;
  mp_ExpectedSize := get amp_ExpectedSizeBytes 0%Z plan;
  mp_SourceLocation := grpcArtifactLocation (get amp_SourceLocation None plan);
  mp_LocalPath := get amp_LocalPath "" plan |}.

Definition grpcResponse (resp : ah_ResolveHandoffResponse) : ResolveBindingResponse :=
  zero_ResolveBindingResponse
    <| rs_ResolutionStatus := ahr_ResolutionStatus resp |>
    <| rs_Decision := ahr_Decision resp |>
    <| rs_PlacementIntent := {|
         pi_Mode := get api_Mode "" (ahr_PlacementIntent resp);
         pi_NodeName := get api_NodeName "" (ahr_PlacementIntent resp) |} |>
    <| rs_MaterializationPlan := grpcPlan (ahr_MaterializationPlan resp) |>
    <| rs_MaterializationCandidates := grpcMaterializationCandidates (ahr_MaterializationCandidates resp) |>
    <| rs_Reason := ahr_Reason resp |>
    <| rs_Retryable := ahr_Retryable resp |>.

Definition grpcResolveRequest (req : ResolveBindingRequest) : ah_ResolveHandoffRequest := {|
  arh_Binding := Some {|
    aab_BindingName := rq_BindingName req;
    aab_SampleRunId := rq_SampleRunID req;
    aab_ChildNodeId := rq_ChildNodeID req;
    aab_ChildInputName := rq_ChildInputName req;
    aab_ProducerNodeId := rq_ProducerNodeID req;
    aab_ProducerOutputName := rq_ProducerOutputName req;
    aab_ConsumePolicy := rq_ConsumePolicy req;
    aab_Required := rq_Required req;
    aab_ExpectedDigest := rq_ExpectedDigest req;
    aab_ArtifactId := rq_ArtifactID req;
    aab_ProducerAttemptId := rq_ProducerAttemptID req;
    aab_ChildAttemptId := rq_ChildAttemptID req |};
  arh_TargetNodeName := rq_TargetNodeName req |}.

Definition grpcArtifact (req : RegisterArtifactRequest) : ah_ArtifactRef := {|
  aar_SampleRunId := ra_SampleRunID req;
  aar_ProducerNodeId := ra_ProducerNodeID req;
  aar_OutputName := ra_OutputName req;
  aar_ArtifactId := ra_ArtifactID req;
  aar_Digest := ra_Digest req;
  aar_NodeName := ra_NodeName req;
  aar_Uri := ra_URI req;
  aar_SizeBytes := ra_SizeBytes req;
  aar_ProducerAttemptId := ra_ProducerAttemptID req;
  aar_LogicalUri := ra_LogicalURI req;
  aar_Locations := grpcArtifactLocations (ra_Locations req) |}.

Definition grpcTerminal (req : NotifyNodeTerminalRequest) : ah_NotifyNodeTerminalRequest := {|
  ant_SampleRunId := nt_SampleRunID req;
  ant_NodeId := nt_NodeID req;
  ant_AttemptId := nt_AttemptID req;
  ant_TerminalState := nt_TerminalState req |}.

Definition grpcLifecycle (resp : ah_GetSampleRunLifecycleResponse) : SampleRunLifecycle := {|
  lc_SampleRunID := alc_SampleRunId resp;
  lc_Finalized := alc_Finalized resp;
  lc_FinalizedAt := alc_FinalizedAt resp;
  lc_RetentionPolicySource := alc_RetentionPolicySource resp;
  lc_RetentionDuration := alc_RetentionDuration resp;
  lc_RetentionUntil := alc_RetentionUntil resp;
  lc_GCEligible := alc_GcEligible resp;
  lc_GCEligibleAt := alc_GcEligibleAt resp;
  lc_GCBlockedReason := alc_GcBlockedReason resp;
  lc_TerminalNodeCount := alc_TerminalNodeCount resp;
  lc_SucceededNodeCount := alc_SucceededNodeCount resp;
  lc_FailedNodeCount := alc_FailedNodeCount resp;
  lc_CanceledNodeCount := alc_CanceledNodeCount resp;
  lc_RetainedArtifactCount := alc_RetainedArtifactCount resp;
  lc_RetainedArtifactBytes := alc_RetainedArtifactBytes resp |}.

(** ** Deadlines *)
Definition seconds (n : Z) : Z := (n * 1000000000)%Z.
Definition defaultResolveBindingTimeout : Z := seconds 15.
Definition defaultCallTimeout : Z := seconds 30.

Definition withDefaultTimeout (now : Z) (ctx : context) (d : Z) : context :=
  match cx_Deadline ctx with
  | Some _ => ctx
  | None => mkContext (Some (now + d)%Z)
  end.

(** ** The client *)
Inductive HandoffCounter :=
  | IncHandoffResolve | IncHandoffResolveErrors | IncHandoffRegisterArtifact
  | IncHandoffRegisterArtifactErrors | IncHandoffNotifyTerminal | IncHandoffFinalize
  | IncHandoffGCEvaluate.

Record grpc_state (W : Type) := mkGrpcState {
  gs_world : W;
  gs_now : Z;
  gs_counts : list HandoffCounter;
}.
Arguments mkGrpcState {W}.
Arguments gs_world {W}.
Arguments gs_now {W}.
Arguments gs_counts {W}.

(** [GRPCClient]: whether it has metrics. *)
Record GRPCClient := mkGRPCClient { gc_metrics : bool }.

(** [grpc.NewClient] fails or answers a connection. *)
Definition NewGRPCClient (grpc_NewClient : string -> option GoError) (target : string) : res GRPCClient :=
  match grpc_NewClient target with
  | Some err => Err err
  | None => Ok (mkGRPCClient false)
  end.

(** On no client, and otherwise on its connection, closing which is [conn_Close]. *)
Definition GRPC_Close (c : option GRPCClient) (conn_Close : option GoError) : option GoError :=
  match c with None => None | Some _ => conn_Close end.

Definition GRPC_SetMetrics (c : GRPCClient) : GRPCClient := mkGRPCClient true.

Section client.
Context {W : Type} `{ArtifactHandoffResolverClient W} (c : GRPCClient).
Implicit Types (s : grpc_state W) (ctx : context).

Definition count s (k : HandoffCounter) : grpc_state W :=
  if gc_metrics c then mkGrpcState (gs_world s) (gs_now s) (gs_counts s ++ [k]) else s.

(** One call of the stub under the default timeout [d]. *)
Definition invoke {X} s ctx (d : Z) (call : W -> context -> W * X) : grpc_state W * X :=
  let '(w, x) := call (gs_world s) (withDefaultTimeout (gs_now s) ctx d) in
  (mkGrpcState w (gs_now s) (gs_counts s), x).

Definition GRPC_ResolveBinding s ctx (req : ResolveBindingRequest) : grpc_state W * res ResolveBindingResponse :=
  let s := count s IncHandoffResolve in
  match invoke s ctx defaultResolveBindingTimeout
          (fun w ctx => ah_ResolveHandoff w ctx (grpcResolveRequest req)) with
  | (s, Err err) => (count s IncHandoffResolveErrors, Err err)
  | (s, Ok resp) => (s, Ok (normalizeResolveBindingResponse (grpcResponse resp)))
  end.

Definition GRPC_RegisterArtifact s ctx (req : RegisterArtifactRequest) : grpc_state W * option GoError :=
  let s := count s IncHandoffRegisterArtifact in
  match invoke s ctx defaultCallTimeout
          (fun w ctx => ah_RegisterArtifact w ctx (Some (grpcArtifact req))) with
  | (s, Some err) =>
      (count s IncHandoffRegisterArtifactErrors, Some (Wrapf "handoff register artifact failed" err))
  | (s, None) => (s, None)
  end.

Definition GRPC_NotifyNodeTerminal s ctx (req : NotifyNodeTerminalRequest) : grpc_state W * option GoError :=
  let s := count s IncHandoffNotifyTerminal in
  let '(s, err) := invoke s ctx defaultCallTimeout
                     (fun w ctx => ah_NotifyNodeTerminal w ctx (grpcTerminal req)) in
  (s, Wrapf "handoff notify node terminal failed" <$> err).

Definition GRPC_FinalizeSampleRun s ctx (req : FinalizeSampleRunRequest) : grpc_state W * option GoError :=
  let s := count s IncHandoffFinalize in
  let '(s, err) := invoke s ctx defaultCallTimeout
                     (fun w ctx => ah_FinalizeSampleRun w ctx (fr_SampleRunID req)) in
  (s, Wrapf "handoff finalize sample run failed" <$> err).

Definition GRPC_EvaluateGC s ctx (req : EvaluateGCRequest) : grpc_state W * option GoError :=
  let s := count s IncHandoffGCEvaluate in
  let '(s, err) := invoke s ctx defaultCallTimeout
                     (fun w ctx => ah_EvaluateGC w ctx (gr_SampleRunID req)) in
  (s, Wrapf "handoff evaluate gc failed" <$> err).

Definition GRPC_GetSampleRunLifecycle s ctx (req : GetSampleRunLifecycleRequest)
    : grpc_state W * res (SampleRunLifecycle * bool) :=
  match invoke s ctx defaultCallTimeout
          (fun w ctx => ah_GetSampleRunLifecycle w ctx (lr_SampleRunID req)) with
  | (s, Err err) => (s, Err err)
  | (s, Ok resp) => (s, Ok (grpcLifecycle resp, true))
  end.

Definition GRPC_Client : Client (grpc_state W) := {|
  cl_ResolveBinding := GRPC_ResolveBinding;
  cl_RegisterArtifact := GRPC_RegisterArtifact;
  cl_NotifyNodeTerminal := GRPC_NotifyNodeTerminal;
  cl_FinalizeSampleRun := GRPC_FinalizeSampleRun;
  cl_EvaluateGC := GRPC_EvaluateGC;
  cl_GetSampleRunLifecycle := GRPC_GetSampleRunLifecycle;
|}.
End client.

#[global] Arguments count : simpl never.
