(* ===== verification/HandoffHttp.v ===== *)
(** * The HTTP handoff client ([src/pkg/handoff/client.go])

    Every method of [HTTPClient] over an HTTP transport. Bodies are JSON trees;
    a body that does not parse is an error of the decoder. *)
From S2P Require Import Prelude GoStrings GoErrors GoUrl Handoff HandoffClient Ahv1 HandoffJson JsonTree HandoffGrpc.

(** ** Bodies

    The anonymous structure of a resolve request has the fields of the message
    [ah_ArtifactBinding], and the artifact of a registration those of the
    request. *)
#[export] Instance eta_ah_ArtifactBinding : Eta ah_ArtifactBinding := fun r =>
  mkAhArtifactBinding
    (aab_BindingName r) (aab_SampleRunId r) (aab_ChildNodeId r) (aab_ChildInputName r)
    (aab_ProducerNodeId r) (aab_ProducerOutputName r) (aab_ConsumePolicy r) (aab_Required r)
    (aab_ExpectedDigest r) (aab_ArtifactId r) (aab_ProducerAttemptId r) (aab_ChildAttemptId r).

Definition zero_ah_ArtifactBinding : ah_ArtifactBinding :=
  mkAhArtifactBinding "" "" "" "" "" "" "" false "" "" "" "".

Definition binding_fields : list (field ah_ArtifactBinding) := [
  jfield "bindingName" false aab_BindingName;
  jfield "sampleRunId" false aab_SampleRunId;
  jfield "childNodeId" false aab_ChildNodeId;
  jfield "childInputName" true aab_ChildInputName;
  jfield "producerNodeId" false aab_ProducerNodeId;
  jfield "producerAttemptId" true aab_ProducerAttemptId;
  jfield "childAttemptId" true aab_ChildAttemptId;
  jfield "producerOutputName" false aab_ProducerOutputName;
  jfield "artifactId" true aab_ArtifactId;
  jfield "consumePolicy" true aab_ConsumePolicy;
  jfield "expectedDigest" true aab_ExpectedDigest;
  jfield "required" true aab_Required
].
#[export] Instance binding_json : JsonType ah_ArtifactBinding :=
  struct_json zero_ah_ArtifactBinding binding_fields.

Record resolveBody := mkResolveBody { rb_Binding : ah_ArtifactBinding; rb_TargetNodeName : string }.
#[export] Instance eta_resolveBody : Eta resolveBody := fun r =>
  mkResolveBody (rb_Binding r) (rb_TargetNodeName r).

Definition resolveBody_fields : list (field resolveBody) := [
  jfield "binding" false rb_Binding;
  jfield "targetNodeName" false rb_TargetNodeName
].
#[export] Instance resolveBody_json : JsonType resolveBody :=
  struct_json (mkResolveBody zero_ah_ArtifactBinding "") resolveBody_fields.

Definition resolve_body (req : ResolveBindingRequest) : resolveBody := {|
  rb_Binding := {|
    aab_BindingName := rq_BindingName req;
    aab_SampleRunId := rq_SampleRunID req;
    aab_ChildNodeId := rq_ChildNodeID req;
    aab_ChildInputName := rq_ChildInputName req;
    aab_ProducerNodeId := rq_ProducerNodeID req;
    aab_ProducerOutputName := rq_ProducerOutputName req;
    aab_ConsumePolicy := rq_ConsumePolicy req;
    aab_Required := rq_Required req;
    aab_ExpectedDigest := rq_ExpectedDigest req;
    aab_ArtifactId := rq_ArtifactID req;
    aab_ProducerAttemptId := rq_ProducerAttemptID req;
    aab_ChildAttemptId := rq_ChildAttemptID req |};
  rb_TargetNodeName := rq_TargetNodeName req |}.

Definition artifact_fields : list (field RegisterArtifactRequest) := [
  jfield "sampleRunId" false ra_SampleRunID;
  jfield "producerNodeId" false ra_ProducerNodeID;
  jfield "producerAttemptId" true ra_ProducerAttemptID;
  jfield "outputName" false ra_OutputName;
  jfield "artifactId" true ra_ArtifactID;
  jfield "digest" true ra_Digest;
  jfield "nodeName" true ra_NodeName;
  jfield "uri" true ra_URI;
  jfield "logicalUri" true ra_LogicalURI;
  jfield "locations" true ra_Locations;
  jfield "sizeBytes" true ra_SizeBytes
].
#[export] Instance artifact_json : JsonType RegisterArtifactRequest :=
  struct_json zero_RegisterArtifactRequest artifact_fields.

Record registerBody := mkRegisterBody { gb_Artifact : RegisterArtifactRequest }.
#[export] Instance eta_registerBody : Eta registerBody := fun r => mkRegisterBody (gb_Artifact r).

Definition registerBody_fields : list (field registerBody) := [
  jfield "artifact" false gb_Artifact
].
#[export] Instance registerBody_json : JsonType registerBody :=
  struct_json (mkRegisterBody zero_RegisterArtifactRequest) registerBody_fields.

(** ** Transport *)
Record HttpRequest := mkHttpRequest {
  hq_Method : string;
  hq_URL : string;
  hq_ContentType : string;
  hq_Body : option json;
}.

Record HttpResponse := mkHttpResponse { hp_StatusCode : Z; hp_Body : res json }.

(** [http.NewRequestWithContext] refuses a URL that does not parse; [Do] is
    bounded by the context and by the timeout of the client. *)
Class HttpTransport (W : Type) := {
  http_NewRequest : string -> option GoError;
  http_Do : W -> context -> Z -> HttpRequest -> W * res HttpResponse;
}.

Record HTTPClient := mkHTTPClient { hc_baseURL : string; hc_Timeout : Z }.

(** [client] is the timeout of the given [http.Client], if there is one. *)
Definition NewHTTPClientWithClient (baseURL : string) (client : option Z) : HTTPClient := {|
  hc_baseURL := trim_right_cutset "/" baseURL;
  hc_Timeout := default (seconds 5) client |}.

Definition NewHTTPClient (baseURL : string) (timeout : Z) : HTTPClient :=
  NewHTTPClientWithClient baseURL (Some (if (timeout <=? 0)%Z then seconds 5 else timeout)).

Section client.
Context {W : Type} `{HttpTransport W} (c : HTTPClient).
Implicit Types (w : W) (ctx : context).

Definition send w ctx (req : HttpRequest) : W * res HttpResponse :=
  match http_NewRequest (hq_URL req) with
  | Some err => (w, Err err)
  | None => http_Do w ctx (hc_Timeout c) req
  end.

(** The common part of the methods that post: a status from 300 on is an error. *)
Definition post {A} `{JsonType A} w ctx (path op : string) (body : A) : W * res HttpResponse :=
  match send w ctx (mkHttpRequest "POST" (hc_baseURL c +:+ path) "application/json" (Some (jt_enc body))) with
  | (w, Err err) => (w, Err err)
  | (w, Ok resp) =>
      if (300 <=? hp_StatusCode resp)%Z then (w, Err (HTTPError (hp_StatusCode resp) op))
      else (w, Ok resp)
  end.

(** [json.NewDecoder(resp.Body).Decode(&v)] *)
Definition read_body {A} `{JsonType A} (resp : HttpResponse) : res A :=
  match hp_Body resp with Ok body => decode_json body | Err err => Err err end.

Definition HTTP_ResolveBinding w ctx (req : ResolveBindingRequest) : W * res ResolveBindingResponse :=
  match post w ctx "/v1/handoffs:resolve" "resolve" (resolve_body req) with
  | (w, Err err) => (w, Err err)
  | (w, Ok resp) =>
      match read_body resp with
      | Err err => (w, Err err)
      | Ok resolved => (w, Ok (normalizeResolveBindingResponse resolved))
      end
  end.

Definition HTTP_RegisterArtifact w ctx (req : RegisterArtifactRequest) : W * option GoError :=
  let '(w, r) := post w ctx "/v1/artifacts:register" "register artifact" (mkRegisterBody req) in
  (w, res_err r).

Definition HTTP_NotifyNodeTerminal w ctx (req : NotifyNodeTerminalRequest) : W * option GoError :=
  let '(w, r) := post w ctx "/v1/nodes:notifyTerminal" "notify node terminal" req in (w, res_err r).

Definition HTTP_FinalizeSampleRun w ctx (req : FinalizeSampleRunRequest) : W * option GoError :=
  let '(w, r) := post w ctx "/v1/sampleRuns:finalize" "finalize sample run" req in (w, res_err r).

Definition HTTP_EvaluateGC w ctx (req : EvaluateGCRequest) : W * option GoError :=
  let '(w, r) := post w ctx "/v1/sampleRuns:evaluateGC" "evaluate gc" req in (w, res_err r).

Definition HTTP_GetSampleRunLifecycle w ctx (req : GetSampleRunLifecycleRequest)
    : W * res (SampleRunLifecycle * bool) :=
  let url := hc_baseURL c +:+ "/v1/sampleRuns:lifecycle?sampleRunId=" +:+ QueryEscape (lr_SampleRunID req) in
  match send w ctx (mkHttpRequest "GET" url "" None) with
  | (w, Err err) => (w, Err err)
  | (w, Ok resp) =>
      if (hp_StatusCode resp =? 200)%Z then
        match read_body resp with
        | Err err => (w, Err err)
        | Ok lifecycle => (w, Ok (lifecycle, true))
        end
      else if (hp_StatusCode resp =? 404)%Z then (w, Ok (zero_SampleRunLifecycle, false))
      else (w, Err (HTTPError (hp_StatusCode resp) "get sample run lifecycle"))
  end.

Definition HTTP_Client : Client W := {|
  cl_ResolveBinding := HTTP_ResolveBinding;
  cl_RegisterArtifact := HTTP_RegisterArtifact;
  cl_NotifyNodeTerminal := HTTP_NotifyNodeTerminal;
  cl_FinalizeSampleRun := HTTP_FinalizeSampleRun;
  cl_EvaluateGC := HTTP_EvaluateGC;
  cl_GetSampleRunLifecycle := HTTP_GetSampleRunLifecycle;
|}.
End client.
