(* ===== verification/HandoffFacts.v ===== *)
(** * The handoff transports agree

    The JSON of every message is read back as it was written; a service that is
    served over HTTP and over gRPC is seen the same through both clients. *)
From S2P Require Import Prelude GoStrings GoErrors GoUrl Handoff HandoffClient Ahv1 JsonTree HandoffJson HandoffGrpc HandoffHttp.

(** ** Round trips of the messages *)
#[export] Instance PlacementIntent_law : JsonLaw PlacementIntent.
Proof.
  refine {| jt_ok x := jt_ok (pi_Mode x) /\ jt_ok (pi_NodeName x) |}; [|done].
  message_law PlacementIntent_fields x.
Defined.

#[export] Instance NodeLocalLocation_law : JsonLaw NodeLocalLocation.
Proof.
  refine {| jt_ok x := jt_ok (nl_NodeName x) /\ jt_ok (nl_Path x) |}; [|done].
  message_law NodeLocalLocation_fields x.
Defined.

#[export] Instance HTTPSource_law : JsonLaw HTTPSource.
Proof.
  refine {| jt_ok x := jt_ok (hs_URI x) /\ jt_ok (hs_Headers x) |}; [|done].
  message_law HTTPSource_fields x.
Defined.

#[export] Instance NodeLocalLocation_never : NeverNull NodeLocalLocation. Proof. by intros x. Qed.
#[export] Instance HTTPSource_never : NeverNull HTTPSource. Proof. by intros x. Qed.

#[export] Instance ArtifactLocation_law : JsonLaw ArtifactLocation.
Proof.
  refine {| jt_ok x :=
      jt_ok (al_NodeLocal x) /\
      jt_ok (al_HTTP x) |}; [|done].
  message_law ArtifactLocation_fields x.
Defined.

#[export] Instance ArtifactLocation_never : NeverNull ArtifactLocation. Proof. by intros x. Qed.

#[export] Instance MaterializationPlan_law : JsonLaw MaterializationPlan.
Proof.
  refine {| jt_ok x :=
      jt_ok (mp_Mode x) /\
      jt_ok (mp_URI x) /\
      jt_ok (mp_ExpectedDigest x) /\
      jt_ok (mp_ExpectedSize x) /\
      jt_ok (mp_SourceLocation x) /\
      jt_ok (mp_LocalPath x) |}; [|done].
  message_law MaterializationPlan_fields x.
Defined.

#[export] Instance MaterializationCondition_law : JsonLaw MaterializationCondition.
Proof.
  refine {| jt_ok x :=
      jt_ok (mc_Kind x) /\
      jt_ok (mc_NodeName x) /\
      jt_ok (mc_BackendID x) /\
      jt_ok (mc_SourceRef x) /\
      jt_ok (mc_State x) |}; [|done].
  message_law MaterializationCondition_fields x.
Defined.

#[export] Instance MaterializationCandidate_law : JsonLaw MaterializationCandidate.
Proof.
  refine {| jt_ok x :=
      jt_ok (cd_Priority x) /\
      jt_ok (cd_Mode x) /\
      jt_ok (cd_SourceRef x) /\
      jt_ok (cd_ExpectedDigest x) /\
      jt_ok (cd_ExpectedSize x) /\
      jt_ok (cd_LocalPath x) /\
      jt_ok (cd_SourceLocation x) /\
      jt_ok (cd_URI x) /\
      jt_ok (cd_Conditions x) |}; [|done].
  message_law MaterializationCandidate_fields x.
Defined.

#[export] Instance ResolveBindingResponse_law : JsonLaw ResolveBindingResponse.
Proof.
  refine {| jt_ok x :=
      jt_ok (rs_ResolutionStatus x) /\
      jt_ok (rs_Decision x) /\
      jt_ok (rs_PlacementIntent x) /\
      jt_ok (rs_MaterializationPlan x) /\
      jt_ok (rs_MaterializationCandidates x) /\
      jt_ok (rs_Reason x) /\
      jt_ok (rs_Retryable x) /\
      jt_ok (rs_SourceNodeName x) /\
      jt_ok (rs_ArtifactURI x) /\
      jt_ok (rs_RequiresMaterialization x) |}; [|done].
  message_law ResolveBindingResponse_fields x.
Defined.

#[export] Instance NotifyNodeTerminalRequest_law : JsonLaw NotifyNodeTerminalRequest.
Proof.
  refine {| jt_ok x :=
      jt_ok (nt_SampleRunID x) /\
      jt_ok (nt_NodeID x) /\
      jt_ok (nt_AttemptID x) /\
      jt_ok (nt_TerminalState x) |}; [|done].
  message_law NotifyNodeTerminalRequest_fields x.
Defined.

#[export] Instance FinalizeSampleRunRequest_law : JsonLaw FinalizeSampleRunRequest.
Proof.
  refine {| jt_ok x :=
      jt_ok (fr_SampleRunID x) |}; [|done].
  message_law FinalizeSampleRunRequest_fields x.
Defined.

#[export] Instance EvaluateGCRequest_law : JsonLaw EvaluateGCRequest.
Proof.
  refine {| jt_ok x :=
      jt_ok (gr_SampleRunID x) |}; [|done].
  message_law EvaluateGCRequest_fields x.
Defined.

#[export] Instance SampleRunLifecycle_law : JsonLaw SampleRunLifecycle.
Proof.
  refine {| jt_ok x :=
      jt_ok (lc_SampleRunID x) /\
      jt_ok (lc_Finalized x) /\
      jt_ok (lc_FinalizedAt x) /\
      jt_ok (lc_RetentionPolicySource x) /\
      jt_ok (lc_RetentionDuration x) /\
      jt_ok (lc_RetentionUntil x) /\
      jt_ok (lc_GCEligible x) /\
      jt_ok (lc_GCEligibleAt x) /\
      jt_ok (lc_GCBlockedReason x) /\
      jt_ok (H := int_json 32) (lc_TerminalNodeCount x) /\
      jt_ok (H := int_json 32) (lc_SucceededNodeCount x) /\
      jt_ok (H := int_json 32) (lc_FailedNodeCount x) /\
      jt_ok (H := int_json 32) (lc_CanceledNodeCount x) /\
      jt_ok (H := int_json 32) (lc_RetainedArtifactCount x) /\
      jt_ok (lc_RetainedArtifactBytes x) |}; [|done].
  message_law SampleRunLifecycle_fields x.
Defined.

#[export] Instance binding_law : JsonLaw ah_ArtifactBinding.
Proof.
  refine {| jt_ok x :=
      jt_ok (aab_BindingName x) /\
      jt_ok (aab_SampleRunId x) /\
      jt_ok (aab_ChildNodeId x) /\
      jt_ok (aab_ChildInputName x) /\
      jt_ok (aab_ProducerNodeId x) /\
      jt_ok (aab_ProducerOutputName x) /\
      jt_ok (aab_ConsumePolicy x) /\
      jt_ok (aab_Required x) /\
      jt_ok (aab_ExpectedDigest x) /\
      jt_ok (aab_ArtifactId x) /\
      jt_ok (aab_ProducerAttemptId x) /\
      jt_ok (aab_ChildAttemptId x) |}; [|done].
  message_law binding_fields x.
Defined.

#[export] Instance resolveBody_law : JsonLaw resolveBody.
Proof.
  refine {| jt_ok x :=
      jt_ok (rb_Binding x) /\
      jt_ok (rb_TargetNodeName x) |}; [|done].
  message_law resolveBody_fields x.
Defined.

#[export] Instance artifact_law : JsonLaw RegisterArtifactRequest.
Proof.
  refine {| jt_ok x :=
      jt_ok (ra_SampleRunID x) /\
      jt_ok (ra_ProducerNodeID x) /\
      jt_ok (ra_ProducerAttemptID x) /\
      jt_ok (ra_OutputName x) /\
      jt_ok (ra_ArtifactID x) /\
      jt_ok (ra_Digest x) /\
      jt_ok (ra_NodeName x) /\
      jt_ok (ra_URI x) /\
      jt_ok (ra_LogicalURI x) /\
      jt_ok (ra_Locations x) /\
      jt_ok (ra_SizeBytes x) |}; [|done].
  message_law artifact_fields x.
Defined.

#[export] Instance registerBody_law : JsonLaw registerBody.
Proof.
  refine {| jt_ok x :=
      jt_ok (gb_Artifact x) |}; [|done].
  message_law registerBody_fields x.
Defined.

(** ** The conversions of the gRPC client lose the headers only *)

(** The message a service answers with. *)
Definition ahv1_condition (c : MaterializationCondition) : ah_MaterializationCondition :=
  mkAhMaterializationCondition (mc_Kind c) (mc_NodeName c) (mc_BackendID c) (mc_SourceRef c) (mc_State c).

Definition ahv1_location (l : option ArtifactLocation) : option ah_ArtifactLocation :=
  l ≫= grpcArtifactLocationFromClient.

Definition ahv1_candidate (c : MaterializationCandidate) : ah_MaterializationCandidate :=
  mkAhMaterializationCandidate (cd_Priority c) (cd_Mode c) (cd_SourceRef c) (cd_ExpectedDigest c)
    (cd_ExpectedSize c) (cd_LocalPath c) (ahv1_location (cd_SourceLocation c)) (cd_URI c)
    (map (fun k => Some (ahv1_condition k)) (cd_Conditions c)).

Definition ahv1_plan (p : MaterializationPlan) : ah_MaterializationPlan :=
  mkAhMaterializationPlan (mp_Mode p) (mp_URI p) (mp_ExpectedDigest p) (mp_ExpectedSize p)
    (ahv1_location (mp_SourceLocation p)) (mp_LocalPath p).

Definition ahv1_response (r : ResolveBindingResponse) : ah_ResolveHandoffResponse :=
  mkAhResolveHandoffResponse (rs_ResolutionStatus r) (rs_Decision r)
    (Some (mkAhPlacementIntent (pi_Mode (rs_PlacementIntent r)) (pi_NodeName (rs_PlacementIntent r))))
    (Some (ahv1_plan (rs_MaterializationPlan r))) (rs_Reason r) (rs_Retryable r)
    (map (fun c => Some (ahv1_candidate c)) (rs_MaterializationCandidates r)).

Definition ahv1_lifecycle (l : SampleRunLifecycle) : ah_GetSampleRunLifecycleResponse :=
  mkAhGetSampleRunLifecycleResponse (lc_SampleRunID l) (lc_Finalized l) (lc_FinalizedAt l)
    (lc_RetentionPolicySource l) (lc_RetentionDuration l) (lc_RetentionUntil l) (lc_GCEligible l)
    (lc_GCEligibleAt l) (lc_GCBlockedReason l) (lc_TerminalNodeCount l) (lc_SucceededNodeCount l)
    (lc_FailedNodeCount l) (lc_CanceledNodeCount l) (lc_RetainedArtifactCount l)
    (lc_RetainedArtifactBytes l).

(** A location is in one place. *)
Definition one_place (l : ArtifactLocation) : Prop :=
  is_some (al_NodeLocal l) <> is_some (al_HTTP l).

Definition one_place_opt (l : option ArtifactLocation) : Prop := forall loc, l = Some loc -> one_place loc.

Lemma location_round l :
  one_place_opt l -> grpcArtifactLocation (ahv1_location l) = redactArtifactLocation <$> l.
Proof.
  intros H. destruct l as [[[[node path]|] [[uri headers]|]]|]; try done; by destruct (H _ eq_refl).
Qed.

Lemma condition_round l : map grpcCondition (map (fun k => Some (ahv1_condition k)) l) = l.
Proof. induction l as [|[] l IH]; [done|]. cbn. by rewrite IH. Qed.

(** A response the protocol can carry: without the legacy fields of HTTP, its
    locations in one place each. *)
Record on_protocol (r : ResolveBindingResponse) : Prop := {
  op_plan : one_place_opt (mp_SourceLocation (rs_MaterializationPlan r));
  op_candidates : Forall (fun c => one_place_opt (cd_SourceLocation c)) (rs_MaterializationCandidates r);
  op_SourceNodeName : rs_SourceNodeName r = "";
  op_ArtifactURI : rs_ArtifactURI r = "";
  op_RequiresMaterialization : rs_RequiresMaterialization r = false;
}.

Lemma response_round r :
  on_protocol r -> grpcResponse (ahv1_response r) = redactResolveBindingResponse r.
Proof.
  intros [Hp Hc Hs Ha Hr]. unfold redactResolveBindingResponse, grpcResponse, ahv1_response.
  destruct r as [st d [pm pn] [m u dg sz loc lp] cs reason rt sn au rq]; cbn in *; subst.
  f_equal.
  - unfold grpcPlan, ahv1_plan. cbn. by rewrite location_round.
  - unfold grpcMaterializationCandidates. induction Hc as [|c cs Hl _ IH]; [done|]. cbn. f_equal; [|exact IH].
    unfold grpcCandidate, ahv1_candidate. cbn. rewrite location_round, condition_round by done. by destruct c.
Qed.

Lemma redact_opt_idemp (l : option ArtifactLocation) :
  redactArtifactLocation <$> (redactArtifactLocation <$> l) = redactArtifactLocation <$> l.
Proof. destruct l as [l|]; [|done]. cbn. by rewrite redact_location_idemp. Qed.

Lemma redact_idemp r : redactResolveBindingResponse (redactResolveBindingResponse r) = redactResolveBindingResponse r.
Proof.
  unfold redactResolveBindingResponse. destruct r as [st d pi [m u dg sz loc lp] cs reason rt sn au rq].
  cbn -[fmap]. rewrite redact_opt_idemp, map_map. f_equal. apply map_ext. intros c. cbn -[fmap].
  by rewrite redact_opt_idemp.
Qed.

(** The stages of the normalisation around the redaction. *)
Definition place (r : ResolveBindingResponse) : ResolveBindingResponse :=
  let r :=
    if streq (pi_NodeName (rs_PlacementIntent r)) "" && negb (streq (rs_SourceNodeName r) "")
    then r <| rs_PlacementIntent := (rs_PlacementIntent r) <| pi_NodeName := rs_SourceNodeName r |> |>
    else r in
  if streq (pi_Mode (rs_PlacementIntent r)) "" && negb (streq (pi_NodeName (rs_PlacementIntent r)) "")
  then r <| rs_PlacementIntent := (rs_PlacementIntent r) <| pi_Mode := "required_node" |> |>
  else r.

Definition choose_plan (r : ResolveBindingResponse) : ResolveBindingResponse :=
  match rs_MaterializationCandidates r with
  | c :: _ => if isZeroMaterializationPlan (rs_MaterializationPlan r)
              then r <| rs_MaterializationPlan := planFromCandidate c |> else r
  | [] => r
  end.

Definition finish (r : ResolveBindingResponse) : ResolveBindingResponse :=
  let r :=
    if streq (mp_URI (rs_MaterializationPlan r)) "" && negb (streq (rs_ArtifactURI r) "")
    then r <| rs_MaterializationPlan := (rs_MaterializationPlan r) <| mp_URI := rs_ArtifactURI r |> |>
    else r in
  if streq (mp_Mode (rs_MaterializationPlan r)) "" then
    r <| rs_MaterializationPlan := (rs_MaterializationPlan r)
      <| mp_Mode := if rs_RequiresMaterialization r then "remote_fetch"
                    else if negb (streq (mp_URI (rs_MaterializationPlan r)) "")
                    then "remote_fetch" else "none" |> |>
  else r.

Lemma normalize_stages r :
  normalizeResolveBindingResponse r = finish (redactResolveBindingResponse (choose_plan (place r))).
Proof. by cbv beta zeta delta [normalizeResolveBindingResponse finish choose_plan place]. Qed.

Lemma place_redact r : place (redactResolveBindingResponse r) = redactResolveBindingResponse (place r).
Proof.
  destruct r as [st d [pm pn] p cs reason rt sn au rq]. unfold place. cbn -[fmap].
  destruct (streq pn "" && negb (streq sn "")); cbn -[fmap]; by destruct (streq pm "" && _).
Qed.

Lemma choose_redact r :
  redactResolveBindingResponse (choose_plan (redactResolveBindingResponse r)) =
  redactResolveBindingResponse (choose_plan r).
Proof.
  pose proof (redact_idemp r) as Hi. unfold choose_plan.
  destruct r as [st d pi [m u dg sz loc lp] [|c cs] reason rt sn au rq]; [exact Hi|].
  cbn [redactResolveBindingResponse rs_MaterializationCandidates rs_MaterializationPlan setf map] in *.
  assert (Hz : isZeroMaterializationPlan (mkMaterializationPlan m u dg sz (redactArtifactLocation <$> loc) lp) =
               isZeroMaterializationPlan (mkMaterializationPlan m u dg sz loc lp)) by (by destruct loc).
  cbn -[fmap isZeroMaterializationPlan redactResolveBindingResponse] in Hz |- *. rewrite Hz. clear Hz.
  destruct (isZeroMaterializationPlan (mkMaterializationPlan m u dg sz loc lp)); [|exact Hi].
  injection Hi as _ Hc Hcs. unfold redactResolveBindingResponse. cbn -[fmap]. by rewrite Hcs, !redact_opt_idemp.
Qed.

(** The headers play no part in the normalisation. *)
Lemma normalize_redact r :
  normalizeResolveBindingResponse (redactResolveBindingResponse r) = normalizeResolveBindingResponse r.
Proof. by rewrite !normalize_stages, place_redact, choose_redact. Qed.

(** ** One service behind both transports *)

(** An artifact-handoff service, by what it does; [None] is its failure, or that
    a sample run has no lifecycle. *)
Class HandoffService (W : Type) := {
  sv_resolve : W -> ah_ResolveHandoffRequest -> W * option ResolveBindingResponse;
  sv_register : W -> RegisterArtifactRequest -> W * option unit;
  sv_terminal : W -> NotifyNodeTerminalRequest -> W * option unit;
  sv_finalize : W -> string -> W * option unit;
  sv_gc : W -> string -> W * option unit;
  sv_lifecycle : W -> string -> W * option SampleRunLifecycle;
}.

Section service.
Context {W : Type} `{HandoffService W}.

Definition http_ok : HttpResponse := mkHttpResponse 200 (Ok (JObj [])).
Definition http_failed (code : Z) : HttpResponse := mkHttpResponse code (Ok JNull).

Definition answer {X} (ok : X -> HttpResponse) (failure : Z) (r : W * option X) : W * res HttpResponse :=
  (r.1, Ok (match r.2 with Some x => ok x | None => http_failed failure end)).

(** Decodes the body and serves it. *)
Definition with_body {A X} `{JsonType A} (w : W) (q : HttpRequest) (serve : A -> W * option X)
    (ok : X -> HttpResponse) : W * res HttpResponse :=
  match hq_Body q with
  | Some body =>
      match decode_json body with
      | Ok x => answer ok 500 (serve x)
      | Err _ => (w, Ok (http_failed 400))
      end
  | None => (w, Ok (http_failed 400))
  end.

Definition lifecycle_path : string := "/v1/sampleRuns:lifecycle?sampleRunId=".

Definition http_serve (base : string) (w : W) (q : HttpRequest) : W * res HttpResponse :=
  let path := trim_prefix base (hq_URL q) in
  if streq path "/v1/handoffs:resolve" then
    with_body w q (fun b => sv_resolve w (mkAhResolveHandoffRequest (Some (rb_Binding b)) (rb_TargetNodeName b)))
      (fun r => mkHttpResponse 200 (Ok (jt_enc r)))
  else if streq path "/v1/artifacts:register" then
    with_body w q (fun b => sv_register w (gb_Artifact b)) (fun _ => http_ok)
  else if streq path "/v1/nodes:notifyTerminal" then with_body w q (sv_terminal w) (fun _ => http_ok)
  else if streq path "/v1/sampleRuns:finalize" then
    with_body w q (fun b => sv_finalize w (fr_SampleRunID b)) (fun _ => http_ok)
  else if streq path "/v1/sampleRuns:evaluateGC" then
    with_body w q (fun b => sv_gc w (gr_SampleRunID b)) (fun _ => http_ok)
  else if has_prefix lifecycle_path path then
    match QueryUnescape (trim_prefix lifecycle_path path) with
    | Some id => answer (fun l => mkHttpResponse 200 (Ok (jt_enc l))) 404 (sv_lifecycle w id)
    | None => (w, Ok (http_failed 400))
    end
  else (w, Ok (http_failed 404)).

(** The service at a base URL, and the same service behind gRPC. *)
Definition served_http (base : string) : HttpTransport W := {|
  http_NewRequest _ := None;
  http_Do w _ _ q := http_serve base w q;
|}.

Definition internal : GoError := GrpcStatus CodeInternal "rpc error: code = Internal desc = failed".
Definition no_lifecycle : GoError := GrpcStatus CodeNotFound "rpc error: code = NotFound desc = no lifecycle".

Definition served {X} (r : W * option X) : W * option GoError :=
  (r.1, match r.2 with Some _ => None | None => Some internal end).

Definition locations_of (l : list (option ah_ArtifactLocation)) : list ArtifactLocation :=
  omap grpcArtifactLocation l.

Definition artifact_of (a : ah_ArtifactRef) : RegisterArtifactRequest :=
  mkRegisterArtifactRequest (aar_SampleRunId a) (aar_ProducerNodeId a) (aar_ProducerAttemptId a)
    (aar_OutputName a) (aar_ArtifactId a) (aar_Digest a) (aar_NodeName a) (aar_Uri a) (aar_LogicalUri a)
    (locations_of (aar_Locations a)) (aar_SizeBytes a).

Definition served_grpc : ArtifactHandoffResolverClient W := {|
  ah_RegisterArtifact w _ a :=
    match a with Some a => served (sv_register w (artifact_of a)) | None => (w, Some internal) end;
  ah_ResolveHandoff w _ q :=
    let r := sv_resolve w q in
    (r.1, match r.2 with Some resp => Ok (ahv1_response resp) | None => Err internal end);
  ah_NotifyNodeTerminal w _ q :=
    served (sv_terminal w (mkNotifyNodeTerminalRequest (ant_SampleRunId q) (ant_NodeId q) (ant_AttemptId q)
                             (ant_TerminalState q)));
  ah_FinalizeSampleRun w _ id := served (sv_finalize w id);
  ah_EvaluateGC w _ id := served (sv_gc w id);
  ah_GetSampleRunLifecycle w _ id :=
    let r := sv_lifecycle w id in
    (r.1, match r.2 with Some l => Ok (ahv1_lifecycle l) | None => Err no_lifecycle end);
|}.

(** ** Requests and answers that both transports carry *)
Definition request_ok (req : ResolveBindingRequest) : Prop := jt_ok (resolve_body req).

(** The locations of an artifact are in one place each and carry no headers. *)
Definition artifact_ok (req : RegisterArtifactRequest) : Prop :=
  jt_ok req /\
  Forall (fun l => one_place l /\ redactArtifactLocation l = l) (ra_Locations req).

Definition service_ok : Prop :=
  (forall w q resp, (sv_resolve w q).2 = Some resp -> jt_ok resp /\ on_protocol resp) /\
  (forall w id l, (sv_lifecycle w id).2 = Some l -> jt_ok l).

(** What the two clients do from the same world: the service is left the same, and
    either both answer the same or both fail. *)
Definition same_error {X} (a b : res X) : Prop :=
  match a, b with Ok x, Ok y => x = y | Err _, Err _ => True | _, _ => False end.

Definition same_failure (a b : option GoError) : Prop := is_some a = is_some b.

Definition agree {X} (same : X -> X -> Prop) (h : W * X) (g : grpc_state W * X) : Prop :=
  h.1 = gs_world g.1 /\ same h.2 g.2.

Section clients.
Context (base : string) (timeout : Z) (gc : GRPCClient).
Let hc : HTTPClient := mkHTTPClient base timeout.
Let http : Client W := HTTP_Client (H := served_http base) hc.
Let grpc : Client (grpc_state W) := GRPC_Client (H := served_grpc) gc.

Lemma count_world s k : gs_world (count (W := W) gc s k) = gs_world s.
Proof. unfold count. by destruct (gc_metrics gc). Qed.

Lemma post_served {A X} `{L : JsonLaw A} w ctx path op (body : A) (serve : A -> W * option X) ok :
  jt_ok body ->
  (forall q, hq_URL q = base +:+ path -> http_serve base w q = with_body w q serve ok) ->
  (forall x, hp_StatusCode (ok x) = 200%Z) ->
  post (H := served_http base) hc w ctx path op body =
  ((serve body).1, match (serve body).2 with Some x => Ok (ok x) | None => Err (HTTPError 500 op) end).
Proof.
  intros Hb Hs Hok. unfold post, send. cbn. rewrite Hs by done. unfold with_body. cbn [hq_Body].
  rewrite decode_encode by done. unfold answer. destruct (serve body) as [w' [x|]]; cbn; [|done].
  by rewrite Hok.
Qed.

(** A method without an answer agrees when its error is that of the service. *)
Lemma failure_agrees {A X} `{L : JsonLaw A} (w : W) (ctx : context) path op (body : A) (serve : A -> W * option X)
    (answered : grpc_state W * option GoError) ok :
  jt_ok body ->
  (forall q, hq_URL q = base +:+ path -> http_serve base w q = with_body w q serve ok) ->
  (forall x, hp_StatusCode (ok x) = 200%Z) ->
  gs_world answered.1 = (serve body).1 -> is_some answered.2 = negb (is_some (serve body).2) ->
  agree same_failure
    (let '(w, r) := post (H := served_http base) hc w ctx path op body in (w, res_err r)) answered.
Proof.
  intros Hb Hs Hok Hw He. erewrite post_served by done. split; [done|].
  unfold same_failure. rewrite He. by destruct (serve body) as [w' [x|]].
Qed.

(** The URL that the service sees selects the method. *)
Ltac url := intros q Hq; unfold http_serve; rewrite Hq, trim_prefix_app; reflexivity.

Lemma resolve_agrees (s : grpc_state W) ctx req :
  service_ok -> request_ok req ->
  agree same_error (cl_ResolveBinding (Client := http) (gs_world s) ctx req)
    (cl_ResolveBinding (Client := grpc) s ctx req).
Proof.
  intros [Hs _] Hr. cbn. unfold HTTP_ResolveBinding, GRPC_ResolveBinding, invoke.
  erewrite (post_served (gs_world s)) by (done || url || done). rewrite count_world.
  cbn [ah_ResolveHandoff served_grpc]. change (mkAhResolveHandoffRequest _ _) with (grpcResolveRequest req).
  destruct (sv_resolve (gs_world s) (grpcResolveRequest req)) as [w' [resp|]] eqn:E; cbn.
  - destruct (Hs (gs_world s) (grpcResolveRequest req) resp) as [Hj Hp]; [by rewrite E|].
    unfold read_body. cbn. rewrite decode_encode by done. split; [done|].
    by rewrite response_round, normalize_redact.
  - split; cbn; by rewrite ?count_world.
Qed.

Lemma lifecycle_round l : grpcLifecycle (ahv1_lifecycle l) = l.
Proof. by destruct l. Qed.

Lemma locations_round ls :
  Forall (fun l => one_place l /\ redactArtifactLocation l = l) ls ->
  locations_of (grpcArtifactLocations ls) = ls.
Proof.
  unfold locations_of. induction 1 as [|l ls [Ho Hr] _ IH]; [done|]. cbn [grpcArtifactLocations].
  assert (Hl : grpcArtifactLocation (grpcArtifactLocationFromClient l) = Some l).
  { etrans; [apply (location_round (Some l)); by intros ? [= <-]|]. cbn. by rewrite Hr. }
  destruct (grpcArtifactLocationFromClient l) as [a|]; [|done].
  change (omap grpcArtifactLocation (Some a :: ?x)) with
    (match grpcArtifactLocation (Some a) with Some y => y :: omap grpcArtifactLocation x | None => omap grpcArtifactLocation x end).
  by rewrite Hl, IH.
Qed.

Lemma artifact_round req : artifact_ok req -> artifact_of (grpcArtifact req) = req.
Proof. intros [_ Hl]. unfold artifact_of. cbn. rewrite locations_round by done. by destruct req. Qed.

Lemma register_agrees (s : grpc_state W) ctx req :
  artifact_ok req ->
  agree same_failure (cl_RegisterArtifact (Client := http) (gs_world s) ctx req)
    (cl_RegisterArtifact (Client := grpc) s ctx req).
Proof.
  intros Ha. cbn. unfold HTTP_RegisterArtifact, GRPC_RegisterArtifact, invoke. rewrite count_world.
  cbn. rewrite artifact_round by done.
  eapply failure_agrees with (serve := fun b => sv_register (gs_world s) (gb_Artifact b));
    [exact (proj1 Ha)|url|done|..]; cbn;
    destruct (sv_register (gs_world s) req) as [w' [[]|]]; cbn; rewrite ?count_world; done.
Qed.

Lemma other_path id path :
  has_prefix lifecycle_path path = false -> streq (lifecycle_path +:+ id) path = false.
Proof. intros Hp. apply streq_neq. intros <-. by rewrite has_prefix_app in Hp. Qed.

Lemma serve_lifecycle w q id :
  hq_URL q = base +:+ lifecycle_path +:+ QueryEscape id ->
  http_serve base w q = answer (fun l => mkHttpResponse 200 (Ok (jt_enc l))) 404 (sv_lifecycle w id).
Proof.
  intros Hq. unfold http_serve. rewrite Hq, trim_prefix_app, has_prefix_app, trim_prefix_app.
  rewrite QueryUnescape_QueryEscape, !other_path by reflexivity. reflexivity.
Qed.

(** What each client answers about a sample run. *)
Lemma http_lifecycle w ctx req :
  service_ok ->
  (cl_GetSampleRunLifecycle (Client := http) w ctx req) =
  ((sv_lifecycle w (lr_SampleRunID req)).1,
   Ok (match (sv_lifecycle w (lr_SampleRunID req)).2 with
       | Some l => (l, true) | None => (zero_SampleRunLifecycle, false) end)).
Proof.
  intros [_ Hs]. cbn. unfold HTTP_GetSampleRunLifecycle, send.
  cbn. erewrite serve_lifecycle by reflexivity. unfold answer.
  destruct (sv_lifecycle w (lr_SampleRunID req)) as [w' [l|]] eqn:E; cbn; [|done].
  unfold read_body. cbn. rewrite decode_encode; [done|]. eapply Hs. by rewrite E.
Qed.

Lemma grpc_lifecycle (s : grpc_state W) ctx req :
  (cl_GetSampleRunLifecycle (Client := grpc) s ctx req).2 =
  match (sv_lifecycle (gs_world s) (lr_SampleRunID req)).2 with
  | Some l => Ok (l, true) | None => Err no_lifecycle end.
Proof.
  cbn. unfold GRPC_GetSampleRunLifecycle, invoke. cbn.
  destruct (sv_lifecycle _ _) as [w' [l|]]; cbn; [|done]. by rewrite lifecycle_round.
Qed.

Lemma grpc_lifecycle_world (s : grpc_state W) ctx req :
  gs_world (cl_GetSampleRunLifecycle (Client := grpc) s ctx req).1 =
  (sv_lifecycle (gs_world s) (lr_SampleRunID req)).1.
Proof.
  cbn. unfold GRPC_GetSampleRunLifecycle, invoke. cbn. by destruct (sv_lifecycle _ _) as [w' [l|]].
Qed.

Lemma lifecycle_agrees (s : grpc_state W) ctx req :
  service_ok -> is_Some (sv_lifecycle (gs_world s) (lr_SampleRunID req)).2 ->
  agree same_error (cl_GetSampleRunLifecycle (Client := http) (gs_world s) ctx req)
    (cl_GetSampleRunLifecycle (Client := grpc) s ctx req).
Proof.
  intros Hs [l Hl]. unfold agree. rewrite http_lifecycle, grpc_lifecycle, grpc_lifecycle_world, Hl by done.
  done.
Qed.

(** A sample run that has no lifecycle is not found over HTTP and an error over
    gRPC: the caller of the interface cannot tell it from a failure there. *)
Lemma lifecycle_missing (s : grpc_state W) ctx req :
  service_ok -> (sv_lifecycle (gs_world s) (lr_SampleRunID req)).2 = None ->
  (cl_GetSampleRunLifecycle (Client := http) (gs_world s) ctx req).2 = Ok (zero_SampleRunLifecycle, false) /\
  (cl_GetSampleRunLifecycle (Client := grpc) s ctx req).2 = Err no_lifecycle.
Proof. intros Hs Hl. by rewrite http_lifecycle, grpc_lifecycle, Hl. Qed.

(** C24. The transport does not matter: over HTTP and over gRPC the same service
    is asked the same and left in the same state by every method, and the
    executor gets the same answer, or fails with both, as long as a location is in
    one place, strings are UTF-8 and integers fit; a lifecycle that is looked up
    must exist. *)
Theorem transports_agree (s : grpc_state W) ctx :
  service_ok ->
  (forall req, request_ok req ->
    agree same_error (cl_ResolveBinding (Client := http) (gs_world s) ctx req)
      (cl_ResolveBinding (Client := grpc) s ctx req)) /\
  (forall req, artifact_ok req ->
    agree same_failure (cl_RegisterArtifact (Client := http) (gs_world s) ctx req)
      (cl_RegisterArtifact (Client := grpc) s ctx req)) /\
  (forall req, jt_ok req ->
    agree same_failure (cl_NotifyNodeTerminal (Client := http) (gs_world s) ctx req)
      (cl_NotifyNodeTerminal (Client := grpc) s ctx req)) /\
  (forall req, jt_ok req ->
    agree same_failure (cl_FinalizeSampleRun (Client := http) (gs_world s) ctx req)
      (cl_FinalizeSampleRun (Client := grpc) s ctx req)) /\
  (forall req, jt_ok req ->
    agree same_failure (cl_EvaluateGC (Client := http) (gs_world s) ctx req)
      (cl_EvaluateGC (Client := grpc) s ctx req)) /\
  (forall req, is_Some (sv_lifecycle (gs_world s) (lr_SampleRunID req)).2 ->
    agree same_error (cl_GetSampleRunLifecycle (Client := http) (gs_world s) ctx req)
      (cl_GetSampleRunLifecycle (Client := grpc) s ctx req)).
Proof.
  intros Hs. split_and!; intros req Hr.
  - by apply resolve_agrees.
  - by apply register_agrees.
  - eapply failure_agrees; [done|url|done|..]; cbn; rewrite ?count_world; cbn;
      destruct req; cbn; by destruct (sv_terminal _ _) as [w' [[]|]].
  - eapply failure_agrees with (serve := fun b => sv_finalize (gs_world s) (fr_SampleRunID b));
      [done|url|done|..]; cbn; rewrite ?count_world; cbn; by destruct (sv_finalize _ _) as [w' [[]|]].
  - eapply failure_agrees with (serve := fun b => sv_gc (gs_world s) (gr_SampleRunID b));
      [done|url|done|..]; cbn; rewrite ?count_world; cbn; by destruct (sv_gc _ _) as [w' [[]|]].
  - by apply lifecycle_agrees.
Qed.
End clients.
End service.
