(* ===== verification/Provenance.v ===== *)
(** * Artifact manifests ([src/pkg/provenance/manifest.go])

    The manifest a node's runtime writes, the checks made on a decoded one, and
    the path under which the manifest of an attempt is stored. Decoding JSON is
    not modelled: [ParseArtifactManifest] starts from the decoded value. *)
From S2P Require Import Prelude GoStrings GoErrors.
From Stdlib Require Import Ascii NArith.

Definition DefaultArtifactsManifestPath : string := "/out/_meta/artifacts.manifest.json".
Definition ArtifactManifestSchemaVersion : string := "jumi.observedArtifactManifest.v1".

Record LineageInput := mkLineageInput {
  li_InputName : string;
  li_ArtifactDigest : string;
  li_ProducerLogicalURI : string;
}.

#[export] Instance eta_LineageInput : Eta LineageInput := fun r =>
  mkLineageInput
    (li_InputName r) (li_ArtifactDigest r) (li_ProducerLogicalURI r).

Record ProvNodeLocalLocation := mkProvNodeLocalLocation {
  pnl_NodeName : string;
  pnl_Path : string;
}.

#[export] Instance eta_ProvNodeLocalLocation : Eta ProvNodeLocalLocation := fun r =>
  mkProvNodeLocalLocation
    (pnl_NodeName r) (pnl_Path r).

Record ProvArtifactLocation := mkProvArtifactLocation {
  pal_NodeLocal : option ProvNodeLocalLocation;
}.

#[export] Instance eta_ProvArtifactLocation : Eta ProvArtifactLocation := fun r =>
  mkProvArtifactLocation
    (pal_NodeLocal r).

Record ArtifactRecord := mkArtifactRecord {
  arec_OutputName : string;
  arec_DeclaredPath : string;
  arec_AbsolutePath : string;
  arec_Type : string;
  arec_URI : string;
  arec_LogicalURI : string;
  arec_Digest : string;
  arec_SizeBytes : Z;
  arec_ProducerAttemptID : string;
  arec_Locations : list ProvArtifactLocation;
  arec_Provenance : option (list LineageInput);
}.

#[export] Instance eta_ArtifactRecord : Eta ArtifactRecord := fun r =>
  mkArtifactRecord
    (arec_OutputName r) (arec_DeclaredPath r) (arec_AbsolutePath r)
    (arec_Type r) (arec_URI r) (arec_LogicalURI r) (arec_Digest r)
    (arec_SizeBytes r) (arec_ProducerAttemptID r) (arec_Locations r)
    (arec_Provenance r).

Definition zero_ArtifactRecord : ArtifactRecord :=
  {| arec_OutputName := "";
     arec_DeclaredPath := ""; arec_AbsolutePath := ""; arec_Type := "";
     arec_URI := ""; arec_LogicalURI := ""; arec_Digest := "";
     arec_SizeBytes := 0; arec_ProducerAttemptID := ""; arec_Locations := [];
     arec_Provenance := None |}.

Record ArtifactManifest := mkArtifactManifest {
  am_SchemaVersion : string;
  am_RunID : string;
  am_SampleRunID : string;
  am_NodeID : string;
  am_AttemptID : string;
  am_ContainerName : string;
  am_HelperVersion : string;
  am_CreatedAt : string;
  am_OutputRoot : string;
  am_Artifacts : list ArtifactRecord;
}.

#[export] Instance eta_ArtifactManifest : Eta ArtifactManifest := fun r =>
  mkArtifactManifest
    (am_SchemaVersion r) (am_RunID r) (am_SampleRunID r) (am_NodeID r)
    (am_AttemptID r) (am_ContainerName r) (am_HelperVersion r)
    (am_CreatedAt r) (am_OutputRoot r) (am_Artifacts r).

Definition zero_ArtifactManifest : ArtifactManifest :=
  {|
     am_SchemaVersion := ""; am_RunID := ""; am_SampleRunID := "";
     am_NodeID := ""; am_AttemptID := ""; am_ContainerName := "";
     am_HelperVersion := ""; am_CreatedAt := ""; am_OutputRoot := "";
     am_Artifacts := [] |}.


(** ** Parsing: the duplicate check on the decoded artifacts *)
Fixpoint check_output_names {U : UnicodeTables} (seen : gset string)
    (artifacts : list ArtifactRecord) : option GoError :=
  match artifacts with
  | [] => None
  | a :: artifacts =>
      if streq (arec_OutputName a) "" then Some (Errorf "artifact outputName is required")
      else if bool_decide (arec_OutputName a ∈ seen)
      then Some (Errorf ("duplicate artifact outputName " +:+ Quote (arec_OutputName a)))
      else check_output_names ({[ arec_OutputName a ]} ∪ seen) artifacts
  end.

Definition ParseArtifactManifest {U : UnicodeTables} (decoded : res ArtifactManifest)
    : res ArtifactManifest :=
  match decoded with
  | Err e => Err e
  | Ok manifest =>
      match check_output_names ∅ (am_Artifacts manifest) with
      | Some e => Err e
      | None => Ok manifest
      end
  end.

Definition ByOutputName (m : ArtifactManifest) (name : string) : option ArtifactRecord :=
  find_first (fun a => streq (arec_OutputName a) name) (am_Artifacts m).

(** ** [url.PathEscape] *)
Definition segment_byte (a : ascii) : bool :=
  let n := N_of_ascii a in
  in_range 97 122 n || in_range 65 90 n || in_range 48 57 n
  || existsb (N.eqb n) [45; 95; 46; 126; 36; 38; 43; 58; 61; 64]%N.

Definition upper_hex (n : N) : ascii :=
  ascii_of_N (if (n <? 10)%N then 48 + n else 55 + n)%N.

Fixpoint PathEscape (s : string) : string :=
  match s with
  | EmptyString => EmptyString
  | String a s =>
      if segment_byte a then String a (PathEscape s)
      else String "%" (String (upper_hex (N_of_ascii a / 16))
             (String (upper_hex (N_of_ascii a mod 16)) (PathEscape s)))
  end.

Definition AttemptArtifactsManifestPath (runID nodeID attemptID : string) : string :=
  "/out/_meta/jumi/runs/" +:+ PathEscape runID +:+ "/nodes/" +:+ PathEscape nodeID
  +:+ "/attempts/" +:+ PathEscape attemptID +:+ "/artifacts.manifest.json".

(** ** Lemmas *)
Lemma check_output_names_None {U : UnicodeTables} seen l :
  check_output_names seen l = None <->
  (forall a, a ∈ l -> arec_OutputName a <> "")
  /\ NoDup (map arec_OutputName l) /\ (forall a, a ∈ l -> arec_OutputName a ∉ seen).
Proof.
  revert seen; induction l as [|a l IH]; intros seen; simpl.
  { split; [|done]. intros _. split_and!; [|constructor|]; intros a Ha; by apply elem_of_nil in Ha. }
  rewrite NoDup_cons. destruct (streq _ "") eqn:E; str_tests.
  { split; [done|]. intros (H & _). destruct (H a); [apply list_elem_of_here|done]. }
  case_bool_decide as Hin.
  { split; [done|]. intros (_ & _ & H). destruct (H a); [apply list_elem_of_here|done]. }
  rewrite IH. setoid_rewrite elem_of_cons. split.
  - intros (H1 & H2 & H3). split_and!; try done.
    + intros b [->|Hb]; auto.
    + intros Hb. apply list_elem_of_fmap in Hb as (b & Hb & Hb'). specialize (H3 b Hb'). set_solver.
    + intros b [->|Hb]; [done|]. specialize (H3 b Hb). set_solver.
  - intros (H1 & [H2 H2'] & H3). split_and!; [by auto | done |].
    intros b Hb. specialize (H3 b (or_intror Hb)).
    assert (arec_OutputName b <> arec_OutputName a); [|set_solver].
    intros Heq. apply H2. apply list_elem_of_fmap. eauto.
Qed.

(** A parsed manifest has at most one record per output name, so looking an
    output up by name finds the record whichever way one searches: the lookup
    returns a record exactly when that record is in the manifest. *)
Theorem ParseArtifactManifest_lookup {U : UnicodeTables} (decoded : res ArtifactManifest)
    (m : ArtifactManifest) (a : ArtifactRecord) (name : string) :
  ParseArtifactManifest decoded = Ok m ->
  ByOutputName m name = Some a <-> a ∈ am_Artifacts m /\ arec_OutputName a = name.
Proof.
  intros H. unfold ParseArtifactManifest in H. destruct decoded as [m'|]; [|done].
  destruct (check_output_names ∅ (am_Artifacts m')) eqn:E; simplify_eq.
  apply check_output_names_None in E as (_ & Hdup & _). unfold ByOutputName.
  split.
  - intros [H1 H2]%find_first_Some. str_tests. done.
  - intros [Hin <-]. induction (am_Artifacts m) as [|b l IH]; [by apply elem_of_nil in Hin|].
    simpl in Hdup. apply NoDup_cons in Hdup as [Hb Hdup]. simpl.
    apply elem_of_cons in Hin as [->|Hin]; [by rewrite streq_refl|].
    destruct (streq (arec_OutputName b) (arec_OutputName a)) eqn:E; str_tests; [|by apply IH].
    destruct Hb. rewrite E. by apply list_elem_of_fmap_2.
Qed.

Lemma ParseArtifactManifest_lookup_witness :
  let rec := zero_ArtifactRecord <| arec_OutputName := "o" |> in
  ByOutputName (zero_ArtifactManifest <| am_Artifacts := [rec] |>) "o" = Some rec.
Proof.
  simpl. apply (@ParseArtifactManifest_lookup ascii_tables
    (Ok (zero_ArtifactManifest
      <| am_Artifacts := [zero_ArtifactRecord <| arec_OutputName := "o" |>] |>))).
  - vm_compute. reflexivity.
  - split; [apply list_elem_of_here | reflexivity].
Defined.

(** *** Escaped segments *)
Definition is_slash (a : ascii) : bool := Ascii.eqb a "/".

Fixpoint no_slash (s : string) : bool :=
  match s with EmptyString => true | String a s => negb (is_slash a) && no_slash s end.

Lemma ascii_byte a : (N_of_ascii a < 256)%N.
Proof. apply N_ascii_bounded. Qed.

Lemma upper_hex_no_slash n : (n < 16)%N -> is_slash (upper_hex n) = false.
Proof.
  intros H. assert (E : n = N.of_nat (N.to_nat n)) by lia. revert E.
  assert (N.to_nat n < 16) as Hn by lia. revert Hn. generalize (N.to_nat n) as k. intros k Hk ->.
  do 16 (destruct k as [|k]; [reflexivity|]). lia.
Qed.

Lemma upper_hex_inj n m : (n < 16)%N -> (m < 16)%N -> upper_hex n = upper_hex m -> n = m.
Proof.
  intros Hn Hm H. apply (f_equal N_of_ascii) in H. unfold upper_hex in H.
  rewrite !N_ascii_embedding in H;
    destruct (N.ltb_spec n 10), (N.ltb_spec m 10); lia.
Qed.

Lemma segment_byte_no_slash a : segment_byte a = true -> is_slash a = false.
Proof.
  intros H. unfold is_slash. destruct (Ascii.eqb a "/") eqn:E; [|done].
  apply Ascii.eqb_eq in E. subst. done.
Qed.

Lemma PathEscape_no_slash s : no_slash (PathEscape s) = true.
Proof.
  induction s as [|a s IH]; [done|]. simpl. pose proof (ascii_byte a).
  destruct (segment_byte a) eqn:E; cbn [no_slash].
  - by rewrite (segment_byte_no_slash _ E).
  - rewrite !upper_hex_no_slash; [done | apply N.mod_lt; lia | apply N.Div0.div_lt_upper_bound; lia].
Qed.

Lemma PathEscape_inj s t : PathEscape s = PathEscape t -> s = t.
Proof.
  revert t; induction s as [|a s IH]; intros [|b t]; simpl; [done|by case_match..|].
  pose proof (ascii_byte a). pose proof (ascii_byte b).
  destruct (segment_byte a) eqn:Ea, (segment_byte b) eqn:Eb; intros [=]; subst; try done.
  - f_equal. by apply IH.
  - match goal with H1 : upper_hex _ = _, H2 : upper_hex _ = _ |- _ =>
      apply upper_hex_inj in H1, H2;
      try apply N.mod_lt; try apply N.Div0.div_lt_upper_bound; try lia end.
    f_equal; [|by apply IH].
    rewrite <- (ascii_N_embedding a), <- (ascii_N_embedding b). f_equal.
    rewrite (N.div_mod (N_of_ascii a) 16), (N.div_mod (N_of_ascii b) 16) by lia. congruence.
Qed.

(** The text before the first slash determines how a path is cut. *)
Lemma slash_cut s t u v :
  no_slash s = true -> no_slash t = true ->
  s +:+ String "/" u = t +:+ String "/" v -> s = t /\ u = v.
Proof.
  revert t; induction s as [|a s IH]; intros [|b t]; simpl; intros Hs Ht H.
  - by injection H.
  - injection H as <- _. done.
  - injection H as -> _. done.
  - injection H as -> H. apply andb_true_iff in Hs as [_ Hs], Ht as [_ Ht].
    destruct (IH t Hs Ht H). by subst.
Qed.

(** Two attempts never share a manifest path: the path determines the run,
    the node and the attempt it belongs to, whatever characters the identifiers
    contain. *)
Theorem AttemptArtifactsManifestPath_inj (r n a r' n' a' : string) :
  AttemptArtifactsManifestPath r n a = AttemptArtifactsManifestPath r' n' a' ->
  r = r' /\ n = n' /\ a = a'.
Proof.
  unfold AttemptArtifactsManifestPath. intros H.
  apply String.app_inj in H.
  apply slash_cut in H as [Hr H]; [|apply PathEscape_no_slash..].
  injection H as H. apply slash_cut in H as [Hn H]; [|apply PathEscape_no_slash..].
  injection H as H. apply slash_cut in H as [Ha _]; [|apply PathEscape_no_slash..].
  auto using PathEscape_inj.
Qed.

Lemma AttemptArtifactsManifestPath_inj_witness : "r" = "r" /\ "a/b" = "a/b" /\ "x" = "x".
Proof. apply AttemptArtifactsManifestPath_inj. reflexivity. Defined.
