(* ===== verification/BackendTypes.v ===== *)
(** * The backend interface ([src/pkg/backend/backend.go], [attempt_resolver.go])

    The values the executor exchanges with a backend adapter. Handles and
    prepared nodes are opaque ([any] in Go): their types are a parameter. *)
From S2P Require Import Prelude GoErrors Provenance.

Class BackendTypes := {
  Handle : Type;
  PreparedNode : Type;
}.

Definition ErrOutputMetadataUnavailable : GoError := ErrNew "output metadata unavailable".

Record OptionalKueueInfo := mkOptionalKueueInfo {
  ki_Observed : bool;
  ki_QueueName : string;
  ki_WorkloadName : string;
  ki_PendingReason : string;
  ki_Admitted : bool;
  ki_PodName : string;
  ki_PodNodeName : string;
  ki_Scheduled : bool;
  ki_UnschedulableReason : string;
}.

#[export] Instance eta_OptionalKueueInfo : Eta OptionalKueueInfo := fun r =>
  mkOptionalKueueInfo
    (ki_Observed r) (ki_QueueName r) (ki_WorkloadName r) (ki_PendingReason r)
    (ki_Admitted r) (ki_PodName r) (ki_PodNodeName r) (ki_Scheduled r)
    (ki_UnschedulableReason r).

Definition zero_OptionalKueueInfo : OptionalKueueInfo :=
  {|
     ki_Observed := false; ki_QueueName := ""; ki_WorkloadName := "";
     ki_PendingReason := ""; ki_Admitted := false; ki_PodName := "";
     ki_PodNodeName := ""; ki_Scheduled := false; ki_UnschedulableReason := "" |}.

Record ExecutionResult := mkExecutionResult {
  er_Succeeded : bool;
  er_TerminalStopCause : string;
  er_TerminalFailureReason : string;
  er_Kueue : option OptionalKueueInfo;
}.

#[export] Instance eta_ExecutionResult : Eta ExecutionResult := fun r =>
  mkExecutionResult
    (er_Succeeded r) (er_TerminalStopCause r) (er_TerminalFailureReason r)
    (er_Kueue r).

Definition zero_ExecutionResult : ExecutionResult :=
  {|
     er_Succeeded := false; er_TerminalStopCause := "";
     er_TerminalFailureReason := ""; er_Kueue := None |}.

Record OutputMetadata := mkOutputMetadata {
  om_OutputName : string;
  om_URI : string;
  om_LogicalURI : string;
  om_Digest : string;
  om_SizeBytes : Z;
  om_ProducerAttemptID : string;
  om_Locations : list ProvArtifactLocation;
  om_NodeName : string;
  om_PodName : string;
}.

#[export] Instance eta_OutputMetadata : Eta OutputMetadata := fun r =>
  mkOutputMetadata
    (om_OutputName r) (om_URI r) (om_LogicalURI r) (om_Digest r)
    (om_SizeBytes r) (om_ProducerAttemptID r) (om_Locations r) (om_NodeName r)
    (om_PodName r).

Definition zero_OutputMetadata : OutputMetadata :=
  {| om_OutputName := "";
     om_URI := ""; om_LogicalURI := ""; om_Digest := ""; om_SizeBytes := 0;
     om_ProducerAttemptID := ""; om_Locations := []; om_NodeName := "";
     om_PodName := "" |}.


Inductive ResolveOutcome :=
  | ResolveUnknown
  | ResolveFound
  | ResolveAbsentNow
  | ResolveConflict.

(** [ResolveOutcome.String] *)
Definition ResolveOutcome_String (o : ResolveOutcome) : string :=
  match o with
  | ResolveFound => "found"
  | ResolveAbsentNow => "absent_now"
  | ResolveConflict => "conflict"
  | ResolveUnknown => "unknown"
  end.

#[export] Instance ResolveOutcome_eq_dec : EqDecision ResolveOutcome.
Proof. solve_decision. Defined.

(** The optional interfaces an adapter may implement, as the results of the
    executor's type assertions. *)
Record AdapterCaps := mkAdapterCaps {
  cap_HandlePersister : bool;
  cap_AttemptResolver : bool;
  cap_OutputMetadataProvider : bool;
}.
