(* ===== verification/Binding.v ===== *)
(** * Input bindings of a node ([src/pkg/executor/executor.go])

    The pure functions with which a node runner judges the answers of the
    artifact-handoff service and turns them into the environment of the node's
    container: the classification of a response, the contract it has to
    satisfy, the failure reasons, the environment keys and the sanitising of
    the path an input is to be materialised at. *)
From S2P Require Import Prelude GoStrings GoErrors GoPath Spec Handoff Provenance BackendTypes.
From Stdlib Require Import Ascii NArith.

(** ** Constants *)
Definition placementModePreferredNode : string := "preferred_node".
Definition placementModeRequiredNode : string := "required_node".
Definition materializationModeNone : string := "none".
Definition materializationModeLocalReuse : string := "local_reuse".
Definition materializationModeRemoteFetch : string := "remote_fetch".
Definition materializationFailureDigestMismatch : string := "input_materialization_digest_mismatch".
Definition materializationFailureRemoteUnavailable : string :=
  "input_materialization_remote_unavailable".
Definition materializationFailurePathRejected : string := "input_materialization_path_rejected".
Definition materializationFailureLocalSourceMissing : string :=
  "input_materialization_local_source_missing".

Definition materializationEnvPrefix : string := "JUMI_INPUT_".
Definition materializationEnvSuffixStatus : string := "_STATUS".
Definition materializationEnvSuffixDecision : string := "_DECISION".
Definition materializationEnvSuffixURI : string := "_URI".
Definition materializationEnvSuffixSourceNode : string := "_SOURCE_NODE".
Definition materializationEnvSuffixPlacementMode : string := "_PLACEMENT_MODE".
Definition materializationEnvSuffixMaterializationMode : string := "_MATERIALIZATION_MODE".
Definition materializationEnvSuffixExpectedDigest : string := "_EXPECTED_DIGEST".
Definition materializationEnvSuffixExpectedSizeBytes : string := "_EXPECTED_SIZE_BYTES".
Definition materializationEnvSuffixNodeLocalPath : string := "_NODE_LOCAL_PATH".
Definition materializationEnvSuffixLocalPath : string := "_LOCAL_PATH".
Definition materializationEnvSuffixRequiresMaterialize : string := "_REQUIRES_MATERIALIZATION".

Definition defaultNanShutdownGracePeriod : string := "25s".

Inductive resolveAction :=
  | resolveProceed
  | resolveRetry
  | resolveFail
  | resolveSkipOptional.

#[export] Instance resolveAction_eq_dec : EqDecision resolveAction.
Proof. solve_decision. Defined.

(** ** Judging a response *)
Definition requiresMaterialization (resolved : ResolveBindingResponse) : bool :=
  let mode := TrimSpace (mp_Mode (rs_MaterializationPlan resolved)) in
  negb (streq mode "") && negb (EqualFold mode "none").

Definition missingBindingFailureReason (resolved : ResolveBindingResponse) : string :=
  if streq (rs_Decision resolved) "producer_failed" then "input_resolution_producer_failed"
  else "input_resolution_missing".

Section judging.
Context {U : UnicodeTables}.

(** [strings.ToUpper(strings.TrimSpace(resolved.ResolutionStatus))] *)
Definition canonical_status (resolved : ResolveBindingResponse) : string :=
  ToUpper (TrimSpace (rs_ResolutionStatus resolved)).

Definition resolveBindingFailureReason (binding : ArtifactBinding)
    (resolved : ResolveBindingResponse) : string :=
  let status := canonical_status resolved in
  if streq status "RESOLVED" then ""
  else if streq status "PENDING" then
    if rs_Retryable resolved then "input_resolution_pending"
    else "input_resolution_pending_not_retryable"
  else if streq status "MISSING" then
    if negb (ab_Required binding) then "" else missingBindingFailureReason resolved
  else if streq status "PRODUCER_FAILED" then "input_resolution_producer_failed"
  else if streq status "POLICY_BLOCKED" then "input_resolution_policy_blocked"
  else if streq status "DIGEST_MISMATCH" then "input_resolution_digest_mismatch"
  else if streq status "GC_EXPIRED" then "input_resolution_gc_expired"
  else if streq status "UNAVAILABLE" then
    if rs_Retryable resolved then "input_resolution_unavailable_retryable"
    else "input_resolution_unavailable"
  else "input_resolution_unknown_status".

Definition classifyResolvedBinding (binding : ArtifactBinding)
    (resolved : ResolveBindingResponse) : resolveAction * string :=
  let status := canonical_status resolved in
  if streq status "" || streq status "RESOLVED" then (resolveProceed, "")
  else if streq status "PENDING" then
    if rs_Retryable resolved then (resolveRetry, "input_resolution_pending")
    else (resolveFail, "input_resolution_pending_not_retryable")
  else if streq status "MISSING" then
    if ab_Required binding then (resolveFail, missingBindingFailureReason resolved)
    else (resolveSkipOptional, "")
  else if streq status "PRODUCER_FAILED" then (resolveFail, "input_resolution_producer_failed")
  else if streq status "POLICY_BLOCKED" then (resolveFail, "input_resolution_policy_blocked")
  else if streq status "DIGEST_MISMATCH" then (resolveFail, "input_resolution_digest_mismatch")
  else if streq status "GC_EXPIRED" then (resolveFail, "input_resolution_gc_expired")
  else if streq status "UNAVAILABLE" then
    if rs_Retryable resolved then (resolveRetry, "input_resolution_unavailable_retryable")
    else (resolveFail, "input_resolution_unavailable")
  else (resolveFail, "input_resolution_unknown_status").
End judging.

Definition sanitizeResolvedLocalPath (value : string) : string :=
  let trimmed := TrimSpace value in
  if streq trimmed "" then ""
  else if IsAbs trimmed || negb (IsLocal trimmed) then ""
  else
    let cleaned := Clean trimmed in
    match Rel "inputs" cleaned with
    | Err _ => ""
    | Ok rel =>
        if streq rel "." || streq rel ".." || has_prefix "../" rel then "" else cleaned
    end.

(** The error messages of the contract check, after their common prefix. *)
Definition contract_error (binding : ArtifactBinding) (what : string) : GoError :=
  Errorf ("input_materialization_contract_invalid: binding " +:+ ab_BindingName binding
          +:+ " " +:+ what).

(** The first half of the contract: the placement intent. *)
Definition check_placement_intent {U : UnicodeTables} (binding : ArtifactBinding)
    (intent : PlacementIntent) : res unit :=
  let mode := TrimSpace (pi_Mode intent) in
  if streq mode "" then Ok tt
  else if streq mode placementModePreferredNode || streq mode placementModeRequiredNode then
    if streq (TrimSpace (pi_NodeName intent)) "" then
      Err (contract_error binding ("placement mode " +:+ mode +:+ " requires nodeName"))
    else Ok tt
  else Err (contract_error binding ("has unsupported placement mode " +:+ Quote mode)).

Definition check_local_path {U : UnicodeTables} (binding : ArtifactBinding)
    (plan : MaterializationPlan) : res unit :=
  let localPath := TrimSpace (mp_LocalPath plan) in
  if negb (streq localPath "") && streq (sanitizeResolvedLocalPath localPath) ""
  then Err (contract_error binding ("has unsafe localPath " +:+ Quote localPath))
  else Ok tt.

(** The second half: the materialization plan. *)
Definition check_materialization_plan {U : UnicodeTables} (binding : ArtifactBinding)
    (plan : MaterializationPlan) : res unit :=
  let mode := TrimSpace (mp_Mode plan) in
  let mode := if streq mode "" then materializationModeNone else mode in
  if streq mode materializationModeNone then Ok tt
  else if streq mode materializationModeLocalReuse then
    match mp_SourceLocation plan ≫= al_NodeLocal with
    | None => Err (contract_error binding "local_reuse requires nodeLocal source")
    | Some nl =>
        if streq (TrimSpace (nl_Path nl)) ""
        then Err (contract_error binding "local_reuse requires nodeLocal path")
        else check_local_path binding plan
    end
  else if streq mode materializationModeRemoteFetch then
    if streq (TrimSpace (mp_URI plan)) ""
       && match mp_SourceLocation plan ≫= al_HTTP with
          | None => true
          | Some h => streq (TrimSpace (hs_URI h)) ""
          end
    then Err (contract_error binding "remote_fetch requires URI or HTTP source")
    else check_local_path binding plan
  else Err (contract_error binding ("has unsupported materialization mode " +:+ Quote mode)).

Definition validateResolvedBindingContract {U : UnicodeTables} (binding : ArtifactBinding)
    (resolved : ResolveBindingResponse) : res unit :=
  match check_placement_intent binding (rs_PlacementIntent resolved) with
  | Err e => Err e
  | Ok _ => check_materialization_plan binding (rs_MaterializationPlan resolved)
  end.

Definition resolveFailureReason (err : option GoError) : string :=
  match err with
  | None => ""
  | Some e =>
      let msg := error_text e in
      if has_prefix "input_resolution_" msg then msg else "resolve_handoff_error"
  end.

Definition isMaterializationFailureReason (reason : string) : bool :=
  bool_decide (reason ∈ [materializationFailureDigestMismatch;
                         materializationFailureRemoteUnavailable;
                         materializationFailurePathRejected;
                         materializationFailureLocalSourceMissing]).

Definition terminalFailureReasonFromResult (result : ExecutionResult) : string :=
  let reason := TrimSpace (er_TerminalFailureReason result) in
  if isMaterializationFailureReason reason then reason
  else FirstNonEmpty [reason; "node_execution_failed"].

Definition isTransientResolveBindingError (err : option GoError) : bool :=
  match err with
  | None => false
  | Some e =>
      if errors_is e CtxCanceled then false
      else if errors_is e CtxDeadlineExceeded then true
      else if errors_as_net e then true
      else match status_code e with
           | CodeUnavailable | CodeDeadlineExceeded | CodeResourceExhausted
           | CodeAborted | CodeInternal => true
           | CodeInvalidArgument | CodeNotFound | CodeFailedPrecondition
           | CodePermissionDenied | CodeUnauthenticated | CodeUnimplemented => false
           | _ =>
               match errors_as_http e with
               | Some code => bool_decide (code ∈ [408; 425; 429; 500; 502; 503; 504]%Z)
               | None => false
               end
           end
  end.

(** ** Environment of the container *)
Section env.
Context {U : UnicodeTables}.

(** The loop of [sanitizeEnvSegment]: every run of characters that are neither
    letters nor digits becomes one underscore. *)
Fixpoint sanitize_runes (rs : list N) (prevUnderscore : bool) : string :=
  match rs with
  | [] => ""
  | r :: rs =>
      if unicode_IsLetter r || unicode_IsDigit r
      then encode_rune (unicode_ToUpper r) +:+ sanitize_runes rs false
      else if prevUnderscore then sanitize_runes rs true
      else "_" +:+ sanitize_runes rs true
  end.

Definition sanitizeEnvSegment (value : string) : string :=
  if streq value "" then "UNSPECIFIED"
  else
    let result := trim_cutset "_" (sanitize_runes (runes value) false) in
    if streq result "" then "UNSPECIFIED" else result.

Definition binding_label (binding : ArtifactBinding) : string :=
  FirstNonEmpty [ab_ChildInputName binding; ab_BindingName binding; ab_ProducerOutputName binding].

(** The key under which a binding's variables are exported. *)
Definition env_base (binding : ArtifactBinding) : string :=
  sanitizeEnvSegment (binding_label binding).

Fixpoint env_keys_from (seen : gmap string string) (bindings : list ArtifactBinding) : res unit :=
  match bindings with
  | [] => Ok tt
  | binding :: bindings =>
      let original := binding_label binding in
      let key := sanitizeEnvSegment original in
      match seen !! key with
      | Some existing =>
          Err (Errorf ("input env key collision: " +:+ Quote existing +:+ " and "
                       +:+ Quote original +:+ " both sanitize to " +:+ Quote key))
      | None => env_keys_from (<[key := original]> seen) bindings
      end
  end.

Definition validateResolvedBindingEnvKeys (bindings : list ArtifactBinding) : res unit :=
  env_keys_from ∅ bindings.

Definition materializationEnvKey (base suffix : string) : string :=
  materializationEnvPrefix +:+ base +:+ suffix.

(** [node.Env[k] = v], the map having been made if it was nil. *)
Definition set_env (k v : string) (node : Node) : Node :=
  node <| n_Env := Some (<[k := v]> (map_of (n_Env node))) |>.

Definition injectResolvedBindingEnv (node : Node) (binding : ArtifactBinding)
    (resolved : ResolveBindingResponse) : Node :=
  let keyBase := env_base binding in
  let plan := rs_MaterializationPlan resolved in
  let put suffix v node := set_env (materializationEnvKey keyBase suffix) v node in
  let node := node <| n_Env := Some (map_of (n_Env node)) |> in
  let node := put materializationEnvSuffixStatus (rs_ResolutionStatus resolved) node in
  let node := put materializationEnvSuffixDecision (rs_Decision resolved) node in
  let node := put materializationEnvSuffixURI (mp_URI plan) node in
  let node := put materializationEnvSuffixSourceNode (pi_NodeName (rs_PlacementIntent resolved)) node in
  let node := put materializationEnvSuffixPlacementMode (pi_Mode (rs_PlacementIntent resolved)) node in
  let node := put materializationEnvSuffixMaterializationMode (mp_Mode plan) node in
  let node := put materializationEnvSuffixExpectedDigest (mp_ExpectedDigest plan) node in
  let node := if (0 <? mp_ExpectedSize plan)%Z
              then put materializationEnvSuffixExpectedSizeBytes (Itoa (mp_ExpectedSize plan)) node
              else node in
  let node := match mp_SourceLocation plan ≫= al_NodeLocal with
              | Some nl => put materializationEnvSuffixNodeLocalPath (nl_Path nl) node
              | None => node
              end in
  let safeLocalPath := sanitizeResolvedLocalPath (mp_LocalPath plan) in
  let node := if negb (streq safeLocalPath "")
              then put materializationEnvSuffixLocalPath safeLocalPath node else node in
  put materializationEnvSuffixRequiresMaterialize
      (if requiresMaterialization resolved then "true" else "false") node.

Definition injectRuntimeContextEnv (node : Node) (run : RunRecord) (attemptID : string) : Node :=
  let node := node <| n_Env := Some (map_of (n_Env node)) |> in
  let node := set_env "JUMI_RUN_ID" (rr_RunID run) node in
  let node := set_env "JUMI_NODE_ID" (n_NodeID node) node in
  let node := set_env "JUMI_ATTEMPT_ID" attemptID node in
  let node := set_env "JUMI_OUTPUT_ROOT" "/out" node in
  let node := if streq (TrimSpace (map_get (n_Env node) "JUMI_SHUTDOWN_GRACE_PERIOD")) ""
              then set_env "JUMI_SHUTDOWN_GRACE_PERIOD" defaultNanShutdownGracePeriod node
              else node in
  let sampleRunID := rm_SampleRunID (es_Run (rr_Spec run)) in
  let node := if negb (streq sampleRunID "")
              then set_env "JUMI_SAMPLE_RUN_ID" sampleRunID node else node in
  match n_Outputs node with
  | [] => node
  | _ => set_env "JUMI_OUTPUT_MANIFEST_PATH"
           (AttemptArtifactsManifestPath (rr_RunID run) (n_NodeID node) attemptID) node
  end.

(** ** A response is judged one way

    [classifyResolvedBinding] decides during the attempts,
    [resolveBindingFailureReason] names the reason afterwards. *)

(** The two switches over the response status agree: a response that fails
    or asks for a retry is reported under the reason the classification gave,
    a response that proceeds or is skipped has no failure reason (the empty
    status excepted, which proceeds but would be reported as unknown), and a
    retry is only ever asked for by a response marked retryable. *)
Theorem classify_reason_agree (binding : ArtifactBinding) (resolved : ResolveBindingResponse) :
  match classifyResolvedBinding binding resolved with
  | (resolveProceed, reason) =>
      reason = "" /\ (canonical_status resolved = "" \/
                      resolveBindingFailureReason binding resolved = "")
  | (resolveSkipOptional, reason) =>
      reason = "" /\ resolveBindingFailureReason binding resolved = "" /\ ab_Required binding = false
  | (resolveRetry, reason) =>
      reason = resolveBindingFailureReason binding resolved
      /\ has_prefix "input_resolution_" reason = true /\ rs_Retryable resolved = true
  | (resolveFail, reason) =>
      reason = resolveBindingFailureReason binding resolved
      /\ has_prefix "input_resolution_" reason = true
  end.
Proof.
  unfold classifyResolvedBinding, resolveBindingFailureReason, missingBindingFailureReason.
  generalize (canonical_status resolved) as s. intros s.
  destruct (streq s "") eqn:E0; [str_tests; simpl; auto|]. simpl.
  destruct (rs_Retryable resolved) eqn:?, (ab_Required binding) eqn:?,
    (streq (rs_Decision resolved) "producer_failed"); simpl;
    repeat (match goal with |- context [streq s ?x] => destruct (streq s x) end; [auto|]);
    auto.
Qed.
End env.

(** ** Paths *)

(** The path an input is materialised at, when it is accepted: at least one
    element below [inputs], none of them "", "." or "..". *)
Definition safe_local_path (p : string) : Prop :=
  exists es, es <> [] /\ Forall plain es /\ Forall (fun c => noslash c = true) es
    /\ p = join_slash ("inputs" :: es).

(** C39. A local path of a materialization plan that the executor accepts stays
    strictly below the [inputs] directory: whatever the handoff service sent, the
    sanitised path is empty or consists of "inputs" and at least one more plain
    element, so no absolute path and no ".." ever reaches the container. *)
Theorem sanitizeResolvedLocalPath_safe (value : string) :
  sanitizeResolvedLocalPath value = "" \/ safe_local_path (sanitizeResolvedLocalPath value).
Proof.
  unfold sanitizeResolvedLocalPath. generalize (TrimSpace value) as v. intros v.
  destruct (streq v "") eqn:Ev; [by left|].
  destruct (IsAbs v) eqn:Ea; [by left|]. destruct (IsLocal v) eqn:El; [|by left].
  cbn [orb negb].
  destruct (Rel "inputs" (Clean v)) as [rel|] eqn:Er; [|by left].
  destruct (streq rel "." || streq rel ".." || has_prefix "../" rel) eqn:Ed; [by left|].
  right. apply orb_false_iff in Ed as [[Ed1 Ed2]%orb_false_iff Ed3].
  destruct (Rel_under "inputs" v rel) as (es & H1 & H2 & H3 & H4 & _); [done..|].
  exists es. by rewrite <- H4.
Qed.

(** What a usable response promises. *)
Definition intent_ok (intent : PlacementIntent) : Prop :=
  TrimSpace (pi_Mode intent) = "" \/
  ((TrimSpace (pi_Mode intent) = placementModePreferredNode \/
    TrimSpace (pi_Mode intent) = placementModeRequiredNode) /\
   TrimSpace (pi_NodeName intent) <> "").

Definition reuse_source (plan : MaterializationPlan) : Prop :=
  exists nl, mp_SourceLocation plan ≫= al_NodeLocal = Some nl /\ TrimSpace (nl_Path nl) <> "".

Definition fetch_source (plan : MaterializationPlan) : Prop :=
  TrimSpace (mp_URI plan) <> "" \/
  exists h, mp_SourceLocation plan ≫= al_HTTP = Some h /\ TrimSpace (hs_URI h) <> "".

Definition local_path_ok (plan : MaterializationPlan) : Prop :=
  TrimSpace (mp_LocalPath plan) = "" \/
  sanitizeResolvedLocalPath (TrimSpace (mp_LocalPath plan)) <> "".

Definition plan_ok (plan : MaterializationPlan) : Prop :=
  let mode := TrimSpace (mp_Mode plan) in
  (mode = "" \/ mode = materializationModeNone) \/
  (mode = materializationModeLocalReuse /\ reuse_source plan /\ local_path_ok plan) \/
  (mode = materializationModeRemoteFetch /\ fetch_source plan /\ local_path_ok plan).

Section contract.
Context {U : UnicodeTables}.

Lemma check_placement_intent_iff binding intent :
  check_placement_intent binding intent = Ok tt <-> intent_ok intent.
Proof.
  unfold check_placement_intent, intent_ok.
  generalize (TrimSpace (pi_Mode intent)) as m. generalize (TrimSpace (pi_NodeName intent)) as n.
  intros n m. destruct (streq m "") eqn:E0; str_tests; [tauto|].
  destruct (streq m placementModePreferredNode) eqn:E1,
    (streq m placementModeRequiredNode) eqn:E2, (streq n "") eqn:E3; str_tests;
    split; (done || tauto || naive_solver).
Qed.

Lemma check_local_path_iff binding plan :
  check_local_path binding plan = Ok tt <-> local_path_ok plan.
Proof.
  unfold check_local_path, local_path_ok. generalize (TrimSpace (mp_LocalPath plan)) as p. intros p.
  destruct (streq p "") eqn:E0; simpl; str_tests; [tauto|].
  destruct (streq (sanitizeResolvedLocalPath p) "") eqn:E1; str_tests; naive_solver.
Qed.

Lemma check_materialization_plan_iff binding plan :
  check_materialization_plan binding plan = Ok tt <-> plan_ok plan.
Proof.
  unfold check_materialization_plan, plan_ok. cbv zeta.
  generalize (TrimSpace (mp_Mode plan)) as m. intros m.
  destruct (streq m "") eqn:E0; str_tests; [tauto|].
  destruct (streq m materializationModeNone) eqn:E1; str_tests; [tauto|].
  destruct (streq m materializationModeLocalReuse) eqn:E2; str_tests.
  - unfold reuse_source. destruct (mp_SourceLocation plan ≫= al_NodeLocal) as [nl|]; [|naive_solver].
    destruct (streq (TrimSpace (nl_Path nl)) "") eqn:E3; str_tests; [naive_solver|].
    rewrite check_local_path_iff. naive_solver.
  - destruct (streq m materializationModeRemoteFetch) eqn:E3; str_tests; [|naive_solver].
    unfold fetch_source. destruct (streq (TrimSpace (mp_URI plan)) "") eqn:E4; str_tests; simpl.
    + destruct (mp_SourceLocation plan ≫= al_HTTP) as [h|]; [|naive_solver].
      destruct (streq (TrimSpace (hs_URI h)) "") eqn:E5; str_tests; [naive_solver|].
      rewrite check_local_path_iff. naive_solver.
    + rewrite check_local_path_iff. naive_solver.
Qed.

(** The contract check accepts exactly the usable responses: a placement
    intent names a node, a plan that reuses or fetches an artifact says from
    where, and its local path is empty or safe. (The local path is only looked
    at when there is something to materialise.) *)
Theorem validateResolvedBindingContract_iff (binding : ArtifactBinding)
    (resolved : ResolveBindingResponse) :
  validateResolvedBindingContract binding resolved = Ok tt <->
  intent_ok (rs_PlacementIntent resolved) /\ plan_ok (rs_MaterializationPlan resolved).
Proof.
  unfold validateResolvedBindingContract. rewrite <- (check_placement_intent_iff binding).
  rewrite <- (check_materialization_plan_iff binding).
  destruct (check_placement_intent _ _) as [[]|]; naive_solver.
Qed.

(** A refused response is reported to the user as a generic handoff error: the
    text of the contract error does not reach the node's failure reason. *)
Lemma contract_error_reason binding resolved e :
  validateResolvedBindingContract binding resolved = Err e ->
  resolveFailureReason (Some e) = "resolve_handoff_error".
Proof.
  assert (H : forall what, resolveFailureReason (Some (contract_error binding what))
                           = "resolve_handoff_error") by done.
  unfold validateResolvedBindingContract, check_placement_intent, check_materialization_plan,
    check_local_path.
  intros Hv. repeat (case_match; simplify_eq; try apply H).
Qed.
End contract.

(** ** Environment keys *)
Definition env_suffixes : list string :=
  [materializationEnvSuffixStatus; materializationEnvSuffixDecision; materializationEnvSuffixURI;
   materializationEnvSuffixSourceNode; materializationEnvSuffixPlacementMode;
   materializationEnvSuffixMaterializationMode; materializationEnvSuffixExpectedDigest;
   materializationEnvSuffixExpectedSizeBytes; materializationEnvSuffixNodeLocalPath;
   materializationEnvSuffixLocalPath; materializationEnvSuffixRequiresMaterialize].

(** Whether [s] is the end of [t], and the text before it. *)
Definition suffix_rest (s t : string) : option string :=
  let n := String.length t - String.length s in
  if streq (str_drop n t) s then Some (str_take n t) else None.

Lemma suffix_rest_app u s : suffix_rest s (u +:+ s) = Some u.
Proof.
  unfold suffix_rest. rewrite length_str_app, Nat.add_sub, str_drop_app, streq_refl.
  by rewrite str_take_app.
Qed.

(** Decided by computing on the eleven suffixes. *)
Definition overlap_ok (s t : string) : bool :=
  match suffix_rest s t with
  | None => true
  | Some u => streq u "" || (streq s materializationEnvSuffixLocalPath
      && streq t materializationEnvSuffixNodeLocalPath && streq u "_NODE")
  end.

Lemma suffix_overlap s t u :
  s ∈ env_suffixes -> t ∈ env_suffixes -> t = u +:+ s ->
  u = "" \/ (s = materializationEnvSuffixLocalPath /\ t = materializationEnvSuffixNodeLocalPath
             /\ u = "_NODE").
Proof.
  intros Hs Ht E.
  assert (H : forallb (fun s => forallb (overlap_ok s) env_suffixes) env_suffixes = true)
    by (vm_compute; reflexivity).
  apply list_elem_of_In in Hs, Ht.
  pose proof (proj1 (forallb_forall _ _) (proj1 (forallb_forall _ _) H s Hs) t Ht) as Hst.
  revert Hst. unfold overlap_ok.
  rewrite E, suffix_rest_app. clear H. intros [H|[[H1 H2]%andb_true_iff H3]%andb_true_iff]%orb_true_iff;
    str_tests; auto.
Qed.

(** Two variables exported for two inputs are the same environment variable
    only if they are the same variable of the same key, with one exception: the
    key K_NODE's local path and the key K's node-local path. *)
Theorem materializationEnvKey_collision (base1 base2 suffix1 suffix2 : string) :
  suffix1 ∈ env_suffixes -> suffix2 ∈ env_suffixes ->
  materializationEnvKey base1 suffix1 = materializationEnvKey base2 suffix2 ->
  (base1 = base2 /\ suffix1 = suffix2) \/
  (base1 = base2 +:+ "_NODE" /\ suffix1 = materializationEnvSuffixLocalPath
     /\ suffix2 = materializationEnvSuffixNodeLocalPath) \/
  (base2 = base1 +:+ "_NODE" /\ suffix2 = materializationEnvSuffixLocalPath
     /\ suffix1 = materializationEnvSuffixNodeLocalPath).
Proof.
  intros H1 H2 H. apply string_app_inv_l in H.
  apply app_eq_split in H as [(u & -> & E)|(u & -> & E)];
    (eapply suffix_overlap in E as Ho; [|eassumption..]);
    destruct Ho as [->|(-> & -> & ->)]; try (by auto);
    left; split; by rewrite ?str_app_nil.
Qed.

Lemma materializationEnvKey_collision_witness :
  materializationEnvKey "A_NODE" "_LOCAL_PATH" = materializationEnvKey "A" "_NODE_LOCAL_PATH" /\
  (("A_NODE" = "A" /\ "_LOCAL_PATH" = "_NODE_LOCAL_PATH") \/
   ("A_NODE" = "A" +:+ "_NODE" /\ "_LOCAL_PATH" = materializationEnvSuffixLocalPath
      /\ "_NODE_LOCAL_PATH" = materializationEnvSuffixNodeLocalPath) \/
   ("A" = "A_NODE" +:+ "_NODE" /\ "_NODE_LOCAL_PATH" = materializationEnvSuffixLocalPath
      /\ "_LOCAL_PATH" = materializationEnvSuffixNodeLocalPath)).
Proof.
  split; [reflexivity|].
  apply (materializationEnvKey_collision "A_NODE" "A" "_LOCAL_PATH" "_NODE_LOCAL_PATH").
  - unfold env_suffixes. set_solver.
  - unfold env_suffixes. set_solver.
  - reflexivity.
Defined.

Section env_theorems.
Context {U : UnicodeTables}.

Lemma env_keys_from_iff bindings seen :
  env_keys_from seen bindings = Ok tt <->
  NoDup (map env_base bindings) /\ Forall (fun b => seen !! env_base b = None) bindings.
Proof.
  revert seen; induction bindings as [|b l IH]; intros seen; simpl.
  - split; [intros _; split; constructor | done].
  - fold (env_base b). rewrite NoDup_cons, Forall_cons, list_elem_of_fmap.
    destruct (seen !! env_base b) eqn:E; [naive_solver|].
    rewrite IH, !Forall_forall. split.
    + intros [Hn H]. split_and!; try done.
      * intros (y & Ey & Hy). specialize (H y Hy). by rewrite <- Ey, lookup_insert_eq in H.
      * intros y Hy. specialize (H y Hy). by apply lookup_insert_None in H as [].
    + intros [[Hb Hn] [_ H]]. split; [done|]. intros y Hy. apply lookup_insert_None.
      split; [by apply H|]. intros Eb. apply Hb. by exists y.
Qed.

(** The key check passes exactly when the bindings of the node have
    pairwise different sanitised keys. *)
Theorem validateResolvedBindingEnvKeys_iff (bindings : list ArtifactBinding) :
  validateResolvedBindingEnvKeys bindings = Ok tt <-> NoDup (map env_base bindings).
Proof.
  unfold validateResolvedBindingEnvKeys. rewrite env_keys_from_iff.
  split; [by intros []|]. intros H. split; [done|]. apply Forall_forall. intros. apply lookup_empty.
Qed.

(** What the container sees under a name: [node.Env[k]]. *)
Definition env_get (node : Node) (k : string) : option string := map_of (n_Env node) !! k.

Lemma env_get_set k k' v node :
  env_get (set_env k v node) k' = if decide (k = k') then Some v else env_get node k'.
Proof.
  unfold env_get, set_env. simpl. case_decide; subst.
  - by rewrite lookup_insert_eq.
  - by rewrite lookup_insert_ne.
Qed.

Lemma env_get_made k node : env_get (node <| n_Env := Some (map_of (n_Env node)) |>) k = env_get node k.
Proof. done. Qed.

Lemma materializationEnvKey_inj base s t :
  materializationEnvKey base s = materializationEnvKey base t -> s = t.
Proof. intros H. by do 2 apply string_app_inv_l in H. Qed.

(** The variables a binding exports: a value per suffix, [None] when the
    variable is left out. *)
Definition exported (resolved : ResolveBindingResponse) : list (string * option string) :=
  let plan := rs_MaterializationPlan resolved in
  let path := sanitizeResolvedLocalPath (mp_LocalPath plan) in
  [(materializationEnvSuffixStatus, Some (rs_ResolutionStatus resolved));
   (materializationEnvSuffixDecision, Some (rs_Decision resolved));
   (materializationEnvSuffixURI, Some (mp_URI plan));
   (materializationEnvSuffixSourceNode, Some (pi_NodeName (rs_PlacementIntent resolved)));
   (materializationEnvSuffixPlacementMode, Some (pi_Mode (rs_PlacementIntent resolved)));
   (materializationEnvSuffixMaterializationMode, Some (mp_Mode plan));
   (materializationEnvSuffixExpectedDigest, Some (mp_ExpectedDigest plan));
   (materializationEnvSuffixExpectedSizeBytes,
    if (0 <? mp_ExpectedSize plan)%Z then Some (Itoa (mp_ExpectedSize plan)) else None);
   (materializationEnvSuffixNodeLocalPath, nl_Path <$> (mp_SourceLocation plan ≫= al_NodeLocal));
   (materializationEnvSuffixLocalPath, if streq path "" then None else Some path);
   (materializationEnvSuffixRequiresMaterialize,
    Some (if requiresMaterialization resolved then "true" else "false"))].

Lemma exported_suffixes resolved : map fst (exported resolved) = env_suffixes.
Proof. done. Qed.

(** The source writes the variables one after the other; as a fold. *)
Definition export_step (base : string) (node : Node) (x : string * option string) : Node :=
  match x.2 with
  | Some v => set_env (materializationEnvKey base x.1) v node
  | None => node
  end.

Lemma export_step_some base node s v :
  export_step base node (s, Some v) = set_env (materializationEnvKey base s) v node.
Proof. done. Qed.

Lemma export_step_none base node s : export_step base node (s, None) = node.
Proof. done. Qed.

Lemma injectResolvedBindingEnv_fold node binding resolved :
  injectResolvedBindingEnv node binding resolved =
  foldl (export_step (env_base binding)) (node <| n_Env := Some (map_of (n_Env node)) |>)
    (exported resolved).
Proof.
  unfold injectResolvedBindingEnv, exported. cbv zeta. cbn [foldl].
  rewrite !export_step_some.
  destruct (0 <? _)%Z, (mp_SourceLocation _ ≫= al_NodeLocal) as [nl|],
    (streq (sanitizeResolvedLocalPath _) ""); cbn [fmap option_fmap option_map negb];
    rewrite ?export_step_some, ?export_step_none; reflexivity.
Qed.

Lemma export_step_get base node x k :
  env_get (export_step base node x) k =
  if decide (materializationEnvKey base x.1 = k)
  then match x.2 with Some v => Some v | None => env_get node k end
  else env_get node k.
Proof.
  unfold export_step. destruct (x.2); [by rewrite env_get_set|]. by case_decide.
Qed.

Lemma export_frame base l node k :
  (forall s, s ∈ map fst l -> materializationEnvKey base s <> k) ->
  env_get (foldl (export_step base) node l) k = env_get node k.
Proof.
  revert node; induction l as [|x l IH]; intros node H; simpl in *; [done|].
  rewrite IH by (intros; apply H, elem_of_cons; auto).
  rewrite export_step_get, decide_False; [done|]. apply H, elem_of_cons. auto.
Qed.

Lemma export_at base l node s v :
  NoDup (map fst l) -> (s, Some v) ∈ l ->
  env_get (foldl (export_step base) node l) (materializationEnvKey base s) = Some v.
Proof.
  revert node. induction l as [|x l IH]; intros node Hn Hin; [by apply elem_of_nil in Hin|].
  simpl in *. apply NoDup_cons in Hn as [Hs Hn].
  apply elem_of_cons in Hin as [<-|Hin]; [|by apply IH].
  rewrite export_frame, export_step_get; [by rewrite decide_True|].
  intros y Hy Heq. apply materializationEnvKey_inj in Heq. by subst.
Qed.

Lemma env_suffixes_NoDup : NoDup env_suffixes.
Proof. apply (bool_decide_unpack _). vm_compute. exact I. Qed.

Lemma inject_at node binding resolved s v :
  (s, Some v) ∈ exported resolved ->
  env_get (injectResolvedBindingEnv node binding resolved)
    (materializationEnvKey (env_base binding) s) = Some v.
Proof.
  intros H. rewrite injectResolvedBindingEnv_fold. apply export_at; [|done].
  rewrite exported_suffixes. apply env_suffixes_NoDup.
Qed.

Lemma inject_frame node binding resolved k :
  (forall s, s ∈ env_suffixes -> materializationEnvKey (env_base binding) s <> k) ->
  env_get (injectResolvedBindingEnv node binding resolved) k = env_get node k.
Proof.
  intros H. rewrite injectResolvedBindingEnv_fold, export_frame; [apply env_get_made|].
  by rewrite exported_suffixes.
Qed.

(** Only the environment of the node changes. *)
Lemma set_env_outputs k v node : n_Outputs (set_env k v node) = n_Outputs node.
Proof. done. Qed.

Lemma inject_outputs node binding resolved :
  n_Outputs (injectResolvedBindingEnv node binding resolved) = n_Outputs node.
Proof.
  rewrite injectResolvedBindingEnv_fold.
  change (n_Outputs node) with (n_Outputs (node <| n_Env := Some (map_of (n_Env node)) |>)).
  generalize (node <| n_Env := Some (map_of (n_Env node)) |>) as n.
  induction (exported resolved) as [|[s [v|]] l IH]; intros n; simpl; [done| |done].
  rewrite IH. apply set_env_outputs.
Qed.

Lemma runtime_env_outputs node run attemptID :
  n_Outputs (injectRuntimeContextEnv node run attemptID) = n_Outputs node.
Proof.
  unfold injectRuntimeContextEnv. cbv zeta.
  repeat (rewrite ?set_env_outputs; case_match); rewrite ?set_env_outputs; done.
Qed.

(** Injecting the resolved bindings one after the other, as the runner does. *)
Definition inject_all (node : Node) (rs : list (ArtifactBinding * ResolveBindingResponse)) : Node :=
  foldl (fun node br => injectResolvedBindingEnv node br.1 br.2) node rs.

Lemma inject_other_key b' r node b s :
  s ∈ env_suffixes -> s <> materializationEnvSuffixLocalPath ->
  s <> materializationEnvSuffixNodeLocalPath -> env_base b' <> env_base b ->
  env_get (injectResolvedBindingEnv node b' r) (materializationEnvKey (env_base b) s) =
  env_get node (materializationEnvKey (env_base b) s).
Proof.
  intros Hs H1 H2 Hne. apply inject_frame. intros t Ht Heq.
  apply materializationEnvKey_collision in Heq as [[]|[(? & ? & ?)|(? & ? & ?)]]; done.
Qed.

Lemma inject_all_frame node rs b s :
  s ∈ env_suffixes -> s <> materializationEnvSuffixLocalPath ->
  s <> materializationEnvSuffixNodeLocalPath -> env_base b ∉ map (fun br => env_base br.1) rs ->
  env_get (inject_all node rs) (materializationEnvKey (env_base b) s) =
  env_get node (materializationEnvKey (env_base b) s).
Proof.
  intros Hs H1 H2. unfold inject_all. revert node. induction rs as [|[b' r] rs IH]; intros node Hn; [done|].
  simpl in *. apply not_elem_of_cons in Hn as [Hb Hn]. rewrite IH by done.
  apply inject_other_key; auto.
Qed.

(** The characters of an environment key. *)
Definition env_char (a : ascii) : bool :=
  let n := N_of_ascii a in
  ascii_upper_letter n || ascii_digit n || (n =? 95)%N.

Lemma sanitize_runes_chars `{!UnicodeAscii U} l prev :
  Forall (fun r => (r < 128)%N) l -> str_forall env_char (sanitize_runes l prev) = true.
Proof.
  intros H. revert prev. induction H as [|r l Hr _ IH]; intros prev; simpl; [done|].
  destruct (unicode_IsLetter r || unicode_IsDigit r) eqn:E.
  2: { destruct prev; [apply IH|]. by rewrite str_forall_app, IH. }
  rewrite letter_ascii, digit_ascii in E by done. rewrite str_forall_app, IH, andb_true_r.
  rewrite upper_ascii by done. destruct (ascii_lower_letter r) eqn:El;
    unfold ascii_lower_letter, in_range in El.
  - rewrite encode_rune_ascii by lia. simpl. unfold env_char.
    rewrite N_ascii_embedding by lia. rewrite andb_true_r.
    apply andb_true_iff in El as [Hlo%N.leb_le Hhi%N.leb_le].
    apply orb_true_iff; left; apply orb_true_iff; left.
    apply andb_true_iff; split; apply N.leb_le; lia.
  - rewrite encode_rune_ascii by done. simpl. unfold env_char.
    rewrite N_ascii_embedding by lia.
    rewrite orb_false_r in E. by rewrite E.
Qed.

(** Sanitising an ASCII name gives a non-empty segment made of upper-case
    letters, digits and underscores only. *)
Theorem sanitizeEnvSegment_chars `{!UnicodeAscii U} (value : string) :
  str_forall ascii_byte7 value = true ->
  sanitizeEnvSegment value <> "" /\ str_forall env_char (sanitizeEnvSegment value) = true.
Proof.
  intros Hv. unfold sanitizeEnvSegment. destruct (streq value ""); [done|].
  assert (H : str_forall env_char (trim_cutset "_" (sanitize_runes (runes value) false)) = true).
  { apply str_forall_trim, sanitize_runes_chars. rewrite runes_ascii by done.
    clear - Hv. unfold bytes_N. induction value as [|a s IH]; simpl in *; [constructor|].
    apply andb_true_iff in Hv as [Ha Hs]. constructor; [|by apply IH].
    by apply N.ltb_lt. }
  destruct (streq _ "") eqn:E; [done|]. by str_tests.
Qed.

(** Once the keys are pairwise different, injecting all the bindings of a
    node leaves every exported variable with the value of its own binding's
    response, whatever the order and whatever the node's own environment. The
    two path variables are excepted: see [materializationEnvKey_collision]. *)
Theorem inject_all_exports (node : Node) (rs : list (ArtifactBinding * ResolveBindingResponse))
    (binding : ArtifactBinding) (resolved : ResolveBindingResponse) (suffix v : string) :
  validateResolvedBindingEnvKeys (map fst rs) = Ok tt ->
  (binding, resolved) ∈ rs -> (suffix, Some v) ∈ exported resolved ->
  suffix <> materializationEnvSuffixLocalPath -> suffix <> materializationEnvSuffixNodeLocalPath ->
  env_get (inject_all node rs) (materializationEnvKey (env_base binding) suffix) = Some v.
Proof.
  unfold validateResolvedBindingEnvKeys. rewrite env_keys_from_iff. intros [Hn _] Hin Hv H1 H2.
  assert (Hs : suffix ∈ env_suffixes).
  { rewrite <- (exported_suffixes resolved). by apply (list_elem_of_fmap_2 fst _ _ Hv). }
  rewrite map_map in Hn. revert node. induction rs as [|[b r] rs IH]; intros node.
  { by apply elem_of_nil in Hin. }
  simpl in Hn. apply NoDup_cons in Hn as [Hb Hn].
  apply elem_of_cons in Hin as [[= <- <-]|Hin]; [|by apply IH].
  change (env_get (inject_all (injectResolvedBindingEnv node binding resolved) rs)
            (materializationEnvKey (env_base binding) suffix) = Some v).
  rewrite inject_all_frame by done. by apply inject_at.
Qed.
End env_theorems.

#[local] Existing Instance ascii_tables.

Lemma inject_all_exports_witness :
  let b := zero_ArtifactBinding <| ab_BindingName := "left" |> in
  let c := zero_ArtifactBinding <| ab_BindingName := "right" |> in
  let r := zero_ResolveBindingResponse <| rs_Decision := "reuse" |> in
  env_get (inject_all zero_Node [(b, r); (c, zero_ResolveBindingResponse)])
    "JUMI_INPUT_LEFT_DECISION" = Some "reuse".
Proof.
  intros b c r.
  refine (inject_all_exports zero_Node [(b, r); (c, zero_ResolveBindingResponse)] b r
    "_DECISION" "reuse" _ _ _ _ _).
  - vm_compute. reflexivity.
  - apply list_elem_of_here.
  - apply list_elem_of_further, list_elem_of_here.
  - done.
  - done.
Defined.

(** The exception is real: two inputs with different keys, and the node-local
    path of one is lost to the local path of the other. *)
Lemma inject_all_path_lost :
  let loc := zero_ArtifactLocation <| al_NodeLocal :=
    Some (zero_NodeLocalLocation <| nl_Path := "/var/lib/a" |>) |> in
  let b := zero_ArtifactBinding <| ab_BindingName := "a" |> in
  let c := zero_ArtifactBinding <| ab_BindingName := "a-node" |> in
  let r := zero_ResolveBindingResponse <| rs_MaterializationPlan :=
             zero_MaterializationPlan <| mp_SourceLocation := Some loc |> |> in
  let r' := zero_ResolveBindingResponse <| rs_MaterializationPlan :=
             zero_MaterializationPlan <| mp_LocalPath := "inputs/x" |> |> in
  validateResolvedBindingEnvKeys [b; c] = Ok tt
  /\ env_get (inject_all zero_Node [(b, r)]) "JUMI_INPUT_A_NODE_LOCAL_PATH" = Some "/var/lib/a"
  /\ env_get (inject_all zero_Node [(b, r); (c, r')]) "JUMI_INPUT_A_NODE_LOCAL_PATH"
     = Some "inputs/x".
Proof. vm_compute. done. Qed.

Lemma sanitizeEnvSegment_chars_witness :
  sanitizeEnvSegment "left-input.bam" <> "" /\
  str_forall env_char (sanitizeEnvSegment "left-input.bam") = true.
Proof. apply (@sanitizeEnvSegment_chars ascii_tables ascii_tables_ok). reflexivity. Defined.
