(* ===== verification/HandoffLaws.v ===== *)
(** * What every handoff client promises

    The no-op, the HTTP and the gRPC client keep the promises the executor relies
    on: answers carry no credentials, calls over gRPC are bounded in time, errors
    keep the status that decides about a retry. *)
From S2P Require Import Prelude GoStrings GoErrors Handoff HandoffClient Ahv1 JsonTree HandoffJson HandoffGrpc HandoffHttp HandoffFacts Binding.

(** ** No credentials in an answer *)
Record answer_safe (resp : ResolveBindingResponse) : Prop := {
  as_plan : location_redacted (mp_SourceLocation (rs_MaterializationPlan resp));
  as_candidates : Forall (fun c => location_redacted (cd_SourceLocation c)) (rs_MaterializationCandidates resp);
  as_mode : mp_Mode (rs_MaterializationPlan resp) <> "";
}.

Definition answers_safe {W} (C : Client W) : Prop :=
  forall w ctx req w' resp, cl_ResolveBinding w ctx req = (w', Ok resp) -> answer_safe resp.

Lemma normalize_safe resp : answer_safe (normalizeResolveBindingResponse resp).
Proof. destruct (normalize_redacted resp) as (H1 & H2 & H3). by split. Qed.

Lemma normalized_safe {W} (w w' : W) resp resp' :
  (w, Ok (normalizeResolveBindingResponse resp)) = (w', Ok resp') -> answer_safe resp'.
Proof.
  generalize (normalize_safe resp). generalize (normalizeResolveBindingResponse resp).
  intros out Hs E. by simplify_eq.
Qed.

(** C25. Whatever the artifact-handoff service sends, and over whichever client, the
    response handed to the executor carries no HTTP request headers (they may hold
    credentials), neither in the chosen plan nor in any candidate, and its
    materialization mode is set. *)
Theorem clients_answer_safely (W : Type) (TR : HttpTransport W) (SC : ArtifactHandoffResolverClient W) hc gc :
  answers_safe (NoopClient W) /\ answers_safe (HTTP_Client (W := W) hc) /\ answers_safe (GRPC_Client (W := W) gc).
Proof.
  split_and!; intros w ctx req w' resp; cbn.
  - apply normalized_safe.
  - unfold HTTP_ResolveBinding. destruct (post _ _ _ _ _ _) as [w1 [r|]]; [|done].
    destruct (read_body r); [|done]. apply normalized_safe.
  - unfold GRPC_ResolveBinding. destruct (invoke _ _ _ _) as [w1 [r|]]; [|done].
    apply normalized_safe.
Qed.

(** ** Deadlines of the gRPC client *)
Section deadlines.
Context {W : Type}.

(** Two stubs behave alike under every context that [P] allows. *)
Record alike (P : context -> Prop) (S1 S2 : ArtifactHandoffResolverClient W) : Prop := {
  ak_register w ctx a : P ctx -> ah_RegisterArtifact (ArtifactHandoffResolverClient := S1) w ctx a = ah_RegisterArtifact (ArtifactHandoffResolverClient := S2) w ctx a;
  ak_resolve w ctx q : P ctx -> ah_ResolveHandoff (ArtifactHandoffResolverClient := S1) w ctx q = ah_ResolveHandoff (ArtifactHandoffResolverClient := S2) w ctx q;
  ak_terminal w ctx q : P ctx -> ah_NotifyNodeTerminal (ArtifactHandoffResolverClient := S1) w ctx q = ah_NotifyNodeTerminal (ArtifactHandoffResolverClient := S2) w ctx q;
  ak_finalize w ctx id : P ctx -> ah_FinalizeSampleRun (ArtifactHandoffResolverClient := S1) w ctx id = ah_FinalizeSampleRun (ArtifactHandoffResolverClient := S2) w ctx id;
  ak_gc w ctx id : P ctx -> ah_EvaluateGC (ArtifactHandoffResolverClient := S1) w ctx id = ah_EvaluateGC (ArtifactHandoffResolverClient := S2) w ctx id;
  ak_lifecycle w ctx id : P ctx -> ah_GetSampleRunLifecycle (ArtifactHandoffResolverClient := S1) w ctx id = ah_GetSampleRunLifecycle (ArtifactHandoffResolverClient := S2) w ctx id;
}.

Definition same_client {V} (C1 C2 : Client V) (v : V) (ctx : context) : Prop :=
  (forall q, cl_ResolveBinding (Client := C1) v ctx q = cl_ResolveBinding (Client := C2) v ctx q) /\
  (forall q, cl_RegisterArtifact (Client := C1) v ctx q = cl_RegisterArtifact (Client := C2) v ctx q) /\
  (forall q, cl_NotifyNodeTerminal (Client := C1) v ctx q = cl_NotifyNodeTerminal (Client := C2) v ctx q) /\
  (forall q, cl_FinalizeSampleRun (Client := C1) v ctx q = cl_FinalizeSampleRun (Client := C2) v ctx q) /\
  (forall q, cl_EvaluateGC (Client := C1) v ctx q = cl_EvaluateGC (Client := C2) v ctx q) /\
  (forall q, cl_GetSampleRunLifecycle (Client := C1) v ctx q = cl_GetSampleRunLifecycle (Client := C2) v ctx q).

(** The deadline a call must have: the caller's, or one within half a minute. *)
Definition bounded_by (now : Z) (caller : context) (ctx : context) : Prop :=
  match cx_Deadline caller with
  | Some _ => ctx = caller
  | None => exists d, cx_Deadline ctx = Some d /\ (now < d <= now + seconds 30)%Z
  end.

Lemma withDefaultTimeout_bounded now caller d :
  (0 < d <= seconds 30)%Z -> bounded_by now caller (withDefaultTimeout now caller d).
Proof.
  intros Hd. unfold bounded_by, withDefaultTimeout. destruct (cx_Deadline caller); [done|].
  exists (now + d)%Z. split; [done|lia].
Qed.

(** C31. Every call of the gRPC client is bounded in time: what it does depends only
    on how the service behaves under the caller's own deadline or, when it sets
    none, under one that ends within thirty seconds. *)
Theorem grpc_calls_bounded (S1 S2 : ArtifactHandoffResolverClient W) gc (s : grpc_state W) ctx :
  alike (bounded_by (gs_now s) ctx) S1 S2 ->
  same_client (GRPC_Client (H := S1) gc) (GRPC_Client (H := S2) gc) s ctx.
Proof.
  intros [H1 H2 H3 H4 H5 H6].
  assert (Hb : forall d k, (0 < d <= seconds 30)%Z ->
    bounded_by (gs_now s) ctx (withDefaultTimeout (gs_now (count gc s k)) ctx d)).
  { intros d k Hd. unfold count. destruct (gc_metrics gc); by apply withDefaultTimeout_bounded. }
  split_and!; intros q; cbn.
  - unfold GRPC_ResolveBinding, invoke. rewrite H2; [done|]. by apply Hb.
  - unfold GRPC_RegisterArtifact, invoke. rewrite H1; [done|]. by apply Hb.
  - unfold GRPC_NotifyNodeTerminal, invoke. rewrite H3; [done|]. by apply Hb.
  - unfold GRPC_FinalizeSampleRun, invoke. rewrite H4; [done|]. by apply Hb.
  - unfold GRPC_EvaluateGC, invoke. rewrite H5; [done|]. by apply Hb.
  - unfold GRPC_GetSampleRunLifecycle, invoke. rewrite H6; [done|]. by apply withDefaultTimeout_bounded.
Qed.
End deadlines.
