(* ===== verification/HandoffWorld.v ===== *)
(** * A small artifact-handoff service

    A service that answers every resolution with one response, logs what it is
    asked, and knows the lifecycle of one sample run: the clients are evaluated on
    it, and the theorems about them applied. *)
From S2P Require Import Prelude GoStrings GoErrors Handoff HandoffClient Ahv1 JsonTree HandoffJson HandoffGrpc HandoffHttp HandoffFacts HandoffLaws.

(** A response with a candidate on a node and a plan over HTTP. *)
Definition demo_response : ResolveBindingResponse :=
  zero_ResolveBindingResponse
    <| rs_ResolutionStatus := "RESOLVED" |>
    <| rs_Decision := "remote" |>
    <| rs_PlacementIntent := mkPlacementIntent "" "host-1" |>
    <| rs_MaterializationCandidates := [
         mkMaterializationCandidate 1 "remote_fetch" "src-1" "sha256:00" 12 ""
           (Some (mkArtifactLocation None (Some (mkHTTPSource "http://a/b" (Some {[ "Authorization" := "secret" ]})))))
           "http://a/b" [mkMaterializationCondition "node" "host-1" "" "" "ready"];
         mkMaterializationCandidate 2 "local" "src-2" "" 0 "/data"
           (Some (mkArtifactLocation (Some (mkNodeLocalLocation "host-2" "/data")) None)) "" [] ] |>.

Definition demo_lifecycle : SampleRunLifecycle :=
  zero_SampleRunLifecycle <| lc_SampleRunID := "s 1" |> <| lc_Finalized := true |>
    <| lc_RetainedArtifactBytes := 4096%Z |>.

#[export] Instance demo_service : HandoffService (list string) := {|
  sv_resolve log q := (log ++ ["resolve " +:+ arh_TargetNodeName q], Some demo_response);
  sv_register log a := (log ++ ["register " +:+ ra_OutputName a], Some tt);
  sv_terminal log q := (log ++ ["terminal " +:+ nt_NodeID q], Some tt);
  sv_finalize log id := (log ++ ["finalize " +:+ id], None);
  sv_gc log id := (log ++ ["gc " +:+ id], Some tt);
  sv_lifecycle log id := (log, if streq id "s 1" then Some demo_lifecycle else None);
|}.

(** Validity of a concrete message, part by part. *)
Ltac valid_message :=
  hnf;
  lazymatch goal with
  | |- _ /\ _ => split; valid_message
  | |- True => exact I
  | |- _ = _ => vm_compute; reflexivity
  | |- Forall _ _ => constructor; valid_message
  | |- _ => idtac
  end.

Lemma demo_response_ok : jt_ok demo_response /\ on_protocol demo_response.
Proof.
  split.
  - valid_message.
    + intros H. apply (f_equal (fun m : gmap string string => m !! "Authorization")) in H. discriminate H.
    + apply map_Forall_singleton. by split.
  - split; try done; cbn.
    repeat constructor; intros loc [= <-]; done.
Qed.

Lemma demo_lifecycle_ok : jt_ok demo_lifecycle.
Proof. valid_message. Qed.

Lemma demo_service_ok : service_ok (W := list string).
Proof.
  split.
  - intros w q resp [= <-]. apply demo_response_ok.
  - cbn. intros w id l. destruct (streq id "s 1"); [intros [= <-]; apply demo_lifecycle_ok|done].
Qed.

Definition demo_state : grpc_state (list string) := mkGrpcState [] 1000 [].
Definition no_deadline : context := mkContext None.

Definition demo_request : ResolveBindingRequest :=
  zero_ResolveBindingRequest <| rq_BindingName := "b" |> <| rq_TargetNodeName := "host-9" |>
    <| rq_Required := true |>.

Lemma demo_request_ok : request_ok demo_request.
Proof. valid_message. Qed.

(** The candidate's URI is answered by both clients, without the headers. *)
Lemma transports_agree_witness :
  let http := cl_ResolveBinding (Client := HTTP_Client (H := served_http "http://ah") (mkHTTPClient "http://ah" 5)) in
  let grpc := cl_ResolveBinding (Client := GRPC_Client (H := served_grpc) (mkGRPCClient true)) in
  agree same_error (http [] no_deadline demo_request) (grpc demo_state no_deadline demo_request) /\
  (http [] no_deadline demo_request).1 = ["resolve host-9"].
Proof.
  intros http grpc.
  destruct (transports_agree "http://ah" 5 (mkGRPCClient true) demo_state no_deadline demo_service_ok) as [H _].
  split; [exact (H demo_request demo_request_ok)|vm_compute; reflexivity].
Defined.

(** A service that never answers a call without a deadline. *)
Definition impatient {W} (S : ArtifactHandoffResolverClient W) : ArtifactHandoffResolverClient W :=
  let hangs := fun ctx => negb (is_some (cx_Deadline ctx)) in
  {|
    ah_RegisterArtifact w ctx a :=
      if hangs ctx then (w, Some CtxCanceled) else ah_RegisterArtifact (ArtifactHandoffResolverClient := S) w ctx a;
    ah_ResolveHandoff w ctx q :=
      if hangs ctx then (w, Err CtxCanceled) else ah_ResolveHandoff (ArtifactHandoffResolverClient := S) w ctx q;
    ah_NotifyNodeTerminal w ctx q :=
      if hangs ctx then (w, Some CtxCanceled) else ah_NotifyNodeTerminal (ArtifactHandoffResolverClient := S) w ctx q;
    ah_FinalizeSampleRun w ctx id :=
      if hangs ctx then (w, Some CtxCanceled) else ah_FinalizeSampleRun (ArtifactHandoffResolverClient := S) w ctx id;
    ah_EvaluateGC w ctx id :=
      if hangs ctx then (w, Some CtxCanceled) else ah_EvaluateGC (ArtifactHandoffResolverClient := S) w ctx id;
    ah_GetSampleRunLifecycle w ctx id :=
      if hangs ctx then (w, Err CtxCanceled) else ah_GetSampleRunLifecycle (ArtifactHandoffResolverClient := S) w ctx id;
  |}.

Lemma grpc_calls_bounded_witness :
  same_client (GRPC_Client (H := impatient served_grpc) (mkGRPCClient true))
    (GRPC_Client (H := served_grpc) (mkGRPCClient true)) demo_state no_deadline.
Proof.
  apply grpc_calls_bounded.
  split; intros w ctx x (d & Hd & _); cbn; by rewrite Hd.
Defined.
