(* ===== verification/Reconcile.v ===== *)
(** * Classifying what a restart finds ([src/pkg/executor/reconcile.go])

    The decision a node runner takes from durable facts alone before it does
    anything, and the projection of a terminal attempt onto its node. *)
From S2P Require Import Prelude Spec.

Inductive ReconcileDecision :=
  | ReconcileFresh
  | ReconcileResumePreFence
  | ReconcileReattach
  | ReconcileResolveByIdentity
  | ReconcileTerminalRepair.

#[export] Instance ReconcileDecision_eq_dec : EqDecision ReconcileDecision.
Proof. solve_decision. Defined.

Definition ReconcileDecision_String (d : ReconcileDecision) : string :=
  match d with
  | ReconcileFresh => "fresh"
  | ReconcileResumePreFence => "resume_pre_fence"
  | ReconcileReattach => "reattach"
  | ReconcileResolveByIdentity => "resolve_by_identity"
  | ReconcileTerminalRepair => "terminal_repair"
  end.

Definition ClassifyReconcile (node : NodeRecord) (attempt : AttemptRecord) (hasAttempt : bool)
    : ReconcileDecision :=
  if NodeStatus_IsTerminal (nr_Status node) then ReconcileTerminalRepair
  else if hasAttempt && AttemptStatus_IsTerminal (ar_Status attempt) then
    if is_some (ar_RealizationReattemptableAt attempt)
       && negb (is_some (ar_SubmissionWindowOpenedAt attempt))
    then ReconcileFresh else ReconcileTerminalRepair
  else if negb (streq (nr_CurrentAttemptHandleJSON node) "")
          || (hasAttempt && negb (streq (ar_BackendHandleJSON attempt) "")) then ReconcileReattach
  else if negb hasAttempt || streq (nr_CurrentAttemptID node) "" then ReconcileFresh
  else if is_some (ar_SubmissionWindowOpenedAt attempt) then ReconcileResolveByIdentity
  else ReconcileResumePreFence.

(** ** Specification

    The durable facts, as propositions. *)
Definition handle_known (node : NodeRecord) (attempt : AttemptRecord) (hasAttempt : bool) : Prop :=
  nr_CurrentAttemptHandleJSON node <> "" \/ (hasAttempt = true /\ ar_BackendHandleJSON attempt <> "").

Definition fence_crossed (attempt : AttemptRecord) : Prop := is_Some (ar_SubmissionWindowOpenedAt attempt).

(** The attempt ended before its fence and recorded that it may be realised again. *)
Definition reattemptable (attempt : AttemptRecord) : Prop :=
  is_Some (ar_RealizationReattemptableAt attempt) /\ ~ fence_crossed attempt.

(** When each decision is taken. *)
Definition decision_spec (d : ReconcileDecision) (node : NodeRecord) (attempt : AttemptRecord)
    (hasAttempt : bool) : Prop :=
  let node_done := NodeStatus_IsTerminal (nr_Status node) = true in
  let att_done := hasAttempt = true /\ AttemptStatus_IsTerminal (ar_Status attempt) = true in
  match d with
  | ReconcileTerminalRepair => node_done \/ (att_done /\ ~ reattemptable attempt)
  | ReconcileFresh =>
      ~ node_done /\ ((att_done /\ reattemptable attempt) \/
        (~ att_done /\ ~ handle_known node attempt hasAttempt /\
         (hasAttempt = false \/ nr_CurrentAttemptID node = "")))
  | ReconcileReattach => ~ node_done /\ ~ att_done /\ handle_known node attempt hasAttempt
  | ReconcileResolveByIdentity =>
      ~ node_done /\ ~ att_done /\ ~ handle_known node attempt hasAttempt /\
      hasAttempt = true /\ nr_CurrentAttemptID node <> "" /\ fence_crossed attempt
  | ReconcileResumePreFence =>
      ~ node_done /\ ~ att_done /\ ~ handle_known node attempt hasAttempt /\
      hasAttempt = true /\ nr_CurrentAttemptID node <> "" /\ ~ fence_crossed attempt
  end.

Lemma is_some_cases {A} (o : option A) :
  (is_some o = true /\ is_Some o) \/ (is_some o = false /\ ~ is_Some o).
Proof. destruct o; [left|right]; split; eauto; by intros []. Qed.

(** The decision table is exactly the documented one: each decision is
    taken precisely under its condition on the durable facts (so the conditions
    are exhaustive and exclude one another). *)
Theorem ClassifyReconcile_spec (d : ReconcileDecision) (node : NodeRecord)
    (attempt : AttemptRecord) (hasAttempt : bool) :
  ClassifyReconcile node attempt hasAttempt = d <-> decision_spec d node attempt hasAttempt.
Proof.
  unfold ClassifyReconcile, decision_spec, handle_known, reattemptable, fence_crossed.
  generalize (NodeStatus_IsTerminal (nr_Status node)) as nt.
  generalize (AttemptStatus_IsTerminal (ar_Status attempt)) as at'. intros at' nt.
  destruct (is_some_cases (ar_RealizationReattemptableAt attempt)) as [[-> ?]|[-> ?]];
  destruct (is_some_cases (ar_SubmissionWindowOpenedAt attempt)) as [[-> ?]|[-> ?]];
  destruct (streq (nr_CurrentAttemptHandleJSON node) "") eqn:E1;
  destruct (streq (ar_BackendHandleJSON attempt) "") eqn:E2;
  destruct (streq (nr_CurrentAttemptID node) "") eqn:E3;
  destruct nt, at', hasAttempt; str_tests; destruct d; simpl; split; intros;
  first [done | tauto | intuition congruence].
Qed.

(** C3. A node that names its current attempt, when that attempt crossed its
    submission fence, or when a backend handle is known and the attempt has not
    ended, is never classified as free for a new attempt or for a new submission of
    the same one, whatever the statuses say. An ended attempt that may be realized
    again and has no fence is free for a new one, also with a known handle. *)
Theorem ClassifyReconcile_no_blind_replacement (node : NodeRecord) (attempt : AttemptRecord) :
  nr_CurrentAttemptID node <> "" ->
  fence_crossed attempt \/
    (handle_known node attempt true /\ AttemptStatus_IsTerminal (ar_Status attempt) = false) ->
  ClassifyReconcile node attempt true <> ReconcileFresh /\
  ClassifyReconcile node attempt true <> ReconcileResumePreFence.
Proof.
  intros Hid Hf. unfold ClassifyReconcile. rewrite (proj2 (streq_neq _ _) Hid).
  destruct Hf as [Hf|[Hh Ht]].
  - apply is_some_true in Hf. rewrite Hf, andb_false_r. cbn [negb orb]. split; cases.
  - rewrite Ht. cbn [andb]. assert (Hb : negb (streq (nr_CurrentAttemptHandleJSON node) "")
      || negb (streq (ar_BackendHandleJSON attempt) "") = true).
    { destruct Hh as [H|[_ H]]; rewrite (proj2 (streq_neq _ _) H); [done|apply orb_true_r]. }
    rewrite Hb. split; by destruct (NodeStatus_IsTerminal _).
Qed.

Lemma ClassifyReconcile_no_blind_replacement_witness :
  let node := zero_NodeRecord <| nr_Status := NodeStatusStarting |>
                              <| nr_CurrentAttemptID := "r-n-attempt-1" |> in
  let attempt := zero_AttemptRecord <| ar_Status := AttemptStatusPrepared |>
                                    <| ar_SubmissionWindowOpenedAt := Some 7%Z |> in
  ClassifyReconcile node attempt true = ReconcileResolveByIdentity /\
  (ClassifyReconcile node attempt true <> ReconcileFresh /\
   ClassifyReconcile node attempt true <> ReconcileResumePreFence).
Proof.
  intros node attempt. split; [reflexivity|].
  apply (ClassifyReconcile_no_blind_replacement node attempt); [done | left; by exists 7%Z].
Defined.
