(* ===== verification/Placement.v ===== *)
(** * Placement of an execution ([src/pkg/executor/executor.go])

    A node runner works on a clone of the submitted node and turns the placement
    intents of its resolved inputs (the locality hints) into scheduling
    constraints of the clone. *)
From S2P Require Import Prelude GoStrings GoErrors Spec Binding.

Definition hostnameNodeSelectorKey : string := "kubernetes.io/hostname".

Record bindingLocalityHint := mkbindingLocalityHint {
  lh_BindingName : string;
  lh_ChildInputName : string;
  lh_PreferredNodeName : string;
  lh_PlacementMode : string;
  lh_Decision : string;
  lh_RequiresMaterialization : bool;
}.

(** Copying a map gives an equal map; only the node selector of the placement
    hints is copied. *)
Definition cloneNode (node : Node) : Node :=
  match n_Placement node with
  | None => node
  | Some p =>
      node <| n_Placement := Some (zero_PlacementHints <| ph_NodeSelector := ph_NodeSelector p |>) |>
  end.

Definition conflict_error (a b : string) : GoError :=
  Errorf ("conflicting required_node placement intents: " +:+ a +:+ " vs " +:+ b).

(** The first loop: the one required node, and whether some node is preferred. *)
Fixpoint scan_hints (hints : list bindingLocalityHint) (requiredNode : string)
    (hasPreferred : bool) : res (string * bool) :=
  match hints with
  | [] => Ok (requiredNode, hasPreferred)
  | hint :: hints =>
      let blank := streq (TrimSpace (lh_PreferredNodeName hint)) "" in
      if streq (lh_PlacementMode hint) placementModeRequiredNode then
        if blank then scan_hints hints requiredNode hasPreferred
        else if streq requiredNode "" then scan_hints hints (lh_PreferredNodeName hint) hasPreferred
        else if negb (streq requiredNode (lh_PreferredNodeName hint))
        then Err (conflict_error requiredNode (lh_PreferredNodeName hint))
        else scan_hints hints requiredNode hasPreferred
      else if streq (lh_PlacementMode hint) placementModePreferredNode then
        scan_hints hints requiredNode (hasPreferred || negb blank)
      else scan_hints hints requiredNode hasPreferred
  end.

(** The second loop: the distinct preferred nodes in order of appearance. *)
Fixpoint collect_preferred (hints : list bindingLocalityHint) (seen : gset string)
    : list WeightedNodePreference :=
  match hints with
  | [] => []
  | hint :: hints =>
      if negb (streq (lh_PlacementMode hint) placementModePreferredNode)
         || streq (TrimSpace (lh_PreferredNodeName hint)) ""
      then collect_preferred hints seen
      else if bool_decide (lh_PreferredNodeName hint ∈ seen) then collect_preferred hints seen
      else {| wnp_NodeName := lh_PreferredNodeName hint; wnp_Weight := 100 |}
             :: collect_preferred hints ({[lh_PreferredNodeName hint]} ∪ seen)
  end.

(** The node is changed in place, also when an error is returned. *)
Definition applyPlacementHints (node : Node) (hints : list bindingLocalityHint) : Node * res unit :=
  match hints with
  | [] => (node, Ok tt)
  | _ =>
    match scan_hints hints "" false with
    | Err e => (node, Err e)
    | Ok (requiredNode, hasPreferred) =>
      if streq requiredNode "" && negb hasPreferred then (node, Ok tt)
      else
        let p := default zero_PlacementHints (n_Placement node) in
        let node := node <| n_Placement := Some p |> in
        if negb (streq requiredNode "") then
          match ph_PreferredNodes p with
          | _ :: _ => (node, Err (Errorf ("preferred placement already set while applying required_node="
                                     +:+ requiredNode)))
          | [] =>
            let p := p <| ph_NodeSelector := Some (map_of (ph_NodeSelector p)) |> in
            let node := node <| n_Placement := Some p |> in
            let existing := TrimSpace (map_get (ph_NodeSelector p) hostnameNodeSelectorKey) in
            if negb (streq existing "") && negb (streq existing requiredNode) then
              (node, Err (Errorf ("node selector " +:+ hostnameNodeSelectorKey +:+ "=" +:+ existing
                             +:+ " conflicts with required_node=" +:+ requiredNode)))
            else
              (node <| n_Placement := Some (p
                 <| ph_NodeSelector :=
                      Some (<[hostnameNodeSelectorKey := requiredNode]> (map_of (ph_NodeSelector p))) |>
                 <| ph_RequiredNodeName := requiredNode |>) |>, Ok tt)
          end
        else if negb (streq (ph_RequiredNodeName p) "") then
          (node, Err (Errorf "required placement already set while applying preferred nodes"))
        else
          match collect_preferred hints ∅ with
          | [] => (node, Ok tt)
          | preferred => (node <| n_Placement := Some (p <| ph_PreferredNodes := preferred |>) |>, Ok tt)
          end
    end
  end.

(** ** Specification *)
Definition blank (s : string) : Prop := TrimSpace s = "".

(** The hints that name a required, respectively a preferred, node. *)
Definition requires (hints : list bindingLocalityHint) (n : string) : Prop :=
  exists h, h ∈ hints /\ lh_PlacementMode h = placementModeRequiredNode
    /\ lh_PreferredNodeName h = n /\ ~ blank n.

Definition prefers (hints : list bindingLocalityHint) (n : string) : Prop :=
  exists h, h ∈ hints /\ lh_PlacementMode h = placementModePreferredNode
    /\ lh_PreferredNodeName h = n /\ ~ blank n.

Lemma blank_empty : blank "".
Proof. reflexivity. Qed.

Lemma requires_cons h hints n :
  requires (h :: hints) n <->
  (lh_PlacementMode h = placementModeRequiredNode /\ lh_PreferredNodeName h = n /\ ~ blank n)
  \/ requires hints n.
Proof. unfold requires. setoid_rewrite elem_of_cons. naive_solver. Qed.

Lemma prefers_cons h hints n :
  prefers (h :: hints) n <->
  (lh_PlacementMode h = placementModePreferredNode /\ lh_PreferredNodeName h = n /\ ~ blank n)
  \/ prefers hints n.
Proof. unfold prefers. setoid_rewrite elem_of_cons. naive_solver. Qed.

Lemma prefers_some_cons h hints :
  (exists n, prefers (h :: hints) n) <->
  (lh_PlacementMode h = placementModePreferredNode /\ ~ blank (lh_PreferredNodeName h))
  \/ exists n, prefers hints n.
Proof.
  setoid_rewrite prefers_cons. split.
  - intros [n [(? & <- & ?)|?]]; eauto.
  - intros [[? ?]|[n ?]]; eauto 6.
Qed.

Lemma mode_ne : placementModeRequiredNode <> placementModePreferredNode.
Proof. done. Qed.

#[local] Opaque TrimSpace placementModeRequiredNode placementModePreferredNode.

(** The first loop finds the required node, when all the hints agree. *)
Lemma scan_hints_ok hints req pref r p :
  scan_hints hints req pref = Ok (r, p) ->
  (forall n, requires hints n -> n = r) /\ (req <> "" -> r = req) /\
  (r = req \/ requires hints r) /\
  (p = true <-> pref = true \/ exists n, prefers hints n).
Proof.
  pose proof mode_ne as Hne.
  revert req pref; induction hints as [|h hints IH]; intros req pref; simpl.
  - intros [= <- <-]. unfold requires, prefers. setoid_rewrite elem_of_nil. naive_solver.
  - intros H. assert (Hp : forall pref', scan_hints hints req pref' = Ok (r, p) ->
      (forall n, lh_PlacementMode h = placementModeRequiredNode -> lh_PreferredNodeName h = n ->
         ~ blank n -> n = r) ->
      (pref' = true <-> pref = true \/ (lh_PlacementMode h = placementModePreferredNode
                                        /\ ~ blank (lh_PreferredNodeName h))) ->
      (forall n, requires (h :: hints) n -> n = r) /\ (req <> "" -> r = req) /\
      (r = req \/ requires (h :: hints) r) /\
      (p = true <-> pref = true \/ exists n, prefers (h :: hints) n)).
    { intros pref' (H1 & H2 & H3 & H4)%IH Hr Hq. split_and!.
      - intros n [(? & ? & ?)|Hn]%requires_cons; [eauto|auto].
      - done.
      - destruct H3; [auto|]. right. apply requires_cons. auto.
      - rewrite H4, Hq, prefers_some_cons. tauto. }
    unfold blank in Hp.
    destruct (streq (lh_PlacementMode h) placementModeRequiredNode) eqn:Em; str_tests.
    + destruct (streq (TrimSpace _) "") eqn:Eb; str_tests.
      { apply (Hp pref); [done | by intros n _ <- | rewrite Em; intuition congruence]. }
      destruct (streq req "") eqn:Er; str_tests.
      * assert (Hn0 : lh_PreferredNodeName h <> "") by (intros E; rewrite E in Eb; by apply Eb, blank_empty).
        apply IH in H as (H1 & H2 & H3 & H4). specialize (H2 Hn0). subst r. split_and!.
        -- intros n [(? & ? & ?)|Hn]%requires_cons; [done|auto].
        -- done.
        -- right. apply requires_cons. left. by split_and!.
        -- rewrite H4, prefers_some_cons, Em. intuition congruence.
      * destruct (streq req (lh_PreferredNodeName h)) eqn:Eq; simpl in H; [|done]. str_tests.
        apply IH in H as Hs. destruct Hs as (_ & H2 & _).
        apply (Hp pref); [done | | rewrite Em; intuition congruence]. intros n _ <- _. by rewrite H2.
    + destruct (streq (lh_PlacementMode h) placementModePreferredNode) eqn:Ep; str_tests.
      * apply (Hp _ H); [done|]. rewrite orb_true_iff, negb_true_iff, streq_neq. unfold blank. tauto.
      * apply (Hp _ H); [done|]. tauto.
Qed.

(** The second loop lists the preferred nodes, each once. *)
Lemma collect_preferred_spec hints seen :
  NoDup (wnp_NodeName <$> collect_preferred hints seen) /\
  (forall n, n ∈ wnp_NodeName <$> collect_preferred hints seen <-> prefers hints n /\ n ∉ seen) /\
  Forall (fun w => wnp_Weight w = 100%Z) (collect_preferred hints seen).
Proof.
  revert seen; induction hints as [|h hints IH]; intros seen; simpl.
  - split_and!; [constructor| |constructor]. unfold prefers. set_solver.
  - setoid_rewrite prefers_cons. unfold blank.
    destruct (streq (lh_PlacementMode h) placementModePreferredNode) eqn:Em; str_tests; simpl.
    2: { destruct (IH seen) as (H1 & H2 & H3). naive_solver. }
    destruct (streq (TrimSpace _) "") eqn:Eb; str_tests.
    { destruct (IH seen) as (H1 & H2 & H3). naive_solver. }
    case_bool_decide as Es.
    { destruct (IH seen) as (H1 & H2 & H3). naive_solver. }
    destruct (IH ({[lh_PreferredNodeName h]} ∪ seen)) as (H1 & H2 & H3). simpl.
    split_and!; [|intros n; rewrite elem_of_cons, H2|by constructor].
    + constructor; [|done]. rewrite H2. set_solver.
    + destruct (decide (n = lh_PreferredNodeName h)) as [->|]; set_solver.
Qed.

(** The first loop fails only on two different required nodes. *)
Lemma scan_hints_err hints req pref e :
  scan_hints hints req pref = Err e ->
  exists a b, a <> b /\ requires hints b /\ (a = req /\ req <> "" \/ requires hints a).
Proof.
  revert req pref; induction hints as [|h hints IH]; intros req pref; simpl; [done|].
  assert (Hlift : forall req' pref', scan_hints hints req' pref' = Err e ->
    (req' <> "" -> req' = req \/ requires (h :: hints) req') ->
    exists a b, a <> b /\ requires (h :: hints) b /\ (a = req /\ req <> "" \/ requires (h :: hints) a)).
  { intros req' pref' (a & b & Hab & Hb & Ha)%IH Hr. exists a, b. split_and!; [done| |].
    - apply requires_cons. auto.
    - destruct Ha as [[-> Hne]|Ha]; [|right; apply requires_cons; auto].
      destruct (Hr Hne) as [->|]; auto. }
  destruct (streq (lh_PlacementMode h) placementModeRequiredNode) eqn:Em; str_tests.
  - destruct (streq (TrimSpace _) "") eqn:Eb; str_tests; [by intros H; eapply Hlift; eauto|].
    assert (Hreq : requires (h :: hints) (lh_PreferredNodeName h)).
    { apply requires_cons. left. by split_and!. }
    destruct (streq req "") eqn:Er; str_tests; [intros H; eapply Hlift; eauto|].
    destruct (streq req (lh_PreferredNodeName h)) eqn:Eq; simpl; str_tests.
    + intros H. eapply Hlift; eauto.
    + intros _. exists req, (lh_PreferredNodeName h). auto.
  - destruct (streq _ placementModePreferredNode); intros H; eapply Hlift; eauto.
Qed.

Lemma scan_hints_ok_from hints r p :
  scan_hints hints "" false = Ok (r, p) ->
  (forall n, requires hints n <-> n = r /\ r <> "") /\ (p = true <-> exists n, prefers hints n).
Proof.
  intros (H1 & _ & H3 & H4)%scan_hints_ok. split; [|rewrite H4; naive_solver].
  intros n. split.
  - intros Hn. specialize (H1 n Hn). subst n. split; [done|]. intros ->.
    destruct Hn as (h & _ & _ & _ & Hb). by apply Hb, blank_empty.
  - intros [-> Hr]. by destruct H3.
Qed.

(** The host the submitted node selector asks for. *)
Definition selected_host (node : Node) : string :=
  TrimSpace (map_get (default zero_PlacementHints (n_Placement node)).(ph_NodeSelector)
               hostnameNodeSelectorKey).

Definition placement_of (node : Node) : PlacementHints := default zero_PlacementHints (n_Placement node).

Lemma clone_placement node :
  placement_of (cloneNode node) =
  zero_PlacementHints <| ph_NodeSelector := ph_NodeSelector (placement_of node) |>.
Proof. unfold cloneNode, placement_of. destruct (n_Placement node) as [p|] eqn:E; simpl; [done|by rewrite E]. Qed.

(** Applying the placement intents to the clone of a node fails exactly
    when two inputs require different nodes or when the node selector already
    asks for a host other than the required one. *)
Theorem applyPlacementHints_fails_iff (node : Node) (hints : list bindingLocalityHint) :
  (exists e, (applyPlacementHints (cloneNode node) hints).2 = Err e) <->
  (exists a b, a <> b /\ requires hints a /\ requires hints b) \/
  (exists n, requires hints n /\ selected_host node <> "" /\ selected_host node <> n).
Proof.
  pose proof (clone_placement node) as Hc. unfold placement_of in Hc at 1.
  unfold applyPlacementHints. destruct hints as [|h0 hints0] eqn:Eh.
  { unfold requires. setoid_rewrite elem_of_nil. simpl. naive_solver. }
  rewrite <- Eh. clear h0 hints0 Eh.
  destruct (scan_hints hints "" false) as [[r p]|e] eqn:Es.
  - apply scan_hints_ok_from in Es as [Hr _]. setoid_rewrite Hr. rewrite Hc. clear Hc.
    unfold selected_host, placement_of.
    destruct (streq r "") eqn:E; str_tests; simpl.
    { destruct p; simpl; [destruct (collect_preferred _ _)|]; simpl; naive_solver. }
    rewrite map_get_made. set (y := TrimSpace (map_get _ _)). clearbody y.
    destruct (streq y "") eqn:E1; str_tests; simpl; [naive_solver|].
    destruct (streq y r) eqn:E2; str_tests; simpl; naive_solver.
  - split; [intros _; left|by eauto].
    apply scan_hints_err in Es as (a & b & Hab & Hb & [[-> []]|Ha]); eauto.
Qed.

(** When it succeeds, the clone carries exactly what the inputs ask for: a
    required node becomes the required node name and the host selector, with no
    preferences; without one, the preferred nodes are the distinct preferred
    hosts in order, each with weight 100, and the selector is the submitted
    one. *)
Theorem applyPlacementHints_ok (node node' : Node) (hints : list bindingLocalityHint) :
  applyPlacementHints (cloneNode node) hints = (node', Ok tt) ->
  (forall n, requires hints n ->
     ph_RequiredNodeName (placement_of node') = n /\
     map_of (ph_NodeSelector (placement_of node')) !! hostnameNodeSelectorKey = Some n /\
     ph_PreferredNodes (placement_of node') = []) /\
  ((forall n, ~ requires hints n) ->
     ph_NodeSelector (placement_of node') = ph_NodeSelector (placement_of node) /\
     ph_RequiredNodeName (placement_of node') = "" /\
     NoDup (wnp_NodeName <$> ph_PreferredNodes (placement_of node')) /\
     (forall n, n ∈ wnp_NodeName <$> ph_PreferredNodes (placement_of node') <-> prefers hints n) /\
     Forall (fun w => wnp_Weight w = 100%Z) (ph_PreferredNodes (placement_of node'))).
Proof.
  pose proof (clone_placement node) as Hc. revert Hc. generalize (cloneNode node) as clone.
  intros clone Hc. unfold applyPlacementHints. destruct hints as [|h0 hints0] eqn:Eh.
  { intros [= <-]. rewrite Hc. unfold requires, prefers. setoid_rewrite elem_of_nil. simpl.
    split; [naive_solver|]. intros _. split_and!; try done; try constructor; naive_solver. }
  rewrite <- Eh. clear h0 hints0 Eh. unfold placement_of in Hc at 1.
  destruct (scan_hints hints "" false) as [[r p]|e] eqn:Es; [|done].
  apply scan_hints_ok_from in Es as [Hr Hp]. setoid_rewrite Hr. rewrite Hc.
  destruct (streq r "") eqn:E; str_tests; simpl.
  - assert (Hn : forall n, n = "" /\ "" <> "" -> False) by naive_solver.
    destruct p; simpl.
    + destruct (collect_preferred_spec hints ∅) as (H1 & H2 & H3).
      destruct (collect_preferred hints ∅) as [|w l] eqn:Ec; intros [= <-]; simpl;
        (split; [naive_solver|]; intros _; split_and!; [done|done| | |]).
      all: try done. all: try (by constructor).
      * intros n. specialize (H2 n). set_solver.
      * intros n. specialize (H2 n). set_solver.
    + intros [= <-]. fold (placement_of clone) in Hc. rewrite Hc.
      split; [naive_solver|]. intros _.
      assert (Hnp : forall n, ~ prefers hints n) by (intros n Hpn; assert (false = true) by (apply Hp; eauto); done).
      split_and!; try done; try (by constructor).
      intros n. split; [by intros ?%elem_of_nil | intros Hx; by apply Hnp in Hx].
  - destruct (_ && _); [done|]. intros [= <-]. simpl. split.
    + intros n [-> _]. split_and!; [done | apply lookup_insert_eq | done].
    + intros H. by destruct (H r).
Qed.

#[local] Transparent TrimSpace placementModeRequiredNode placementModePreferredNode.

Lemma applyPlacementHints_ok_witness :
  let h := {| lh_BindingName := "b"; lh_ChildInputName := ""; lh_PreferredNodeName := "worker-1";
              lh_PlacementMode := "required_node"; lh_Decision := "local_reuse";
              lh_RequiresMaterialization := false |} in
  let r := applyPlacementHints (cloneNode zero_Node) [h] in
  r.2 = Ok tt /\ ph_RequiredNodeName (placement_of r.1) = "worker-1".
Proof.
  intros h r. split; [reflexivity|].
  refine (proj1 (proj1 (applyPlacementHints_ok zero_Node r.1 [h] _) "worker-1" _)).
  - reflexivity.
  - exists h. split_and!; [apply list_elem_of_here | reflexivity | reflexivity | done].
Defined.

(** The clone keeps of the submitted placement hints only the node selector: a
    required node name and preferences of the submitted node are lost. *)
Lemma cloneNode_drops_placement (node : Node) (p : PlacementHints) :
  n_Placement node = Some p ->
  n_Placement (cloneNode node) =
    Some {| ph_NodeSelector := ph_NodeSelector p; ph_RequiredNodeName := "";
            ph_PreferredNodes := [] |}.
Proof. intros H. unfold cloneNode. by rewrite H. Qed.
