(* ===== verification/K8sTypes.v ===== *)
(** * The spawner library and the Kubernetes API, as the program uses them

    The values of the two libraries with the fields the source reads or writes,
    and the functions it calls as classes: their definitions are not part of the
    repository. A client of the API works on a cluster of an arbitrary type [C],
    which every call takes and returns; what the API documents about its calls is
    [ClusterLaws]. *)
From S2P Require Import Prelude GoStrings GoErrors.

(** ** [github.com/HeaInSeo/spawner/pkg/runtime] *)
Record BackendRef := mkBackendRef { br_Namespace : string; br_Name : string; br_UID : string }.

#[export] Instance BackendRef_eq_dec : EqDecision BackendRef.
Proof. solve_decision. Defined.

Record AttemptHandle := mkAttemptHandle { ah_AttemptID : string; ah_BackendRef : BackendRef }.

(** An attempt's states are strings. *)
Abbreviation AttemptState := string (only parsing).

Inductive MountKind := MountKindPVC | MountKindHostPath.
Record RtMount := mkRtMount {
  rtm_Kind : MountKind; rtm_Source : string; rtm_Target : string; rtm_ReadOnly : bool }.

Record RtPreferredNode := mkRtPreferredNode { rtp_NodeName : string; rtp_Weight : Z }.
Record RtPlacement := mkRtPlacement {
  rpl_NodeSelector : option (gmap string string);
  rpl_RequiredNodeName : string;
  rpl_PreferredNodes : list RtPreferredNode;
}.

Record RtResources := mkRtResources { rtr_CPU : string; rtr_Memory : string }.

Record AttemptRequest := mkAttemptRequest {
  arq_AttemptID : string;
  arq_RunID : string;
  arq_CorrelationID : string;
  arq_ImageRef : string;
  arq_Command : list string;
  arq_WorkingDir : string;
  arq_Env : option (gmap string string);
  arq_Resources : RtResources;
  arq_ServiceAccountName : string;
  arq_Mounts : list RtMount;
  arq_Placement : option RtPlacement;
  arq_UserLabels : option (gmap string string);
  arq_UserAnnotations : option (gmap string string);
  arq_TTLSecondsAfterFinished : Z;
  arq_AttemptTimeout : Z;
}.

Record JobCreateRequest := mkJobCreateRequest {
  jc_Namespace : string;
  jc_JobName : string;
  jc_AttemptMarker : string;
  jc_AttemptRequest : AttemptRequest;
}.

Record JobEvent := mkJobEvent {
  je_State : AttemptState; je_Reason : string; je_Message : string; je_Timestamp : Z }.

Record JobWatchError := mkJobWatchError {
  jw_Reason : string; jw_Message : string; jw_Temporary : bool }.

Record JobSnapshot := mkJobSnapshot {
  js_Exists : bool; js_State : AttemptState; js_Reason : string; js_Message : string;
  js_Timestamp : Z }.

Definition zero_JobSnapshot : JobSnapshot := mkJobSnapshot false "" "" "" 0.

(** The identity of an attempt: [rt.ResolveIdentity]. *)
Record AttemptIdentity := mkAttemptIdentity {
  ai_Namespace : string; ai_JobName : string; ai_AttemptMarker : string }.

Record AttemptEvent := mkAttemptEvent { ae_State : AttemptState; ae_Reason : string; ae_Message : string }.

(** The library's constants and functions. *)
Class SpawnerRuntime := {
  AttemptStateSubmitted : AttemptState;
  AttemptStatePending : AttemptState;
  AttemptStateRunning : AttemptState;
  AttemptStateSucceeded : AttemptState;
  AttemptStateFailed : AttemptState;
  AttemptStateCancelled : AttemptState;
  AttemptState_IsTerminal : AttemptState -> bool;
  ReasonOOMKilled : string;
  ReasonNodeLost : string;
  ReasonBackoffExceeded : string;
  ReasonDeadlineExceeded : string;
  ReasonImagePullFailed : string;
  ReasonKueueWaiting : string;
  ReasonSystemCancel : string;
  ReasonWatchDisconnected : string;
  ReasonResourceVersionTooOld : string;
  ErrJobConflict : GoError;
  NewK8sJobBackendRef : string -> string -> string -> BackendRef;
}.

(** What the library documents of them. *)
Class SpawnerLaws {R : SpawnerRuntime} := {
  submitted_live : AttemptState_IsTerminal AttemptStateSubmitted = false;
  pending_live : AttemptState_IsTerminal AttemptStatePending = false;
  running_live : AttemptState_IsTerminal AttemptStateRunning = false;
  succeeded_terminal : AttemptState_IsTerminal AttemptStateSucceeded = true;
  failed_terminal : AttemptState_IsTerminal AttemptStateFailed = true;
  succeeded_failed : AttemptStateSucceeded <> AttemptStateFailed;
  ref_fields ns name uid : NewK8sJobBackendRef ns name uid = mkBackendRef ns name uid;
}.

(** [rt.Runtime], on a cluster of type [C]. *)
Class Runtime (C : Type) := {
  rt_ResolveIdentity : string -> res AttemptIdentity;
  rt_SubmitAttempt : C -> AttemptRequest -> C * res AttemptHandle;
  rt_CancelAttempt : C -> AttemptHandle -> C * option GoError;
}.

(** [imp.K8sObserver]: what it answers about a workload and about a pod. *)
Record WorkloadObservation := mkWorkloadObservation {
  wo_WorkloadName : string; wo_PendingReason : string; wo_Admitted : bool }.
Record PodObservation := mkPodObservation {
  po_PodName : string; po_Scheduled : bool; po_UnschedulableReason : string }.

(** ** [k8s.io/api] *)
Inductive ConditionType := JobComplete | JobFailed | OtherCondition.
Inductive ConditionStatus := ConditionTrue | ConditionFalse | ConditionUnknown.
Record JobCondition := mkJobCondition {
  jcd_Type : ConditionType; jcd_Status : ConditionStatus; jcd_Reason : string;
  jcd_Message : string; jcd_LastTransitionTime : Z }.

Record EnvVar := mkEnvVar { env_Name : string; env_Value : string }.

(** The values of the API's enumerations that the source writes. *)
Inductive HostPathType := HostPathDirectoryOrCreate.
Inductive PullPolicy := PullIfNotPresent.
Inductive RestartPolicy := RestartPolicyNever.
Inductive NodeSelectorOperator := NodeSelectorOpIn.

Inductive VolumeSource :=
  | HostPathVolume (path : string) (type : HostPathType)
  | PVCVolume (claim : string) (readOnly : bool).
Record Volume := mkVolume { vol_Name : string; vol_Source : VolumeSource }.
Record VolumeMount := mkVolumeMount { vm_Name : string; vm_MountPath : string; vm_ReadOnly : bool }.

(** A preferred scheduling term with its one expression. *)
Record PreferredTerm := mkPreferredTerm {
  pt_Weight : Z; pt_Key : string; pt_Operator : NodeSelectorOperator; pt_Values : list string }.

(** [resource.ParseQuantity]: the values it accepts. *)
Class Quantities := { Quantity : Type; ParseQuantity : string -> option Quantity }.

Record ResourceRequirements {Q : Quantities} := mkResourceRequirements {
  req_CPU : option Quantity; req_Memory : option Quantity;
  lim_CPU : option Quantity; lim_Memory : option Quantity;
}.

Record Container {Q : Quantities} := mkContainer {
  ct_Name : string;
  ct_Image : string;
  ct_Command : list string;
  ct_WorkingDir : string;
  ct_Env : list EnvVar;
  ct_Resources : ResourceRequirements;
  ct_ImagePullPolicy : PullPolicy;
  ct_VolumeMounts : list VolumeMount;
}.

(** [PodSpec] with its one container. *)
Record PodSpec {Q : Quantities} := mkPodSpec {
  ps_ServiceAccountName : string;
  ps_RestartPolicy : RestartPolicy;
  ps_TerminationGracePeriodSeconds : Z;
  ps_Container : Container;
  ps_Volumes : list Volume;
  ps_NodeSelector : option (gmap string string);
  ps_Affinity : option (list PreferredTerm);
}.

Record Job {Q : Quantities} := mkJob {
  job_APIVersion : string;
  job_Kind : string;
  job_Name : string;
  job_Namespace : string;
  job_UID : string;
  job_ResourceVersion : string;
  job_Labels : gmap string string;
  job_Annotations : gmap string string;
  job_Suspend : option bool;
  job_BackoffLimit : Z;
  job_TTLSecondsAfterFinished : option Z;
  job_TemplateLabels : gmap string string;
  job_TemplateAnnotations : gmap string string;
  job_TemplateSpec : PodSpec;
  job_Conditions : list JobCondition;
}.

Inductive PodPhase := PodPending | PodRunning | PodSucceeded | PodFailed | PodUnknown.

Record ContainerTerminated := mkContainerTerminated {
  term_ExitCode : Z; term_FinishedAt : Z; term_Message : string }.
Record ContainerStatus := mkContainerStatus {
  cs_Name : string;
  cs_Terminated : option ContainerTerminated;
  cs_LastTerminated : option ContainerTerminated;
}.
Record Pod := mkPod {
  pod_Name : string;
  pod_Labels : gmap string string;
  pod_NodeName : string;
  pod_Phase : PodPhase;
  pod_ContainerStatuses : list ContainerStatus;
}.

(** ** [client-go] *)
Class Cluster (C : Type) {Q : Quantities} := {
  jobs_Create : C -> string -> Job -> C * res Job;
  jobs_Get : C -> string -> string -> res Job;
  (* with an optional UID precondition *)
  jobs_Delete : C -> string -> string -> option string -> C * option GoError;
  (* the pods of a job, and a pod by its name *)
  pods_List : C -> string -> string -> res (list Pod);
  pods_Get : C -> string -> string -> res Pod;
  IsAlreadyExists : GoError -> bool;
  IsNotFound : GoError -> bool;
}.

(** What the API server documents: an object that exists is not created again;
    a created object keeps what it was created with and can be read; a delete with
    a precondition removes no object of another UID, and no call touches an object of
    another name. *)
Class ClusterLaws (C : Type) {Q : Quantities} {K : Cluster C} := {
  create_exists c ns j old : jobs_Get c ns (job_Name j) = Ok old ->
    exists e, jobs_Create c ns j = (c, Err e) /\ IsAlreadyExists e = true;
  create_refused c c' ns j e : jobs_Create c ns j = (c', Err e) -> IsAlreadyExists e = true -> c' = c;
  create_reads c c' ns j made : jobs_Create c ns j = (c', Ok made) ->
    jobs_Get c' ns (job_Name j) = Ok made /\
    job_Labels made = job_Labels j /\ job_Annotations made = job_Annotations j;
  delete_other_uid c ns name j uid : jobs_Get c ns name = Ok j -> job_UID j <> uid ->
    (jobs_Delete c ns name (Some uid)).1 = c;
  delete_other_name c ns name ns' name' p : (ns, name) <> (ns', name') ->
    jobs_Get (jobs_Delete c ns name p).1 ns' name' = jobs_Get c ns' name';
}.

(** [validation.IsQualifiedName] and [validation.IsValidLabelValue]: the
    complaints about a label's key and value, none when it is legal. *)
Class LabelRules := {
  IsQualifiedName : string -> list string;
  IsValidLabelValue : string -> list string;
}.
