(* ===== verification/JobClient.v ===== *)
(** * The Kubernetes job client ([src/pkg/spawner/k8s_jobclient.go])

    [K8sJobClient]: the job built from a request, its guard, and the operations
    of the spawner's [JobClient] on a cluster. The goroutine of [Watch] is
    [watchJob], a function of what it receives, in order: every turn of its
    [select] is one [wake]. *)
From S2P Require Import Prelude GoStrings GoErrors GoTime GoDuration Sha256 K8sTypes.
From Stdlib Require Import Ascii NArith.

Definition labelAppName : string := "app.kubernetes.io/name".
Definition labelAppComponent : string := "app.kubernetes.io/component".
Definition labelAppManagedBy : string := "app.kubernetes.io/managed-by".
Definition labelRunKey : string := "jumi.io/run-key".
Definition labelNodeKey : string := "jumi.io/node-key".
Definition labelAttemptID : string := "jumi.io/attempt-id".
Definition labelWorkloadRole : string := "jumi.io/workload-role".
Definition labelKueueQueueName : string := "kueue.x-k8s.io/queue-name".
Definition labelAttemptMarker : string := "spawner.io/attempt-marker".
Definition annotationRunID : string := "jumi.io/run-id".
Definition annotationNodeID : string := "jumi.io/node-id".
Definition annotationAttemptID : string := "jumi.io/attempt-id".
Definition annotationMarker : string := "jumi.io/attempt-marker".
Definition annotationTraceID : string := "jumi.io/trace-id".
Definition userLabelPrefix : string := "user.jumi.io/".
Definition hostnameNodeSelector : string := "kubernetes.io/hostname".
Definition defaultNanShutdownGracePeriodEnv : string := "25s".
Definition defaultPodTerminationGracePeriodSeconds : Z := 30.
Definition podTerminationGracePeriodMarginSeconds : Z := 5.
Definition nanShutdownGracePeriodEnv : string := "JUMI_SHUTDOWN_GRACE_PERIOD".

(** ** Identity labels *)
Definition shortHash (raw : string) : string := str_take 8 (EncodeToString (Sum256 (bytes_N raw))).

Definition isASCIILabelChar (r : N) : bool :=
  (r =? 45)%N || (r =? 95)%N || (r =? 46)%N || in_range 97 122 r || in_range 65 90 r || in_range 48 57 r.

Fixpoint sanitize_label_runes (rs : list N) (lastDash : bool) : string :=
  match rs with
  | [] => ""
  | r :: rs =>
      if isASCIILabelChar r then encode_rune r +:+ sanitize_label_runes rs false
      else if lastDash then sanitize_label_runes rs true
      else "-" +:+ sanitize_label_runes rs true
  end.

Definition label_trim : string -> string := trim_cutset "-_.".

Definition sanitizeLabelValue (raw : string) : string :=
  label_trim (sanitize_label_runes (runes raw) false).

Definition identityLabelValue {U : UnicodeTables} (raw : string) : string :=
  let raw := TrimSpace raw in
  if streq raw "" then "unknown"
  else
    let lower := ToLower raw in
    let sanitized := sanitizeLabelValue lower in
    let sanitized := if streq sanitized "" then "x" else sanitized in
    if streq sanitized lower && (String.length sanitized <=? 63)%nat then sanitized
    else
      let hash := shortHash raw in
      let maxPrefix := 63 - String.length hash - 1 in
      let sanitized := if (maxPrefix <? String.length sanitized)%nat
                       then label_trim (str_take maxPrefix sanitized) else sanitized in
      if streq sanitized "" then hash else sanitized +:+ "-" +:+ hash.

(** [firstNonEmpty]: the first value that is not blank. *)
Fixpoint firstNonEmpty (values : list string) : string :=
  match values with
  | [] => ""
  | v :: values => if negb (streq (TrimSpace v) "") then v else firstNonEmpty values
  end.

Definition podTerminationGracePeriodSeconds (env : option (gmap string string)) : Z :=
  let configured := map_get env nanShutdownGracePeriodEnv in
  let raw := if streq configured "" then defaultNanShutdownGracePeriodEnv else configured in
  match ParseDuration raw with
  | None => defaultPodTerminationGracePeriodSeconds
  | Some grace =>
      if (grace <=? 0)%Z then defaultPodTerminationGracePeriodSeconds
      else
        let seconds := Z.quot grace Second in
        let seconds := if (Z.rem grace Second =? 0)%Z then seconds else (seconds + 1)%Z in
        (seconds + podTerminationGracePeriodMarginSeconds)%Z
  end.

(** ** The job of a request *)
Section build.
Context {U : UnicodeTables} {RO : RangeOrder} {Q : Quantities} {L : LabelRules}.

Definition buildEnvVars (env : option (gmap string string)) : list EnvVar :=
  (fun k => mkEnvVar k (map_get env k)) <$> sort_strings (range_keys (dom (map_of env))).

Definition buildK8sResources (r : RtResources) : ResourceRequirements :=
  let cpu := if streq (rtr_CPU r) "" then None else ParseQuantity (rtr_CPU r) in
  let memory := if streq (rtr_Memory r) "" then None else ParseQuantity (rtr_Memory r) in
  mkResourceRequirements Q cpu memory cpu memory.

Definition k8s_volume (i : nat) (m : RtMount) : Volume * VolumeMount :=
  let name := "vol-" +:+ pretty (Z.of_nat i) in
  (mkVolume name
     match rtm_Kind m with
     | MountKindHostPath => HostPathVolume (rtm_Source m) HostPathDirectoryOrCreate
     | MountKindPVC => PVCVolume (rtm_Source m) (rtm_ReadOnly m)
     end,
   mkVolumeMount name (rtm_Target m) (rtm_ReadOnly m)).

Definition buildK8sVolumes (mounts : list RtMount) : list Volume * list VolumeMount :=
  let built := imap k8s_volume mounts in (fst <$> built, snd <$> built).

Definition buildK8sNodeSelector (p : option RtPlacement) : option (gmap string string) :=
  match p with
  | None => None
  | Some p =>
      let selector := map_of (rpl_NodeSelector p) in
      if streq (rpl_RequiredNodeName p) "" then
        if (size selector =? 0)%nat then None else Some selector
      else Some (<[hostnameNodeSelector := rpl_RequiredNodeName p]> selector)
  end.

Definition buildK8sAffinity (p : option RtPlacement) : option (list PreferredTerm) :=
  match p with
  | None => None
  | Some p =>
      if (length (rpl_PreferredNodes p) =? 0)%nat then None
      else Some ((fun n => mkPreferredTerm (rtp_Weight n) "kubernetes.io/hostname"
                              NodeSelectorOpIn [rtp_NodeName n])
                   <$> rpl_PreferredNodes p)
  end.

Definition is_job_label (k : string) : bool :=
  streq k labelKueueQueueName || has_prefix userLabelPrefix k.

(** The labels of the program, and over them the queue and the user's labels: the
    keys of a map are distinct, so its order does not matter to the copy. *)
Definition buildLabels (req : JobCreateRequest) : gmap string string :=
  let r := jc_AttemptRequest req in
  let own : gmap string string :=
    <[labelAttemptMarker := identityLabelValue (jc_AttemptMarker req)]>
    (<[labelWorkloadRole := "main"]>
    (<[labelAttemptID := identityLabelValue (arq_AttemptID r)]>
    (<[labelNodeKey := identityLabelValue (map_get (arq_Env r) "JUMI_NODE_ID")]>
    (<[labelRunKey := identityLabelValue
         (firstNonEmpty [arq_RunID r; map_get (arq_Env r) "JUMI_RUN_ID"])]>
    (<[labelAppManagedBy := "jumi-spawner"]>
    (<[labelAppComponent := "node-attempt"]>
    (<[labelAppName := "jumi"]> ∅))))))) in
  foldl (fun labels k => if is_job_label k then <[k := map_get (arq_UserLabels r) k]> labels else labels)
    own (range_keys (dom (map_of (arq_UserLabels r)))).

Definition buildAnnotations (req : JobCreateRequest) : gmap string string :=
  let r := jc_AttemptRequest req in
  let own :=
    <[annotationMarker := jc_AttemptMarker req]>
    (<[annotationAttemptID := arq_AttemptID r]>
    (<[annotationNodeID := map_get (arq_Env r) "JUMI_NODE_ID"]>
    (<[annotationRunID := firstNonEmpty [arq_RunID r; map_get (arq_Env r) "JUMI_RUN_ID"]]>
    (map_of (arq_UserAnnotations r))))) in
  if streq (arq_CorrelationID r) "" then own else <[annotationTraceID := arq_CorrelationID r]> own.

Definition buildK8sJob (req : JobCreateRequest) : Job :=
  let r := jc_AttemptRequest req in
  let '(volumes, volumeMounts) := buildK8sVolumes (arq_Mounts r) in
  let labels := buildLabels req in
  let annotations := buildAnnotations req in
  let suspend := is_some (labels !! labelKueueQueueName) in
  let container := mkContainer Q "main" (arq_ImageRef r) (arq_Command r) (arq_WorkingDir r)
    (buildEnvVars (arq_Env r)) (buildK8sResources (arq_Resources r)) PullIfNotPresent volumeMounts in
  {| job_APIVersion := "batch/v1"; job_Kind := "Job";
     job_Name := jc_JobName req; job_Namespace := jc_Namespace req;
     job_UID := ""; job_ResourceVersion := ""; job_Labels := labels; job_Annotations := annotations;
     job_Suspend := Some suspend; job_BackoffLimit := 0;
     job_TTLSecondsAfterFinished :=
       if (0 <? arq_TTLSecondsAfterFinished r)%Z then Some (arq_TTLSecondsAfterFinished r) else None;
     job_TemplateLabels := labels; job_TemplateAnnotations := annotations;
     job_TemplateSpec := mkPodSpec Q (arq_ServiceAccountName r) RestartPolicyNever
       (podTerminationGracePeriodSeconds (arq_Env r)) container volumes
       (buildK8sNodeSelector (arq_Placement r)) (buildK8sAffinity (arq_Placement r));
     job_Conditions := [] |}.

(** ** The guard *)
Definition validatePlacement (p : option RtPlacement) : option GoError :=
  match p with
  | None => None
  | Some p =>
      if streq (rpl_RequiredNodeName p) "" || negb (is_some (rpl_NodeSelector p)) then None
      else
        let existing := TrimSpace (map_get (rpl_NodeSelector p) hostnameNodeSelector) in
        if negb (streq existing "") && negb (streq existing (rpl_RequiredNodeName p))
        then Some (Errorf ("requiredNodeName " +:+ Quote (rpl_RequiredNodeName p)
               +:+ " conflicts with nodeSelector[" +:+ Quote hostnameNodeSelector +:+ "]="
               +:+ Quote existing))
        else None
  end.

Definition validateLabel (k v : string) : option GoError :=
  match IsQualifiedName k with
  | _ :: _ as errs =>
      Some (Errorf ("invalid Kubernetes label key " +:+ Quote k +:+ ": " +:+ str_join "; " errs))
  | [] =>
      match IsValidLabelValue v with
      | _ :: _ as errs =>
          Some (Errorf ("invalid Kubernetes label value for " +:+ Quote k +:+ ": " +:+ str_join "; " errs))
      | [] => None
      end
  end.

Definition check_user_label (k v : string) : option GoError :=
  if streq k labelKueueQueueName then
    match IsValidLabelValue v with
    | _ :: _ as errs =>
        Some (Errorf ("invalid kueue queue label value " +:+ Quote v +:+ ": " +:+ str_join "; " errs))
    | [] => None
    end
  else if negb (has_prefix userLabelPrefix k)
  then Some (Errorf ("user label " +:+ Quote k +:+ " must use " +:+ userLabelPrefix +:+ " prefix"))
  else validateLabel k v.

(** The first complaint of [check] over a map, in Go's order. *)
Definition check_map (check : string -> string -> option GoError) (m : gmap string string)
    : option GoError :=
  foldr (fun k rest => match check k (default "" (m !! k)) with Some e => Some e | None => rest end)
    None (range_keys (dom m)).

Definition validateK8sJobCreateRequest (req : JobCreateRequest) : option GoError :=
  let r := jc_AttemptRequest req in
  if streq (TrimSpace (arq_AttemptID r)) "" then Some (Errorf "attempt-id is required")
  else if streq (TrimSpace (firstNonEmpty [arq_RunID r; map_get (arq_Env r) "JUMI_RUN_ID"])) ""
  then Some (Errorf "run id is required")
  else if streq (TrimSpace (map_get (arq_Env r) "JUMI_NODE_ID")) ""
  then Some (Errorf "node id is required")
  else match validatePlacement (arq_Placement r) with
  | Some e => Some e
  | None =>
      match check_map check_user_label (map_of (arq_UserLabels r)) with
      | Some e => Some e
      | None => check_map validateLabel (buildLabels req)
      end
  end.
End build.

(** ** Reading a job *)
Section read.
Context {Q : Quantities} {R : SpawnerRuntime}.

Definition mapJobFailureReason (k8sReason : string) : string :=
  if streq k8sReason "BackoffLimitExceeded" then ReasonBackoffExceeded
  else if streq k8sReason "DeadlineExceeded" then ReasonDeadlineExceeded
  else k8sReason.

Definition condition_holds (t : ConditionType) (c : JobCondition) : bool :=
  match jcd_Type c, t with
  | JobComplete, JobComplete | JobFailed, JobFailed =>
      match jcd_Status c with ConditionTrue => true | _ => false end
  | _, _ => false
  end.

(** The state, its reason, its message and its time; [now] is [time.Now]. *)
Definition jobToState (now : Z) (job : Job) : AttemptState * string * string * Z :=
  match find_first (condition_holds JobComplete) (job_Conditions job) with
  | Some c => (AttemptStateSucceeded, "", jcd_Message c, jcd_LastTransitionTime c)
  | None =>
      match find_first (condition_holds JobFailed) (job_Conditions job) with
      | Some c => (AttemptStateFailed, mapJobFailureReason (jcd_Reason c), jcd_Message c,
                   jcd_LastTransitionTime c)
      | None =>
          match job_Suspend job with
          | Some true => (AttemptStateSubmitted, ReasonKueueWaiting, "", now)
          | _ => (AttemptStatePending, "", "", now)
          end
      end
  end.

Definition job_event (now : Z) (job : Job) : JobEvent :=
  let '(state, reason, msg, ts) := jobToState now job in mkJobEvent state reason msg ts.

(** The second component of Go's answer is [is_some]. *)
Definition podPhaseToState (pod : Pod) : option AttemptState :=
  match pod_Phase pod with
  | PodRunning => Some AttemptStateRunning
  | PodPending => Some AttemptStatePending
  | _ => None
  end.

Definition jobMatchesBackendRef (job : Job) (ref : BackendRef) : bool :=
  streq (br_UID ref) "" || streq (job_UID job) (br_UID ref).

Definition identity_labels : list string := [labelRunKey; labelNodeKey; labelAttemptID].

Definition label_of (labels : gmap string string) (k : string) : string := default "" (labels !! k).

Definition metadataMatchesIdentityLabels (got expected : gmap string string) : bool :=
  forallb (fun key => streq (label_of expected key) ""
                      || streq (label_of got key) (label_of expected key)) identity_labels.

Definition jobMatchesIdentityLabels (job : Job) (expected : gmap string string) : bool :=
  metadataMatchesIdentityLabels (job_Labels job) expected.

Definition podMatchesIdentityLabels (pod : Pod) (expected : gmap string string) : bool :=
  metadataMatchesIdentityLabels (pod_Labels pod) expected.

(** The selector of the pod watch, as the set that is printed. *)
Definition podWatchLabelSelector (job : Job) (ref : BackendRef) : gmap string string :=
  foldl (fun sel key => if streq (label_of (job_Labels job) key) "" then sel
                        else <[key := label_of (job_Labels job) key]> sel)
    {[ "job-name" := br_Name ref ]} identity_labels.

Definition existingAttemptMarkerMatches (job : Job) (marker : string) : bool :=
  streq (label_of (job_Annotations job) annotationMarker) marker
  || streq (label_of (job_Labels job) labelAttemptMarker) marker.
End read.

(** ** Operations *)
Section client.
Context {U : UnicodeTables} {RO : RangeOrder} {Q : Quantities} {L : LabelRules} {R : SpawnerRuntime}.
Context {C : Type} {K : Cluster C}.

Definition Create (c : C) (req : JobCreateRequest) : C * res BackendRef :=
  match validateK8sJobCreateRequest req with
  | Some err => (c, Err err)
  | None =>
      match jobs_Create c (jc_Namespace req) (buildK8sJob req) with
      | (c, Ok created) =>
          (c, Ok (NewK8sJobBackendRef (jc_Namespace req) (jc_JobName req) (job_UID created)))
      | (c, Err err) =>
          if negb (IsAlreadyExists err) then (c, Err err)
          else
            match jobs_Get c (jc_Namespace req) (jc_JobName req) with
            | Err getErr => (c, Err (Wrapf "job AlreadyExists but get failed" getErr))
            | Ok existing =>
                if negb (existingAttemptMarkerMatches existing (jc_AttemptMarker req))
                then (c, Err ErrJobConflict)
                else (c, Ok (NewK8sJobBackendRef (jc_Namespace req) (jc_JobName req) (job_UID existing)))
            end
      end
  end.

Definition deletePreconditions (ref : BackendRef) : option string :=
  if streq (br_UID ref) "" then None else Some (br_UID ref).

(** The deletion itself. *)
Definition delete_job (c : C) (ref : BackendRef) : C * option GoError :=
  match jobs_Delete c (br_Namespace ref) (br_Name ref) (deletePreconditions ref) with
  | (c, Some err) => (c, if IsNotFound err then None else Some err)
  | (c, None) => (c, None)
  end.

(** With what its [Get] answered: the cluster may have changed since. *)
Definition delete_after (got : res Job) (c : C) (ref : BackendRef) : C * option GoError :=
  if streq (br_UID ref) "" then delete_job c ref
  else
    match got with
    | Err err => (c, if IsNotFound err then None else Some err)
    | Ok job => if streq (job_UID job) (br_UID ref) then delete_job c ref else (c, None)
    end.

Definition Delete (c : C) (ref : BackendRef) : C * option GoError :=
  delete_after (jobs_Get c (br_Namespace ref) (br_Name ref)) c ref.

Definition Snapshot (c : C) (now : Z) (ref : BackendRef) : res JobSnapshot :=
  match jobs_Get c (br_Namespace ref) (br_Name ref) with
  | Err err => if IsNotFound err then Ok zero_JobSnapshot else Err err
  | Ok job =>
      if negb (jobMatchesBackendRef job ref) then Ok zero_JobSnapshot
      else
        let '(state, reason, msg, ts) := jobToState now job in
        Ok (mkJobSnapshot true state reason msg ts)
  end.

(** ** Watching *)
Inductive WatchObject :=
  | ObjJob (j : Job)
  | ObjPod (p : Pod)
  | ObjStatus (code : Z)
  | ObjOther.

Inductive WatchType := EvAdded | EvModified | EvDeleted | EvBookmark | EvError.

(** What a turn of the [select] receives: the end of the context, the end or an
    event of the job watch, the end or an event of the pod watch; for an event,
    the time, and whether an event of our own that it gives rise to is delivered
    rather than the context's end ([trySendEvent]). *)
Inductive wake :=
  | WakeDone
  | WakeJobClosed
  | WakeJob (t : WatchType) (o : WatchObject) (now : Z) (delivered : bool)
  | WakePodClosed
  | WakePod (t : WatchType) (o : WatchObject) (now : Z) (delivered : bool).

(** What the watch sent, and whether the goroutine has returned. *)
Record watched := mkWatched {
  wd_events : list JobEvent;
  wd_error : option JobWatchError;
  wd_returned : bool;
}.

Definition disconnected (msg : string) : JobWatchError :=
  mkJobWatchError ReasonWatchDisconnected msg true.

(** [ev] if it is delivered; the end if it is not; then the rest. *)
Definition send (delivered : bool) (ev : JobEvent) (rest : watched) : watched :=
  if delivered then mkWatched (ev :: wd_events rest) (wd_error rest) (wd_returned rest)
  else mkWatched [] None true.

Definition returned : watched := mkWatched [] None true.
Definition failed_with (e : JobWatchError) : watched := mkWatched [] (Some e) true.

(** The loop, for the job seen first; [podOpen] is [podCh != nil]. *)
Fixpoint watch_loop (first : Job) (ref : BackendRef) (podOpen : bool) (wakes : list wake) : watched :=
  match wakes with
  | [] => mkWatched [] None false
  | w :: wakes =>
      match w with
      | WakeDone => returned
      | WakeJobClosed => failed_with (disconnected "watch stream closed")
      | WakeJob EvDeleted _ now delivered =>
          send delivered (mkJobEvent AttemptStateFailed ReasonSystemCancel "job deleted externally" now)
            returned
      | WakeJob EvError (ObjStatus 410) _ _ =>
          failed_with (mkJobWatchError ReasonResourceVersionTooOld "resource version too old (410)" true)
      | WakeJob EvError _ _ _ => failed_with (disconnected "watch error event")
      | WakeJob _ (ObjJob j) now delivered =>
          if negb (jobMatchesBackendRef j ref) || negb (jobMatchesIdentityLabels j (job_Labels first))
          then watch_loop first ref podOpen wakes
          else
            let ev := job_event now j in
            if AttemptState_IsTerminal (je_State ev) then send delivered ev returned
            else send delivered ev (watch_loop first ref podOpen wakes)
      | WakeJob _ _ _ _ => watch_loop first ref podOpen wakes
      | WakePodClosed => watch_loop first ref false wakes
      | WakePod EvDeleted _ _ _ => watch_loop first ref podOpen wakes
      | WakePod _ (ObjPod pod) now delivered =>
          if negb podOpen || negb (podMatchesIdentityLabels pod (job_Labels first))
          then watch_loop first ref podOpen wakes
          else
            match podPhaseToState pod with
            | Some s => send delivered (mkJobEvent s "" "" now) (watch_loop first ref podOpen wakes)
            | None => watch_loop first ref podOpen wakes
            end
      | WakePod _ _ _ _ => watch_loop first ref podOpen wakes
      end
  end.

(** The goroutine: [jobWatch] is the error of starting the job watch, [podWatch]
    whether the pod watch started, [delivered] is as in [wake]. *)
Definition watchJob (c : C) (now : Z) (ref : BackendRef) (delivered : bool)
    (jobWatch : option GoError) (podWatch : bool) (wakes : list wake) : watched :=
  match jobs_Get c (br_Namespace ref) (br_Name ref) with
  | Err err => if IsNotFound err then returned else failed_with (disconnected (error_text err))
  | Ok job =>
      if negb (jobMatchesBackendRef job ref) then returned
      else
        let ev := job_event now job in
        if AttemptState_IsTerminal (je_State ev) then send delivered ev returned
        else match jobWatch with
             | Some err => failed_with (disconnected (error_text err))
             | None => watch_loop job ref podWatch wakes
             end
  end.
End client.
