(* ===== verification/LabelFacts.v ===== *)
(** * Identity labels

    Whatever the identity, its label is a legal label value; a legal value in
    lower case is its own label. *)
From S2P Require Import Prelude GoStrings Sha256 K8sTypes JobClient.
From Stdlib Require Import Ascii NArith.

Definition label_char (a : ascii) : bool := isASCIILabelChar (N_of_ascii a).

Definition alnum (a : ascii) : bool :=
  let n := N_of_ascii a in in_range 97 122 n || in_range 65 90 n || in_range 48 57 n.

(** A non-empty label value as Kubernetes documents it: at most 63 characters,
    alphanumeric ones with [-], [_] and [.] in between. *)
Definition bounded_by_alnum (s : string) : bool :=
  match chars s, reverse (chars s) with
  | a :: _, b :: _ => alnum a && alnum b
  | _, _ => false
  end.

Definition legal_label_value (s : string) : bool :=
  (String.length s <=? 63)%nat && str_forall label_char s && bounded_by_alnum s.

(** ** Trimming a cutset of single bytes *)
Lemma trim_left_single c fuel s :
  exists p, chars s = p ++ chars (trim_left_of (single_bytes c) fuel s) /\
    (String.length s <= fuel -> forall a r, chars (trim_left_of (single_bytes c) fuel s) = a :: r ->
      a ∉ chars c).
Proof.
  revert s. induction fuel as [|fuel IH]; intros s; cbn [trim_left_of].
  { exists []. split; [done|]. intros Hs a r. destruct s; [done|simpl in Hs; lia]. }
  destruct (find_first _ _) as [q|] eqn:E.
  - apply find_first_Some in E as [Hq Hp]. unfold single_bytes in Hq.
    apply list_elem_of_In, in_map_iff in Hq as [b [<- Hb]]. destruct s as [|a s]; [done|].
    cbn [has_prefix] in Hp. rewrite andb_true_r in Hp. apply Ascii.eqb_eq in Hp as <-.
    cbn [String.length str_drop]. destruct (IH s) as [p [E1 E2]]. exists (b :: p).
    split; [simpl; by f_equal|].
    intros Hs. apply E2. simpl in Hs. lia.
  - exists []. split; [done|]. intros _ a r Hs Ha. destruct s as [|b s]; [done|]. simplify_list_eq.
    pose proof (proj1 (find_first_None _ _) E (String a "")) as Hn. cbn [has_prefix] in Hn.
    rewrite Ascii.eqb_refl in Hn. discriminate Hn. unfold single_bytes.
    apply list_elem_of_In, in_map_iff. exists a. split; [done|]. by apply list_elem_of_In.
Qed.

Lemma single_bytes_rev c : map str_rev (single_bytes c) = single_bytes c.
Proof. unfold single_bytes. rewrite map_map. done. Qed.

(** What is left starts and ends outside the cutset, and is part of the string. *)
Lemma trim_cutset_spec c s :
  exists p q, chars s = p ++ chars (trim_cutset c s) ++ q /\
    (forall a r, chars (trim_cutset c s) = a :: r -> a ∉ chars c) /\
    (forall a r, reverse (chars (trim_cutset c s)) = a :: r -> a ∉ chars c).
Proof.
  unfold trim_cutset, trim_of. rewrite single_bytes_rev.
  destruct (trim_left_single c (String.length s) s) as [p [E1 E2]]. specialize (E2 (le_n _)).
  set (l := trim_left_of (single_bytes c) (String.length s) s) in *.
  destruct (trim_left_single c (String.length l) (str_rev l)) as [q [E3 E4]].
  rewrite <- (chars_length (str_rev l)), chars_rev, length_reverse, chars_length in E4.
  specialize (E4 (le_n _)).
  set (r := trim_left_of (single_bytes c) (String.length l) (str_rev l)) in *.
  rewrite chars_rev in E3 |- *. apply (f_equal reverse) in E3.
  rewrite reverse_involutive, reverse_app in E3. exists p, (reverse q).
  split_and!; [by rewrite E1, E3| |].
  - intros a t Ha. apply (E2 a (t ++ reverse q)). by rewrite E3, Ha.
  - intros a t Ha. rewrite reverse_involutive in Ha. by apply (E4 a t).
Qed.

(** A string that neither starts nor ends in the cutset is left alone. *)
Lemma trim_left_none seqs fuel s :
  (forall q, q ∈ seqs -> has_prefix q s = false) -> trim_left_of seqs fuel s = s.
Proof.
  intros H. destruct fuel as [|fuel]; [done|]. simpl.
  destruct (find_first _ _) as [q|] eqn:E; [|done].
  apply find_first_Some in E as [Hq Hp]. rewrite H in Hp; done.
Qed.

Lemma trim_of_none seqs s :
  (forall q, q ∈ seqs -> has_prefix q s = false) ->
  (forall q, q ∈ map str_rev seqs -> has_prefix q (str_rev s) = false) -> trim_of seqs s = s.
Proof.
  intros H1 H2. unfold trim_of. rewrite (trim_left_none seqs) by done.
  rewrite trim_left_none by done. apply chars_inj. by rewrite !chars_rev, reverse_involutive.
Qed.

(** ** The characters of a label *)
Lemma alnum_char a : alnum a = true -> label_char a = true.
Proof. unfold alnum, label_char, isASCIILabelChar. intros H. rewrite <- !orb_assoc in *. by rewrite H, !orb_true_r. Qed.

Lemma hex_alnum a : hex_char a = true -> alnum a = true.
Proof.
  unfold hex_char, alnum, in_range. intros [H|H]%orb_true_iff; rewrite !orb_true_iff, !andb_true_iff, !N.leb_le in *; lia.
Qed.

(** A legal character outside the trimmed set is a letter or a digit. *)
Lemma trimmed_alnum a : label_char a = true -> a ∉ chars "-_." -> alnum a = true.
Proof.
  unfold label_char, isASCIILabelChar, alnum. intros H Ha. rewrite <- !orb_assoc in H.
  assert (Hn : forall n, N_of_ascii a = n -> ascii_of_N n ∉ chars "-_." ).
  { intros n <-. by rewrite ascii_N_embedding. }
  apply orb_true_iff in H as [H|H]; [apply N.eqb_eq in H; exfalso; apply (Hn _ H); set_solver|].
  apply orb_true_iff in H as [H|H]; [apply N.eqb_eq in H; exfalso; apply (Hn _ H); set_solver|].
  apply orb_true_iff in H as [H|H]; [apply N.eqb_eq in H; exfalso; apply (Hn _ H); set_solver|].
  by rewrite <- orb_assoc.
Qed.

Lemma label_char_small r : isASCIILabelChar r = true -> (r < 128)%N.
Proof.
  unfold isASCIILabelChar, in_range. intros H.
  rewrite !orb_true_iff, !andb_true_iff, !N.leb_le, !N.eqb_eq in H. lia.
Qed.

Lemma sanitize_label_chars rs b : str_forall label_char (sanitize_label_runes rs b) = true.
Proof.
  revert b. induction rs as [|r rs IH]; intros b; simpl; [done|].
  destruct (isASCIILabelChar r) eqn:E; [|destruct b; [done|apply IH]].
  rewrite str_forall_app, IH, andb_true_r. pose proof (label_char_small _ E).
  rewrite encode_rune_ascii by done. simpl. unfold label_char.
  by rewrite N_ascii_embedding, E by lia.
Qed.

(** What [label_trim] leaves is a legal value but for its length and for being empty. *)
Lemma label_trim_legal s :
  str_forall label_char s = true ->
  (String.length (label_trim s) <= String.length s)%nat /\
  str_forall label_char (label_trim s) = true /\
  (label_trim s = "" \/ bounded_by_alnum (label_trim s) = true).
Proof.
  intros Hs. unfold label_trim. destruct (trim_cutset_spec "-_." s) as (p & q & E & H1 & H2).
  set (t := trim_cutset "-_." s) in *.
  apply chars_forall in Hs. rewrite E, !Forall_app in Hs. destruct Hs as (_ & Ht & _).
  split_and!.
  - rewrite <- !chars_length, E, !length_app. lia.
  - by apply chars_forall.
  - unfold bounded_by_alnum. destruct (chars t) as [|a r] eqn:Ea; [left; by apply chars_inj|right].
    destruct (reverse (a :: r)) as [|b u] eqn:Eb; [by apply (f_equal length) in Eb; rewrite length_reverse in Eb|].
    assert (Hb : b ∈ a :: r) by (rewrite <- elem_of_reverse, Eb; left).
    rewrite Forall_forall in Ht. apply andb_true_iff. split; apply trimmed_alnum;
      eauto using list_elem_of_here.
Qed.

Lemma shortHash_spec raw : String.length (shortHash raw) = 8%nat /\ str_forall hex_char (shortHash raw) = true.
Proof.
  unfold shortHash. destruct (EncodeToString_spec (Sum256 (bytes_N raw))) as [Hl Hc].
  rewrite Sum256_length in Hl. rewrite <- chars_length, chars_forall, chars_take. split.
  - rewrite length_take, chars_length, Hl. done.
  - apply Forall_take. by apply chars_forall.
Qed.

(** The hash behind a prefix, or alone. *)
Lemma hash_legal pre raw :
  (String.length pre <= 54)%nat -> str_forall label_char pre = true ->
  pre = "" \/ bounded_by_alnum pre = true ->
  legal_label_value (if streq pre "" then shortHash raw else pre +:+ "-" +:+ shortHash raw) = true.
Proof.
  intros Hl Hc Hb. destruct (shortHash_spec raw) as [Hhl Hhc].
  revert Hhl Hhc. generalize (shortHash raw) as h. intros h Hhl Hhc.
  assert (Hha : Forall (fun a => alnum a = true) (chars h)).
  { eapply Forall_impl; [by apply chars_forall|]. apply hex_alnum. }
  assert (Hhlc : str_forall label_char h = true).
  { apply chars_forall. eapply Forall_impl; [done|]. apply alnum_char. }
  rewrite <- chars_length in Hhl.
  destruct (reverse (chars h)) as [|z t] eqn:Er.
  { apply (f_equal length) in Er. rewrite length_reverse, Hhl in Er. done. }
  assert (Hz : alnum z = true).
  { rewrite Forall_forall in Hha. apply Hha. rewrite <- elem_of_reverse, Er. left. }
  unfold legal_label_value. destruct (streq pre "") eqn:Ep; str_tests.
  - rewrite <- chars_length, Hhl, Hhlc. unfold bounded_by_alnum. rewrite Er.
    destruct (chars h) as [|a r]; [done|]. apply Forall_cons in Hha as [-> _].
    by rewrite Hz.
  - destruct Hb as [|Hb]; [done|].
    rewrite <- chars_length, !str_forall_app, Hc, Hhlc, !chars_app, !length_app, Hhl, chars_length.
    cbn [length String.list_ascii_of_string]. apply andb_true_iff. split.
    + rewrite andb_true_r. apply Nat.leb_le. lia.
    + unfold bounded_by_alnum in *. rewrite !chars_app, !reverse_app, Er.
      destruct (chars pre) as [|a r]; [done|]. cbn [app].
      destruct (reverse (a :: r)); [done|]. apply andb_true_iff in Hb as [-> _]. by rewrite Hz.
Qed.

(** ** Legal values are kept *)
Definition lower_case (s : string) : bool :=
  str_forall (fun a => negb (ascii_upper_letter (N_of_ascii a))) s.

(** A set of sequences that no legal character starts. *)
Definition no_label_start (seqs : list string) : bool :=
  forallb (fun q => match q with String a _ => negb (alnum a) | EmptyString => false end) seqs.

Lemma alnum_start seqs q s :
  no_label_start seqs = true -> q ∈ seqs ->
  (exists a r, chars s = a :: r /\ alnum a = true) -> has_prefix q s = false.
Proof.
  intros Hs Hq (a & r & Hc & Ha). unfold no_label_start in Hs. rewrite forallb_forall in Hs.
  apply list_elem_of_In, Hs in Hq. destruct q as [|b q]; [done|]. destruct s as [|c s]; [done|].
  simplify_list_eq. cbn [has_prefix]. destruct (Ascii.eqb_spec b a) as [->|]; [|done].
  by rewrite Ha in Hq.
Qed.

Lemma trim_bounded seqs s :
  no_label_start seqs = true -> no_label_start (map str_rev seqs) = true ->
  bounded_by_alnum s = true -> trim_of seqs s = s.
Proof.
  intros H1 H2 Hb. unfold bounded_by_alnum in Hb. destruct (chars s) as [|a r] eqn:E1; [done|].
  destruct (reverse (a :: r)) as [|b t] eqn:E2; [done|]. apply andb_true_iff in Hb as [Ha Hb].
  apply trim_of_none; intros q Hq.
  - apply (alnum_start seqs); eauto.
  - apply (alnum_start (map str_rev seqs)); [done|done|]. exists b, t. by rewrite chars_rev, E1.
Qed.

Lemma label_ascii s : str_forall label_char s = true -> runes s = bytes_N s.
Proof.
  intros H. apply runes_ascii. rewrite chars_forall in *. eapply Forall_impl; [done|].
  intros a Ha. unfold ascii_byte7. apply N.ltb_lt. by apply label_char_small.
Qed.

Section labels.
Context {U : UnicodeTables} {UA : UnicodeAscii U}.

Lemma ToLower_kept s :
  str_forall label_char s = true -> lower_case s = true -> ToLower s = s.
Proof.
  intros Hc Hl. unfold ToLower. rewrite label_ascii by done. unfold bytes_N, lower_case in *.
  induction s as [|a s IH]; [done|]. cbn [str_forall] in *.
  apply andb_true_iff in Hc as [Ha Hc], Hl as [Hu Hl]. simpl. rewrite (IH Hc Hl).
  apply label_char_small in Ha. rewrite lower_ascii, (proj1 (negb_true_iff _) Hu) by done.
  rewrite encode_rune_ascii by done. cbn. by rewrite ascii_N_embedding.
Qed.
End labels.

Lemma sanitize_kept s b :
  str_forall label_char s = true -> sanitize_label_runes (bytes_N s) b = s.
Proof.
  revert b. unfold bytes_N. induction s as [|a s IH]; intros b; [done|]. cbn [str_forall].
  intros [Ha Hs]%andb_true_iff. simpl. unfold label_char in Ha. rewrite Ha, IH by done.
  rewrite encode_rune_ascii by by apply label_char_small. cbn. by rewrite ascii_N_embedding.
Qed.

Lemma sanitizeLabelValue_kept s : legal_label_value s = true -> sanitizeLabelValue s = s.
Proof.
  unfold legal_label_value. rewrite !andb_true_iff. intros [[_ Hc] Hb].
  unfold sanitizeLabelValue. rewrite label_ascii, sanitize_kept by done. by apply trim_bounded.
Qed.

Lemma sanitizeLabelValue_legal raw :
  str_forall label_char (sanitizeLabelValue raw) = true /\
  (sanitizeLabelValue raw = "" \/ bounded_by_alnum (sanitizeLabelValue raw) = true).
Proof.
  unfold sanitizeLabelValue.
  destruct (label_trim_legal _ (sanitize_label_chars (runes raw) false)) as (_ & H1 & H2). done.
Qed.

Lemma str_take_length n s : String.length (str_take n s) = min n (String.length s).
Proof. by rewrite <- !chars_length, chars_take, length_take. Qed.

Lemma str_take_forall P n s : str_forall P s = true -> str_forall P (str_take n s) = true.
Proof. rewrite !chars_forall, chars_take. apply Forall_take. Qed.

(** ** The label of an identity *)
Section identity.
Context {U : UnicodeTables}.

Lemma identityLabelValue_ok raw : legal_label_value (identityLabelValue raw) = true.
Proof.
  unfold identityLabelValue. set (r := TrimSpace raw).
  destruct (streq r ""); [done|]. set (s := sanitizeLabelValue (ToLower r)).
  set (x := if streq s "" then "x" else s).
  assert (Hx : str_forall label_char x = true /\ bounded_by_alnum x = true).
  { subst x. destruct (sanitizeLabelValue_legal (ToLower r)) as [H1 H2]. fold s in H1, H2.
    destruct (streq s "") eqn:E; [done|]. apply streq_neq in E. destruct H2; done. }
  destruct Hx as [Hc Hb]. destruct (streq x (ToLower r) && _) eqn:E.
  - apply andb_true_iff in E as [_ E]. unfold legal_label_value. by rewrite E, Hc, Hb.
  - destruct (shortHash_spec r) as [-> _]. change (63 - 8 - 1) with 54.
    destruct (Nat.ltb_spec 54 (String.length x)) as [Hn|Hn].
    + destruct (label_trim_legal (str_take 54 x)) as (H1 & H2 & H3); [by apply str_take_forall|].
      rewrite str_take_length in H1. apply hash_legal; [lia|done|done].
    + apply hash_legal; [lia|done|by right].
Qed.

(** C28. Whatever the identity, its label is a value that Kubernetes accepts: from
    one to 63 letters, digits, [-], [_] and [.], the first and the last a letter
    or a digit; and an identity that is such a value in lower case is its own
    label, so that different ones have different labels. *)
Theorem identityLabelValue_legal :
  (forall raw, legal_label_value (identityLabelValue raw) = true) /\
  (UnicodeAscii U -> forall s, legal_label_value s = true -> lower_case s = true ->
     identityLabelValue s = s).
Proof.
  split; [apply identityLabelValue_ok|].
  intros UA s Hs Hl. pose proof Hs as Hs'. unfold legal_label_value in Hs.
  rewrite !andb_true_iff in Hs. destruct Hs as [[Hn Hc] Hb].
  unfold identityLabelValue. unfold TrimSpace. rewrite trim_bounded by done.
  destruct (streq s "") eqn:E; [by apply streq_eq in E as ->|].
  rewrite ToLower_kept, sanitizeLabelValue_kept, E, streq_refl, Hn by done. done.
Qed.
End identity.
