(* ===== verification/JobClientFacts.v ===== *)
(** * The Kubernetes job client: its guard and its operations

    The pod's grace period, what a request is refused for, that submitting is
    idempotent and that deletion touches no other job. *)
From S2P Require Import Prelude GoStrings GoErrors GoTime GoDuration K8sTypes JobClient LabelFacts.

(** ** The grace period of the pod *)

(** The shutdown grace the node is configured with, or the default one. *)
Definition shutdown_grace (env : option (gmap string string)) : Z :=
  let configured := map_get env nanShutdownGracePeriodEnv in
  let raw := if streq configured "" then defaultNanShutdownGracePeriodEnv else configured in
  match ParseDuration raw with
  | Some grace => if (grace <=? 0)%Z then 25 * Second else grace
  | None => 25 * Second
  end.

(** The pod's termination grace period exceeds the shutdown grace of its
    process by at least five and less than six seconds, whatever is configured,
    and stays far within the range of [int64]: rounding up never overflows. *)
Theorem podTerminationGracePeriodSeconds_margin env :
  let s := podTerminationGracePeriodSeconds env in
  (shutdown_grace env + 5 * Second <= s * Second < shutdown_grace env + 6 * Second)%Z /\
  (6 <= s <= 9223372042)%Z.
Proof.
  cbn zeta. unfold podTerminationGracePeriodSeconds, shutdown_grace.
  set (raw := if streq _ "" then _ else _).
  destruct (ParseDuration raw) as [g|] eqn:E; [|vm_compute; intuition congruence].
  apply ParseDuration_range in E.
  unfold podTerminationGracePeriodMarginSeconds, defaultPodTerminationGracePeriodSeconds, Second.
  destruct (Z.leb_spec g 0); [lia|].
  rewrite Z.quot_div_nonneg, Z.rem_mod_nonneg by lia.
  pose proof (Z.div_mod g 1000000000). pose proof (Z.mod_pos_bound g 1000000000).
  destruct (Z.eqb_spec (g mod 1000000000) 0); lia.
Qed.

(** ** The labels of a job *)
Section labels.
Context {U : UnicodeTables} {RO : RangeOrder}.

Lemma copied_labels req ks (own : gmap string string) k :
  foldl (fun labels k => if is_job_label k then <[k := map_get (arq_UserLabels req) k]> labels else labels)
    own ks !! k =
  if decide (k ∈ ks /\ is_job_label k = true) then Some (map_get (arq_UserLabels req) k) else own !! k.
Proof.
  revert own. induction ks as [|k0 ks IH]; intros own; cbn [foldl].
  - rewrite decide_False; [done|]. intros [H _]. by apply elem_of_nil in H.
  - rewrite IH. destruct (decide (k ∈ ks /\ is_job_label k = true)) as [[H1 H2]|Hn].
    + rewrite decide_True; [done|]. split; [by right|done].
    + destruct (decide (k = k0)) as [->|Hk].
      * destruct (is_job_label k0) eqn:E.
        -- rewrite lookup_insert_eq, decide_True; [done|]. split; [left|done].
        -- rewrite decide_False; [done|]. by intros [_ ?].
      * assert (Hin : (if is_job_label k0 then <[k0 := map_get (arq_UserLabels req) k0]> own else own) !! k
                      = own !! k) by (destruct (is_job_label k0); [by rewrite lookup_insert_ne|done]).
        rewrite Hin, decide_False; [done|]. intros [[?|?]%elem_of_cons ?]; [done|]. by apply Hn.
Qed.

(** The keys of the labels that the program writes itself. *)
Definition program_labels : list string :=
  [labelAttemptMarker; labelWorkloadRole; labelAttemptID; labelNodeKey; labelRunKey;
   labelAppManagedBy; labelAppComponent; labelAppName].

(** A user's label for the queue or under the prefix, or one of the program's. *)
Lemma buildLabels_lookup req k v :
  buildLabels req !! k = Some v ->
  (map_of (arq_UserLabels (jc_AttemptRequest req)) !! k = Some v /\ is_job_label k = true) \/
  (k ∈ program_labels /\ legal_label_value v = true).
Proof.
  unfold buildLabels. rewrite copied_labels.
  destruct (decide _) as [[Hk Hj]|_].
  - intros [= <-]. left. split; [|done]. rewrite elem_of_range_keys, elem_of_dom in Hk.
    unfold map_get. by destruct Hk as [w ->].
  - intros H. right. pose proof identityLabelValue_ok as Hl.
    repeat (apply lookup_insert_Some in H as [[<- <-]|[_ H]];
      [split; [unfold program_labels; rewrite !elem_of_cons; tauto|apply Hl || reflexivity]|]).
    by rewrite lookup_empty in H.
Qed.

Lemma buildLabels_queue req :
  buildLabels req !! labelKueueQueueName =
  map_of (arq_UserLabels (jc_AttemptRequest req)) !! labelKueueQueueName.
Proof.
  unfold buildLabels. rewrite copied_labels. destruct (decide _) as [[Hk _]|Hn].
  - rewrite elem_of_range_keys, elem_of_dom in Hk. unfold map_get. by destruct Hk as [v ->].
  - destruct (map_of _ !! labelKueueQueueName) eqn:E; [|done]. exfalso. apply Hn.
    split; [|done]. apply elem_of_range_keys, elem_of_dom. eauto.
Qed.

Lemma buildAnnotations_marker req : buildAnnotations req !! annotationMarker = Some (jc_AttemptMarker req).
Proof.
  unfold buildAnnotations. destruct (streq _ ""); [by rewrite lookup_insert_eq|].
  by rewrite lookup_insert_ne, lookup_insert_eq.
Qed.
End labels.

(** ** The guard *)

(** What Kubernetes documents of the values and keys the program writes. *)
Class LabelLaws {L : LabelRules} := {
  legal_value v : legal_label_value v = true -> IsValidLabelValue v = [];
  own_keys k : k ∈ labelKueueQueueName :: program_labels -> IsQualifiedName k = [];
}.

Section guard.
Context {U : UnicodeTables} {RO : RangeOrder} {L : LabelRules} {LL : LabelLaws}.

Lemma check_map_None check (m : gmap string string) :
  check_map check m = None <-> forall k v, m !! k = Some v -> check k v = None.
Proof.
  unfold check_map.
  assert (H : forall ks, foldr (fun k rest => match check k (default "" (m !! k)) with
                 Some e => Some e | None => rest end) None ks = None <->
               forall k, k ∈ ks -> check k (default "" (m !! k)) = None).
  { induction ks as [|k ks IH]; cbn [foldr]; [split; [intros _ k Hk; by apply elem_of_nil in Hk|done]|].
    destruct (check k _) eqn:E.
    - split; [done|]. intros H. by rewrite H in E by left.
    - rewrite IH. split; [intros H k' [->|Hk]%elem_of_cons; auto|]. intros H k' Hk. apply H. by right. }
  rewrite H. split.
  - intros Hk k v Hv. specialize (Hk k). rewrite Hv in Hk. apply Hk.
    apply elem_of_range_keys, elem_of_dom. eauto.
  - intros Hk k [v Hv]%elem_of_range_keys%elem_of_dom. rewrite Hv. by apply Hk.
Qed.

Lemma validateLabel_None k v :
  validateLabel k v = None <-> IsQualifiedName k = [] /\ IsValidLabelValue v = [].
Proof. unfold validateLabel. destruct (IsQualifiedName k), (IsValidLabelValue v); intuition congruence. Qed.

(** What a user's label must satisfy. *)
Definition user_label_ok (k v : string) : Prop :=
  (k = labelKueueQueueName \/ has_prefix userLabelPrefix k = true /\ IsQualifiedName k = []) /\
  IsValidLabelValue v = [].

Lemma check_user_label_None k v : check_user_label k v = None <-> user_label_ok k v.
Proof.
  unfold check_user_label, user_label_ok. destruct (streq k labelKueueQueueName) eqn:E.
  - apply streq_eq in E. destruct (IsValidLabelValue v); intuition congruence.
  - apply streq_neq in E. destruct (has_prefix userLabelPrefix k); cbn [negb].
    + rewrite validateLabel_None. intuition congruence.
    + intuition congruence.
Qed.

(** A required node name contradicted by the selector's. *)
Definition placement_ok (p : option RtPlacement) : Prop :=
  forall q sel, p = Some q -> rpl_NodeSelector q = Some sel -> rpl_RequiredNodeName q <> "" ->
    let existing := TrimSpace (map_get (Some sel) hostnameNodeSelector) in
    existing = "" \/ existing = rpl_RequiredNodeName q.

Lemma validatePlacement_None p : validatePlacement p = None <-> placement_ok p.
Proof.
  unfold validatePlacement, placement_ok. destruct p as [q|]; [|by split].
  destruct (streq (rpl_RequiredNodeName q) "") eqn:E1; cbn [orb].
  { apply streq_eq in E1. split; [intros _ q' sel [= <-]; done|done]. }
  apply streq_neq in E1. destruct (rpl_NodeSelector q) as [sel|] eqn:E2; cbn [negb is_some].
  2:{ split; [intros _ q' sel [= <-]; congruence|done]. }
  set (existing := TrimSpace (map_get (Some sel) hostnameNodeSelector)).
  destruct (streq existing "") eqn:E3; cbn [negb andb].
  { apply streq_eq in E3. split; [|done]. intros _ q' sel' [= <-] Hs _; rewrite E2 in Hs; injection Hs as <-. by left. }
  destruct (streq existing (rpl_RequiredNodeName q)) eqn:E4; cbn [negb].
  - apply streq_eq in E4. split; [|done]. intros _ q' sel' [= <-] Hs _; rewrite E2 in Hs; injection Hs as <-. by right.
  - apply streq_neq in E3, E4. split; [done|]. intros H.
    destruct (H q sel eq_refl E2 E1); done.
Qed.

Lemma firstNonEmpty_blank l : TrimSpace (firstNonEmpty l) = "" <-> forall v, v ∈ l -> TrimSpace v = "".
Proof.
  induction l as [|v l IH]; cbn [firstNonEmpty].
  - split; [intros _ v Hv; by apply elem_of_nil in Hv|done].
  - destruct (streq (TrimSpace v) "") eqn:E; cbn [negb].
    + apply streq_eq in E. rewrite IH. split; [intros H w [->|Hw]%elem_of_cons; auto|].
      intros H w Hw. apply H. by right.
    + apply streq_neq in E. split; [done|]. intros H. apply H. left.
Qed.

Definition names_attempt (req : JobCreateRequest) : Prop :=
  let r := jc_AttemptRequest req in
  TrimSpace (arq_AttemptID r) <> "" /\
  (TrimSpace (arq_RunID r) <> "" \/ TrimSpace (map_get (arq_Env r) "JUMI_RUN_ID") <> "") /\
  TrimSpace (map_get (arq_Env r) "JUMI_NODE_ID") <> "".

(** The guard accepts exactly the requests that name their attempt, run and
    node, whose required node does not contradict their selector and whose own
    labels are legal: the labels that the program derives from the identities never
    make it refuse. *)
Theorem validateK8sJobCreateRequest_accepts req :
  validateK8sJobCreateRequest req = None <->
  names_attempt req /\ placement_ok (arq_Placement (jc_AttemptRequest req)) /\
  (forall k v, map_of (arq_UserLabels (jc_AttemptRequest req)) !! k = Some v -> user_label_ok k v).
Proof.
  unfold validateK8sJobCreateRequest, names_attempt. set (r := jc_AttemptRequest req).
  destruct (streq (TrimSpace (arq_AttemptID r)) "") eqn:E1.
  { apply streq_eq in E1. split; [done|]. by intros [[? _] _]. }
  apply streq_neq in E1. destruct (streq (TrimSpace (firstNonEmpty _)) "") eqn:E2.
  { apply streq_eq in E2. rewrite firstNonEmpty_blank in E2. split; [done|].
    intros [(_ & [H|H] & _) _]; exfalso; apply H, E2; set_solver. }
  apply streq_neq in E2. destruct (streq (TrimSpace (map_get _ "JUMI_NODE_ID")) "") eqn:E3.
  { apply streq_eq in E3. split; [done|]. by intros [(_ & _ & ?) _]. }
  apply streq_neq in E3.
  assert (Hrun : TrimSpace (arq_RunID r) <> "" \/ TrimSpace (map_get (arq_Env r) "JUMI_RUN_ID") <> "").
  { destruct (decide (TrimSpace (arq_RunID r) = "")) as [H1|]; [|by left].
    destruct (decide (TrimSpace (map_get (arq_Env r) "JUMI_RUN_ID") = "")) as [H2|]; [|by right].
    exfalso. apply E2, firstNonEmpty_blank. set_solver. }
  rewrite <- validatePlacement_None. destruct (validatePlacement _) as [e|] eqn:E4; [intuition congruence|].
  assert (Hu : (forall k v, map_of (arq_UserLabels r) !! k = Some v -> user_label_ok k v) <->
               check_map check_user_label (map_of (arq_UserLabels r)) = None).
  { rewrite check_map_None. setoid_rewrite check_user_label_None. done. }
  rewrite Hu. destruct (check_map check_user_label _) eqn:E5; [intuition congruence|].
  split; [intuition|]. intros _. apply check_map_None. intros k v Hv. apply validateLabel_None.
  apply buildLabels_lookup in Hv as [[Hv Hj]|[Hk Hv]].
  - apply (proj2 Hu eq_refl) in Hv as [[->|[_ Hk]] Hv]; [|done]. split; [|done].
    apply own_keys. left.
  - split; [|by apply legal_value]. apply own_keys. by right.
Qed.
End guard.

(** ** Submitting and deleting *)
Section client.
Context {U : UnicodeTables} {RO : RangeOrder} {Q : Quantities} {L : LabelRules} {R : SpawnerRuntime}.
Context {C : Type} {K : Cluster C} {KL : ClusterLaws C}.
Implicit Types (c : C) (req : JobCreateRequest) (ref : BackendRef).

Lemma built_name req : job_Name (buildK8sJob req) = jc_JobName req.
Proof. unfold buildK8sJob. by destruct (buildK8sVolumes _). Qed.

Lemma built_labels req : job_Labels (buildK8sJob req) = buildLabels req.
Proof. unfold buildK8sJob. by destruct (buildK8sVolumes _). Qed.

Lemma built_annotations req : job_Annotations (buildK8sJob req) = buildAnnotations req.
Proof. unfold buildK8sJob. by destruct (buildK8sVolumes _). Qed.

Definition ref_of req (j : Job) : BackendRef :=
  NewK8sJobBackendRef (jc_Namespace req) (jc_JobName req) (job_UID j).

(** A job that bears the marker, in its annotation or in its label. *)
Definition bears (marker : string) (j : Job) : Prop :=
  job_Annotations j !! annotationMarker = Some marker \/ job_Labels j !! labelAttemptMarker = Some marker.

Lemma marker_matches j marker : marker <> "" ->
  existingAttemptMarkerMatches j marker = true <-> bears marker j.
Proof.
  intros Hm. unfold existingAttemptMarkerMatches, label_of, bears. rewrite orb_true_iff, !streq_eq.
  destruct (job_Annotations j !! annotationMarker), (job_Labels j !! labelAttemptMarker);
    simpl; naive_solver.
Qed.

(** On a name that is taken. *)
Lemma Create_taken c req old :
  validateK8sJobCreateRequest req = None ->
  jobs_Get c (jc_Namespace req) (jc_JobName req) = Ok old ->
  Create c req = (c, if existingAttemptMarkerMatches old (jc_AttemptMarker req)
                     then Ok (ref_of req old) else Err ErrJobConflict).
Proof.
  intros Hv Hg. unfold Create. rewrite Hv.
  destruct (create_exists c (jc_Namespace req) (buildK8sJob req) old) as (e & He & Ha);
    [by rewrite built_name|].
  rewrite He, Ha, Hg. cbn [negb]. by destruct (existingAttemptMarkerMatches _ _).
Qed.

(** What a successful submission leaves. *)
Lemma Create_ok c c' req ref :
  Create c req = (c', Ok ref) -> validateK8sJobCreateRequest req = None /\
  exists j, jobs_Get c' (jc_Namespace req) (jc_JobName req) = Ok j /\ ref = ref_of req j /\
    existingAttemptMarkerMatches j (jc_AttemptMarker req) = true /\
    (c' = c \/ job_Annotations j = buildAnnotations req /\ job_Labels j = buildLabels req).
Proof.
  unfold Create. destruct (validateK8sJobCreateRequest req) eqn:Hv; [done|]. intros H. split; [done|].
  destruct (jobs_Create c _ _) as [c1 [made|e]] eqn:E.
  - injection H as <- <-. exists made. apply create_reads in E as (Hg & Hl & Ha).
    rewrite built_name in Hg. rewrite built_labels in Hl. rewrite built_annotations in Ha.
    split_and!; [done|done| |by right].
    unfold existingAttemptMarkerMatches, label_of.
    by rewrite Ha, buildAnnotations_marker, streq_refl.
  - destruct (negb (IsAlreadyExists e)) eqn:Ee; [done|].
    destruct (jobs_Get c1 _ _) as [old|e'] eqn:Hg; [|done].
    destruct (existingAttemptMarkerMatches old _) eqn:Em; [|done]. injection H as <- <-.
    exists old. split_and!; try done. left.
    apply negb_false_iff in Ee. by eapply create_refused.
Qed.

(** C19. Submitting is idempotent: repeating a submission that succeeded answers
    the same handle and leaves the cluster alone; and while its job is there, any
    accepted request for the same name is answered with that job if the job bears
    its marker and refused as a conflict if not, without a change. *)
Theorem Create_idempotent c c' req ref :
  jc_AttemptMarker req <> "" ->
  Create c req = (c', Ok ref) ->
  Create c' req = (c', Ok ref) /\
  exists j, jobs_Get c' (jc_Namespace req) (jc_JobName req) = Ok j /\
    ref = ref_of req j /\ bears (jc_AttemptMarker req) j /\
    forall req', validateK8sJobCreateRequest req' = None ->
      jc_Namespace req' = jc_Namespace req -> jc_JobName req' = jc_JobName req ->
      jc_AttemptMarker req' <> "" ->
      (bears (jc_AttemptMarker req') j -> Create c' req' = (c', Ok ref)) /\
      (~ bears (jc_AttemptMarker req') j -> Create c' req' = (c', Err ErrJobConflict)).
Proof.
  intros Hm H. apply Create_ok in H as (Hv & j & Hg & -> & Hj & _). split.
  - by rewrite (Create_taken c' req j), Hj by done.
  - exists j. split_and!; [done|done|by apply marker_matches|].
    intros req' Hv' Hn Hname Hm'.
    assert (Hr : ref_of req' j = ref_of req j) by (unfold ref_of; by rewrite Hn, Hname).
    rewrite (Create_taken c' req' j), Hr by (done || by rewrite Hn, Hname).
    rewrite <- (marker_matches j) by done.
    destruct (existingAttemptMarkerMatches j (jc_AttemptMarker req')); split; done || congruence.
Qed.

(** C29. Deleting by a reference with a UID removes no other job, even when the
    job of that name was replaced after it was read: a job of another name or of
    another UID is still there. *)
Theorem Delete_only_its_job got c ref ns name j :
  br_UID ref <> "" ->
  jobs_Get c ns name = Ok j ->
  (ns, name, job_UID j) <> (br_Namespace ref, br_Name ref, br_UID ref) ->
  jobs_Get (delete_after got c ref).1 ns name = Ok j.
Proof.
  intros Hu Hg Hne.
  assert (Hd : jobs_Get (delete_job c ref).1 ns name = Ok j).
  { unfold delete_job, deletePreconditions. rewrite (proj2 (streq_neq _ _) Hu).
    destruct (decide ((br_Namespace ref, br_Name ref) = (ns, name))) as [[= Hn Hm]|Hn].
    - rewrite Hn, Hm in Hne |- *.
      pose proof (delete_other_uid c ns name j (br_UID ref) Hg) as Hk.
      destruct (jobs_Delete c ns name _) as [c1 [e|]]; cbn [fst] in *; rewrite Hk; congruence.
    - pose proof (delete_other_name c _ _ _ _ (Some (br_UID ref)) Hn) as Hk.
      destruct (jobs_Delete c _ _ _) as [c1 [e|]]; cbn [fst] in *; by rewrite Hk. }
  unfold delete_after. rewrite (proj2 (streq_neq _ _) Hu).
  destruct got as [g|e]; [|done]. by destruct (streq (job_UID g) _).
Qed.
End client.
