(* ===== verification/JobWatchFacts.v ===== *)
(** * The Kubernetes job client: its watch

    The protocol of the watch's channels, for every sequence of what it may
    receive, and the evidence behind a reported success. *)
From S2P Require Import Prelude GoStrings GoErrors K8sTypes JobClient.

Section watch.
Context {Q : Quantities} {R : SpawnerRuntime} {RL : SpawnerLaws} {C : Type} {K : Cluster C}.
Implicit Types (w : watched) (ws : list wake).

Definition terminal (ev : JobEvent) : bool := AttemptState_IsTerminal (je_State ev).

(** The end of the context, seen by the loop or by a delivery. *)
Definition context_ended (w : wake) : bool :=
  match w with
  | WakeDone => true
  | WakeJob _ _ _ delivered | WakePod _ _ _ delivered => negb delivered
  | _ => false
  end.

Definition ended_within ws : Prop := Exists (fun k => context_ended k = true) ws.

(** What the consumer of the channels relies on; [ended] is whether the context
    has ended. *)
Record protocol (ended : Prop) (w : watched) : Prop := {
  pr_events : exists live term, wd_events w = live ++ term /\ Forall (fun ev => terminal ev = false) live /\
    (term = [] \/ exists ev, term = [ev] /\ terminal ev = true /\ wd_returned w = true /\ wd_error w = None);
  pr_error e : wd_error w = Some e -> wd_returned w = true /\ jw_Temporary e = true;
  pr_returned : wd_returned w = true ->
    (exists ev, last (wd_events w) = Some ev /\ terminal ev = true) \/ is_Some (wd_error w) \/ ended;
}.

Lemma protocol_weaken (P P' : Prop) w : (P -> P') -> protocol P w -> protocol P' w.
Proof. intros HP [H1 H2 H3]. split; [done|done|]. intros H. destruct (H3 H) as [|[|]]; auto. Qed.

Lemma protocol_returned (P : Prop) : P -> protocol P returned.
Proof. intros HP. split; [|done|by auto]. exists [], []. auto. Qed.

Lemma protocol_failed (P : Prop) e : jw_Temporary e = true -> protocol P (failed_with e).
Proof.
  intros He. split; [exists [], []; auto| |].
  - intros e' [= <-]. done.
  - intros _. right. left. by eexists.
Qed.

Lemma protocol_last (P : Prop) d ev : (d = false -> P) -> terminal ev = true -> protocol P (send d ev returned).
Proof.
  intros HP Ht. destruct d; [|by apply protocol_returned, HP]. split; [|done|].
  - exists [], [ev]. split_and!; [done|done|]. right. by exists ev.
  - intros _. left. by exists ev.
Qed.

Lemma protocol_send (P : Prop) d ev w :
  (d = false -> P) -> terminal ev = false -> protocol P w -> protocol P (send d ev w).
Proof.
  intros HP Ht [(live & term & E & Hl & Hterm) H2 H3]. destruct d; [|by apply protocol_returned, HP].
  split; [|done|].
  - exists (ev :: live), term. split_and!; [by cbn [send wd_events]; rewrite E| |done].
    by constructor.
  - intros H. destruct (H3 H) as [(ev' & Hlast & Ht')|Ho]; [left|by right].
    exists ev'. split; [|done]. cbn [send wd_events]. by rewrite last_cons, Hlast.
Qed.

Lemma watch_loop_protocol first ref open ws :
  protocol (ended_within ws) (watch_loop first ref open ws).
Proof.
  revert open. induction ws as [|w ws IH]; intros open.
  { split; [exists [], []; auto|done|done]. }
  assert (IH' : forall open, protocol (ended_within (w :: ws))
                               (watch_loop first ref open ws)).
  { intros o. eapply protocol_weaken; [|apply IH]. by right. }
  destruct w as [| |t o now d| |t o now d]; cbn [watch_loop].
  - apply protocol_returned. by left.
  - by apply protocol_failed.
  - assert (Hd : d = false -> ended_within (WakeJob t o now d :: ws)) by (intros ->; by left).
    assert (Hj : protocol (ended_within (WakeJob t o now d :: ws))
      match o with
      | ObjJob j =>
          if negb (jobMatchesBackendRef j ref) || negb (jobMatchesIdentityLabels j (job_Labels first))
          then watch_loop first ref open ws
          else if AttemptState_IsTerminal (je_State (job_event now j)) then send d (job_event now j) returned
               else send d (job_event now j) (watch_loop first ref open ws)
      | _ => watch_loop first ref open ws
      end).
    { destruct o; try apply IH'. destruct (_ || _); [apply IH'|].
      destruct (AttemptState_IsTerminal _) eqn:E; [by apply protocol_last|by apply protocol_send]. }
    destruct t; try exact Hj.
    + apply protocol_last; [done|]. apply failed_terminal.
    + repeat case_match; by apply protocol_failed.
  - apply IH'.
  - assert (Hd : d = false -> ended_within (WakePod t o now d :: ws)) by (intros ->; by left).
    destruct t; try apply IH'; (destruct o; try apply IH'; destruct (_ || _); [apply IH'|];
      unfold podPhaseToState; destruct (pod_Phase p); try apply IH';
      (apply protocol_send; [done| |apply IH']); unfold terminal; cbn [je_State];
      apply pending_live || apply running_live).
Qed.
(** A turn of the loop after which nothing more is received. *)
Definition ending (first : Job) (ref : BackendRef) (k : wake) : bool :=
  match k with
  | WakeDone | WakeJobClosed | WakeJob EvDeleted _ _ _ | WakeJob EvError _ _ _ => true
  | WakeJob _ (ObjJob j) now _ =>
      jobMatchesBackendRef j ref && jobMatchesIdentityLabels j (job_Labels first)
      && terminal (job_event now j)
  | _ => false
  end.

Lemma send_returned d ev w : wd_returned w = true -> wd_returned (send d ev w) = true.
Proof. by destruct d. Qed.

Lemma watch_loop_returns first ref open ws :
  Exists (fun k => ending first ref k = true) ws -> wd_returned (watch_loop first ref open ws) = true.
Proof.
  intros H. revert open. induction H as [k ws Hk|k ws _ IH]; intros open.
  - destruct k as [| |t o now d| |]; try done. destruct t; cbn [watch_loop ending] in *.
    all: try (by apply send_returned); try (by repeat case_match).
    all: destruct o; try done; rewrite !andb_true_iff in Hk; destruct Hk as [[-> ->] Hk];
      unfold terminal in Hk; cbn [negb orb]; rewrite Hk; by apply send_returned.
  - destruct k as [| |t o now d| |t o now d]; cbn [watch_loop]; try done; try apply IH;
      repeat case_match; try done; try apply IH; apply send_returned; done || apply IH.
Qed.

(** The job that was read first is gone, or is another one. *)
Definition no_such_job (c : C) (ref : BackendRef) : Prop :=
  match jobs_Get c (br_Namespace ref) (br_Name ref) with
  | Err e => IsNotFound e = true
  | Ok job => jobMatchesBackendRef job ref = false
  end.

(** C20. The protocol of the watch, whatever is received and in whatever order: at
    most one terminal event is sent and it is the last; an error is sent only
    without one, and is temporary; and the goroutine returns only after one of
    them, for want of a job, or because the context ended. It does return as soon
    as it is told that the context, the stream or the job has ended. *)
Theorem watchJob_protocol c now ref delivered jobWatch podWatch ws :
  let w := watchJob c now ref delivered jobWatch podWatch ws in
  protocol (no_such_job c ref \/ delivered = false \/ ended_within ws) w /\
  ((forall job, jobs_Get c (br_Namespace ref) (br_Name ref) = Ok job ->
      Exists (fun k => ending job ref k = true) ws) -> wd_returned w = true).
Proof.
  cbn zeta. unfold watchJob, no_such_job.
  destruct (jobs_Get c _ _) as [job|e].
  2:{ destruct (IsNotFound e) eqn:E; split; try done; [by apply protocol_returned; left|by apply protocol_failed]. }
  destruct (jobMatchesBackendRef job ref) eqn:E; cbn [negb].
  2:{ split; [by apply protocol_returned; left|done]. }
  destruct (AttemptState_IsTerminal _) eqn:Et.
  { split; [|by intros _; apply send_returned]. apply protocol_last; [|done]. intros ->. auto. }
  destruct jobWatch as [e|]; [split; [by apply protocol_failed|done]|]. split.
  - eapply protocol_weaken; [|apply watch_loop_protocol]. auto.
  - intros H. by apply watch_loop_returns, H.
Qed.

(** The job was seen: read first, or received. *)
Definition seen (c : C) (ref : BackendRef) ws (j : Job) : Prop :=
  jobs_Get c (br_Namespace ref) (br_Name ref) = Ok j \/
  exists t now d, WakeJob t (ObjJob j) now d ∈ ws.

Definition completed (j : Job) : Prop := exists c, c ∈ job_Conditions j /\ condition_holds JobComplete c = true.

Lemma event_completed now j : je_State (job_event now j) = AttemptStateSucceeded -> completed j.
Proof.
  unfold job_event, jobToState. destruct (find_first (condition_holds JobComplete) _) as [k|] eqn:E.
  { intros _. exists k. by apply find_first_Some. }
  pose proof succeeded_terminal as Hs. pose proof submitted_live as Hsub. pose proof pending_live as Hp.
  destruct (find_first (condition_holds JobFailed) _); [intros H; by destruct succeeded_failed|].
  destruct (job_Suspend j) as [[]|]; cbn; congruence.
Qed.

Lemma in_send d ev rest x : x ∈ wd_events (send d ev rest) -> x = ev \/ x ∈ wd_events rest.
Proof. destruct d; cbn; [by intros [->|]%elem_of_cons; auto|by intros ?%elem_of_nil]. Qed.

Lemma watch_loop_evidence first ref open ws ev :
  ev ∈ wd_events (watch_loop first ref open ws) -> je_State ev = AttemptStateSucceeded ->
  exists j t now d, WakeJob t (ObjJob j) now d ∈ ws /\ jobMatchesBackendRef j ref = true /\ completed j.
Proof.
  pose proof succeeded_terminal as Hs. pose proof pending_live as Hp. pose proof running_live as Hr.
  pose proof succeeded_failed as Hsf. intros Hev Hst. revert open Hev.
  induction ws as [|k ws IH]; intros open Hev; [by apply elem_of_nil in Hev|].
  assert (IH' : forall o, ev ∈ wd_events (watch_loop first ref o ws) ->
      exists j t now d, WakeJob t (ObjJob j) now d ∈ k :: ws /\ jobMatchesBackendRef j ref = true /\ completed j).
  { intros o (j & t & now & d & Hin & Hj)%IH. exists j, t, now, d. split; [by right|done]. }
  destruct k as [| |t o now d| |t o now d]; cbn [watch_loop] in Hev; try by apply elem_of_nil in Hev.
  - destruct o as [j|p|code|].
    2-4: destruct t; try (by eapply IH'); repeat case_match; try (by apply elem_of_nil in Hev);
      apply in_send in Hev as [->|Hev%elem_of_nil]; try done; by destruct Hsf.
    assert (Hj : ev ∈ wd_events (if negb (jobMatchesBackendRef j ref) || negb (jobMatchesIdentityLabels j (job_Labels first))
          then watch_loop first ref open ws
          else if AttemptState_IsTerminal (je_State (job_event now j)) then send d (job_event now j) returned
               else send d (job_event now j) (watch_loop first ref open ws)) ->
      exists j' t' now' d', WakeJob t' (ObjJob j') now' d' ∈ WakeJob t (ObjJob j) now d :: ws /\
        jobMatchesBackendRef j' ref = true /\ completed j').
    { destruct (jobMatchesBackendRef j ref) eqn:Em; [|apply IH'].
      destruct (negb _ || _); [apply IH'|]. intros H.
      assert (Hor : ev = job_event now j \/ ev ∈ wd_events (watch_loop first ref open ws)).
      { destruct (AttemptState_IsTerminal (je_State (job_event now j))); apply in_send in H as [H|H]; auto. by apply elem_of_nil in H. }
      destruct Hor as [->|Hor]; [|by eapply IH'].
      exists j, t, now, d. split_and!; [left|done|by eapply event_completed]. }
    destruct t; try (apply Hj, Hev).
    + apply in_send in Hev as [->|Hev%elem_of_nil]; [|done]. by destruct Hsf.
    + by apply elem_of_nil in Hev.
  - by eapply IH'.
  - destruct t, o as [j|p|code|]; try (by eapply IH'); destruct (_ || _); try (by eapply IH');
      unfold podPhaseToState in Hev; destruct (pod_Phase p); try (by eapply IH');
      apply in_send in Hev as [->|Hev]; try (by eapply IH'); cbn in Hst; congruence.
Qed.

(** C21. A success is reported only on evidence: the watch was shown a job of the
    reference's UID with a true [Complete] condition. Neither a pod, nor a
    deletion, nor a job that took the name over makes it report one. *)
Theorem watchJob_success_on_evidence c now ref delivered jobWatch podWatch ws ev :
  ev ∈ wd_events (watchJob c now ref delivered jobWatch podWatch ws) ->
  je_State ev = AttemptStateSucceeded ->
  exists j, seen c ref ws j /\ (br_UID ref = "" \/ job_UID j = br_UID ref) /\ completed j.
Proof.
  intros Hev Hst.
  assert (H : exists j, seen c ref ws j /\ jobMatchesBackendRef j ref = true /\ completed j).
  { unfold watchJob in Hev. destruct (jobs_Get c _ _) as [job|e] eqn:Eg.
    2:{ destruct (IsNotFound e); by apply elem_of_nil in Hev. }
    destruct (jobMatchesBackendRef job ref) eqn:E; cbn [negb] in Hev; [|by apply elem_of_nil in Hev].
    destruct (AttemptState_IsTerminal _).
    { apply in_send in Hev as [->|Hev%elem_of_nil]; [|done].
      exists job. split_and!; [by left|done|by eapply event_completed]. }
    destruct jobWatch; [by apply elem_of_nil in Hev|].
    destruct (watch_loop_evidence _ _ _ _ _ Hev Hst) as (j & t & n & d & Hin & Hj).
    exists j. split; [right; by exists t, n, d|done]. }
  destruct H as (j & Hs & Hm & Hc). exists j. split_and!; [done| |done].
  unfold jobMatchesBackendRef in Hm. apply orb_true_iff in Hm as [Hm|Hm]; apply streq_eq in Hm; auto.
Qed.
End watch.
