(* ===== verification/Contract.v ===== *)
(** * What a job is asked to do ([src/pkg/backend/spawner_k8s.go])

    The pure part of the adapter: the node contract handed to the process, the
    environment and the command around it, and the attempt request built from a
    run and a node. *)
From S2P Require Import Prelude GoStrings GoErrors GoPath GoTime GoJson GoStrconv Spec Provenance K8sTypes JobClient.
From Stdlib Require Import Ascii NArith.

Definition outputManifestModeMetadataKey : string := "jumi.outputManifestMode".
Definition outputManifestModeRuntimeHelper : string := "runtime-helper".
Definition ArtifactHelperPath : string := "/usr/local/bin/nan".
Definition ArtifactHelperPathEnv : string := "JUMI_ARTIFACT_HELPER_PATH".
Definition nodeContractSchemaVersion : string := "nan.nodeContract.v1".
Definition defaultNodeContractPath : string := "/jumi/node-contract.json".

(** ** Environments *)
Abbreviation envmap := (gmap string string) (only parsing).

Definition cloneEnv (src : option (gmap string string)) : gmap string string := map_of src.

Definition setEnvDefault (key value : string) (env : gmap string string) : gmap string string :=
  match env !! key with Some _ => env | None => <[key := value]> env end.

(** [contractFirstNonEmpty] is the job client's [firstNonEmpty]. *)
Definition contractFirstNonEmpty : list string -> string := firstNonEmpty.

Definition contractInputEnvSuffixes : list string :=
  ["_URI"; "_EXPECTED_DIGEST"; "_EXPECTED_SIZE_BYTES"; "_MATERIALIZATION_MODE";
   "_NODE_LOCAL_PATH"; "_LOCAL_PATH"].

Definition inputPrefix : string := "JUMI_INPUT_".

Definition is_contract_input (key : string) : bool :=
  has_prefix inputPrefix key && existsb (fun suffix => has_suffix suffix key) contractInputEnvSuffixes.

Definition stripContractInputEnv {RO : RangeOrder} (env : gmap string string) : gmap string string :=
  foldl (fun env key => if is_contract_input key then delete key env else env) env (range_keys (dom env)).

(** ** The node contract *)
Record nodeContractPaths := mkNodeContractPaths {
  ncp_InputRoot : string; ncp_WorkRoot : string; ncp_OutputRoot : string; ncp_ManifestPath : string }.

Record nodeContractOutput := mkNodeContractOutput {
  nco_Name : string; nco_Path : string; nco_Required : bool; nco_Type : string }.

Record nodeContractInput := mkNodeContractInput {
  nci_Name : string;
  nci_URI : string;
  nci_ExpectedDigest : string;
  nci_ExpectedSizeBytes : Z;
  nci_MaterializationMode : string;
  nci_NodeLocalPath : string;
  nci_LocalPath : string;
}.

Record nodeContractRuntime := mkNodeContractRuntime {
  ncr_InspectOnSuccessOnly : bool;
  ncr_FailOnMissingRequiredOutput : bool;
  ncr_AllowDirectoryOutput : bool;
}.

Record nodeContractFile := mkNodeContractFile {
  ncf_SchemaVersion : string;
  ncf_RunID : string;
  ncf_SampleRunID : string;
  ncf_NodeID : string;
  ncf_AttemptID : string;
  ncf_Paths : nodeContractPaths;
  ncf_Inputs : list nodeContractInput;
  ncf_Outputs : list nodeContractOutput;
  ncf_Runtime : nodeContractRuntime;
}.

Record partialNodeContractInput := mkPartialNodeContractInput {
  pci_uri : string;
  pci_expectedDigest : string;
  pci_expectedSizeBytes : string;
  pci_materializationMode : string;
  pci_nodeLocalPath : string;
  pci_localPath : string;
}.

#[export] Instance eta_partialNodeContractInput : Eta partialNodeContractInput := fun r =>
  mkPartialNodeContractInput (pci_uri r) (pci_expectedDigest r) (pci_expectedSizeBytes r)
    (pci_materializationMode r) (pci_nodeLocalPath r) (pci_localPath r).

Definition zero_partial : partialNodeContractInput := mkPartialNodeContractInput "" "" "" "" "" "".

(** The assignments of the cases of the switch, in its order. *)
Definition contract_cases : list (string * (string -> partialNodeContractInput -> partialNodeContractInput)) :=
  [("_URI", fun v p => p <| pci_uri := v |>);
   ("_EXPECTED_DIGEST", fun v p => p <| pci_expectedDigest := v |>);
   ("_EXPECTED_SIZE_BYTES", fun v p => p <| pci_expectedSizeBytes := v |>);
   ("_MATERIALIZATION_MODE", fun v p => p <| pci_materializationMode := v |>);
   ("_NODE_LOCAL_PATH", fun v p => p <| pci_nodeLocalPath := v |>);
   ("_LOCAL_PATH", fun v p => p <| pci_localPath := v |>)].

(** [ensureNodeContractInput] and the assignment through the pointer it answers. *)
Definition assign_input (base : string) (f : partialNodeContractInput -> partialNodeContractInput)
    (byBase : gmap string partialNodeContractInput) : gmap string partialNodeContractInput :=
  <[base := f (default zero_partial (byBase !! base))]> byBase.

Definition collect_input (env : gmap string string)
    (byBase : gmap string partialNodeContractInput) (key : string) : gmap string partialNodeContractInput :=
  if negb (has_prefix inputPrefix key) then byBase
  else
    match find_first (fun c => has_suffix c.1 key) contract_cases with
    | Some (suffix, assign) =>
        let base := trim_suffix suffix (trim_prefix inputPrefix key) in
        assign_input base (assign (default "" (env !! key))) byBase
    | None => byBase
    end.

Section contract.
Context {U : UnicodeTables} {RO : RangeOrder}.

(** The input of a key, unless its mode is none. *)
Definition contract_input (base : string) (p : partialNodeContractInput) : option nodeContractInput :=
  let mode := TrimSpace (pci_materializationMode p) in
  if streq mode "" || streq mode "none" then None
  else
    let sizeText := TrimSpace (pci_expectedSizeBytes p) in
    Some {|
      nci_Name := ToLower base;
      nci_URI := TrimSpace (pci_uri p);
      nci_ExpectedDigest := TrimSpace (pci_expectedDigest p);
      nci_ExpectedSizeBytes :=
        if streq sizeText "" then 0
        else match ParseInt sizeText with
             | Some size => if (0 <=? size)%Z then size else 0
             | None => 0
             end;
      nci_MaterializationMode := mode;
      nci_NodeLocalPath := TrimSpace (pci_nodeLocalPath p);
      nci_LocalPath := TrimSpace (pci_localPath p);
    |}.

Definition buildNodeContractInputs (env : option (gmap string string)) : list nodeContractInput :=
  let byBase := foldl (collect_input (map_of env)) ∅ (range_keys (dom (map_of env))) in
  let names := sort_strings (range_keys (dom byBase)) in
  omap (fun base => contract_input base (default zero_partial (byBase !! base))) names.

Definition contract_output (output : string) : nodeContractOutput :=
  mkNodeContractOutput output output true "file".

Context {JC : Json nodeContractFile}.

Definition node_contract (run : RunRecord) (node : Node) (outputs : list string) : nodeContractFile :=
  {|
    ncf_SchemaVersion := nodeContractSchemaVersion;
    ncf_RunID := rr_RunID run;
    ncf_SampleRunID := rm_SampleRunID (es_Run (rr_Spec run));
    ncf_NodeID := n_NodeID node;
    ncf_AttemptID := TrimSpace (map_get (n_Env node) "JUMI_ATTEMPT_ID");
    ncf_Paths := {|
      ncp_InputRoot := Clean (join_slash ["/work"; "inputs"]);
      ncp_WorkRoot := "/work";
      ncp_OutputRoot := TrimSpace (contractFirstNonEmpty [map_get (n_Env node) "JUMI_OUTPUT_ROOT"; "/out"]);
      ncp_ManifestPath := TrimSpace (contractFirstNonEmpty
        [map_get (n_Env node) "JUMI_OUTPUT_MANIFEST_PATH"; DefaultArtifactsManifestPath]);
    |};
    ncf_Inputs := buildNodeContractInputs (n_Env node);
    ncf_Outputs := contract_output <$> List.filter (fun o => negb (streq (TrimSpace o) "")) outputs;
    ncf_Runtime := mkNodeContractRuntime true true false;
  |}.

Definition buildNodeContractJSON (run : RunRecord) (node : Node) (outputs : list string) : res string :=
  Marshal (node_contract run node outputs).

(** ** The environment and the command *)
Definition manifestExportMode (node : Node) : string :=
  match n_Outputs node, n_Metadata node with
  | [], _ | _, None => ""
  | _, Some _ =>
      let mode := map_get (n_Metadata node) outputManifestModeMetadataKey in
      if streq mode outputManifestModeRuntimeHelper then mode else ""
  end.

Definition injectOutputContractEnv (env : gmap string string) (run : RunRecord) (node : Node)
    : gmap string string :=
  let outputs := List.filter (fun o => negb (streq o "")) (n_Outputs node) in
  if (length outputs =? 0)%nat then env
  else
    let outputs := sort_strings outputs in
    let env := setEnvDefault "JUMI_OUTPUT_MANIFEST_ENABLED" "true" env in
    let env := setEnvDefault "JUMI_OUTPUT_ROOT" "/out" env in
    let env := setEnvDefault "JUMI_OUTPUT_MANIFEST_PATH" DefaultArtifactsManifestPath env in
    let env := setEnvDefault "JUMI_OUTPUT_NAMES" (str_join "," outputs) env in
    let env := setEnvDefault "JUMI_RUN_ID" (rr_RunID run) env in
    let env := setEnvDefault "JUMI_NODE_ID" (n_NodeID node) env in
    let sampleRunID := rm_SampleRunID (es_Run (rr_Spec run)) in
    let env := if streq sampleRunID "" then env else setEnvDefault "JUMI_SAMPLE_RUN_ID" sampleRunID env in
    match buildNodeContractJSON run node outputs with
    | Err _ => env
    | Ok contractJSON =>
        let env := setEnvDefault "JUMI_NODE_CONTRACT_PATH" defaultNodeContractPath env in
        let env := setEnvDefault "JUMI_NODE_CONTRACT_JSON" contractJSON env in
        if streq (manifestExportMode node) outputManifestModeRuntimeHelper
        then stripContractInputEnv env else env
    end.

(** [os.Getenv] *)
Context (Getenv : string -> string).

Definition artifactHelperCommandPath : string :=
  let configured := TrimSpace (Getenv ArtifactHelperPathEnv) in
  if streq configured "" then ArtifactHelperPath else configured.

Definition newline : string := bytes_of [10]%N.

(** The script, line by line. *)
Definition quoted (s : string) : string := dquote +:+ s +:+ dquote.

Definition contract_script : string :=
  newline +:+ "contract_path=" +:+ quoted ("${JUMI_NODE_CONTRACT_PATH:-" +:+ defaultNodeContractPath +:+ "}")
  +:+ newline +:+ "contract_dir=" +:+ quoted "${contract_path%/*}"
  +:+ newline +:+ "if [ " +:+ quoted "$contract_dir" +:+ " = " +:+ quoted "$contract_path" +:+ " ]; then"
  +:+ newline +:+ "  contract_dir=" +:+ quoted "."
  +:+ newline +:+ "fi"
  +:+ newline +:+ "mkdir -p " +:+ quoted "${contract_path%/*}"
  +:+ newline +:+ "printf '%s' " +:+ quoted "${JUMI_NODE_CONTRACT_JSON:?missing JUMI_NODE_CONTRACT_JSON}"
  +:+ " > " +:+ quoted "$contract_path"
  +:+ newline +:+ "exec " +:+ quoted artifactHelperCommandPath +:+ " run --contract "
  +:+ quoted "$contract_path" +:+ " -- " +:+ quoted "$@" +:+ newline.

Definition wrapCommandForManifestExport (command : list string) (node : Node) : list string :=
  if streq (manifestExportMode node) "" || (length command =? 0)%nat then command
  else ["/bin/sh"; "-ceu"; contract_script; "jumi-node-contract"] ++ command.

(** ** The attempt request *)
Definition toRuntimeMount (m : Mount) : RtMount :=
  let hostpath := has_prefix "hostpath:" (mt_Source m) in
  {| rtm_Kind := if hostpath then MountKindHostPath else MountKindPVC;
     rtm_Source := if hostpath then trim_prefix "hostpath:" (mt_Source m) else mt_Source m;
     rtm_Target := mt_Target m;
     rtm_ReadOnly := EqualFold (mt_Mode m) "ro" || EqualFold (mt_Mode m) "readonly" |}.

Definition kueueQueueName (node : Node) : string :=
  match n_Kueue node with Some k => kh_QueueName k | None => "" end.

Definition toRuntimePlacement (p : PlacementHints) : RtPlacement :=
  {| rpl_NodeSelector := ph_NodeSelector p;
     rpl_RequiredNodeName := ph_RequiredNodeName p;
     rpl_PreferredNodes :=
       (fun pn => mkRtPreferredNode (wnp_NodeName pn) (wnp_Weight pn)) <$> ph_PreferredNodes p |}.

Definition toUserLabels (node : Node) : gmap string string :=
  match n_Kueue node with
  | None => ∅
  | Some k =>
      let queue : gmap string string :=
        if streq (kh_QueueName k) "" then ∅ else {[ labelKueueQueueName := kh_QueueName k ]} in
      foldl (fun labels key => if has_prefix userLabelPrefix key
                               then <[key := map_get (kh_Labels k) key]> labels else labels)
        queue (range_keys (dom (map_of (kh_Labels k))))
  end.

Definition toUserAnnotations (run : RunRecord) (node : Node) : gmap string string :=
  let traceID := rm_TraceID (es_Run (rr_Spec run)) in
  if streq traceID "" then map_of (n_Metadata node)
  else <["jumi.trace-id" := traceID]> (map_of (n_Metadata node)).

Definition toAttemptRequest (run : RunRecord) (node : Node) : AttemptRequest :=
  {| arq_AttemptID := map_get (n_Env node) "JUMI_ATTEMPT_ID";
     arq_RunID := rr_RunID run;
     arq_CorrelationID := rm_TraceID (es_Run (rr_Spec run));
     arq_ImageRef := n_Image node;
     arq_Command := wrapCommandForManifestExport (n_Command node ++ n_Args node) node;
     arq_WorkingDir := n_WorkingDir node;
     arq_Env := Some (injectOutputContractEnv (cloneEnv (n_Env node)) run node);
     arq_Resources := mkRtResources (rp_CPU (n_ResourceProfile node)) (rp_Memory (n_ResourceProfile node));
     arq_ServiceAccountName := n_ServiceAccountName node;
     arq_Mounts := toRuntimeMount <$> n_Mounts node;
     arq_Placement := toRuntimePlacement <$> n_Placement node;
     arq_UserLabels := Some (toUserLabels node);
     arq_UserAnnotations := Some (toUserAnnotations run node);
     arq_TTLSecondsAfterFinished := cp_TTLSecondsAfterFinished (n_CleanupPolicy node);
     arq_AttemptTimeout :=
       if (0 <? tp_Seconds (n_TimeoutPolicy node))%Z
       then wrap64 (tp_Seconds (n_TimeoutPolicy node) * Second) else 0 |}.
End contract.
