(* ===== verification/ContractFacts.v ===== *)
(** * The node contract: from the resolved bindings to the contract's inputs

    The executor exports what it resolved as environment variables, the adapter
    reads them back into the inputs of the contract. *)
From S2P Require Import Prelude GoStrings GoErrors GoDuration GoStrconv Spec Handoff Binding K8sTypes JobClient LabelFacts Contract.
From Stdlib Require Import Ascii NArith.
From stdpp Require Import sorting.

(** ** The slots of the switch *)

(** Which input a key belongs to, and as what. *)
Definition slot (key : string) : option (string * string) :=
  if negb (has_prefix inputPrefix key) then None
  else (fun c => (trim_suffix c.1 (trim_prefix inputPrefix key), c.1))
         <$> find_first (fun c => has_suffix c.1 key) contract_cases.

(** The field that a suffix stands for. *)
Definition field (suffix : string) (p : partialNodeContractInput) : string :=
  if streq suffix "_URI" then pci_uri p
  else if streq suffix "_EXPECTED_DIGEST" then pci_expectedDigest p
  else if streq suffix "_EXPECTED_SIZE_BYTES" then pci_expectedSizeBytes p
  else if streq suffix "_MATERIALIZATION_MODE" then pci_materializationMode p
  else if streq suffix "_NODE_LOCAL_PATH" then pci_nodeLocalPath p
  else pci_localPath p.

Lemma assign_field c v p t :
  c ∈ contract_cases -> t ∈ contractInputEnvSuffixes ->
  field t (c.2 v p) = if decide (t = c.1) then v else field t p.
Proof.
  unfold contract_cases, contractInputEnvSuffixes. rewrite !elem_of_cons, !elem_of_nil.
  intros [->|[->|[->|[->|[->|[->|[]]]]]]] [->|[->|[->|[->|[->|[->|[]]]]]]]; by destruct p.
Qed.

Lemma partial_ext p q :
  (forall t, t ∈ contractInputEnvSuffixes -> field t p = field t q) -> p = q.
Proof.
  intros H. unfold contractInputEnvSuffixes in H.
  pose proof (H "_URI" ltac:(repeat constructor)) as H1.
  pose proof (H "_EXPECTED_DIGEST" ltac:(repeat constructor)) as H2.
  pose proof (H "_EXPECTED_SIZE_BYTES" ltac:(repeat constructor)) as H3.
  pose proof (H "_MATERIALIZATION_MODE" ltac:(repeat constructor)) as H4.
  pose proof (H "_NODE_LOCAL_PATH" ltac:(repeat constructor)) as H5.
  pose proof (H "_LOCAL_PATH" ltac:(repeat constructor)) as H6.
  destruct p, q. cbv in H1, H2, H3, H4, H5, H6. by subst.
Qed.

Lemma collect_input_slot env m key :
  match slot key with
  | None => collect_input env m key = m
  | Some (b, s) => exists c, c ∈ contract_cases /\ c.1 = s /\
      collect_input env m key = assign_input b (c.2 (default "" (env !! key))) m
  end.
Proof.
  unfold slot, collect_input. destruct (negb _); [done|].
  destruct (find_first _ contract_cases) as [[s f]|] eqn:E; [|done].
  apply find_first_Some in E as [Hc _]. cbn. by exists (s, f).
Qed.

Lemma find_first_fst {B} (l : list (string * B)) f c : find_first (fun c => f c.1) l = Some c -> c.1 ∈ l.*1.
Proof. intros [H _]%find_first_Some. by apply list_elem_of_fmap_2. Qed.

Lemma slot_suffix key b s : slot key = Some (b, s) -> s ∈ contractInputEnvSuffixes.
Proof.
  unfold slot. destruct (negb _); [done|]. destruct (find_first _ _) as [c|] eqn:E; [|done].
  intros [= _ <-]. apply (find_first_fst contract_cases (fun s => has_suffix s key) c E).
Qed.

(** The state of one input after some keys: [K b s] stands for the one key of the
    slot. *)
Lemma collect_fields env (ks : list string) b (m : gmap string partialNodeContractInput) :
  (forall key s, key ∈ ks -> slot key = Some (b, s) -> key = materializationEnvKey b s) ->
  (forall t, t ∈ contractInputEnvSuffixes -> slot (materializationEnvKey b t) = Some (b, t)) ->
  let m' := foldl (collect_input env) m ks in
  (forall t, t ∈ contractInputEnvSuffixes ->
     field t (default zero_partial (m' !! b)) =
     if decide (materializationEnvKey b t ∈ ks) then default "" (env !! materializationEnvKey b t)
     else field t (default zero_partial (m !! b))).
Proof.
  intros Hks Hslot. cbn zeta. revert m. induction ks as [|key ks IH]; intros m t Ht; cbn [foldl].
  { rewrite decide_False; [done|]. by intros ?%elem_of_nil. }
  rewrite IH; [|intros k s Hk; apply Hks; by right|done].
  destruct (decide (materializationEnvKey b t ∈ ks)) as [Hin|Hin].
  { rewrite decide_True; [done|by right]. }
  pose proof (collect_input_slot env m key) as Hc. destruct (slot key) as [[b' s]|] eqn:Es.
  - destruct Hc as (c & Hc & <- & ->). unfold assign_input.
    destruct (decide (b' = b)) as [->|Hb].
    + rewrite lookup_insert_eq. change (default zero_partial (Some ?x)) with x. rewrite assign_field by done.
      apply Hks in Es as Ek; [|left].
      destruct (decide (t = c.1)) as [->|Hne].
      * rewrite decide_True; [by rewrite Ek|rewrite Ek; left].
      * rewrite decide_False; [done|]. intros [He|?]%elem_of_cons; [|done].
        rewrite Ek in He. by apply materializationEnvKey_inj in He.
    + rewrite lookup_insert_ne by done. rewrite decide_False; [done|].
      intros [He|?]%elem_of_cons; [|done]. rewrite <- He, Hslot in Es by done. congruence.
  - rewrite Hc. rewrite decide_False; [done|]. intros [He|?]%elem_of_cons; [|done].
    rewrite <- He, Hslot in Es by done. done.
Qed.

(** The inputs there are. *)
Lemma collect_dom env ks b (m : gmap string partialNodeContractInput) :
  is_Some (foldl (collect_input env) m ks !! b) <->
  is_Some (m !! b) \/ exists key s, key ∈ ks /\ slot key = Some (b, s).
Proof.
  revert m. induction ks as [|key ks IH]; intros m; cbn [foldl].
  { split; [by left|]. intros [?|(k & s & Hk & _)]; [done|]. by apply elem_of_nil in Hk. }
  rewrite IH. assert (Hc : is_Some (collect_input env m key !! b) <->
                           is_Some (m !! b) \/ exists s, slot key = Some (b, s)).
  { pose proof (collect_input_slot env m key) as Hc. destruct (slot key) as [[b' s]|] eqn:Es.
    - destruct Hc as (c & _ & _ & ->). unfold assign_input. destruct (decide (b' = b)) as [->|Hb].
      + rewrite lookup_insert_eq. split; [intros _; right; eauto|eauto].
      + rewrite lookup_insert_ne by done. split; [by left|]. intros [?|[t Ht]]; [done|]. congruence.
    - rewrite Hc. split; [by left|]. by intros [?|[t Ht]]. }
  rewrite Hc. split.
  - intros [[?|[s Hs]]|(k & s & Hk & Hs)]; [by left|right|right].
    + exists key, s. split; [left|done].
    + exists k, s. split; [by right|done].
  - intros [?|(k & s & [->|Hk]%elem_of_cons & Hs)]; [by left; left|left; right; eauto|right; eauto].
Qed.

(** ** The keys that the executor exports *)

(** A key under which no local path is mistaken for a node-local one. *)
Definition clear_base (b : string) : Prop := has_suffix "_NODE" (inputPrefix +:+ b) = false.

Lemma contract_suffixes t : t ∈ contractInputEnvSuffixes -> t ∈ env_suffixes.
Proof.
  unfold contractInputEnvSuffixes, env_suffixes. rewrite !elem_of_cons, elem_of_nil.
  intros [->|[->|[->|[->|[->|[->|[]]]]]]]; tauto.
Qed.

Lemma exported_suffix b s t :
  clear_base b -> s ∈ env_suffixes -> t ∈ env_suffixes ->
  has_suffix t (materializationEnvKey b s) =
  streq t s || (streq t "_LOCAL_PATH" && streq s "_NODE_LOCAL_PATH").
Proof.
  intros Hb Hs Ht. apply eq_iff_eq_true. rewrite has_suffix_iff, orb_true_iff, andb_true_iff, !streq_eq.
  unfold materializationEnvKey. rewrite <- str_app_assoc. split.
  - intros [u Hu]. apply app_eq_split in Hu as [(v & E1 & E2)|(v & E1 & E2)].
    + destruct (suffix_overlap s t v Hs Ht E2) as [->|(-> & -> & ->)]; [by left|].
      exfalso. unfold clear_base in Hb. apply not_true_iff_false in Hb. apply Hb, has_suffix_iff. by exists u.
    + destruct (suffix_overlap t s v Ht Hs E2) as [->|(-> & -> & ->)]; [by left|by right].
  - intros [->|[-> ->]]; [by eexists|]. exists ((inputPrefix +:+ b) +:+ "_NODE").
    by rewrite (str_app_assoc (inputPrefix +:+ b) "_NODE").
Qed.

Lemma exported_slot b s :
  clear_base b -> s ∈ env_suffixes ->
  slot (materializationEnvKey b s) =
  if bool_decide (s ∈ contractInputEnvSuffixes) then Some (b, s) else None.
Proof.
  intros Hb Hs. unfold slot.
  assert (Hp : has_prefix inputPrefix (materializationEnvKey b s) = true) by apply has_prefix_app.
  rewrite Hp. cbn [negb].
  assert (Ht : trim_prefix inputPrefix (materializationEnvKey b s) = b +:+ s) by apply trim_prefix_app.
  rewrite Ht.
  assert (Hf : find_first (fun c => has_suffix c.1 (materializationEnvKey b s)) contract_cases =
               find_first (fun c => streq c.1 s || (streq c.1 "_LOCAL_PATH" && streq s "_NODE_LOCAL_PATH"))
                 contract_cases).
  { unfold contract_cases. cbn [find_first fst].
    rewrite !exported_suffix; try done; apply contract_suffixes; repeat constructor. }
  rewrite Hf. clear Hf Hp Ht.
  unfold env_suffixes in Hs. rewrite !elem_of_cons, elem_of_nil in Hs.
  repeat (destruct Hs as [->|Hs]; [
    set (f := find_first _ _); vm_compute in f; subst f;
    set (d := bool_decide _); vm_compute in d; subst d;
    cbn [fmap option_fmap option_map fst]; rewrite ?trim_suffix_app; reflexivity|]). done.
Qed.

Lemma NoDup_map_inj {A B} (f : A -> B) l x y : NoDup (map f l) -> x ∈ l -> y ∈ l -> f x = f y -> x = y.
Proof.
  induction l as [|z l IH]; simpl; [intros _ H; by apply elem_of_nil in H|].
  intros [Hz Hn]%NoDup_cons [->|Hx]%elem_of_cons [->|Hy]%elem_of_cons Hf; auto; exfalso; apply Hz.
  - rewrite Hf. by apply list_elem_of_fmap_2.
  - rewrite <- Hf. by apply list_elem_of_fmap_2.
Qed.

(** ** What is exported is what is read *)
Section exported.
Context {U : UnicodeTables}.

Lemma inject_inv node binding resolved k v :
  env_get (injectResolvedBindingEnv node binding resolved) k = Some v ->
  env_get node k = Some v \/
  exists s, (s, Some v) ∈ exported resolved /\ k = materializationEnvKey (env_base binding) s.
Proof.
  rewrite injectResolvedBindingEnv_fold.
  change (env_get node k) with (env_get (node <| n_Env := Some (map_of (n_Env node)) |>) k).
  generalize (node <| n_Env := Some (map_of (n_Env node)) |>) as n.
  induction (exported resolved) as [|[s o] l IH]; intros n H; cbn [foldl] in H; [by left|].
  apply IH in H as [H|(s' & Hs & ->)].
  - rewrite export_step_get in H. cbn [fst snd] in H. case_decide as E; [|by left].
    destruct o as [w|]; [|by left]. injection H as ->. right. exists s. split; [left|done].
  - right. exists s'. split; [by right|done].
Qed.

Lemma inject_all_inv node rs k v :
  env_get (inject_all node rs) k = Some v ->
  env_get node k = Some v \/
  exists b r s, (b, r) ∈ rs /\ (s, Some v) ∈ exported r /\ k = materializationEnvKey (env_base b) s.
Proof.
  unfold inject_all. revert node. induction rs as [|[b r] rs IH]; intros node H; cbn [foldl] in H; [by left|].
  apply IH in H as [H|(b' & r' & s & Hin & Hs)].
  - apply inject_inv in H as [H|(s & Hs & ->)]; [by left|]. right. exists b, r, s. split; [left|done].
  - right. exists b', r', s. split; [by right|done].
Qed.

Lemma export_keeps base l node k :
  is_Some (env_get node k) -> is_Some (env_get (foldl (export_step base) node l) k).
Proof.
  revert node. induction l as [|x l IH]; intros node H; cbn [foldl]; [done|]. apply IH.
  rewrite export_step_get. case_decide; [|done]. destruct (x.2); [eauto|done].
Qed.

Lemma inject_all_keeps node rs k : is_Some (env_get node k) -> is_Some (env_get (inject_all node rs) k).
Proof.
  unfold inject_all. revert node. induction rs as [|[b r] rs IH]; intros node H; cbn [foldl]; [done|].
  apply IH. rewrite injectResolvedBindingEnv_fold. by apply export_keeps.
Qed.

Lemma inject_all_some node rs b r s v :
  (b, r) ∈ rs -> (s, Some v) ∈ exported r ->
  is_Some (env_get (inject_all node rs) (materializationEnvKey (env_base b) s)).
Proof.
  intros Hin Hs. revert node. induction rs as [|br rs IH]; intros node; [by apply elem_of_nil in Hin|].
  apply elem_of_cons in Hin as [<-|Hin]; [|by apply IH].
  change (inject_all node ((b, r) :: rs)) with (inject_all (injectResolvedBindingEnv node b r) rs).
  apply inject_all_keeps. rewrite (inject_at node b r s v); eauto.
Qed.

Lemma exported_key_inj b s b' s' :
  clear_base b -> clear_base b' -> s ∈ env_suffixes -> s' ∈ env_suffixes ->
  materializationEnvKey b s = materializationEnvKey b' s' -> b = b' /\ s = s'.
Proof.
  intros Hb Hb' Hs Hs' H. pose proof H as H0. apply string_app_inv_l in H.
  assert (Hn : forall c, ~ clear_base (c +:+ "_NODE")).
  { intros c. unfold clear_base. rewrite <- str_app_assoc.
    rewrite (proj2 (has_suffix_iff _ _)); [done|by eexists]. }
  apply app_eq_split in H as [(u & -> & E)|(u & -> & E)];
    (eapply suffix_overlap in E as Ho; [|eassumption..]);
    destruct Ho as [->|(-> & -> & ->)]; try (by destruct (Hn _ Hb)); try (by destruct (Hn _ Hb'));
    split; by rewrite ?str_app_nil.
Qed.

(** The input as the response has it. *)
Definition partial_of (r : ResolveBindingResponse) : partialNodeContractInput :=
  let plan := rs_MaterializationPlan r in
  mkPartialNodeContractInput (mp_URI plan) (mp_ExpectedDigest plan)
    (if (0 <? mp_ExpectedSize plan)%Z then Itoa (mp_ExpectedSize plan) else "")
    (mp_Mode plan)
    (default "" (nl_Path <$> (mp_SourceLocation plan ≫= al_NodeLocal)))
    (sanitizeResolvedLocalPath (mp_LocalPath plan)).

Lemma partial_exported r t :
  t ∈ contractInputEnvSuffixes ->
  exists o, (t, o) ∈ exported r /\ field t (partial_of r) = default "" o.
Proof.
  unfold contractInputEnvSuffixes. rewrite !elem_of_cons, elem_of_nil.
  intros Ht. repeat (destruct Ht as [->|Ht]; [eexists; split; [unfold exported; repeat first [left|right]|]|]); try done.
  - set (n := mp_ExpectedSize (rs_MaterializationPlan r)).
    change ((if (0 <? n)%Z then Itoa n else "") = default "" (if (0 <? n)%Z then Some (Itoa n) else None)).
    by destruct (0 <? n)%Z.
  - change (sanitizeResolvedLocalPath (mp_LocalPath (rs_MaterializationPlan r)) =
      default "" (if streq (sanitizeResolvedLocalPath (mp_LocalPath (rs_MaterializationPlan r))) "" then None
                  else Some (sanitizeResolvedLocalPath (mp_LocalPath (rs_MaterializationPlan r))))).
    generalize (sanitizeResolvedLocalPath (mp_LocalPath (rs_MaterializationPlan r))) as p. intros p.
    destruct (streq p "") eqn:E; [by apply streq_eq in E|done].
Qed.

(** A node whose own environment says nothing about inputs. *)
Definition no_inputs (node : Node) : Prop :=
  forall k v, env_get node k = Some v -> has_prefix inputPrefix k = false.

Context (node : Node) (rs : list (ArtifactBinding * ResolveBindingResponse)).
Context (Hnode : no_inputs node) (Hkeys : NoDup (map (fun br => env_base br.1) rs))
  (Hclear : forall br, br ∈ rs -> clear_base (env_base br.1)).

Notation base := (fun br : ArtifactBinding * ResolveBindingResponse => env_base br.1).
Notation env := (n_Env (inject_all node rs)).

Lemma exported_in_suffixes r s o : (s, o) ∈ exported r -> s ∈ env_suffixes.
Proof. intros H. rewrite <- (exported_suffixes r). by apply (list_elem_of_fmap_2 fst _ _ H). Qed.

Lemma exported_once r s o o' : (s, o) ∈ exported r -> (s, o') ∈ exported r -> o = o'.
Proof.
  intros H H'. pose proof env_suffixes_NoDup as Hn. rewrite <- (exported_suffixes r) in Hn.
  by injection (NoDup_map_inj fst _ _ _ Hn H H' eq_refl).
Qed.

(** The environment has the values of the responses, and none under other names. *)
Lemma exported_env b r s o :
  (b, r) ∈ rs -> (s, o) ∈ exported r ->
  env_get (inject_all node rs) (materializationEnvKey (env_base b) s) = o.
Proof.
  intros Hin Hs.
  assert (Hinv : forall v, env_get (inject_all node rs) (materializationEnvKey (env_base b) s) = Some v -> o = Some v).
  { intros v Hv. apply inject_all_inv in Hv as [Hv|(b' & r' & s' & Hin' & Hs' & Hk)].
    - apply Hnode in Hv. unfold materializationEnvKey in Hv. by rewrite has_prefix_app in Hv.
    - apply exported_key_inj in Hk as [Hb ->]; eauto using exported_in_suffixes.
      2: apply (Hclear (b, r) Hin). 2: apply (Hclear (b', r') Hin').
      pose proof (NoDup_map_inj base rs _ _ Hkeys Hin Hin' Hb) as [= <- <-].
      by apply (exported_once r s'). }
  destruct (env_get _ _) as [v|] eqn:E; [symmetry; by apply Hinv|].
  destruct o as [v|]; [|done].
  destruct (inject_all_some node rs b r s v Hin Hs) as [w Hw]. congruence.
Qed.

Lemma env_keys key : key ∈ dom (map_of env) ->
  has_prefix inputPrefix key = false \/
  exists br s, br ∈ rs /\ s ∈ env_suffixes /\ key = materializationEnvKey (base br) s.
Proof.
  intros [v Hv]%elem_of_dom. apply inject_all_inv in Hv as [Hv|(b & r & s & Hin & Hs & ->)].
  - left. by eapply Hnode.
  - right. exists (b, r), s. eauto using exported_in_suffixes.
Qed.

(** So the slots of the environment are those of the bindings, one key each. *)
Lemma env_slot key b s :
  key ∈ dom (map_of env) -> slot key = Some (b, s) ->
  (exists br, br ∈ rs /\ b = base br) /\ key = materializationEnvKey b s.
Proof.
  intros Hkey Hslot. apply env_keys in Hkey as [Hp|(br & s' & Hin & Hs & ->)].
  - unfold slot in Hslot. by rewrite Hp in Hslot.
  - rewrite exported_slot in Hslot by eauto. destruct (bool_decide _); [|done].
    injection Hslot as <- <-. eauto.
Qed.

Lemma contract_slot b t :
  clear_base b -> t ∈ contractInputEnvSuffixes -> slot (materializationEnvKey b t) = Some (b, t).
Proof.
  intros Hb Ht. rewrite exported_slot by auto using contract_suffixes. by rewrite bool_decide_true.
Qed.

Context {RO : RangeOrder}.
Notation collected := (foldl (collect_input (map_of env)) ∅ (range_keys (dom (map_of env)))).

Lemma collected_input b r : (b, r) ∈ rs -> default zero_partial (collected !! env_base b) = partial_of r.
Proof.
  intros Hin. pose proof (Hclear _ Hin) as Hb. apply partial_ext. intros t Ht.
  destruct (partial_exported r t Ht) as (o & Ho & ->).
  rewrite collect_fields; [|intros key s Hk%elem_of_range_keys Hs; by apply env_slot|
    intros t' Ht'; by apply contract_slot|done].
  pose proof (exported_env b r t o Hin Ho) as He. unfold env_get in He. rewrite He.
  destruct (decide _) as [|Hn]; [done|]. destruct o as [v|].
  - destruct Hn. apply elem_of_range_keys, elem_of_dom. eauto.
  - rewrite lookup_empty. unfold contractInputEnvSuffixes in Ht. rewrite !elem_of_cons, elem_of_nil in Ht.
    by repeat (destruct Ht as [->|Ht]; [done|]).
Qed.

Lemma collected_bases : dom collected ≡ list_to_set (C := gset string) (map base rs).
Proof.
  intros b. rewrite elem_of_dom, collect_dom, elem_of_list_to_set, list_elem_of_fmap. split.
  - intros [[? H]|(key & s & Hk%elem_of_range_keys & Hs)]; [by rewrite lookup_empty in H|].
    destruct (env_slot _ _ _ Hk Hs) as [(br & Hin & ->) _]. eauto.
  - intros ([b' r] & -> & Hin). right. exists (materializationEnvKey (env_base b') "_URI"), "_URI".
    split; [|apply contract_slot; [by apply (Hclear (b', r))|left]].
    apply elem_of_range_keys, elem_of_dom. eexists. apply (exported_env b' r "_URI" (Some _) Hin).
    right. right. left.
Qed.
End exported.

(** ** The sizes *)
Lemma digit_alnum a d : digit_of a = Some d -> alnum a = true.
Proof.
  unfold digit_of, alnum. destruct (in_range 48 57 _); [|done]. by rewrite orb_true_r.
Qed.

Lemma parse_digits_alnum s acc n : parse_digits s acc = Some n -> str_forall alnum s = true.
Proof.
  revert acc. induction s as [|a s IH]; intros acc; simpl; [done|].
  destruct (digit_of a) as [d|] eqn:E; [|done]. intros H. by rewrite (digit_alnum _ _ E), (IH _ H).
Qed.

Lemma TrimSpace_pretty (n : N) : TrimSpace (pretty n) = pretty n /\ pretty n <> "".
Proof.
  destruct (pretty_N_starts n) as (a & s & d & E & Ed). split; [|by rewrite E].
  apply trim_bounded; [done|done|]. unfold bounded_by_alnum.
  pose proof (parse_digits_alnum _ _ _ (parse_digits_pretty n)) as Hf. apply chars_forall in Hf.
  rewrite E in *. destruct (reverse (chars (String a s))) as [|b t] eqn:Er.
  { apply (f_equal length) in Er. by rewrite length_reverse in Er. }
  cbn [String.list_ascii_of_string] in *. rewrite Forall_forall in Hf.
  rewrite (digit_alnum _ _ Ed). apply Hf. rewrite <- elem_of_reverse, Er. left.
Qed.

Lemma TrimSpace_Itoa z : (0 < z)%Z -> TrimSpace (Itoa z) = Itoa z /\ Itoa z <> "".
Proof. intros Hz. destruct z as [|p|p]; [lia| |lia]. apply (TrimSpace_pretty (Npos p)). Qed.

(** ** The contract *)
Section contract.
Context {U : UnicodeTables}.

(** The input that a response calls for under a name. *)
Definition input_of (base : string) (r : ResolveBindingResponse) : option nodeContractInput :=
  let plan := rs_MaterializationPlan r in
  let mode := TrimSpace (mp_Mode plan) in
  if streq mode "" || streq mode "none" then None
  else Some {|
    nci_Name := ToLower base;
    nci_URI := TrimSpace (mp_URI plan);
    nci_ExpectedDigest := TrimSpace (mp_ExpectedDigest plan);
    nci_ExpectedSizeBytes := Z.max 0 (mp_ExpectedSize plan);
    nci_MaterializationMode := mode;
    nci_NodeLocalPath := TrimSpace (default "" (nl_Path <$> (mp_SourceLocation plan ≫= al_NodeLocal)));
    nci_LocalPath := TrimSpace (sanitizeResolvedLocalPath (mp_LocalPath plan));
  |}.

Lemma contract_input_of base r :
  (mp_ExpectedSize (rs_MaterializationPlan r) <= int64_max)%Z ->
  contract_input base (partial_of r) = input_of base r.
Proof.
  intros Hsize. unfold contract_input, input_of, partial_of.
  cbn [pci_materializationMode pci_expectedSizeBytes pci_uri pci_expectedDigest pci_nodeLocalPath pci_localPath].
  destruct (_ || _); [done|]. do 2 f_equal. set (n := mp_ExpectedSize _) in *.
  destruct (Z.ltb_spec 0 n) as [Hn|Hn].
  - destruct (TrimSpace_Itoa n Hn) as [-> Hne]. rewrite (proj2 (streq_neq _ _) Hne).
    rewrite ParseInt_Itoa by (unfold int64_max, two63 in *; lia).
    destruct (Z.leb_spec 0 n); lia.
  - change (streq (TrimSpace "") "") with true. cbn iota. lia.
Qed.

Definition by_base (x y : ArtifactBinding * ResolveBindingResponse) : Prop :=
  string_before (env_base x.1) (env_base y.1).
#[local] Instance by_base_dec : RelDecision by_base.
Proof. intros x y. unfold by_base. apply _. Defined.

(** C22. The contract asks for what was resolved: from the bindings' responses through
    the environment variables and back, a node's contract has one input for every
    binding whose mode is not none, in the order of their keys, with the URI, digest,
    size and paths of its response; whatever order Go visits the variables in. The
    keys are pairwise different, none makes a variable end in [_NODE], and the node's
    own environment names no input. *)
Theorem contract_asks_for_what_was_resolved {RO : RangeOrder}
    (node : Node) (rs : list (ArtifactBinding * ResolveBindingResponse)) :
  no_inputs node ->
  validateResolvedBindingEnvKeys (map fst rs) = Ok tt ->
  (forall br, br ∈ rs -> clear_base (env_base br.1) /\
     (mp_ExpectedSize (rs_MaterializationPlan br.2) <= int64_max)%Z) ->
  exists rs', rs' ≡ₚ rs /\ StronglySorted string_before (map (fun br => env_base br.1) rs') /\
    buildNodeContractInputs (n_Env (inject_all node rs)) = omap (fun br => input_of (env_base br.1) br.2) rs'.
Proof.
  intros Hnode Hkeys Hrs. apply env_keys_from_iff in Hkeys as [Hkeys _]. rewrite map_map in Hkeys.
  assert (Hclear : forall br, br ∈ rs -> clear_base (env_base br.1)) by (intros br Hbr; by apply Hrs).
  assert (Htr : Transitive by_base) by (intros x y z; apply string_leb_trans).
  assert (Htot : Total by_base) by (intros x y; apply String.leb_total).
  set (rs' := merge_sort by_base rs).
  assert (Hperm : rs' ≡ₚ rs) by apply merge_sort_Permutation.
  assert (Hsorted : StronglySorted string_before (map (fun br => env_base br.1) rs')).
  { pose proof (StronglySorted_merge_sort by_base rs) as H. fold rs' in H. clear Hperm.
    induction H as [|x l _ IH Hx]; simpl; constructor; [done|]. by apply Forall_map. }
  exists rs'. split_and!; [done|done|]. unfold buildNodeContractInputs. cbv zeta.
  set (m := foldl _ _ _).
  assert (Hnames : sort_strings (range_keys (dom m)) = map (fun br => env_base br.1) rs').
  { assert (Hp : range_keys (dom m) ≡ₚ map (fun br => env_base br.1) rs').
    { apply NoDup_Permutation; [apply NoDup_range_keys| |].
      - by rewrite Hperm.
      - intros b. rewrite elem_of_range_keys. subst m. rewrite (collected_bases node rs Hnode Hkeys Hclear b).
        by rewrite elem_of_list_to_set, Hperm. }
    rewrite (sort_strings_proper _ _ Hp).
    apply (StronglySorted_unique string_before); [|done|apply sort_strings_perm].
    apply StronglySorted_merge_sort; apply _. }
  rewrite Hnames. assert (Hsub : forall br, br ∈ rs' -> br ∈ rs) by (intros br; by rewrite Hperm).
  clear Hnames Hsorted Hperm. induction rs' as [|[b r] l IH]; [done|].
  assert (Hin : (b, r) ∈ rs) by (apply Hsub; left).
  cbn [map omap list_omap fst snd]. rewrite IH by (intros br Hbr; apply Hsub; by right).
  subst m. rewrite (collected_input node rs Hnode Hkeys Hclear b r Hin), contract_input_of; [done|].
  by apply (Hrs (b, r)).
Qed.
End contract.

(** ** Examples *)
Section examples.
#[local] Existing Instance ascii_tables.
#[local] Existing Instance elements_order.

Definition bound_as (name : string) : ArtifactBinding := zero_ArtifactBinding <| ab_BindingName := name |>.

Definition fetched (uri path : string) (size : Z) : ResolveBindingResponse :=
  zero_ResolveBindingResponse <| rs_MaterializationPlan :=
    (((zero_MaterializationPlan <| mp_Mode := "remote_fetch" |>) <| mp_URI := uri |>)
      <| mp_LocalPath := path |>) <| mp_ExpectedSize := size |> |>.

Definition two_inputs : list (ArtifactBinding * ResolveBindingResponse) :=
  [(bound_as "reads", fetched "s3://b/reads" "inputs/reads" 10);
   (bound_as "index", fetched "s3://b/index" "inputs/index" 0)].

Lemma contract_asks_for_what_was_resolved_witness :
  buildNodeContractInputs (n_Env (inject_all zero_Node two_inputs)) =
    [mkNodeContractInput "index" "s3://b/index" "" 0 "remote_fetch" "" "inputs/index";
     mkNodeContractInput "reads" "s3://b/reads" "" 10 "remote_fetch" "" "inputs/reads"] /\
  exists rs', rs' ≡ₚ two_inputs /\ StronglySorted string_before (map (fun br => env_base br.1) rs') /\
    buildNodeContractInputs (n_Env (inject_all zero_Node two_inputs)) =
    omap (fun br => input_of (env_base br.1) br.2) rs'.
Proof.
  split; [vm_compute; reflexivity|]. apply contract_asks_for_what_was_resolved.
  - intros k v H. vm_compute in H. discriminate.
  - vm_compute. reflexivity.
  - intros br [->|[->|H]%elem_of_cons]%elem_of_cons; [| |by apply elem_of_nil in H];
      (split; [reflexivity|cbn; unfold int64_max; lia]).
Defined.

(** The exception is real: the local path of an input whose key ends in [NODE] is
    read as another input's node-local path, and its own contract entry has none. *)
Example local_path_lost :
  buildNodeContractInputs (n_Env (inject_all zero_Node
    [(bound_as "reads_node", fetched "s3://b/reads" "inputs/reads" 10)])) =
  [mkNodeContractInput "reads_node" "s3://b/reads" "" 10 "remote_fetch" "" ""].
Proof. vm_compute. reflexivity. Qed.
End examples.
