(* ===== verification/Adapter.v ===== *)
(** * The Kubernetes adapter ([src/pkg/backend/spawner_k8s.go], [attempt_resolver.go])

    [SpawnerK8sAdapter] on a cluster: its runtime, client and observer are those
    of [K8sTypes]. What a method adds to the metrics is the list it answers with.
    A channel or a poll is the list of what it delivers. *)
From S2P Require Import Prelude GoStrings GoErrors GoJson Spec Provenance BackendTypes K8sTypes JobClient Contract.

Record preparedRuntimeNode := mkPreparedRuntimeNode { prn_req : AttemptRequest; prn_queueName : string }.
Record runtimeHandle := mkRuntimeHandle { rh_handle : AttemptHandle; rh_queueName : string }.

(** A value of Go's [any]: one of the adapter's own, or one of another type, which
    has a name. *)
Inductive AnyHandle := RuntimeHandle (h : runtimeHandle) | OtherHandle (type : string).
Inductive AnyPrepared := RuntimePrepared (n : preparedRuntimeNode) | OtherPrepared (type : string).

#[export] Instance adapter_types : BackendTypes := {| Handle := AnyHandle; PreparedNode := AnyPrepared |}.

(** The metrics the adapter counts. *)
Inductive K8sCounter :=
  | IncK8sNodePrepare | IncK8sNodeStart | IncK8sNodeStartErrors
  | IncK8sNodeSucceeded | IncK8sNodeCanceled | IncK8sNodeFailed | IncK8sNodeCancel.

(** The fields of the adapter: which of them are not nil, and the namespace. *)
Record SpawnerK8sAdapter := mkSpawnerK8sAdapter {
  ad_rt : bool;
  ad_clientset : bool;
  ad_restConfig : bool;
  ad_observer : bool;
  ad_metrics : bool;
  ad_ns : string;
}.

Definition NewSpawnerK8sAdapterWithRuntime (rt : bool) (namespace : string) (clientset restConfig observer : bool)
    : SpawnerK8sAdapter :=
  mkSpawnerK8sAdapter rt clientset restConfig observer false namespace.

Definition Adapter_SetMetrics (a : SpawnerK8sAdapter) : SpawnerK8sAdapter :=
  mkSpawnerK8sAdapter (ad_rt a) (ad_clientset a) (ad_restConfig a) (ad_observer a) true (ad_ns a).

Record persistedRuntimeHandle := mkPersistedRuntimeHandle {
  prh_AttemptHandle : AttemptHandle; prh_QueueName : string }.

Definition runtimeReasonToFailure {R : SpawnerRuntime} (reason : string) : string :=
  if streq reason ReasonOOMKilled then "oom_killed"
  else if streq reason ReasonNodeLost then "node_lost"
  else if streq reason ReasonBackoffExceeded then "backoff_exceeded"
  else if streq reason ReasonDeadlineExceeded then "deadline_exceeded"
  else if streq reason ReasonImagePullFailed then "image_pull_failed"
  else "backend_wait_error".

(** ** Finding the pod of a job *)
Definition main_status (s : ContainerStatus) : bool := streq (cs_Name s) "main" && is_some (cs_Terminated s).

(** The first terminated [main] container. *)
Definition main_terminated (pod : Pod) : option ContainerTerminated :=
  find_first main_status (pod_ContainerStatuses pod) ≫= cs_Terminated.

Definition mainContainerSucceeded (pod : Pod) : bool :=
  match main_terminated pod with Some t => (term_ExitCode t =? 0)%Z | None => false end.

Definition mainContainerTerminated (pod : Pod) : bool :=
  existsb main_status (pod_ContainerStatuses pod).

Definition terminatedAt (pod : Pod) : Z :=
  match main_terminated pod with Some t => term_FinishedAt t | None => 0 end.

(** [podSucceededLater] and [podTerminatedLater] *)
Definition podTerminatedLater (candidate current : Pod) : bool :=
  (terminatedAt current <? terminatedAt candidate)%Z.

Fixpoint best_pod (eligible : Pod -> bool) (best : option Pod) (pods : list Pod) : option Pod :=
  match pods with
  | [] => best
  | pod :: pods =>
      let better := match best with None => true | Some b => podTerminatedLater pod b end in
      best_pod eligible (if eligible pod && better then Some pod else best) pods
  end.

Definition pick_pod (jobName : string) (pods : list Pod) : res Pod :=
  match pods with
  | [] => Err (Errorf ("no pods found for job " +:+ jobName))
  | first :: _ =>
      match best_pod mainContainerSucceeded None pods with
      | Some best => Ok best
      | None => match best_pod mainContainerTerminated None pods with
                | Some best => Ok best
                | None => Ok first
                end
      end
  end.

(** ** The manifest of a pod *)
Definition terminatedMessage (state : option ContainerTerminated) : string :=
  match state with Some t => term_Message t | None => "" end.

Fixpoint manifest_message (statuses : list ContainerStatus) : string :=
  match statuses with
  | [] => ""
  | s :: statuses =>
      if negb (streq (cs_Name s) "main") then manifest_message statuses
      else
        let raw := TrimSpace (terminatedMessage (cs_Terminated s)) in
        if negb (streq raw "") then raw
        else
          let raw := TrimSpace (terminatedMessage (cs_LastTerminated s)) in
          if negb (streq raw "") then raw else manifest_message statuses
  end.

Definition readArtifactsManifestFromTerminationMessage (pod : Pod) : string :=
  manifest_message (pod_ContainerStatuses pod).

Definition manifestPathForNode (node : Node) : string :=
  let path := TrimSpace (map_get (n_Env node) "JUMI_OUTPUT_MANIFEST_PATH") in
  if streq path "" then DefaultArtifactsManifestPath else path.

Definition outputProducerAttemptID (record : ArtifactRecord) (manifest : ArtifactManifest) : string :=
  if negb (streq (TrimSpace (arec_ProducerAttemptID record)) "") then arec_ProducerAttemptID record
  else am_AttemptID manifest.

(** One identity of the manifest against the environment's, if that names it. *)
Definition check_identity {U : UnicodeTables} (field expected got : string) (rest : option GoError)
    : option GoError :=
  let expected := TrimSpace expected in
  if streq expected "" then rest
  else if streq got "" then Some (Errorf ("manifest " +:+ field +:+ " is required"))
  else if negb (streq got expected)
  then Some (Errorf ("manifest " +:+ field +:+ " = " +:+ Quote got +:+ ", want " +:+ Quote expected))
  else rest.

Definition validateObservedManifest {U : UnicodeTables} (manifest : ArtifactManifest) (node : Node)
    : option GoError :=
  if negb (streq (am_SchemaVersion manifest) "")
     && negb (streq (am_SchemaVersion manifest) ArtifactManifestSchemaVersion)
     && negb (streq (am_SchemaVersion manifest) "nan.artifactManifest.v1")
  then Some (Errorf ("unsupported manifest schemaVersion " +:+ Quote (am_SchemaVersion manifest)))
  else
    match n_Env node with
    | None => None
    | Some _ =>
        check_identity "runId" (map_get (n_Env node) "JUMI_RUN_ID") (am_RunID manifest)
       (check_identity "nodeId" (map_get (n_Env node) "JUMI_NODE_ID") (am_NodeID manifest)
       (check_identity "attemptId" (map_get (n_Env node) "JUMI_ATTEMPT_ID") (am_AttemptID manifest)
        None))
    end.

Section adapter.
Context {U : UnicodeTables} {RO : RangeOrder} {Q : Quantities} {L : LabelRules} {R : SpawnerRuntime}.
Context {JC : Json nodeContractFile} {JH : Json persistedRuntimeHandle} {JM : Json ArtifactManifest}.
Context {C : Type} {K : Cluster C} {RT : Runtime C}.
Context (Getenv : string -> string).
Implicit Types (a : SpawnerK8sAdapter) (c : C).

Definition AdapterStatus_Ready a : bool := ad_rt a.

Definition metered a (l : list K8sCounter) : list K8sCounter := if ad_metrics a then l else [].

(** ** Preparing, starting, canceling *)
Definition PrepareNode a (run : RunRecord) (node : Node) : list K8sCounter * res AnyPrepared :=
  (metered a [IncK8sNodePrepare],
   Ok (RuntimePrepared (mkPreparedRuntimeNode (toAttemptRequest Getenv run node) (kueueQueueName node)))).

Definition StartNode a c (prepared : AnyPrepared) : C * list K8sCounter * res AnyHandle :=
  match prepared with
  | OtherPrepared type =>
      (c, metered a [IncK8sNodeStart; IncK8sNodeStartErrors],
       Err (Errorf ("unexpected prepared type " +:+ type)))
  | RuntimePrepared n =>
      match rt_SubmitAttempt c (prn_req n) with
      | (c, Err err) => (c, metered a [IncK8sNodeStart; IncK8sNodeStartErrors], Err err)
      | (c, Ok handle) =>
          (c, metered a [IncK8sNodeStart], Ok (RuntimeHandle (mkRuntimeHandle handle (prn_queueName n))))
      end
  end.

Definition CancelNode a c (handle : AnyHandle) : C * list K8sCounter * option GoError :=
  match handle with
  | OtherHandle type => (c, metered a [IncK8sNodeCancel], Some (Errorf ("unexpected handle type " +:+ type)))
  | RuntimeHandle h =>
      let '(c, err) := rt_CancelAttempt c (rh_handle h) in (c, metered a [IncK8sNodeCancel], err)
  end.

(** ** Waiting *)

(** What a turn of the [select] receives. *)
Inductive waited := WaitEvent (ev : AttemptEvent) | WaitClosed | WaitDone (err : GoError).

(** The last event before the channel is closed, or the error of the context;
    [None] while neither has come. *)
Fixpoint wait_loop (last : AttemptEvent) (received : list waited) : option (AttemptEvent + GoError) :=
  match received with
  | [] => None
  | WaitEvent ev :: received => wait_loop ev received
  | WaitClosed :: _ => Some (inl last)
  | WaitDone err :: _ => Some (inr err)
  end.

Definition zero_AttemptEvent : AttemptEvent := mkAttemptEvent "" "" "".

Definition stopped (stopCause failureReason : string) : ExecutionResult :=
  mkExecutionResult false stopCause failureReason None.

(** The result and the error, which Go returns together; [watch] is the answer of
    [WatchAttempt], the events of its channel on success. *)
Definition waitRuntimeHandle a (watch : res (list waited))
    : option (list K8sCounter * (ExecutionResult * option GoError)) :=
  match watch with
  | Err err => Some ([], (stopped "failed" "backend_wait_error", Some err))
  | Ok received =>
      match wait_loop zero_AttemptEvent received with
      | None => None
      | Some (inr err) => Some ([], (stopped "canceled" "cancellation_requested", Some err))
      | Some (inl last) => Some (
          if streq (ae_State last) AttemptStateSucceeded then
            (metered a [IncK8sNodeSucceeded], (mkExecutionResult true "finished" "" None, None))
          else if streq (ae_State last) AttemptStateCancelled then
            (metered a [IncK8sNodeCanceled],
             (stopped "canceled" "cancellation_propagated", Some (Errorf "node canceled")))
          else
            let msg := TrimSpace (ae_Message last) in
            let msg := if streq msg "" then "node failed" else msg in
            (metered a [IncK8sNodeFailed],
             (stopped "failed" (runtimeReasonToFailure (ae_Reason last)),
              Some (Errorf ("node failed: " +:+ msg)))))
      end
  end.

Definition WaitNode a (handle : AnyHandle) (watch : AttemptHandle -> res (list waited))
    : option (list K8sCounter * (ExecutionResult * option GoError)) :=
  match handle with
  | OtherHandle type =>
      Some ([], (stopped "failed" "backend_wait_error", Some (Errorf ("unexpected handle type " +:+ type))))
  | RuntimeHandle h => waitRuntimeHandle a (watch (rh_handle h))
  end.

(** ** Observing *)
Definition fillPodObservation a c (podObs : res PodObservation) (info : OptionalKueueInfo)
    : OptionalKueueInfo * option GoError :=
  match podObs with
  | Err err => (info, Some err)
  | Ok obs =>
      let info := ((info <| ki_PodName := po_PodName obs |>) <| ki_Scheduled := po_Scheduled obs |>)
                    <| ki_UnschedulableReason := po_UnschedulableReason obs |> in
      if negb (ad_clientset a) || streq (po_PodName obs) "" then (info, None)
      else
        match pods_Get c (ad_ns a) (po_PodName obs) with
        | Err err => (info, Some err)
        | Ok pod => (info <| ki_PodNodeName := pod_NodeName pod |>, None)
        end
  end.

(** A turn of the polling loop before its deadline: what the observer answers
    about the workload and then about the pod, and the context's error if it ends
    before the next turn. *)
Record poll := mkPoll {
  poll_workload : res WorkloadObservation;
  poll_pod : res PodObservation;
  poll_ctx : option GoError;
}.

Fixpoint observe_loop a c (info : OptionalKueueInfo) (polls : list poll) : res (option OptionalKueueInfo) :=
  match polls with
  | [] => Ok (Some info)
  | p :: polls =>
      match poll_workload p with
      | Ok obs =>
          let info := (((info <| ki_Observed := true |>)
                         <| ki_WorkloadName := wo_WorkloadName obs |>)
                         <| ki_PendingReason := wo_PendingReason obs |>)
                         <| ki_Admitted := wo_Admitted obs |> in
          Ok (Some (if wo_Admitted obs then (fillPodObservation a c (poll_pod p) info).1 else info))
      | Err _ =>
          match poll_ctx p with
          | Some err => Err err
          | None => observe_loop a c info polls
          end
      end
  end.

(** [podObs] is what the observer answers about the pod when there is no queue. *)
Definition ObserveNode a c (handle : AnyHandle) (podObs : res PodObservation) (polls : list poll)
    : res (option OptionalKueueInfo) :=
  match handle with
  | OtherHandle _ => Ok None
  | RuntimeHandle rh =>
      if streq (br_Name (ah_BackendRef (rh_handle rh))) "" || negb (ad_observer a) then Ok None
      else
        let info := zero_OptionalKueueInfo <| ki_QueueName := rh_queueName rh |> in
        if streq (rh_queueName rh) "" then
          match fillPodObservation a c podObs info with
          | (_, Some _) => Ok None
          | (info, None) => Ok (Some (info <| ki_Observed := true |>))
          end
        else observe_loop a c info polls
  end.

(** ** Output metadata *)
Definition outputMetadataJobRef (handle : AnyHandle) : option (string * string) :=
  match handle with
  | OtherHandle _ => None
  | RuntimeHandle h =>
      let ref := ah_BackendRef (rh_handle h) in
      if streq (br_Name ref) "" then None else Some (br_Namespace ref, br_Name ref)
  end.

Definition findJobPod c (namespace jobName : string) : res Pod :=
  match pods_List c namespace ("job-name=" +:+ jobName) with
  | Err err => Err err
  | Ok pods => pick_pod jobName pods
  end.

(** [readArtifactsManifest]: the arguments of the remote [cat], whose output is [exec]'s. *)
Definition readArtifactsManifest a (exec : string -> string -> string -> res string)
    (namespace podName manifestPath : string) : res string :=
  let namespace := if streq (TrimSpace namespace) "" then ad_ns a else namespace in
  let manifestPath := if streq (TrimSpace manifestPath) "" then DefaultArtifactsManifestPath
                      else manifestPath in
  exec namespace podName manifestPath.

Definition output_metadata (manifest : ArtifactManifest) (pod : Pod) (outputName : string)
    : option OutputMetadata :=
  (fun record => {|
     om_OutputName := outputName; om_URI := arec_URI record; om_LogicalURI := arec_LogicalURI record;
     om_Digest := arec_Digest record; om_SizeBytes := arec_SizeBytes record;
     om_ProducerAttemptID := outputProducerAttemptID record manifest;
     om_Locations := arec_Locations record; om_NodeName := pod_NodeName pod;
     om_PodName := pod_Name pod |}) <$> ByOutputName manifest outputName.

Definition collect_outputs (manifest : ArtifactManifest) (pod : Pod) (outputs : list string)
    : gmap string OutputMetadata :=
  foldl (fun out outputName => match output_metadata manifest pod outputName with
                               | Some m => <[outputName := m]> out
                               | None => out
                               end) ∅ outputs.

Definition CollectOutputMetadata a c (exec : string -> string -> string -> res string)
    (handle : AnyHandle) (node : Node) : res (gmap string OutputMetadata) :=
  match outputMetadataJobRef handle with
  | None => Err ErrOutputMetadataUnavailable
  | Some (namespace, jobName) =>
      if negb (ad_clientset a) || negb (ad_restConfig a) then Err ErrOutputMetadataUnavailable
      else
        match findJobPod c namespace jobName with
        | Err _ => Err ErrOutputMetadataUnavailable
        | Ok pod =>
            let message := readArtifactsManifestFromTerminationMessage pod in
            let raw := if (String.length message =? 0)%nat
                       then readArtifactsManifest a exec namespace (pod_Name pod) (manifestPathForNode node)
                       else Ok message in
            match raw with
            | Err _ => Err ErrOutputMetadataUnavailable
            | Ok raw =>
                match ParseArtifactManifest (Unmarshal raw) with
                | Err err => Err (Wrapf ("parse artifacts manifest for pod " +:+ pod_Name pod) err)
                | Ok manifest =>
                    match validateObservedManifest manifest node with
                    | Some err => Err (Wrapf ("validate artifacts manifest for pod " +:+ pod_Name pod) err)
                    | None =>
                        let out := collect_outputs manifest pod (n_Outputs node) in
                        if (size out =? 0)%nat then Err ErrOutputMetadataUnavailable else Ok out
                    end
                end
            end
        end
  end.

(** ** Persisting handles *)
Definition MarshalHandle (h : AnyHandle) : res (option string) :=
  match h with
  | OtherHandle _ => Ok None
  | RuntimeHandle rh =>
      match Marshal (mkPersistedRuntimeHandle (rh_handle rh) (rh_queueName rh)) with
      | Ok data => Ok (Some data)
      | Err err => Err err
      end
  end.

Definition UnmarshalHandle (data : string) : res AnyHandle :=
  match Unmarshal data with
  | Err err => Err err
  | Ok p => Ok (RuntimeHandle (mkRuntimeHandle (prh_AttemptHandle p) (prh_QueueName p)))
  end.

(** ** Finding a job by its identity *)
Definition ResolveByIdentity a c (attemptID : string)
    : option AnyHandle * ResolveOutcome * option GoError :=
  let unknown err := (None, ResolveUnknown, Some err) in
  if negb (ad_rt a) then unknown (Errorf "resolve by identity: runtime not configured")
  else if negb (ad_clientset a) then unknown (Errorf "resolve by identity: clientset not configured")
  else
    match rt_ResolveIdentity attemptID with
    | Err err => unknown (Wrapf ("resolve identity for attempt " +:+ attemptID) err)
    | Ok id =>
        match jobs_Get c (ai_Namespace id) (ai_JobName id) with
        | Err err =>
            if IsNotFound err then (None, ResolveAbsentNow, None)
            else unknown (Wrapf ("read-only get job " +:+ ai_Namespace id +:+ "/" +:+ ai_JobName id) err)
        | Ok job =>
            if streq (ai_AttemptMarker id) ""
            then unknown (Errorf ("resolve identity for attempt " +:+ attemptID +:+ ": empty attempt marker"))
            else if negb (streq (label_of (job_Annotations job) annotationMarker) (ai_AttemptMarker id))
            then (None, ResolveConflict, None)
            else (Some (RuntimeHandle {|
                    rh_handle := mkAttemptHandle attemptID
                      (NewK8sJobBackendRef (ai_Namespace id) (ai_JobName id) (job_UID job));
                    rh_queueName := label_of (job_Labels job) labelKueueQueueName |}),
                  ResolveFound, None)
        end
    end.
End adapter.
