(* ===== verification/AdapterFacts.v ===== *)
(** * The Kubernetes adapter: what its answers mean

    The handle of a started node can be found again; the pod and the manifest that
    outputs are read from; what waiting answers. *)
From S2P Require Import Prelude GoStrings GoErrors GoJson Spec Provenance BackendTypes K8sTypes JobClient JobClientFacts Contract Adapter.

(** ** The pod of a job *)

(** The first one that terminated last among those that qualify. *)
Definition last_of (eligible : Pod -> bool) (pods : list Pod) (p : Pod) : Prop :=
  exists l1 l2, pods = l1 ++ p :: l2 /\ eligible p = true /\
    (forall q, q ∈ l1 -> eligible q = true -> (terminatedAt q < terminatedAt p)%Z) /\
    (forall q, q ∈ l2 -> eligible q = true -> (terminatedAt q <= terminatedAt p)%Z).

Lemma best_pod_from eligible pods : forall (seen : list Pod) (best : option Pod),
  match best with
  | Some b => last_of eligible seen b
  | None => forall q, q ∈ seen -> eligible q = false
  end ->
  match best_pod eligible best pods with
  | Some b => last_of eligible (seen ++ pods) b
  | None => forall q, q ∈ seen ++ pods -> eligible q = false
  end.
Proof.
  induction pods as [|pod pods IH]; intros seen best H; cbn [best_pod].
  { by rewrite app_nil_r. }
  replace (seen ++ pod :: pods) with ((seen ++ [pod]) ++ pods) by by rewrite <- app_assoc.
  apply IH. destruct (eligible pod) eqn:E; cbn [andb].
  - destruct best as [b|].
    + destruct H as (l1 & l2 & -> & Hb & H1 & H2). unfold podTerminatedLater.
      destruct (Z.ltb_spec (terminatedAt b) (terminatedAt pod)) as [Hlt|Hge].
      * exists (l1 ++ b :: l2), []. split_and!; [done|done| |by intros q ?%elem_of_nil].
        intros q Hq Hqe. apply elem_of_app in Hq as [Hq|[->|Hq]%elem_of_cons]; [|done|].
        -- specialize (H1 q Hq Hqe). lia.
        -- specialize (H2 q Hq Hqe). lia.
      * exists l1, (l2 ++ [pod]). rewrite <- app_assoc. split_and!; [done|done|done|].
        intros q [Hq|Hq%list_elem_of_singleton]%elem_of_app; [by apply H2|subst; done].
    + exists seen, []. split_and!; [done|done| |by intros q ?%elem_of_nil].
      intros q Hq Hqe. by rewrite H in Hqe.
  - destruct best as [b|].
    + destruct H as (l1 & l2 & -> & Hb & H1 & H2). exists l1, (l2 ++ [pod]).
      rewrite <- app_assoc. split_and!; [done|done|done|].
      intros q [Hq|Hq%list_elem_of_singleton]%elem_of_app; [by apply H2|subst; congruence].
    + intros q [Hq|Hq%list_elem_of_singleton]%elem_of_app; [by apply H|by subst].
Qed.

Lemma best_pod_spec eligible pods :
  match best_pod eligible None pods with
  | Some b => last_of eligible pods b
  | None => forall q, q ∈ pods -> eligible q = false
  end.
Proof. apply (best_pod_from eligible pods [] None). by intros q ?%elem_of_nil. Qed.

(** The pod that a job's outputs are read from: the last one whose main
    container succeeded, if any did; else the last one whose main container
    terminated; else the first; the first of those that terminated together. *)
Theorem pick_pod_spec jobName pods :
  match pick_pod jobName pods with
  | Err _ => pods = []
  | Ok p =>
      last_of mainContainerSucceeded pods p \/
      ((forall q, q ∈ pods -> mainContainerSucceeded q = false) /\
       (last_of mainContainerTerminated pods p \/
        (forall q, q ∈ pods -> mainContainerTerminated q = false) /\ head pods = Some p))
  end.
Proof.
  unfold pick_pod. destruct pods as [|first pods]; [done|].
  pose proof (best_pod_spec mainContainerSucceeded (first :: pods)) as Hs.
  pose proof (best_pod_spec mainContainerTerminated (first :: pods)) as Ht.
  destruct (best_pod mainContainerSucceeded None _); [by left|].
  destruct (best_pod mainContainerTerminated None _); auto.
Qed.

(** ** The manifest *)
Section manifest.
Context {U : UnicodeTables}.

(** The identity that the environment asks for, if it does. *)
Definition identity_agrees (expected got : string) : Prop :=
  TrimSpace expected = "" \/ got = TrimSpace expected.

Lemma check_identity_None field expected got rest :
  check_identity field expected got rest = None <-> identity_agrees expected got /\ rest = None.
Proof.
  unfold check_identity, identity_agrees. destruct (streq (TrimSpace expected) "") eqn:E; str_tests.
  { intuition. }
  destruct (streq got "") eqn:E1; str_tests; [intuition congruence|].
  destruct (streq got (TrimSpace expected)) eqn:E2; str_tests; intuition congruence.
Qed.

(** The manifest is of a known version and of the run, node and attempt that the
    environment names. *)
Definition manifest_of (m : ArtifactManifest) (node : Node) : Prop :=
  am_SchemaVersion m ∈ [""; ArtifactManifestSchemaVersion; "nan.artifactManifest.v1"] /\
  identity_agrees (map_get (n_Env node) "JUMI_RUN_ID") (am_RunID m) /\
  identity_agrees (map_get (n_Env node) "JUMI_NODE_ID") (am_NodeID m) /\
  identity_agrees (map_get (n_Env node) "JUMI_ATTEMPT_ID") (am_AttemptID m).

Lemma validateObservedManifest_None m node :
  validateObservedManifest m node = None <-> manifest_of m node.
Proof.
  unfold validateObservedManifest, manifest_of. rewrite !elem_of_cons, elem_of_nil.
  destruct (streq (am_SchemaVersion m) "") eqn:E1, (streq (am_SchemaVersion m) ArtifactManifestSchemaVersion) eqn:E2,
    (streq (am_SchemaVersion m) "nan.artifactManifest.v1") eqn:E3; str_tests; cbn [negb andb].
  all: try (split; [done|intros [[?|[?|[?|[]]]] _]; congruence]).
  all: destruct (n_Env node) as [env|]; [rewrite !check_identity_None; tauto|].
  all: split; [intros _|done]; unfold identity_agrees; split_and!; auto.
Qed.
End manifest.

(** ** Output metadata *)
Section outputs.
Context {U : UnicodeTables} {Q : Quantities} {JM : Json ArtifactManifest}.
Context {C : Type} {K : Cluster C}.

Lemma collect_outputs_lookup manifest pod outputs name :
  collect_outputs manifest pod outputs !! name =
  if decide (name ∈ outputs) then output_metadata manifest pod name else None.
Proof.
  unfold collect_outputs.
  assert (H : forall (out : gmap string OutputMetadata),
    foldl (fun out o => match output_metadata manifest pod o with Some m => <[o := m]> out | None => out end)
      out outputs !! name =
    if decide (name ∈ outputs /\ is_Some (output_metadata manifest pod name))
    then output_metadata manifest pod name else out !! name).
  { induction outputs as [|o outputs IH]; intros out; cbn [foldl].
    { rewrite decide_False; [done|]. intros [H _]. by apply elem_of_nil in H. }
    rewrite IH. destruct (decide (name = o)) as [->|Hne].
    - destruct (output_metadata manifest pod o) as [m|] eqn:E.
      + rewrite lookup_insert_eq. destruct (decide (o ∈ outputs /\ _)), (decide (o ∈ o :: outputs /\ _)) as [|Hn];
          try done. all: exfalso; apply Hn; split; [left|eauto].
      + rewrite !decide_False; [done|..]; intros [_ [m Hm]]; done.
    - assert (Hl : match output_metadata manifest pod o with Some m => <[o := m]> out | None => out end !! name
                   = out !! name) by (destruct (output_metadata manifest pod o); by rewrite ?lookup_insert_ne).
      rewrite Hl. destruct (decide (name ∈ outputs /\ _)) as [[H1 H2]|Hn], (decide (name ∈ o :: outputs /\ _)) as [[H3 H4]|Hn'];
        try done; exfalso; [apply Hn'|apply Hn]; split; try done; [by right|].
      by apply elem_of_cons in H3 as [|]. }
  rewrite H, lookup_empty. destruct (decide (name ∈ outputs)) as [Hi|Hi].
  - destruct (output_metadata manifest pod name) eqn:E; [|by case_decide].
    rewrite decide_True; [done|eauto].
  - rewrite decide_False; [done|]. by intros [? _].
Qed.

(** C23. What is collected of a node's outputs is never empty and comes from one pod
    of its job and from a manifest of its own run, node and attempt: the declared
    outputs that the manifest records, each with its record. *)
Theorem CollectOutputMetadata_ok a (c : C) exec handle node out :
  CollectOutputMetadata a c exec handle node = Ok out ->
  out <> ∅ /\
  exists namespace jobName pod raw manifest,
    outputMetadataJobRef handle = Some (namespace, jobName) /\
    findJobPod c namespace jobName = Ok pod /\
    ParseArtifactManifest (Unmarshal raw) = Ok manifest /\
    manifest_of manifest node /\
    forall name, out !! name = if decide (name ∈ n_Outputs node) then output_metadata manifest pod name else None.
Proof.
  unfold CollectOutputMetadata. destruct (outputMetadataJobRef handle) as [[ns job]|]; [|done].
  destruct (_ || _); [done|]. destruct (findJobPod c ns job) as [pod|] eqn:Ep; [|done].
  set (raw := if (_ =? 0)%nat then _ else _). destruct raw as [raw'|] eqn:Er; [|done].
  destruct (ParseArtifactManifest (Unmarshal raw')) as [m|] eqn:Em; [|done].
  destruct (validateObservedManifest m node) eqn:Ev; [done|].
  destruct (Nat.eqb_spec (size (collect_outputs m pod (n_Outputs node))) 0) as [|Hsz]; [done|].
  intros [= <-]. split.
  - intros Hempty. apply Hsz. by rewrite Hempty, map_size_empty.
  - exists ns, job, pod, raw', m. split_and!; try done.
    + by apply validateObservedManifest_None.
    + apply collect_outputs_lookup.
Qed.
End outputs.

(** ** Waiting *)
Section waiting.
Context {R : SpawnerRuntime} {RL : SpawnerLaws}.

(** The last of the events that come before anything else, and what comes then. *)
Fixpoint stream (last : AttemptEvent) (received : list waited) : AttemptEvent * list waited :=
  match received with
  | WaitEvent ev :: received => stream ev received
  | _ => (last, received)
  end.

Lemma wait_loop_stream last received :
  wait_loop last received =
  match stream last received with
  | (ev, WaitClosed :: _) => Some (inl ev)
  | (_, WaitDone err :: _) => Some (inr err)
  | _ => None
  end.
Proof. revert last. induction received as [|[]]; intros last; simpl; done || auto. Qed.

(** What the executor looks at: it ignores the result that comes with an error. *)
Definition executor_sees (answer : ExecutionResult * option GoError) : res ExecutionResult :=
  match answer.2 with Some err => Err err | None => Ok answer.1 end.

Lemma WaitNode_answer a handle watch count answer :
  WaitNode a handle watch = Some (count, answer) ->
  (exists h received ev rest, handle = RuntimeHandle h /\ watch (rh_handle h) = Ok received /\
     stream zero_AttemptEvent received = (ev, WaitClosed :: rest) /\
     ae_State ev = AttemptStateSucceeded /\
     executor_sees answer = Ok (mkExecutionResult true "finished" "" None)) \/
  ((exists err, executor_sees answer = Err err) /\
   ~ exists h received ev rest, handle = RuntimeHandle h /\ watch (rh_handle h) = Ok received /\
     stream zero_AttemptEvent received = (ev, WaitClosed :: rest) /\
     ae_State ev = AttemptStateSucceeded).
Proof.
  unfold WaitNode, waitRuntimeHandle. destruct handle as [h|type].
  2:{ intros [= <- <-]. right. split; [by eexists|]. by intros (? & ? & ? & ? & ? & _). }
  destruct (watch (rh_handle h)) as [received|err] eqn:Ew.
  2:{ intros [= <- <-]. right. split; [by eexists|]. intros (h' & rc & ? & ? & [= <-] & E & _). congruence. }
  rewrite wait_loop_stream. destruct (stream zero_AttemptEvent received) as [ev tl] eqn:Es.
  destruct tl as [|[e| |err] tl]; try done.
  - set (other := if streq (ae_State ev) AttemptStateCancelled then _ else _).
    destruct (streq (ae_State ev) AttemptStateSucceeded) eqn:E.
    + intros [= <- <-]. left. apply streq_eq in E. by exists h, received, ev, tl.
    + intros [= Ho]. apply streq_neq in E. right. split.
      { subst other. destruct (streq (ae_State ev) AttemptStateCancelled); simplify_eq; by eexists. }
      intros (h' & rc & ev' & rest & [= <-] & Hw & Hs & Hst). congruence.
  - intros [= <- <-]. right. split; [by eexists|].
    intros (h' & rc & ev' & rest & [= <-] & Hw & Hs & _). congruence.
Qed.

Lemma WaitNode_success a handle watch count answer :
  WaitNode a handle watch = Some (count, answer) ->
  forall r, executor_sees answer = Ok r -> r = mkExecutionResult true "finished" "" None.
Proof.
  intros [(? & ? & ? & ? & _ & _ & _ & _ & ->)|[[err ->] _]]%WaitNode_answer; [by intros r [= <-]|done].
Qed.

(** C30. The executor is shown a result only of a node that succeeded, whatever the
    runtime sends: when the last event says that the attempt failed or was
    canceled, the answer is an error, which the executor takes for a lost
    observation; its branch for a failed result is dead with this adapter. *)
Theorem WaitNode_shows_success_only a handle watch count answer :
  WaitNode a handle watch = Some (count, answer) ->
  (forall r, executor_sees answer = Ok r -> r = mkExecutionResult true "finished" "" None) /\
  (is_ok (executor_sees answer) = true <->
   exists h received ev rest, handle = RuntimeHandle h /\ watch (rh_handle h) = Ok received /\
     stream zero_AttemptEvent received = (ev, WaitClosed :: rest) /\
     ae_State ev = AttemptStateSucceeded).
Proof.
  intros H. split; [by eapply WaitNode_success|].
  apply WaitNode_answer in H as [(h & rc & ev & rest & H1 & H2 & H3 & H4 & ->)|[[err ->] Hn]].
  - split; [intros _|done]. by exists h, rc, ev, rest.
  - split; [done|]. intros H. by destruct Hn.
Qed.
End waiting.

(** ** Finding the handle again *)

(** What the runtime documents: it submits an attempt by creating the job of the
    attempt's identity, whose marker is never empty. *)
Class RuntimeLaws (C : Type) {U : UnicodeTables} {RO : RangeOrder} {Q : Quantities} {L : LabelRules}
    {R : SpawnerRuntime} {K : Cluster C} {RT : Runtime C} := {
  identity_marker x id : rt_ResolveIdentity x = Ok id -> ai_AttemptMarker id <> "";
  submit_creates c r c' h : rt_SubmitAttempt c r = (c', Ok h) ->
    exists id ref, rt_ResolveIdentity (arq_AttemptID r) = Ok id /\
      Create c (mkJobCreateRequest (ai_Namespace id) (ai_JobName id) (ai_AttemptMarker id) r) = (c', Ok ref) /\
      h = mkAttemptHandle (arq_AttemptID r) ref;
}.

Section resolve.
Context {U : UnicodeTables} {RO : RangeOrder} {Q : Quantities} {L : LabelRules} {R : SpawnerRuntime}.
Context {JC : Json nodeContractFile} {JH : Json persistedRuntimeHandle}.
Context {C : Type} {K : Cluster C} {KL : ClusterLaws C} {RT : Runtime C} {RTL : RuntimeLaws C}.
Context (Getenv : string -> string).

Lemma toUserLabels_queue node :
  default "" (toUserLabels node !! labelKueueQueueName) = kueueQueueName node.
Proof.
  unfold toUserLabels, kueueQueueName. destruct (n_Kueue node) as [k|]; [|done].
  set (queue := if streq (kh_QueueName k) "" then ∅ else _).
  assert (H : forall ks (m : gmap string string),
    foldl (fun labels key => if has_prefix userLabelPrefix key
             then <[key := map_get (kh_Labels k) key]> labels else labels) m ks !! labelKueueQueueName
    = m !! labelKueueQueueName).
  { induction ks as [|key ks IH]; intros m; cbn [foldl]; [done|]. rewrite IH.
    destruct (has_prefix userLabelPrefix key) eqn:E; [|done]. apply lookup_insert_ne.
    intros ->. done. }
  rewrite H. subst queue. destruct (streq (kh_QueueName k) "") eqn:E.
  - apply streq_eq in E as ->. done.
  - by rewrite lookup_singleton_eq.
Qed.

(** No job has the name of the attempt's identity. *)
Definition no_job_yet (c : C) (attemptID : string) : Prop :=
  forall id j, rt_ResolveIdentity attemptID = Ok id -> jobs_Get c (ai_Namespace id) (ai_JobName id) <> Ok j.

(** C18. A node that was started keeps its handle through a restart, by either of
    the two ways: when its handle was stored, reading it back gives the same handle;
    when it was lost, looking the attempt up by its identity gives the same handle
    too, with the job's UID and the name of its queue. *)
Theorem started_handle_is_recovered a c c' run node count count' prepared h attemptID :
  ad_rt a = true -> ad_clientset a = true ->
  map_get (n_Env node) "JUMI_ATTEMPT_ID" = attemptID ->
  no_job_yet c attemptID ->
  PrepareNode Getenv a run node = (count, Ok prepared) ->
  StartNode a c prepared = (c', count', Ok (RuntimeHandle h)) ->
  round_trips (mkPersistedRuntimeHandle (rh_handle h) (rh_queueName h)) ->
  (exists data, MarshalHandle (RuntimeHandle h) = Ok (Some data) /\
     UnmarshalHandle data = Ok (RuntimeHandle h)) /\
  ResolveByIdentity a c' attemptID = (Some (RuntimeHandle h), ResolveFound, None).
Proof.
  intros Hrt Hcs Hid Hno [= _ <-] Hst (data & Hm & Hu). split.
  - exists data. unfold MarshalHandle, UnmarshalHandle. rewrite Hm, Hu. by destruct h.
  - unfold StartNode in Hst. cbn [prn_req prn_queueName] in Hst.
    destruct (rt_SubmitAttempt c _) as [c1 [ah|err]] eqn:Es; [|done]. injection Hst as <- _ <-.
    apply submit_creates in Es as (id & ref & Hr & Hc & ->). cbn [arq_AttemptID toAttemptRequest] in Hr.
    rewrite Hid in Hr. apply Create_ok in Hc as (_ & j & Hg & -> & _ & Hj).
    cbn [jc_Namespace jc_JobName] in Hg.
    destruct Hj as [->|[Ha Hl]]; [by destruct (Hno id j Hr)|].
    unfold ResolveByIdentity. rewrite Hrt, Hcs, Hr, Hg. cbn [negb].
    rewrite (proj2 (streq_neq _ _) (identity_marker _ _ Hr)).
    unfold label_of. rewrite Ha, Hl, buildAnnotations_marker, buildLabels_queue.
    cbn [jc_AttemptMarker jc_AttemptRequest arq_UserLabels toAttemptRequest].
    change (map_of (Some (toUserLabels node))) with (toUserLabels node).
    rewrite toUserLabels_queue. change (default "" (Some ?x)) with x.
    rewrite streq_refl. cbn [negb]. by rewrite <- Hid.
Qed.
End resolve.

(** ** The environment of the job *)
Section env.
Context {U : UnicodeTables} {RO : RangeOrder} {JC : Json nodeContractFile}.

Lemma setEnvDefault_lookup key value (env : gmap string string) k :
  setEnvDefault key value env !! k =
  if decide (k = key) then Some (default value (env !! key)) else env !! k.
Proof.
  unfold setEnvDefault. destruct (env !! key) as [v|] eqn:E; case_decide; subst; try done.
  - by rewrite lookup_insert_eq.
  - by rewrite lookup_insert_ne.
Qed.

Lemma setEnvDefault_kept key value (env : gmap string string) k v :
  env !! k = Some v -> setEnvDefault key value env !! k = Some v.
Proof. intros H. rewrite setEnvDefault_lookup. case_decide; [subst; by rewrite H|done]. Qed.

Lemma stripContractInputEnv_lookup (env : gmap string string) k :
  stripContractInputEnv env !! k = if is_contract_input k then None else env !! k.
Proof.
  unfold stripContractInputEnv.
  assert (H : forall ks (e : gmap string string),
    foldl (fun env key => if is_contract_input key then delete key env else env) e ks !! k =
    if decide (k ∈ ks /\ is_contract_input k = true) then None else e !! k).
  { induction ks as [|key ks IH]; intros e; cbn [foldl].
    { rewrite decide_False; [done|]. intros [Hk _]. by apply elem_of_nil in Hk. }
    rewrite IH. destruct (decide (k ∈ ks /\ _)) as [[H1 H2]|Hn].
    { rewrite decide_True; [done|]. split; [by right|done]. }
    destruct (decide (k = key)) as [->|Hne].
    - destruct (is_contract_input key) eqn:E.
      + rewrite lookup_delete_eq, decide_True; [done|]. split; [left|done].
      + rewrite decide_False; [done|]. by intros [_ ?].
    - rewrite decide_False.
      + destruct (is_contract_input key); [by rewrite lookup_delete_ne|done].
      + intros [[?|?]%elem_of_cons ?]; [done|]. by apply Hn. }
  rewrite H. destruct (is_contract_input k) eqn:E.
  - destruct (decide _) as [|Hn]; [done|]. destruct (env !! k) eqn:Ek; [|done]. exfalso. apply Hn.
    split; [|done]. apply elem_of_range_keys, elem_of_dom. eauto.
  - rewrite decide_False; [done|]. by intros [_ ?].
Qed.

Create HintDb env_kept.
#[local] Hint Resolve setEnvDefault_kept : env_kept.

(** What the node's environment says is never overridden by the adapter: every
    variable of the node reaches the container with its value, but for the inputs
    that the helper mode moves into the contract. *)
Theorem injectOutputContractEnv_keeps (env : gmap string string) run node k v :
  env !! k = Some v ->
  manifestExportMode node = "" \/ is_contract_input k = false ->
  injectOutputContractEnv env run node !! k = Some v.
Proof.
  intros Hk Hmode. unfold injectOutputContractEnv. destruct (_ =? 0)%nat; [done|].
  set (e := setEnvDefault "JUMI_NODE_ID" _ _).
  assert (He : e !! k = Some v) by (subst e; auto 10 with env_kept).
  set (e' := if streq _ "" then e else _).
  assert (He' : e' !! k = Some v) by (subst e'; destruct (streq _ ""); auto with env_kept).
  destruct (buildNodeContractJSON run node _) as [json|]; [|done].
  set (e2 := setEnvDefault "JUMI_NODE_CONTRACT_JSON" json _).
  assert (He2 : e2 !! k = Some v) by (subst e2; auto with env_kept).
  destruct (streq (manifestExportMode node) outputManifestModeRuntimeHelper) eqn:E; [|done].
  apply streq_eq in E. rewrite stripContractInputEnv_lookup.
  destruct Hmode as [Hmode| ->]; [rewrite Hmode in E; done|done].
Qed.
End env.
