(* ===== verification/Prog.v ===== *)
(** * Effectful code: programs over events

    The executor acts on the world through calls: registry operations, the
    backend adapter, the handoff client, the clock, the active-run table. A
    [prog A] is a Go function body as a tree of such calls ([event]), each with
    the continuation of its answer; it says nothing about how a call behaves.
    Three readings are used in the proofs:

    - [emits P p]: whatever the calls answer, only calls allowed by [P] are made;
    - [wp]: a weakest precondition over an arbitrary transition relation
      [act s e x s'] (the call [e] in state [s] may answer [x] and leave [s']),
      with a check [ok s e] at every call. With a monitor as state it gives
      ordering properties for any answers; with a registry as state it gives
      properties of the code on that registry, whatever the backend answers;
    - [run]: an interpreter, to evaluate the code on concrete worlds. *)
From S2P Require Import Prelude GoErrors Spec Registry Handoff Provenance BackendTypes.

(** ** Contexts

    A [context.Context] by how it was made. [CtxLive] is a run's cancelable context. [CtxCancel c] is a child of [c] that
    has been canceled, [CtxTimeout c n] one with a timeout of [n] seconds. *)
Inductive Ctx :=
  | CtxBackground
  | CtxLive
  | CtxTimeout (parent : Ctx) (seconds : Z)
  | CtxCancel (parent : Ctx).

(** The counters of package [metrics] that the executor increments. *)
Inductive Metric :=
  | InputResolveRequests | InputRemoteFetch | InputMaterializations | JobsCreated
  | LocalityPreferred | LocalityMatched | LocalityMiss | LocalityFallbackStart
  | LocalityFallbackOK | LocalityFallbackFail | ArtifactsRegistered
  | FastFailTrigger | SampleRunsFinalized | GCEvaluateRequests.

Section prog.
Context {BT : BackendTypes}.

Inductive event : Type -> Type :=
  (* registry; reads and writes are atomic *)
  | EGetRun (runID : string) : event (res RunRecord)
  | EListRuns : event (res (list RunRecord))
  | EGetNode (runID nodeID : string) : event (res NodeRecord)
  | EListNodes (runID : string) : event (res (list NodeRecord))
  | EListAttempts (runID nodeID : string) : event (res (list AttemptRecord))
  | EGetCurrentAttempt (runID nodeID : string) : event (res (AttemptRecord * bool))
  | EUpdateRun {X : Type} (runID : string) (f : RunRecord -> X * RunRecord) : event (res X)
  | EUpdateNode {X : Type} (runID nodeID : string) (f : NodeRecord -> X * NodeRecord) : event (res X)
  | EUpsertAttempt (record : AttemptRecord) : event (res unit)
  | EAppendEvent (record : EventRecord) : event (res unit)
  | EAllocateCurrentAttempt (runID nodeID : string) : event (res AttemptRecord)
  | EOpenSemanticAttempt (runID nodeID attemptID : string) (openedAt : Z) : event (res unit)
  | EPersistBackendHandle (runID nodeID attemptID handleJSON : string) : event (res unit)
  | EPersistCancellationIntent (runID nodeID attemptID : string) (at_ : Z) (reason : string)
      : event (res unit)
  | EPersistProcessCompleted (runID nodeID attemptID : string) (at_ : Z) : event (res unit)
  (* time, contexts, counters *)
  | ENow : event Z
  | ECtxErr (ctx : Ctx) : event (option GoError)
  | ESleep (ctx : Ctx) (nanoseconds : Z) : event (option GoError)
  | EMetric (m : Metric) : event unit
  (* backend adapter *)
  | EPrepareNode (ctx : Ctx) (run : RunRecord) (node : Node) : event (res PreparedNode)
  | EStartNode (ctx : Ctx) (prepared : PreparedNode) : event (res Handle)
  | EObserveNode (ctx : Ctx) (handle : Handle) : event (res (option OptionalKueueInfo))
  | EWaitNode (ctx : Ctx) (handle : Handle) : event (res ExecutionResult)
  | ECancelNode (ctx : Ctx) (handle : Handle) : event (res unit)
  | EMarshalHandle (handle : Handle) : event (res (option string))
  | EUnmarshalHandle (data : string) : event (res (option Handle))
  | EResolveByIdentity (ctx : Ctx) (run : RunRecord) (node : Node) (attemptID : string)
      : event (Handle * ResolveOutcome * option GoError)
  | ECollectOutputMetadata (ctx : Ctx) (handle : Handle) (node : Node)
      : event (res (gmap string OutputMetadata))
  (* artifact handoff *)
  | EResolveBinding (ctx : Ctx) (req : ResolveBindingRequest) : event (res ResolveBindingResponse)
  | ERegisterArtifact (ctx : Ctx) (req : RegisterArtifactRequest) : event (res unit)
  | ENotifyNodeTerminal (ctx : Ctx) (req : NotifyNodeTerminalRequest) : event (res unit)
  | EFinalizeSampleRun (sampleRunID : string) : event (res unit)
  | EEvaluateGC (sampleRunID : string) : event (res unit)
  (* the active run of the engine *)
  | ERegisterHandle (nodeID : string) (handle : Handle) : event unit
  | EUnregisterHandle (nodeID : string) : event unit
  | EMarkUnresolved : event unit
  (* the engine: active runs, goroutines, the channels of the fast-fail watcher *)
  | EGoExecuteRun (runID : string) : event unit
  | EGoRecoverCanceledRun (run : RunRecord) : event unit
  | EGoWatcher (runID : string) (failFast : bool) : event unit
  | ERegisterActive (runID : string) : event unit
  | EUnregisterActive (runID : string) : event unit
  | EGetActive (runID : string) : event bool
  | ECancelActive (runID : string) : event unit
  | ESnapshotHandles (runID : string) : event (list Handle)
  | EIsUnresolved : event bool
  | ETrySendFirstErr (err : GoError) : event unit
  | ETrySendFastFailRoot (nodeID : string) : event unit
  | ETryReceiveFirstErr : event (option GoError)
  | ETryReceiveFastFailRoot : event (option string)
  (* the graph library *)
  | EDagInit : event (res unit)
  | EDagCreateNode (nodeID : string) : event unit
  | EDagAddEdge (from to : string) : event (res unit)
  | EDagAddStartEdge (to : string) : event (res unit)
  | EDagFinish : event (res unit)
  | EDagSetNodeRunners (nodes : list Node) : event (list string)
  | EDagConnectRunner : event bool
  | EDagGetReady (ctx : Ctx) : event bool
  | EDagStart : event bool
  | EDagWait (ctx : Ctx) : event bool.

Inductive prog (A : Type) : Type :=
  | Ret (a : A)
  | Vis {X : Type} (e : event X) (k : X -> prog A).

Arguments Ret {A} a.
Arguments Vis {A X} e k.

Fixpoint bind {A B} (p : prog A) (f : A -> prog B) : prog B :=
  match p with
  | Ret a => f a
  | Vis e k => Vis e (fun x => bind (k x) f)
  end.

Definition trigger {X} (e : event X) : prog X := Vis e Ret.

(** ** Events made *)
Fixpoint emits (P : forall X, event X -> Prop) {A} (p : prog A) : Prop :=
  match p with
  | Ret _ => True
  | Vis e k => P _ e /\ forall x, emits P (k x)
  end.

Lemma emits_bind P {A B} (p : prog A) (f : A -> prog B) :
  emits P p -> (forall a, emits P (f a)) -> emits P (bind p f).
Proof. induction p as [a|X e k IH]; simpl; [eauto|]. intros [He Hk] Hf. eauto. Qed.

Lemma emits_trigger P {X} (e : event X) : P X e -> emits P (trigger e).
Proof. simpl. auto. Qed.

Lemma emits_mono (P Q : forall X, event X -> Prop) {A} (p : prog A) :
  (forall X e, P X e -> Q X e) -> emits P p -> emits Q p.
Proof. intros H. induction p; simpl; [done|]. naive_solver. Qed.

(** ** Weakest preconditions *)
Section wp.
Context {S : Type} (ok : S -> forall X, event X -> Prop)
        (act : S -> forall X, event X -> X -> S -> Prop).

Fixpoint wp {A} (p : prog A) (s : S) (Q : A -> S -> Prop) : Prop :=
  match p with
  | Ret a => Q a s
  | Vis e k => ok s _ e /\ forall x s', act s _ e x s' -> wp (k x) s' Q
  end.

Lemma wp_bind {A B} (p : prog A) (f : A -> prog B) s Q :
  wp p s (fun a s' => wp (f a) s' Q) -> wp (bind p f) s Q.
Proof. revert s; induction p as [a|X e k IH]; intros s; simpl; [done|]. naive_solver. Qed.

Lemma wp_mono {A} (p : prog A) s (Q R : A -> S -> Prop) :
  (forall a s', Q a s' -> R a s') -> wp p s Q -> wp p s R.
Proof. intros HQ. revert s; induction p as [a|X e k IH]; intros s; simpl; naive_solver. Qed.

Lemma wp_trigger {X} (e : event X) s Q :
  ok s _ e -> (forall x s', act s _ e x s' -> Q x s') -> wp (trigger e) s Q.
Proof. simpl. auto. Qed.

(** A program whose events never leave a set of states keeps the invariant. *)
Lemma wp_emits (P : forall X, event X -> Prop) (I : S -> Prop) {A} (p : prog A) s :
  (forall s X e, I s -> P X e -> ok s X e) ->
  (forall s X e x s', I s -> P X e -> act s X e x s' -> I s') ->
  emits P p -> I s -> wp p s (fun _ s' => I s').
Proof.
  intros Hok Hact. revert s. induction p as [a|X e k IH]; intros s; simpl; [done|].
  intros [He Hk] Hs. split; [eauto|]. intros x s' Hx. apply IH; eauto.
Qed.
End wp.

(** ** Running a program *)
Section run.
Context {W : Type} (handle : forall X, event X -> W -> W * X).

Fixpoint run {A} (p : prog A) (w : W) : W * A :=
  match p with
  | Ret a => (w, a)
  | Vis e k => let '(w, x) := handle _ e w in run (k x) w
  end.

(** What is proved with [wp] holds of the runs that the relation covers. *)
Lemma run_wp {S} (view : W -> S) ok act {A} (p : prog A) w (Q : A -> S -> Prop) :
  (forall X (e : event X) w, act (view w) X e (handle X e w).2 (view (handle X e w).1)) ->
  wp ok act p (view w) Q -> Q (run p w).2 (view (run p w).1).
Proof.
  intros Hcov. revert w. induction p as [a|X e k IH]; intros w; simpl; [done|].
  intros [_ Hk]. specialize (Hcov X e w). destruct (handle X e w) as [w' x]. simpl in *. eauto.
Qed.

(** The same under an invariant of the world that the handler keeps. *)
Lemma run_wp_inv {S} (view : W -> S) (Inv : W -> Prop) ok act {A} (p : prog A) w (Q : A -> S -> Prop) :
  (forall X (e : event X) w, Inv w ->
     act (view w) X e (handle X e w).2 (view (handle X e w).1) /\ Inv (handle X e w).1) ->
  Inv w -> wp ok act p (view w) Q -> Q (run p w).2 (view (run p w).1) /\ Inv (run p w).1.
Proof.
  intros Hcov. revert w. induction p as [a|X e k IH]; intros w Hw; simpl; [done|].
  intros [_ Hk]. destruct (Hcov X e w Hw) as [Ha Hi].
  destruct (handle X e w) as [w' x]. simpl in *. eauto.
Qed.
End run.
End prog.

Arguments Ret {BT A} a.
Arguments Vis {BT A X} e k.
