(* ===== verification/Metrics.v ===== *)
(** * Metrics ([src/pkg/metrics/metrics.go])

    The instruments, the counting of increments by the name of the instrument, and
    [Render], which takes the labels out of the exposition text. The exporter that
    writes this text is a library. The counters of the executor, of the adapter
    and of the gRPC client are instruments of one [Metrics]. *)
From S2P Require Import Prelude GoStrings GoErrors Adapter HandoffGrpc Prog.
From Stdlib Require Import Ascii.

Inductive Counter :=
  (* engine *)
  | jobsCreated | fastFailTrigger | artifactsRegistered | inputResolveRequests
  | inputRemoteFetch | inputMaterializations | localityPreferred | localityMatched
  | localityMiss | localityFallbackStart | localityFallbackOK | localityFallbackFail
  | sampleRunsFinalized | gcEvaluateRequests
  (* handoff gRPC client *)
  | handoffResolve | handoffResolveErrors | handoffRegisterArtifact
  | handoffRegisterArtifactErrors | handoffNotifyTerminal | handoffFinalize
  | handoffGCEvaluate
  (* K8s spawner *)
  | k8sNodePrepare | k8sNodePrepareErrors | k8sNodeStart | k8sNodeStartErrors
  | k8sNodeSucceeded | k8sNodeFailed | k8sNodeCanceled | k8sNodeCancel.

#[export] Instance Counter_eq_dec : EqDecision Counter.
Proof. solve_decision. Defined.

(** The table of [New], in order. *)
Definition counters : list (Counter * string) := [
  (jobsCreated, "jumi_jobs_created");
  (fastFailTrigger, "jumi_fast_fail_trigger");
  (artifactsRegistered, "jumi_artifacts_registered");
  (inputResolveRequests, "jumi_input_resolve_requests");
  (inputRemoteFetch, "jumi_input_remote_fetch");
  (inputMaterializations, "jumi_input_materializations");
  (localityPreferred, "jumi_locality_preferred");
  (localityMatched, "jumi_locality_matched");
  (localityMiss, "jumi_locality_miss");
  (localityFallbackStart, "jumi_locality_fallback_started");
  (localityFallbackOK, "jumi_locality_fallback_succeeded");
  (localityFallbackFail, "jumi_locality_fallback_failed");
  (sampleRunsFinalized, "jumi_sample_runs_finalized");
  (gcEvaluateRequests, "jumi_gc_evaluate_requests");
  (handoffResolve, "jumi_handoff_resolve");
  (handoffResolveErrors, "jumi_handoff_resolve_errors");
  (handoffRegisterArtifact, "jumi_handoff_register_artifact");
  (handoffRegisterArtifactErrors, "jumi_handoff_register_artifact_errors");
  (handoffNotifyTerminal, "jumi_handoff_notify_terminal");
  (handoffFinalize, "jumi_handoff_finalize");
  (handoffGCEvaluate, "jumi_handoff_gc_evaluate");
  (k8sNodePrepare, "jumi_k8s_node_prepare");
  (k8sNodePrepareErrors, "jumi_k8s_node_prepare_errors");
  (k8sNodeStart, "jumi_k8s_node_start");
  (k8sNodeStartErrors, "jumi_k8s_node_start_errors");
  (k8sNodeSucceeded, "jumi_k8s_node_succeeded");
  (k8sNodeFailed, "jumi_k8s_node_failed");
  (k8sNodeCanceled, "jumi_k8s_node_canceled");
  (k8sNodeCancel, "jumi_k8s_node_cancel")
].

(** [meter.Int64Counter(name)] and [meter.Float64Gauge(name)], which may refuse a
    name. *)
Class Meter := { meter_refuses : string -> option GoError }.

(** The counters made so far, and the sums by name; a counter that was never
    incremented has no sum. The gauge is a number of objects. *)
Record Metrics := mkMetrics {
  m_instruments : list (Counter * string);
  m_sums : gmap string Z;
  m_gauge : option Z;
}.

#[export] Instance eta_Metrics : Eta Metrics := fun m =>
  mkMetrics (m_instruments m) (m_sums m) (m_gauge m).

(** The loop of [New]. *)
Fixpoint register {M : Meter} (l : list (Counter * string)) (m : Metrics) : res Metrics :=
  match l with
  | [] => Ok m
  | (dest, name) :: l =>
      match meter_refuses name with
      | Some err => Err err
      | None => register l (m <| m_instruments := m_instruments m ++ [(dest, name)] |>)
      end
  end.

Definition New {M : Meter} : res Metrics :=
  match register counters (mkMetrics [] ∅ None) with
  | Err err => Err err
  | Ok m =>
      match meter_refuses "jumi_cleanup_backlog_objects" with
      | Some err => Err err
      | None => Ok m
      end
  end.

(** The name under which a counter was made. *)
Definition name_of (m : Metrics) (c : Counter) : option string :=
  snd <$> find_first (fun p => bool_decide (p.1 = c)) (m_instruments m).

(** Every [Inc...]: [Add(ctx, 1)]. *)
Definition Inc (c : Counter) (m : Metrics) : Metrics :=
  match name_of m c with
  | Some name => m <| m_sums := <[name := int_add (default 0%Z (m_sums m !! name)) 1]> (m_sums m) |>
  | None => m
  end.

Definition SetCleanupBacklogObjects (v : Z) (m : Metrics) : Metrics := m <| m_gauge := Some v |>.

(** The methods the components call. *)
Definition counter_of_executor (k : Metric) : Counter :=
  match k with
  | InputResolveRequests => inputResolveRequests
  | InputRemoteFetch => inputRemoteFetch
  | InputMaterializations => inputMaterializations
  | JobsCreated => jobsCreated
  | LocalityPreferred => localityPreferred
  | LocalityMatched => localityMatched
  | LocalityMiss => localityMiss
  | LocalityFallbackStart => localityFallbackStart
  | LocalityFallbackOK => localityFallbackOK
  | LocalityFallbackFail => localityFallbackFail
  | ArtifactsRegistered => artifactsRegistered
  | FastFailTrigger => fastFailTrigger
  | SampleRunsFinalized => sampleRunsFinalized
  | GCEvaluateRequests => gcEvaluateRequests
  end.

Definition counter_of_client (k : HandoffCounter) : Counter :=
  match k with
  | IncHandoffResolve => handoffResolve
  | IncHandoffResolveErrors => handoffResolveErrors
  | IncHandoffRegisterArtifact => handoffRegisterArtifact
  | IncHandoffRegisterArtifactErrors => handoffRegisterArtifactErrors
  | IncHandoffNotifyTerminal => handoffNotifyTerminal
  | IncHandoffFinalize => handoffFinalize
  | IncHandoffGCEvaluate => handoffGCEvaluate
  end.

Definition counter_of_adapter (k : K8sCounter) : Counter :=
  match k with
  | IncK8sNodePrepare => k8sNodePrepare
  | IncK8sNodeStart => k8sNodeStart
  | IncK8sNodeStartErrors => k8sNodeStartErrors
  | IncK8sNodeSucceeded => k8sNodeSucceeded
  | IncK8sNodeCanceled => k8sNodeCanceled
  | IncK8sNodeFailed => k8sNodeFailed
  | IncK8sNodeCancel => k8sNodeCancel
  end.

(** ** Rendering *)

(** [strings.Split(s, sep)] and [strings.IndexByte(s, c)] for one byte. *)
Fixpoint SplitByte (sep : ascii) (s : string) : list string :=
  match s with
  | "" => [""]
  | String a s =>
      if Ascii.eqb a sep then "" :: SplitByte sep s
      else match SplitByte sep s with
           | l :: ls => String a l :: ls
           | [] => [String a ""]
           end
  end.

Fixpoint IndexByte (s : string) (c : ascii) : option nat :=
  match s with
  | "" => None
  | String a s => if Ascii.eqb a c then Some 0 else S <$> IndexByte s c
  end.

(** [strings.IndexByte] is -1 for [None]. *)
Definition render_line (line : string) : string :=
  if has_prefix "#" line then line
  else
    match IndexByte line "{", IndexByte line "}" with
    | Some start, Some end_ =>
        if start <? end_ then str_take start line +:+ str_drop (S end_) line else line
    | _, _ => line
    end.

Definition newline : ascii := ascii_of_N 10.

(** [Render], on the text of the exporter. *)
Definition Render (exposition : string) : string :=
  str_join (String newline "") (map render_line (SplitByte newline exposition)).

(** ** Every counter counts its own increments *)
Definition incs (l : list Counter) (m : Metrics) : Metrics := foldl (fun m c => Inc c m) m l.

Lemma register_ok {M : Meter} l m m' :
  register l m = Ok m' -> m' = m <| m_instruments := m_instruments m ++ l |>.
Proof.
  revert m. induction l as [|[d n] l IH]; intros m; cbn [register].
  - intros [= <-]. destruct m. cbn. by rewrite app_nil_r.
  - destruct (meter_refuses n); [done|]. intros H. rewrite (IH _ H). destruct m. cbn.
    by rewrite <- app_assoc.
Qed.

Lemma New_instruments {M : Meter} m :
  New = Ok m -> m_instruments m = counters /\ m_sums m = ∅ /\ m_gauge m = None.
Proof.
  unfold New. destruct (register counters _) as [m'|] eqn:E; [|done].
  destruct (meter_refuses _); [done|]. intros [= <-]. by rewrite (register_ok _ _ _ E).
Qed.

Definition counter_name (c : Counter) : string :=
  default "" (snd <$> find_first (fun p => bool_decide (p.1 = c)) counters).

Lemma counter_name_inj c d : counter_name c = counter_name d -> c = d.
Proof. by destruct c, d. Qed.

Lemma name_of_new m c : m_instruments m = counters -> name_of m c = Some (counter_name c).
Proof. intros H. unfold name_of. rewrite H. by destruct c. Qed.

Definition occurrences (c : Counter) (l : list Counter) : Z := countb (fun d => bool_decide (d = c)) l.

Lemma incs_sums l m c :
  m_instruments m = counters ->
  (forall d, 0 <= default 0 (m_sums m !! counter_name d) <= int64_max - Z.of_nat (length l))%Z ->
  default 0%Z (m_sums (incs l m) !! counter_name c) =
    (default 0%Z (m_sums m !! counter_name c) + occurrences c l)%Z.
Proof.
  revert m. unfold occurrences. induction l as [|d l IH]; intros m Hi Hb.
  { unfold countb, incs. simpl. lia. }
  change (incs (d :: l) m) with (incs l (Inc d m)). cbn [length] in Hb. rewrite countb_cons.
  assert (Hn : Inc d m = m <| m_sums := <[counter_name d :=
    (default 0 (m_sums m !! counter_name d) + 1)%Z]> (m_sums m) |>).
  { unfold Inc. rewrite (name_of_new m d Hi). do 2 f_equal. rewrite int_add_succ; [done|].
    specialize (Hb d). lia. }
  rewrite Hn. setoid_rewrite IH; [|done|].
  - cbn [m_sums setf]. destruct (decide (d = c)) as [->|Hne].
    + rewrite lookup_insert_eq, bool_decide_true by done. simpl. lia.
    + rewrite lookup_insert_ne, bool_decide_false by (done || intros E; by apply Hne, counter_name_inj). lia.
  - intros e. pose proof (Hb e) as He. pose proof (Hb d) as Hd. cbn [m_sums setf]. destruct (decide (d = e)) as [->|Hne].
    + rewrite lookup_insert_eq. simpl. lia.
    + rewrite lookup_insert_ne by (intros E; by apply Hne, counter_name_inj). lia.
Qed.

(** After any increments of a new [Metrics], every counter shows under its own
    name exactly how often it was incremented: no two counters share a name. *)
Theorem counters_count {M : Meter} m l c :
  New = Ok m -> (Z.of_nat (length l) <= int64_max)%Z ->
  default 0%Z (m_sums (incs l m) !! counter_name c) = occurrences c l.
Proof.
  intros H Hl. apply New_instruments in H as (Hi & Hs & _).
  rewrite incs_sums by (done || intros d; rewrite Hs, lookup_empty; cbn; lia).
  by rewrite Hs, lookup_empty.
Qed.

Definition willing_meter : Meter := {| meter_refuses := fun _ => None |}.

Lemma counters_count_witness :
  exists m, New (M := willing_meter) = Ok m /\
    default 0%Z (m_sums (incs [jobsCreated; handoffResolve; jobsCreated] m) !! counter_name jobsCreated) = 2%Z.
Proof.
  exists (mkMetrics counters ∅ None). split; [reflexivity|].
  rewrite (counters_count (M := willing_meter)); [reflexivity|reflexivity|]. vm_compute. discriminate.
Defined.
