(* ===== verification/Runner.v ===== *)
(** * The node runner ([src/pkg/executor/executor.go], [nodeRunner])

    The state machine of one node: reconcile what a previous executor left,
    allocate or resume an attempt, resolve the inputs, prepare the backend, open
    the submission fence, start, observe, wait and finalize. Every method is a
    program over the events of [Prog] that threads the runner's own mutable
    fields ([RunnerState]); [defer r.unregisterHandle()] is the call after the
    rest of the body. [r.active] is never nil: both engines' loops set it. *)
From S2P Require Import Prelude GoStrings GoErrors GoTime Spec Registry Handoff Provenance.
From S2P Require Import BackendTypes Binding Placement Reconcile Prog.

Record postSchedulingResolve := mkpostSchedulingResolve {
  ps_Binding : ArtifactBinding;
  ps_Request : ResolveBindingRequest;
  ps_InitialDecision : string;
  ps_InitialMode : string;
}.

Record RunnerState := mkRunnerState {
  rs_localityHints : list bindingLocalityHint;
  rs_postSchedulingResolves : list postSchedulingResolve;
  rs_localityFallbackStarted : bool;
  rs_localityActualNode : string;
}.

#[export] Instance eta_RunnerState : Eta RunnerState := fun r =>
  mkRunnerState (rs_localityHints r) (rs_postSchedulingResolves r)
    (rs_localityFallbackStarted r) (rs_localityActualNode r).

Definition new_runner : RunnerState := mkRunnerState [] [] false "".

Definition errNodeRetry : GoError := ErrNew "node will retry".
Definition errReconcileUnresolved : GoError := ErrNew "attempt backend truth unresolved".
Definition errRunUnresolved : GoError := ErrNew "run has unresolved backend truth".

Definition resolveBindingMaxAttempts : nat := 3.
Definition resolveBindingRetryDelay : Z := 100 * Millisecond.
Definition resolveBindingPendingMaxAttempts : nat := 5.
Definition resolveBindingPendingInitialDelay : Z := 1 * Second.
Definition resolveBindingPendingMaxDelay : Z := 10 * Second.
Definition resolveBindingPendingBackoffFactor : Z := 2.
Definition realizationAttemptCeiling : Z := 32.

(** ** The monad of runner methods *)
Section monad.
Context {BT : BackendTypes}.

Definition M (A : Type) : Type := RunnerState -> prog (RunnerState * A).

#[export] Instance M_ret : MRet M := fun A a s => Ret (s, a).
#[export] Instance M_bind : MBind M := fun A B f m s => bind (m s) (fun '(s, a) => f a s).

(** One call. *)
Definition call {X} (e : event X) : M X := fun s => Vis e (fun x => Ret (s, x)).

Definition get : M RunnerState := fun s => Ret (s, s).
Definition modify (f : RunnerState -> RunnerState) : M unit := fun s => Ret (f s, tt).

(** [_ = f()]: the result is dropped. *)
Definition ignore {A} (m : M A) : M unit := m ≫= fun _ => mret tt.

Fixpoint for_each {A} (l : list A) (body : A -> M unit) : M unit :=
  match l with
  | [] => mret tt
  | x :: l => body x ≫= fun _ => for_each l body
  end.
End monad.

(** [if err := m; err != nil { return err }] in a method that returns [error]. *)
Notation "x ←? m ; k" := (m ≫= fun r => match r with Err e => mret (Some e) | Ok x => k end)
  (at level 20, m at level 100, k at level 200, right associativity).
Notation "'try' m ; k" := (m ≫= fun r => match r with Err e => mret (Some e) | Ok _ => k end)
  (at level 20, m at level 100, k at level 200, right associativity).

Definition causedByMessage (rootNodeID : string) : string :=
  if streq rootNodeID "" then ""
  else "caused_by=" +:+ rootNodeID +:+ " (fast-fail downstream cancellation)".

Definition effectiveMaxAttempts (m : Z) : Z := if (m <? 1)%Z then 1 else m.

Definition nodeStatusFromAttempt (attempt : AttemptRecord) : NodeStatus :=
  if streq (ar_TerminalStopCause attempt) "canceled" then NodeStatusCanceled
  else if decide (ar_Status attempt = AttemptStatusCompleted) then NodeStatusSucceeded
  else NodeStatusFailed.

Definition toHandoffLocations (locations : list ProvArtifactLocation) (fallbackNodeName : string)
    : list ArtifactLocation :=
  map (fun loc =>
    match pal_NodeLocal loc with
    | None => zero_ArtifactLocation
    | Some nl =>
        zero_ArtifactLocation <| al_NodeLocal := Some
          {| nl_NodeName := if streq (pnl_NodeName nl) "" then fallbackNodeName
                            else pnl_NodeName nl;
             nl_Path := pnl_Path nl |} |>
    end) locations.

Section runner.
Context {BT : BackendTypes} {U : UnicodeTables} (caps : AdapterCaps).
Context (runID : string) (r_node : Node).

Notation nodeID := (n_NodeID r_node).

(** ** Small steps *)
Definition now : M Z := call ENow.
Definition metric (m : Metric) : M unit := call (EMetric m).
Definition appendEvent (e : EventRecord) : M unit := ignore (call (EAppendEvent e)).
Definition updateNode {X} (f : NodeRecord -> X * NodeRecord) : M (res X) :=
  call (EUpdateNode runID nodeID f).
Definition setNode (f : NodeRecord -> NodeRecord) : M (res unit) := updateNode (fun n => (tt, f n)).

(** An [EventRecord] of this node. *)
Definition event_of (attemptID typ : string) (at_ : Z) (level : string) : EventRecord :=
  zero_EventRecord <| ev_RunID := runID |> <| ev_NodeID := nodeID |>
    <| ev_AttemptID := attemptID |> <| ev_Type := typ |> <| ev_OccurredAt := at_ |>
    <| ev_Level := level |>.

(** An [AttemptRecord] of this node, with the status it is set to. *)
Definition attempt_of (attemptID : string) (status : AttemptStatus) : AttemptRecord :=
  zero_AttemptRecord <| ar_RunID := runID |> <| ar_NodeID := nodeID |>
    <| ar_AttemptID := attemptID |> <| ar_Status := status |>.

(** [_ = r.registry.UpsertAttempt(...)] of a failed attempt, with the time read
    while the record is built. *)
Definition upsertErrored (attemptID : string) (startedAt : Z) (reason : string) : M unit :=
  t ← now;
  ignore (call (EUpsertAttempt ((attempt_of attemptID AttemptStatusErrored)
    <| ar_StartedAt := Some startedAt |> <| ar_FinishedAt := Some t |>
    <| ar_TerminalStopCause := "failed" |> <| ar_TerminalFailureReason := reason |>))).

Definition sampleRunID : M string :=
  r ← call (EGetRun runID);
  mret (match r with Err _ => "" | Ok run => rm_SampleRunID (es_Run (rr_Spec run)) end).

Definition lookupNodeAttemptID (id : string) : M string :=
  r ← call (EListNodes runID);
  mret (match r with
        | Err _ => ""
        | Ok nodes =>
            match find_first (fun n => streq (nr_NodeID n) id) nodes with
            | Some n => nr_CurrentAttemptID n
            | None => ""
            end
        end).

Definition isRunCanceled : M bool :=
  r ← call (EGetRun runID);
  mret (match r with Err _ => false | Ok run => bool_decide (rr_Status run = RunStatusCanceled) end).

Definition effectiveCancellationReason (reason : string) : M string :=
  if negb (streq reason "") && negb (streq reason "cancellation_requested") then mret reason
  else
    r ← call (EGetRun runID);
    mret (match r with
          | Ok run =>
              if negb (streq (rr_TerminalFailureReason run) "")
                 && negb (streq (rr_TerminalFailureReason run) "cancellation_requested")
              then rr_TerminalFailureReason run
              else FirstNonEmpty [reason; "cancellation_requested"]
          | Err _ => FirstNonEmpty [reason; "cancellation_requested"]
          end).

Definition notifyNodeTerminal (ctx : Ctx) (terminalState attemptID : string) : M (res unit) :=
  sample ← sampleRunID;
  call (ENotifyNodeTerminal ctx
    {| nt_SampleRunID := FirstNonEmpty [sample; runID]; nt_NodeID := nodeID;
       nt_AttemptID := attemptID; nt_TerminalState := terminalState |}).

Definition registerHandle (handle : Handle) : M unit := call (ERegisterHandle nodeID handle).
Definition unregisterHandle : M unit := call (EUnregisterHandle nodeID).

(** [ctx.Err()]: a context made canceled reports it; the others are asked. *)
Definition ctxErr (ctx : Ctx) : M (option GoError) :=
  match ctx with
  | CtxBackground => mret None
  | CtxCancel _ => mret (Some CtxCanceled)
  | _ => call (ECtxErr ctx)
  end.

(** ** Locality *)
Definition recordLocalityHint (binding : ArtifactBinding) (resolved : ResolveBindingResponse)
    (attemptID : string) : M unit :=
  if streq (pi_NodeName (rs_PlacementIntent resolved)) "" then mret tt
  else
    let hint :=
      {| lh_BindingName := ab_BindingName binding;
         lh_ChildInputName := ab_ChildInputName binding;
         lh_PreferredNodeName := pi_NodeName (rs_PlacementIntent resolved);
         lh_PlacementMode := pi_Mode (rs_PlacementIntent resolved);
         lh_Decision := rs_Decision resolved;
         lh_RequiresMaterialization := requiresMaterialization resolved |} in
    modify (fun s => s <| rs_localityHints := rs_localityHints s ++ [hint] |>);;
    metric LocalityPreferred;;
    t ← now;
    appendEvent ((event_of attemptID "node.locality.preferred" t "info") <| ev_Message :=
      "binding=" +:+ FirstNonEmpty [ab_ChildInputName binding; ab_BindingName binding]
      +:+ " preferredNode=" +:+ lh_PreferredNodeName hint
      +:+ " mode=" +:+ FirstNonEmpty [lh_PlacementMode hint; "unspecified"] |>).

Definition recordPostSchedulingResolve (binding : ArtifactBinding) (req : ResolveBindingRequest)
    (resolved : ResolveBindingResponse) : M unit :=
  modify (fun s => s <| rs_postSchedulingResolves := rs_postSchedulingResolves s ++
    [{| ps_Binding := binding; ps_Request := req; ps_InitialDecision := rs_Decision resolved;
        ps_InitialMode := mp_Mode (rs_MaterializationPlan resolved) |}] |>).

Definition bool_string (b : bool) : string := if b then "true" else "false".

Definition observeLocality (info : OptionalKueueInfo) (attemptID : string) : M unit :=
  if streq (ki_PodNodeName info) "" then mret tt
  else
    s ← get;
    for_each (rs_localityHints s) (fun hint =>
      let bindingName := FirstNonEmpty [lh_ChildInputName hint; lh_BindingName hint] in
      let msg := "binding=" +:+ bindingName +:+ " podNode=" +:+ ki_PodNodeName info
                 +:+ " preferredNode=" +:+ lh_PreferredNodeName hint in
      if streq (ki_PodNodeName info) (lh_PreferredNodeName hint) then
        metric LocalityMatched;;
        t ← now;
        appendEvent ((event_of attemptID "node.locality.matched" t "info") <| ev_Message := msg |>)
      else
        metric LocalityMiss;;
        t ← now;
        appendEvent ((event_of attemptID "node.locality.missed" t "warn") <| ev_Message := msg |>);;
        if streq (lh_Decision hint) "remote_fetch" || lh_RequiresMaterialization hint then
          modify (fun s => s <| rs_localityFallbackStarted := true |>);;
          metric LocalityFallbackStart;;
          t ← now;
          appendEvent ((event_of attemptID "node.locality.fallback_started" t "info")
            <| ev_Message := "binding=" +:+ bindingName +:+ " decision=" +:+ lh_Decision hint
                 +:+ " materialization=" +:+ bool_string (lh_RequiresMaterialization hint) |>)
        else mret tt).

Definition recordLocalityFallbackSuccess (attemptID : string) : M unit :=
  s ← get;
  if negb (rs_localityFallbackStarted s) then mret tt
  else
    metric LocalityFallbackOK;;
    t ← now;
    appendEvent ((event_of attemptID "node.locality.fallback_succeeded" t "info") <| ev_Message :=
      FirstNonEmpty [rs_localityActualNode s; "fallback preserved node success"] |>);;
    modify (fun s => s <| rs_localityFallbackStarted := false |>).

Definition recordLocalityFallbackFailure (attemptID : string) : M unit :=
  s ← get;
  if negb (rs_localityFallbackStarted s) then mret tt
  else
    metric LocalityFallbackFail;;
    t ← now;
    appendEvent ((event_of attemptID "node.locality.fallback_failed" t "error") <| ev_Message :=
      FirstNonEmpty [rs_localityActualNode s; "fallback path failed"] |>);;
    modify (fun s => s <| rs_localityFallbackStarted := false |>).

Definition shouldObserveScheduling : M bool :=
  s ← get;
  mret (match n_Kueue r_node with
        | Some k => negb (streq (kh_QueueName k) "")
        | None => false
        end || match rs_localityHints s with [] => false | _ => true end).

Definition recordPlacementHintApplication (attemptID : string) (hints : list bindingLocalityHint)
    (placement : option PlacementHints) : M unit :=
  let appliedRequired :=
    match placement with
    | Some p => TrimSpace (map_get (ph_NodeSelector p) hostnameNodeSelectorKey)
    | None => ""
    end in
  for_each hints (fun hint =>
    let bindingName := FirstNonEmpty [lh_ChildInputName hint; lh_BindingName hint] in
    if streq (lh_PlacementMode hint) placementModeRequiredNode then
      if streq appliedRequired (lh_PreferredNodeName hint) && negb (streq appliedRequired "") then
        t ← now;
        appendEvent ((event_of attemptID "node.placement.required_applied" t "info")
          <| ev_Message := "binding=" +:+ bindingName +:+ " nodeSelector["
               +:+ hostnameNodeSelectorKey +:+ "]=" +:+ appliedRequired |>)
      else mret tt
    else if streq (lh_PlacementMode hint) placementModePreferredNode then
      t ← now;
      appendEvent ((event_of attemptID "node.placement.preferred_applied" t "info")
        <| ev_Message := "binding=" +:+ bindingName +:+ " preferredNode="
             +:+ lh_PreferredNodeName hint +:+ " mapped to backend preferred placement" |>)
    else mret tt).

(** ** Resolving inputs *)

(** The loop of [resolveBindingWithRetry] with [left] attempts to go. *)
Fixpoint resolve_retry (ctx : Ctx) (req : ResolveBindingRequest) (attemptID bindingName : string)
    (left : nat) (attempt : Z) (lastErr : GoError) : M (res ResolveBindingResponse) :=
  match left with
  | O => mret (Err lastErr)
  | S left' =>
      r ← call (EResolveBinding ctx req);
      match r with
      | Ok resolved => mret (Ok resolved)
      | Err err =>
          if negb (isTransientResolveBindingError (Some err)) then mret (Err err)
          else
            t ← now;
            appendEvent ((event_of attemptID "node.input_resolve_retry" t "warn")
              <| ev_FailureReason := "resolve_handoff_error" |>
              <| ev_Message := "binding=" +:+ bindingName +:+ " attempt=" +:+ Itoa attempt +:+ "/"
                   +:+ Itoa (Z.of_nat resolveBindingMaxAttempts) +:+ " error="
                   +:+ error_text err |>);;
            match left' with
            | O => mret (Err err)
            | _ =>
                stop ← call (ESleep ctx resolveBindingRetryDelay);
                match stop with
                | Some e => mret (Err e)
                | None => resolve_retry ctx req attemptID bindingName left' (attempt + 1) err
                end
            end
      end
  end.

Definition resolveBindingWithRetry (ctx : Ctx) (req : ResolveBindingRequest)
    (attemptID bindingName : string) : M (res ResolveBindingResponse) :=
  resolve_retry ctx req attemptID bindingName resolveBindingMaxAttempts 1 (Errorf "").

(** The loop of [resolveBindingForExecution]; the code after it is never
    reached, and is kept. *)
Fixpoint resolve_pending (ctx : Ctx) (req : ResolveBindingRequest) (attemptID : string)
    (binding : ArtifactBinding) (left : nat) (attempt pendingDelay : Z)
    (lastResolved : ResolveBindingResponse) : M (res ResolveBindingResponse) :=
  match left with
  | O => mret (Err (Errorf (resolveBindingFailureReason binding lastResolved)))
  | S left' =>
      r ← resolveBindingWithRetry ctx req attemptID (ab_BindingName binding);
      match r with
      | Err err => mret (Err err)
      | Ok resolved =>
          match classifyResolvedBinding binding resolved with
          | (resolveProceed, _) =>
              match validateResolvedBindingContract binding resolved with
              | Err err => mret (Err err)
              | Ok _ => mret (Ok resolved)
              end
          | (resolveSkipOptional, _) => mret (Ok resolved)
          | (resolveFail, failureReason) => mret (Err (Errorf failureReason))
          | (resolveRetry, failureReason) =>
              t ← now;
              appendEvent ((event_of attemptID "node.input_resolve_pending" t "warn")
                <| ev_FailureReason := failureReason |>
                <| ev_Message := "binding=" +:+ ab_BindingName binding +:+ " status="
                     +:+ rs_ResolutionStatus resolved +:+ " attempt=" +:+ Itoa attempt +:+ "/"
                     +:+ Itoa (Z.of_nat resolveBindingPendingMaxAttempts) +:+ " nextDelay="
                     +:+ Duration_String pendingDelay |>);;
              match left' with
              | O => mret (Err (Errorf failureReason))
              | _ =>
                  stop ← call (ESleep ctx pendingDelay);
                  match stop with
                  | Some e => mret (Err e)
                  | None =>
                      let pendingDelay := (pendingDelay * resolveBindingPendingBackoffFactor)%Z in
                      let pendingDelay := if (resolveBindingPendingMaxDelay <? pendingDelay)%Z
                                          then resolveBindingPendingMaxDelay else pendingDelay in
                      resolve_pending ctx req attemptID binding left' (attempt + 1) pendingDelay
                        resolved
                  end
              end
          end
      end
  end.

Definition resolveBindingForExecution (ctx : Ctx) (req : ResolveBindingRequest)
    (attemptID : string) (binding : ArtifactBinding) : M (res ResolveBindingResponse) :=
  resolve_pending ctx req attemptID binding resolveBindingPendingMaxAttempts 1
    resolveBindingPendingInitialDelay zero_ResolveBindingResponse.

Definition resolvePostSchedulingBindings (ctx : Ctx) (attemptID targetNodeName : string) : M unit :=
  let targetNodeName := TrimSpace targetNodeName in
  s ← get;
  if streq targetNodeName "" then mret tt
  else
    for_each (rs_postSchedulingResolves s) (fun item =>
      let bindingName := FirstNonEmpty [ab_ChildInputName (ps_Binding item);
                                        ab_BindingName (ps_Binding item)] in
      let req := (ps_Request item) <| rq_TargetNodeName := targetNodeName |> in
      metric InputResolveRequests;;
      r ← resolveBindingWithRetry ctx req attemptID (ab_BindingName (ps_Binding item));
      match r with
      | Err err =>
          t ← now;
          appendEvent ((event_of attemptID "node.input_post_scheduling_resolve_failed" t "warn")
            <| ev_FailureReason := "post_scheduling_resolve_error" |>
            <| ev_Message := "binding=" +:+ bindingName +:+ " targetNode=" +:+ targetNodeName
                 +:+ " error=" +:+ error_text err |>)
      | Ok resolved =>
          t ← now;
          appendEvent ((event_of attemptID "node.input_post_scheduling_resolved" t "info")
            <| ev_Message := "binding=" +:+ bindingName +:+ " targetNode=" +:+ targetNodeName
                 +:+ " decision=" +:+ rs_Decision resolved
                 +:+ " status=" +:+ rs_ResolutionStatus resolved
                 +:+ " materialization=" +:+ mp_Mode (rs_MaterializationPlan resolved)
                 +:+ " initialDecision=" +:+ ps_InitialDecision item
                 +:+ " initialMaterialization=" +:+ ps_InitialMode item
                 +:+ " observationOnly=true runtimeEnvUpdated=false" |>)
      end).

(** ** Outputs *)
Definition collectOutputMetadata (ctx : Ctx) (handle : Handle) (node : Node)
    : M (res (gmap string OutputMetadata)) :=
  if negb (cap_OutputMetadataProvider caps) then
    mret (match n_Outputs node with
          | [] => Ok ∅
          | _ => Err (Errorf ("output metadata provider required for declared outputs on node "
                              +:+ nodeID))
          end)
  else
    r ← call (ECollectOutputMetadata ctx handle node);
    mret (match r with
          | Err err => Err (ErrorfW ("collect output metadata for node " +:+ nodeID +:+ ": "
                                     +:+ error_text err) err)
          | Ok metadata => Ok metadata
          end).

Fixpoint register_outputs (ctx : Ctx) (attemptID sample : string)
    (outputMetadata : gmap string OutputMetadata) (outputs : list string) : M (option GoError) :=
  match outputs with
  | [] => mret None
  | outputName :: outputs =>
      if streq outputName "" then register_outputs ctx attemptID sample outputMetadata outputs
      else match outputMetadata !! outputName with
      | None => mret (Some (Errorf ("required output " +:+ outputName
                  +:+ " missing from manifest for node " +:+ nodeID)))
      | Some metadata =>
          if streq (TrimSpace (om_Digest metadata)) "" then
            mret (Some (Errorf ("required output " +:+ outputName
                    +:+ " has empty digest for node " +:+ nodeID)))
          else
            let metadata :=
              if has_prefix "jumi://" (TrimSpace (om_URI metadata)) then
                (if streq (TrimSpace (om_LogicalURI metadata)) ""
                 then metadata <| om_LogicalURI := om_URI metadata |> else metadata)
                  <| om_URI := "" |>
              else metadata in
            if streq (TrimSpace (om_URI metadata)) ""
               && match om_Locations metadata with [] => true | _ => false end
            then mret (Some (Errorf ("required output " +:+ outputName
                   +:+ " has neither uri nor locations for node " +:+ nodeID)))
            else
              r ← call (ERegisterArtifact ctx
                {| ra_SampleRunID := sample;
                   ra_ProducerNodeID := nodeID;
                   ra_ProducerAttemptID := attemptID;
                   ra_OutputName := outputName;
                   ra_ArtifactID := sample +:+ "/" +:+ nodeID +:+ "/" +:+ attemptID +:+ "/" +:+ outputName;
                   ra_Digest := om_Digest metadata;
                   ra_NodeName := om_NodeName metadata;
                   ra_URI := om_URI metadata;
                   ra_LogicalURI := om_LogicalURI metadata;
                   ra_Locations := toHandoffLocations (om_Locations metadata) (om_NodeName metadata);
                   ra_SizeBytes := om_SizeBytes metadata |});
              match r with
              | Err err => mret (Some (ErrorfW ("register artifact " +:+ outputName +:+ " for node "
                                  +:+ nodeID +:+ ": " +:+ error_text err) err))
              | Ok _ =>
                  metric ArtifactsRegistered;;
                  register_outputs ctx attemptID sample outputMetadata outputs
              end
      end
  end.

Definition registerNodeOutputs (ctx : Ctx) (handle : Handle) (attemptID : string) (node : Node)
    : M (option GoError) :=
  match n_Outputs node with
  | [] => mret None
  | outputs =>
      outputMetadata ←? collectOutputMetadata ctx handle node;
      sample ← sampleRunID;
      register_outputs ctx attemptID (FirstNonEmpty [sample; runID]) outputMetadata outputs
  end.

(** ** Ending a node *)
Definition notify_failed (attemptID stopCause : string) (err : GoError) : M unit :=
  t ← now;
  appendEvent ((event_of attemptID "node.handoff.notify_failed" t "error")
    <| ev_StopCause := stopCause |> <| ev_FailureReason := "notify_node_terminal_error" |>
    <| ev_Message := error_text err |>).

Definition terminalizeFailed (cause : GoError) (attemptID terminalStopCause failureReason : string)
    : M (option GoError) :=
  finishedAt ← now;
  appendEvent ((event_of attemptID "node.failed" finishedAt "error")
    <| ev_StopCause := terminalStopCause |> <| ev_FailureReason := failureReason |>);;
  ignore (setNode (fun current => current <| nr_Status := NodeStatusFailed |>
    <| nr_TerminalStopCause := terminalStopCause |>
    <| nr_TerminalFailureReason := failureReason |>
    <| nr_CurrentBottleneckLocation := "" |>
    <| nr_FinishedAt := Some finishedAt |>
    <| nr_CurrentAttemptHandleJSON := "" |>));;
  r ← notifyNodeTerminal CtxBackground "Failed" attemptID;
  match r with
  | Err err => notify_failed attemptID "failed" err
  | Ok _ => mret tt
  end;;
  mret (Some cause).

Definition cancelNode (attemptID reason : string) : M (option GoError) :=
  finishedAt ← now;
  terminalReason ← effectiveCancellationReason reason;
  ignore (call (EUpsertAttempt ((attempt_of attemptID AttemptStatusErrored)
    <| ar_FinishedAt := Some finishedAt |> <| ar_TerminalStopCause := "canceled" |>
    <| ar_TerminalFailureReason := terminalReason |>)));;
  appendEvent ((event_of attemptID "node.canceled" finishedAt "warn")
    <| ev_StopCause := "canceled" |> <| ev_FailureReason := terminalReason |>);;
  try setNode (fun current => current <| nr_Status := NodeStatusCanceled |>
    <| nr_TerminalStopCause := "canceled" |>
    <| nr_TerminalFailureReason := terminalReason |>
    <| nr_CurrentBottleneckLocation := "" |>
    <| nr_FinishedAt := Some finishedAt |>
    <| nr_CurrentAttemptHandleJSON := "" |>);
  r ← notifyNodeTerminal CtxBackground "Canceled" attemptID;
  match r with
  | Err err => notify_failed attemptID "canceled" err
  | Ok _ => mret tt
  end;;
  mret None.

Definition terminalizeFailedNoRetry (cause : GoError)
    (attemptID terminalStopCause failureReason : string) : M (option GoError) :=
  recordLocalityFallbackFailure attemptID;;
  canceled ← isRunCanceled;
  if canceled : bool then cancelNode attemptID "cancellation_requested"
  else terminalizeFailed cause attemptID terminalStopCause failureReason.

(** [r.active.markUnresolved()] *)
Definition markUnresolved : M unit := call EMarkUnresolved.

Definition reconcileUnresolved (attemptID : string) : M (option GoError) :=
  t ← now;
  appendEvent ((event_of attemptID "node.recovery.unresolved" t "warn")
    <| ev_FailureReason := "reconcile_unresolved" |>
    <| ev_Message := "backend truth unresolved; reconcile-by-identity deferred (no replacement attempt)" |>);;
  ignore (setNode (fun current =>
    current <| nr_CurrentBottleneckLocation := "reconcile_unresolved" |>));;
  markUnresolved;;
  mret (Some errReconcileUnresolved).

Definition deferFinalizationAfterSuccess (attemptID finalizationReason : string) (cause : GoError)
    : M (option GoError) :=
  t ← now;
  r ← call (EPersistProcessCompleted runID nodeID attemptID t);
  match r with
  | Err err =>
      t ← now;
      appendEvent ((event_of attemptID "node.finalization.evidence_persist_failed" t "error")
        <| ev_FailureReason := finalizationReason |> <| ev_Message := error_text err |>);;
      markUnresolved;;
      mret (Some errReconcileUnresolved)
  | Ok _ =>
      t ← now;
      appendEvent ((event_of attemptID "node.finalization.deferred" t "warn")
        <| ev_FailureReason := finalizationReason |>
        <| ev_Message := "user process completed; platform finalization failed ("
             +:+ finalizationReason
             +:+ "); will reconcile finalization without rerunning user code: "
             +:+ error_text cause |>);;
      ignore (setNode (fun current =>
        current <| nr_CurrentBottleneckLocation := "finalization_pending" |>));;
      markUnresolved;;
      mret (Some errReconcileUnresolved)
  end.

Definition realizationRetriesRemaining : M (Z * bool) :=
  r ← call (EGetNode runID nodeID);
  mret (match r with
        | Err _ => (0%Z, false)
        | Ok node =>
            let remaining := (realizationAttemptCeiling - nr_RealizationAttemptCount node)%Z in
            if (remaining <=? 0)%Z then (0%Z, false) else (remaining, true)
        end).

Definition failNode (cause : GoError) (attemptID terminalStopCause failureReason : string)
    (realizationRetryable : bool) : M (option GoError) :=
  recordLocalityFallbackFailure attemptID;;
  canceled ← isRunCanceled;
  if canceled : bool then cancelNode attemptID "cancellation_requested"
  else
    rem ← realizationRetriesRemaining;
    let '(remaining, ok) := rem : Z * bool in
    if realizationRetryable && ok then
      finishedAt ← now;
      g ← call (EGetCurrentAttempt runID nodeID);
      match g with
      | Ok (cur, ok2) =>
          if ok2 && streq (ar_AttemptID cur) attemptID
             && negb (is_some (ar_SubmissionWindowOpenedAt cur))
          then ignore (call (EUpsertAttempt
                 (cur <| ar_RealizationReattemptableAt := Some finishedAt |>)))
          else mret tt
      | Err _ => mret tt
      end;;
      appendEvent ((event_of attemptID "node.attempt_failed" finishedAt "warn")
        <| ev_StopCause := terminalStopCause |> <| ev_FailureReason := failureReason |>
        <| ev_Message := "pre-submission realization failed, will re-realize ("
             +:+ Itoa remaining +:+ " realization cycles remaining)" |>);;
      ignore (setNode (fun current => current <| nr_Status := NodeStatusPending |>
        <| nr_CurrentBottleneckLocation := "retry_wait" |>
        <| nr_TerminalStopCause := "" |> <| nr_TerminalFailureReason := "" |>
        <| nr_FinishedAt := None |> <| nr_CurrentAttemptID := "" |>
        <| nr_CurrentAttemptHandleJSON := "" |>));;
      mret (Some errNodeRetry)
    else terminalizeFailed cause attemptID terminalStopCause failureReason.

(** ** Waiting for the backend *)
Definition waitAndFinalize (ctx : Ctx) (handle : Handle) (attemptID : string) (startedAt : Z)
    (execNode : Node) : M (option GoError) :=
  w ← call (EWaitNode ctx handle);
  match w with
  | Err _ =>
      recordLocalityFallbackFailure attemptID;;
      canceled ← isRunCanceled;
      if canceled : bool then cancelNode attemptID "cancellation_requested"
      else
        e ← ctxErr ctx;
        match e with
        | Some _ => cancelNode attemptID "cancellation_requested"
        | None => reconcileUnresolved attemptID
        end
  | Ok result =>
      finishedAt ← now;
      if negb (er_Succeeded result) then
        recordLocalityFallbackFailure attemptID;;
        let failureReason := terminalFailureReasonFromResult result in
        let terminalStopCause := FirstNonEmpty [er_TerminalStopCause result; "failed"] in
        ignore (call (EUpsertAttempt ((attempt_of attemptID AttemptStatusErrored)
          <| ar_StartedAt := Some startedAt |> <| ar_FinishedAt := Some finishedAt |>
          <| ar_TerminalStopCause := terminalStopCause |>
          <| ar_TerminalFailureReason := failureReason |>)));;
        terminalizeFailedNoRetry (Errorf failureReason) attemptID terminalStopCause failureReason
      else
        recordLocalityFallbackSuccess attemptID;;
        o ← registerNodeOutputs CtxBackground handle attemptID execNode;
        match o with
        | Some err => deferFinalizationAfterSuccess attemptID "register_artifact_error" err
        | None =>
            n ← notifyNodeTerminal CtxBackground "Succeeded" attemptID;
            match n with
            | Err err => deferFinalizationAfterSuccess attemptID "notify_node_terminal_error" err
            | Ok _ =>
                let stopCause := FirstNonEmpty [er_TerminalStopCause result; "finished"] in
                ignore (call (EUpsertAttempt ((attempt_of attemptID AttemptStatusCompleted)
                  <| ar_StartedAt := Some startedAt |> <| ar_FinishedAt := Some finishedAt |>
                  <| ar_TerminalStopCause := stopCause |>
                  <| ar_TerminalFailureReason := er_TerminalFailureReason result |>)));;
                try setNode (fun current => current <| nr_Status := NodeStatusSucceeded |>
                  <| nr_TerminalStopCause := stopCause |>
                  <| nr_TerminalFailureReason := er_TerminalFailureReason result |>
                  <| nr_CurrentBottleneckLocation := "" |>
                  <| nr_FinishedAt := Some finishedAt |>
                  <| nr_CurrentAttemptHandleJSON := "" |>);
                appendEvent ((event_of attemptID "node.succeeded" finishedAt "info")
                  <| ev_StopCause := stopCause |>);;
                mret None
            end
        end
  end.

Definition runFromHandle (ctx : Ctx) (handle : Handle) (attemptID : string)
    : M (option GoError) :=
  registerHandle handle;;
  startedAt ← now;
  appendEvent ((event_of attemptID "node.recovery.reattached" startedAt "info")
    <| ev_Message := "reattached to in-flight backend job after executor restart" |>);;
  r ← waitAndFinalize ctx handle attemptID startedAt r_node;
  unregisterHandle;;
  mret r.

(** ** Recovering what a previous executor left *)
Definition tryRestoreHandle : M (option (Handle * string)) :=
  if negb (cap_HandlePersister caps) then mret None
  else
    r ← call (EGetNode runID nodeID);
    match r with
    | Err _ => mret None
    | Ok node =>
        if streq (nr_CurrentAttemptHandleJSON node) "" then mret None
        else match nr_Status node with
        | NodeStatusRunning | NodeStatusStarting | NodeStatusReleasing =>
            h ← call (EUnmarshalHandle (nr_CurrentAttemptHandleJSON node));
            mret (match h with
                  | Ok (Some h) => Some (h, nr_CurrentAttemptID node)
                  | _ => None
                  end)
        | _ => mret None
        end
    end.

Definition persistHandle (handle : Handle) (attemptID : string) : M (res unit) :=
  if negb (cap_HandlePersister caps) then mret (Ok tt)
  else
    d ← call (EMarshalHandle handle);
    match d with
    | Ok (Some data) => call (EPersistBackendHandle runID nodeID attemptID data)
    | _ => mret (Ok tt)
    end.

Definition repairTerminalProjection (node : NodeRecord) (attempt : AttemptRecord)
    (hasAttempt : bool) : M (option GoError) :=
  node ← (if negb (NodeStatus_IsTerminal (nr_Status node)) && hasAttempt
             && AttemptStatus_IsTerminal (ar_Status attempt) then
            let repaired := nodeStatusFromAttempt attempt in
            ignore (setNode (fun current =>
              if NodeStatus_IsTerminal (nr_Status current) then current
              else current <| nr_Status := repaired |>
                <| nr_TerminalStopCause := ar_TerminalStopCause attempt |>
                <| nr_TerminalFailureReason := ar_TerminalFailureReason attempt |>
                <| nr_CurrentBottleneckLocation := "" |>
                <| nr_FinishedAt := ar_FinishedAt attempt |>
                <| nr_CurrentAttemptHandleJSON := "" |>));;
            t ← now;
            appendEvent ((event_of (ar_AttemptID attempt) "node.recovery.repaired" t "info")
              <| ev_StopCause := ar_TerminalStopCause attempt |>
              <| ev_FailureReason := ar_TerminalFailureReason attempt |>
              <| ev_Message := "repaired stale node projection to " +:+ NodeStatus_string repaired |>);;
            mret (node <| nr_Status := repaired |>
                       <| nr_TerminalFailureReason := ar_TerminalFailureReason attempt |>)
          else mret node);
  mret (if decide (nr_Status node = NodeStatusFailed)
        then Some (Errorf ("node " +:+ nodeID +:+ " already terminal (failed): "
                           +:+ nr_TerminalFailureReason node))
        else None).

Definition attachResolvedHandle (ctx : Ctx) (handle : Handle) (attemptID : string)
    (currentAttempt : AttemptRecord) : M (option GoError) :=
  p ← persistHandle handle attemptID;
  match p with
  | Err _ => reconcileUnresolved attemptID
  | Ok _ =>
      t ← now;
      appendEvent ((event_of attemptID "node.recovery.identity_resolved" t "info")
        <| ev_Message := "resolved backend job by deterministic identity (read-only); reattaching same attempt" |>);;
      canceled ← (if is_some (ar_CancellationRequestedAt currentAttempt) then mret true
                  else isRunCanceled);
      if canceled : bool then
        c ← call (ECancelNode CtxBackground handle);
        match c with
        | Err _ => reconcileUnresolved attemptID
        | Ok _ => runFromHandle (CtxCancel ctx) handle attemptID
        end
      else runFromHandle ctx handle attemptID
  end.

Definition reconcileByIdentity (ctx : Ctx) (node : NodeRecord) (currentAttempt : AttemptRecord)
    : M (option GoError) :=
  let attemptID := nr_CurrentAttemptID node in
  if negb (cap_AttemptResolver caps) then reconcileUnresolved attemptID
  else
    run ←? call (EGetRun runID);
    r ← call (EResolveByIdentity ctx run r_node attemptID);
    match r with
    | (handle, ResolveFound, _) => attachResolvedHandle ctx handle attemptID currentAttempt
    | (_, ResolveConflict, _) =>
        t ← now;
        appendEvent ((event_of attemptID "node.recovery.identity_conflict" t "error")
          <| ev_FailureReason := "identity_conflict" |>
          <| ev_Message := "backend job at deterministic identity has a mismatched jumi.io/attempt-marker annotation; not this attempt (no attach/replace)" |>);;
        reconcileUnresolved attemptID
    | (_, _, resErr) =>
        match resErr with
        | Some e =>
            t ← now;
            appendEvent ((event_of attemptID "node.recovery.identity_unknown" t "warn")
              <| ev_FailureReason := "identity_resolve_error" |> <| ev_Message := error_text e |>)
        | None => mret tt
        end;;
        reconcileUnresolved attemptID
    end.

(** The result of [reconcileBeforeAllocation]: done with an error or nil, or go
    on with a decision and the node that was read. *)
Inductive reconcile_result :=
  | Done (err : option GoError)
  | Proceed (decision : ReconcileDecision) (node : NodeRecord).

Definition reconcileBeforeAllocation (ctx : Ctx) : M reconcile_result :=
  n ← call (EGetNode runID nodeID);
  match n with
  | Err err => mret (Done (Some err))
  | Ok node =>
      a ← call (EGetCurrentAttempt runID nodeID);
      match a with
      | Err err => mret (Done (Some err))
      | Ok (currentAttempt, hasAttempt) =>
          match ClassifyReconcile node currentAttempt hasAttempt with
          | ReconcileTerminalRepair =>
              r ← repairTerminalProjection node currentAttempt hasAttempt; mret (Done r)
          | ReconcileReattach =>
              h ← tryRestoreHandle;
              match h with
              | Some (h, id) => r ← runFromHandle ctx h id; mret (Done r)
              | None => r ← reconcileUnresolved (nr_CurrentAttemptID node); mret (Done r)
              end
          | ReconcileResolveByIdentity =>
              r ← reconcileByIdentity ctx node currentAttempt; mret (Done r)
          | decision => mret (Proceed decision node)
          end
      end
  end.

(** ** The body of one attempt

    Cut into its stages, in order: choose the attempt, resolve the bindings,
    place and prepare, open the fence and start, observe, wait. *)

(** Allocate a new attempt or resume the current one: its identity and start
    time. *)
Definition body_attempt (decision : ReconcileDecision) (node : NodeRecord)
    : M (res (string * Z)) :=
  match decision with
  | ReconcileResumePreFence =>
      let attemptID := nr_CurrentAttemptID node in
      t ← now;
      u ← setNode (fun current => current <| nr_Status := NodeStatusReady |>
            <| nr_CurrentBottleneckLocation := "release_wait" |>);
      match u with
      | Err err => mret (Err err)
      | Ok _ =>
          appendEvent ((event_of attemptID "node.recovery.resumed" t "info")
            <| ev_Message := "resuming same attempt: submission fence not crossed" |>);;
          mret (Ok (attemptID, t))
      end
  | _ =>
      a ← call (EAllocateCurrentAttempt runID nodeID);
      match a with
      | Err err => mret (Err err)
      | Ok allocated =>
          t ← match ar_StartedAt allocated with Some t => mret t | None => now end;
          mret (Ok (ar_AttemptID allocated, t))
      end
  end.

Definition binding_request (run : RunRecord) (binding : ArtifactBinding)
    (producerAttemptID attemptID : string) : ResolveBindingRequest :=
  {| rq_RunID := runID;
     rq_SampleRunID := FirstNonEmpty [rm_SampleRunID (es_Run (rr_Spec run)); runID];
     rq_ChildNodeID := nodeID;
     rq_BindingName := ab_BindingName binding;
     rq_ChildInputName := ab_ChildInputName binding;
     rq_ProducerNodeID := ab_ProducerNodeID binding;
     rq_ProducerAttemptID := producerAttemptID;
     rq_ChildAttemptID := attemptID;
     rq_ProducerOutputName := ab_ProducerOutputName binding;
     rq_ArtifactID := ab_ArtifactID binding;
     rq_ConsumePolicy := ab_ConsumePolicy binding;
     rq_ExpectedDigest := ab_ExpectedDigest binding;
     rq_Required := ab_Required binding;
     rq_TargetNodeName := "" |}.

(** The loop over the bindings. [Ok] is the execution node with the variables of
    all inputs; [Err] the value the whole body returns. *)
Fixpoint body_bindings (ctx : Ctx) (run : RunRecord) (attemptID : string) (t0 : Z)
    (bindings : list ArtifactBinding) (executionNode : Node) : M (Node + option GoError) :=
  match bindings with
  | [] => mret (inl executionNode)
  | binding :: bindings =>
      metric InputResolveRequests;;
      producer ← lookupNodeAttemptID (ab_ProducerNodeID binding);
      let req := binding_request run binding producer attemptID in
      r ← resolveBindingForExecution ctx req attemptID binding;
      match r with
      | Err err =>
          let failureReason := resolveFailureReason (Some err) in
          upsertErrored attemptID t0 failureReason;;
          f ← failNode err attemptID "failed" failureReason false;
          mret (inr f)
      | Ok resolved =>
          t ← now;
          appendEvent ((event_of attemptID "node.input_resolved" t "info")
            <| ev_Message := "binding=" +:+ ab_BindingName binding +:+ " decision="
                 +:+ rs_Decision resolved +:+ " status=" +:+ rs_ResolutionStatus resolved |>);;
          (if streq (rs_Decision resolved) "remote_fetch"
           then metric InputRemoteFetch else mret tt);;
          (if requiresMaterialization resolved then metric InputMaterializations else mret tt);;
          recordPostSchedulingResolve binding req resolved;;
          recordLocalityHint binding resolved attemptID;;
          body_bindings ctx run attemptID t0 bindings
            (injectResolvedBindingEnv executionNode binding resolved)
      end
  end.

(** The whole [if len(r.node.ArtifactBindings) > 0] block. *)
Definition body_inputs (ctx : Ctx) (run : RunRecord) (attemptID : string) (t0 : Z)
    (executionNode : Node) : M (Node + option GoError) :=
  match n_ArtifactBindings r_node with
  | [] => mret (inl executionNode)
  | bindings =>
      match validateResolvedBindingEnvKeys bindings with
      | Err err =>
          upsertErrored attemptID t0 "input_env_key_collision";;
          f ← failNode err attemptID "failed" "input_env_key_collision" false;
          mret (inr f)
      | Ok _ =>
          u ← setNode (fun current => current <| nr_Status := NodeStatusBuildingBindings |>
                <| nr_CurrentBottleneckLocation := "building_bindings" |>);
          match u with
          | Err err => mret (inr (Some err))
          | Ok _ =>
              t ← now;
              appendEvent ((event_of attemptID "node.building_bindings" t "info")
                <| ev_Message := "building artifact bindings" |>);;
              u ← setNode (fun current => current <| nr_Status := NodeStatusResolvingInputs |>
                    <| nr_CurrentBottleneckLocation := "resolving_inputs" |>);
              match u with
              | Err err => mret (inr (Some err))
              | Ok _ => body_bindings ctx run attemptID t0 bindings executionNode
              end
          end
      end
  end.

Definition openedOpportunityCount : M (res Z) :=
  r ← call (EListAttempts runID nodeID);
  mret (match r with
        | Err err => Err err
        | Ok attempts => Ok (countb (fun a => is_some (ar_SubmissionWindowOpenedAt a)) attempts)
        end).

Definition observation_of (k : OptionalKueueInfo) : NodeObservation :=
  {| no_KueueObserved := ki_Observed k; no_QueueName := ki_QueueName k;
     no_WorkloadName := ki_WorkloadName k; no_KueuePendingReason := ki_PendingReason k;
     no_KueueAdmitted := ki_Admitted k; no_PodName := ki_PodName k;
     no_PodNodeName := ki_PodNodeName k; no_PodScheduled := ki_Scheduled k;
     no_UnschedulableReason := ki_UnschedulableReason k |}.

(** Observing the started execution: the bottleneck to show. *)
Definition body_observe (ctx : Ctx) (handle : Handle) (attemptID : string) : M string :=
  should ← shouldObserveScheduling;
  if negb should then mret "running"
  else
    o ← call (EObserveNode ctx handle);
    match o with
    | Ok (Some kueueInfo) =>
        if negb (ki_Observed kueueInfo) then mret "running"
        else
          modify (fun s => s <| rs_localityActualNode := ki_PodNodeName kueueInfo |>);;
          ignore (setNode (fun current =>
            current <| nr_Observation := observation_of kueueInfo |>));;
          observeLocality kueueInfo attemptID;;
          (if ki_Scheduled kueueInfo && negb (streq (ki_PodNodeName kueueInfo) "")
           then resolvePostSchedulingBindings ctx attemptID (ki_PodNodeName kueueInfo)
           else mret tt);;
          if negb (ki_Admitted kueueInfo) then
            t ← now;
            appendEvent ((event_of attemptID "node.kueue.pending" t "info")
              <| ev_Message := FirstNonEmpty [ki_PendingReason kueueInfo;
                                              "waiting for Kueue admission"] |>);;
            mret "kueue_pending"
          else
            t ← now;
            appendEvent ((event_of attemptID "node.kueue.admitted" t "info")
              <| ev_Message := FirstNonEmpty [ki_WorkloadName kueueInfo;
                                              "Kueue admitted workload"] |>);;
            if negb (ki_Scheduled kueueInfo) && negb (streq (ki_UnschedulableReason kueueInfo) "")
            then
              t ← now;
              appendEvent ((event_of attemptID "node.scheduler.pending" t "warn")
                <| ev_Message := ki_UnschedulableReason kueueInfo |>);;
              t ← now;
              appendEvent ((event_of attemptID "node.kueue.pod_observed" t "info")
                <| ev_Message := FirstNonEmpty [ki_PodName kueueInfo; "pod observed"] |>);;
              mret "scheduler_pending"
            else mret "running"
    | _ => mret "running"
    end.

(** After a successful [StartNode]: up to the deferred [unregisterHandle]. *)
Definition body_started (ctx : Ctx) (handle : Handle) (attemptID : string) (releaseDelay : Z)
    (executionNode : Node) : M (option GoError) :=
  ignore (persistHandle handle attemptID);;
  startedAt ← now;
  (if (200 * Millisecond <=? releaseDelay)%Z then
     appendEvent ((event_of attemptID "node.release.waited" startedAt "info")
       <| ev_Message := "bounded release delayed start by "
            +:+ Duration_String (Truncate releaseDelay (10 * Millisecond)) |>)
   else mret tt);;
  ignore (call (EUpsertAttempt ((attempt_of attemptID AttemptStatusStarted)
    <| ar_StartedAt := Some startedAt |>)));;
  bottleneck ← body_observe ctx handle attemptID;
  try setNode (fun current => current <| nr_Status := NodeStatusRunning |>
        <| nr_CurrentBottleneckLocation := bottleneck |>);
  appendEvent ((event_of attemptID "node.running" startedAt "info")
    <| ev_Message := "backend start completed and node is running" |>);;
  waitAndFinalize ctx handle attemptID startedAt executionNode.

(** The fence, and the start behind it. *)
Definition body_start (ctx : Ctx) (prepared : PreparedNode) (attemptID : string) (t0 : Z)
    (executionNode : Node) : M (option GoError) :=
  opened ←? openedOpportunityCount;
  let budget := effectiveMaxAttempts (rtp_MaxAttempts (n_RetryPolicy r_node)) in
  if (budget <=? opened)%Z then
    upsertErrored attemptID t0 "attempt_budget_exhausted";;
    terminalizeFailed
      (Errorf ("user-code execution opportunity budget exhausted (MaxAttempts=" +:+ Itoa budget +:+ ")"))
      attemptID "failed" "attempt_budget_exhausted"
  else
    t ← now;
    f ← call (EOpenSemanticAttempt runID nodeID attemptID t);
    match f with
    | Err err =>
        upsertErrored attemptID t0 "submission_fence_persist_error";;
        failNode err attemptID "failed" "submission_fence_persist_error" true
    | Ok _ =>
        releaseStartedAt ← now;
        h ← call (EStartNode ctx prepared);
        t ← now;
        let releaseDelay := (t - releaseStartedAt)%Z in
        match h with
        | Err _ => reconcileUnresolved attemptID
        | Ok handle =>
            metric JobsCreated;;
            registerHandle handle;;
            r ← body_started ctx handle attemptID releaseDelay executionNode;
            unregisterHandle;;
            mret r
        end
    end.

(** Placement and preparation. *)
Definition body_prepare (ctx : Ctx) (run : RunRecord) (attemptID : string) (t0 : Z)
    (executionNode : Node) : M (option GoError) :=
  s ← get;
  match applyPlacementHints executionNode (rs_localityHints s) with
  | (_, Err err) =>
      upsertErrored attemptID t0 "placement_conflict";;
      failNode err attemptID "failed" "placement_conflict" false
  | (executionNode, Ok _) =>
      recordPlacementHintApplication attemptID (rs_localityHints s) (n_Placement executionNode);;
      try setNode (fun current => current <| nr_Status := NodeStatusStarting |>
            <| nr_CurrentBottleneckLocation := "backend_prepare" |>);
      t ← now;
      appendEvent ((event_of attemptID "node.starting" t "info")
        <| ev_Message := "backend prepare starting" |>);;
      p ← call (EPrepareNode ctx run executionNode);
      match p with
      | Err err =>
          upsertErrored attemptID t0 "backend_prepare_error";;
          failNode err attemptID "failed" "backend_prepare_error" true
      | Ok prepared =>
          try setNode (fun current => current <| nr_Status := NodeStatusReleasing |>
                <| nr_CurrentBottleneckLocation := "release_wait" |>);
          t ← now;
          appendEvent ((event_of attemptID "node.releasing" t "info")
            <| ev_Message := "bounded release waiting/start in progress" |>);;
          body_start ctx prepared attemptID t0 executionNode
      end
  end.

Definition runAttemptBody (ctx : Ctx) : M (option GoError) :=
  d ← reconcileBeforeAllocation ctx;
  match d with
  | Done err => mret err
  | Proceed decision node =>
      run ←? call (EGetRun runID);
      let executionNode := cloneNode r_node in
      modify (fun s => s <| rs_postSchedulingResolves := [] |>);;
      a ← body_attempt decision node;
      match a with
      | Err err => mret (Some err)
      | Ok (attemptID, t0) =>
          appendEvent ((event_of attemptID "node.ready" t0 "info")
            <| ev_Message := "node became ready for release" |>);;
          i ← body_inputs ctx run attemptID t0 executionNode;
          match i with
          | inr r => mret r
          | inl executionNode =>
              body_prepare ctx run attemptID t0
                (injectRuntimeContextEnv executionNode run attemptID)
          end
      end
  end.

(** [RunE] loops while the body asks for a retry; [None] is out of fuel. *)
Fixpoint run_loop (fuel : nat) (ctx : Ctx) : M (option (option GoError)) :=
  match fuel with
  | O => mret None
  | S fuel =>
      err ← runAttemptBody ctx;
      match err with
      | Some e => if errors_is e errNodeRetry then run_loop fuel ctx else mret (Some err)
      | None => mret (Some None)
      end
  end.

Definition RunE (fuel : nat) (ctx : Ctx) : M (option (option GoError)) :=
  let ctx := if (0 <? tp_Seconds (n_TimeoutPolicy r_node))%Z
             then CtxTimeout ctx (tp_Seconds (n_TimeoutPolicy r_node)) else ctx in
  run_loop fuel ctx.

(** ** Recovering a canceled run *)
Definition markNodeCanceledNoAttempt : M unit :=
  finishedAt ← now;
  reason ← effectiveCancellationReason "cancellation_requested";
  ignore (setNode (fun current =>
    if NodeStatus_IsTerminal (nr_Status current) then current
    else current <| nr_Status := NodeStatusCanceled |>
      <| nr_TerminalStopCause := "canceled" |> <| nr_TerminalFailureReason := reason |>
      <| nr_CurrentBottleneckLocation := "" |> <| nr_FinishedAt := Some finishedAt |>));;
  appendEvent ((event_of "" "node.canceled" finishedAt "warn")
    <| ev_StopCause := "canceled" |> <| ev_FailureReason := reason |>).

Definition driveCancellation (ctx : Ctx) : M unit :=
  n ← call (EGetNode runID nodeID);
  match n with
  | Err _ => mret tt
  | Ok node =>
      if NodeStatus_IsTerminal (nr_Status node) then mret tt
      else
        a ← call (EGetCurrentAttempt runID nodeID);
        match a with
        | Err _ => mret tt
        | Ok (currentAttempt, hasAttempt) =>
            match ClassifyReconcile node currentAttempt hasAttempt with
            | ReconcileTerminalRepair =>
                ignore (repairTerminalProjection node currentAttempt hasAttempt)
            | ReconcileReattach =>
                h ← tryRestoreHandle;
                match h with
                | Some (h, id) =>
                    ignore (call (ECancelNode CtxBackground h));;
                    ignore (runFromHandle (CtxCancel ctx) h id)
                | None => ignore (reconcileUnresolved (nr_CurrentAttemptID node))
                end
            | ReconcileResolveByIdentity => ignore (reconcileByIdentity ctx node currentAttempt)
            | _ =>
                let attemptID := FirstNonEmpty [nr_CurrentAttemptID node; ar_AttemptID currentAttempt] in
                if streq attemptID "" then markNodeCanceledNoAttempt
                else ignore (cancelNode attemptID "cancellation_requested")
            end
        end
  end.
End runner.
