(* ===== verification/RunnerLogic.v ===== *)
(** * A program logic for the node runner

    The rules of [emits] and [wp] lifted to the runner's monad, and the
    automation that applies them: [emits_auto] walks through a method and leaves
    the calls that are not covered by a hint. *)
From S2P Require Import Prelude GoStrings GoErrors Spec Registry Handoff Provenance BackendTypes.
From S2P Require Import Binding Placement Reconcile Prog Runner.

Section logic.
Context {BT : BackendTypes}.

Definition emitsM (P : forall X, event X -> Prop) {A} (m : M A) : Prop := forall s, emits P (m s).

Lemma emitsM_mono (P Q : forall X, event X -> Prop) {A} (m : M A) :
  (forall X e, P X e -> Q X e) -> emitsM P m -> emitsM Q m.
Proof. intros H Hm s. by eapply emits_mono. Qed.

Lemma emitsM_ret P {A} (a : A) : emitsM P (mret a : M A).
Proof. intros s. exact I. Qed.

Lemma emitsM_bind P {A B} (m : M A) (f : A -> M B) :
  emitsM P m -> (forall a, emitsM P (f a)) -> emitsM P (m ≫= f).
Proof. intros Hm Hf s. apply emits_bind; [apply Hm|]. intros [s' a]. apply Hf. Qed.

Lemma emitsM_call P {X} (e : event X) : P X e -> emitsM P (call e).
Proof. intros H s. simpl. auto. Qed.

Lemma emitsM_get P : emitsM P get.
Proof. intros s. exact I. Qed.

Lemma emitsM_modify P f : emitsM P (modify f).
Proof. intros s. exact I. Qed.

Lemma emitsM_ignore P {A} (m : M A) : emitsM P m -> emitsM P (ignore m).
Proof. intros H. apply emitsM_bind; [done|]. intros. apply emitsM_ret. Qed.

Lemma emitsM_for_each P {A} (l : list A) (body : A -> M unit) :
  (forall x, emitsM P (body x)) -> emitsM P (for_each l body).
Proof.
  intros H. induction l as [|x l IH]; simpl; [apply emitsM_ret|]. by apply emitsM_bind.
Qed.

Section wp.
Context {S : Type} (ok : S -> forall X, event X -> Prop)
        (act : S -> forall X, event X -> X -> S -> Prop).

Definition wpM {A} (m : M A) (r : RunnerState) (s : S) (Q : A -> RunnerState -> S -> Prop) : Prop :=
  wp ok act (m r) s (fun ra s' => Q ra.2 ra.1 s').

Lemma wpM_ret {A} (a : A) r s (Q : A -> RunnerState -> S -> Prop) :
  Q a r s -> wpM (mret a) r s Q.
Proof. done. Qed.

Lemma wpM_bind {A B} (m : M A) (f : A -> M B) r s Q :
  wpM m r s (fun a r' s' => wpM (f a) r' s' Q) -> wpM (m ≫= f) r s Q.
Proof.
  intros H. apply wp_bind. eapply wp_mono; [|exact H]. intros [r' a] s' H'. exact H'.
Qed.

Lemma wpM_call {X} (e : event X) r s (Q : X -> RunnerState -> S -> Prop) :
  ok s X e -> (forall x s', act s X e x s' -> Q x r s') -> wpM (call e) r s Q.
Proof. intros H1 H2. split; [done|]. intros x s' Hx. by apply H2. Qed.

Lemma wpM_get r s (Q : RunnerState -> RunnerState -> S -> Prop) : Q r r s -> wpM get r s Q.
Proof. done. Qed.

Lemma wpM_modify f r s (Q : unit -> RunnerState -> S -> Prop) : Q tt (f r) s -> wpM (modify f) r s Q.
Proof. done. Qed.

Lemma wpM_mono {A} (m : M A) r s (Q R : A -> RunnerState -> S -> Prop) :
  (forall a r' s', Q a r' s' -> R a r' s') -> wpM m r s Q -> wpM m r s R.
Proof. intros H. apply wp_mono. intros [r' a] s'. apply H. Qed.

Lemma wpM_ignore {A} (m : M A) r s Q :
  wpM m r s (fun _ r' s' => Q tt r' s') -> wpM (ignore m) r s Q.
Proof. intros H. apply wpM_bind. eapply wpM_mono; [|exact H]. done. Qed.

(** Calls of a class that keeps an invariant of the states. *)
Lemma wpM_emits (P : forall X, event X -> Prop) (I : S -> Prop) {A} (m : M A) r s
    (Q : A -> RunnerState -> S -> Prop) :
  (forall s X e, I s -> P X e -> ok s X e) ->
  (forall s X e x s', I s -> P X e -> act s X e x s' -> I s') ->
  emitsM P m -> I s -> (forall a r' s', I s' -> Q a r' s') -> wpM m r s Q.
Proof.
  intros H1 H2 Hm Hs HQ. eapply wp_mono; [|by eapply (wp_emits ok act P I)].
  intros [r' a] s' Hs'. by apply HQ.
Qed.
End wp.
End logic.

Create HintDb emits.
#[export] Hint Resolve emitsM_ret emitsM_get emitsM_modify : emits.

(** Walk through a method: binds, calls, loops, matches. *)
Ltac emits_step :=
  match goal with
  | |- forall _, _ => intros ?
  | |- emitsM _ (mret _) => apply emitsM_ret
  | |- emitsM _ get => apply emitsM_get
  | |- emitsM _ (modify _) => apply emitsM_modify
  | |- emitsM _ (_ ≫= _) => apply emitsM_bind
  | |- emitsM _ (call _) => apply emitsM_call
  | |- emitsM _ (ignore _) => apply emitsM_ignore
  | |- emitsM _ (for_each _ _) => apply emitsM_for_each
  | |- emitsM _ (match ?x with _ => _ end) => destruct x
  | |- emitsM _ (if ?x then _ else _) => destruct x
  | |- emitsM _ (let '(_, _) := ?x in _) => destruct x
  end.

Ltac emits_auto := repeat first [ solve [auto with emits nocore] | progress cbv zeta | emits_step ].

(** ** Which methods make which calls *)
Section classes.
Context {BT : BackendTypes} {U : UnicodeTables} (caps : AdapterCaps) (runID : string) (r_node : Node).

(** The calls by which a node runner creates: a new attempt, its fence, a
    prepared or a started execution. *)
Definition creates (X : Type) (e : event X) : Prop :=
  match e with
  | EAllocateCurrentAttempt _ _ | EOpenSemanticAttempt _ _ _ _
  | EPrepareNode _ _ _ | EStartNode _ _ => True
  | _ => False
  end.

Definition quiet (X : Type) (e : event X) : Prop := ~ creates X e.

(** The realization count and the current attempt of a node. *)
Definition counters_of (n : NodeRecord) : Z * string :=
  (nr_RealizationAttemptCount n, nr_CurrentAttemptID n).

(** Calls that moreover leave these two alone and have no part in a success: they do not observe the
    execution or read the current attempt, do not register artifacts, do not
    announce success, and do not write it to an attempt or a node. *)
Definition tame (X : Type) (e : event X) : Prop :=
  match e with
  | EAllocateCurrentAttempt _ _ | EOpenSemanticAttempt _ _ _ _
  | EPrepareNode _ _ _ | EStartNode _ _
  | EGetCurrentAttempt _ _ | EWaitNode _ _ | ERegisterArtifact _ _ => False
  | ENotifyNodeTerminal _ req => nt_TerminalState req <> "Succeeded"
  | EUpsertAttempt record => ar_Status record <> AttemptStatusCompleted
  | EUpdateNode _ _ f => forall n,
      counters_of (f n).2 = counters_of n /\
      (nr_Status (f n).2 = NodeStatusSucceeded -> nr_Status n = NodeStatusSucceeded)
  | _ => True
  end.

Lemma tame_quiet X (e : event X) : tame X e -> quiet X e.
Proof. unfold quiet. destruct e; simpl; tauto. Qed.

Local Notation t := (emitsM tame).
Local Notation q := (emitsM quiet).

Lemma q_tame {A} (m : M A) : t m -> q m.
Proof. apply emitsM_mono, tame_quiet. Qed.

Lemma t_now : t now.
Proof. by apply emitsM_call. Qed.
Lemma t_metric m : t (metric m).
Proof. by apply emitsM_call. Qed.
Lemma t_appendEvent e : t (appendEvent e).
Proof. by apply emitsM_ignore, emitsM_call. Qed.
Lemma t_setNode f :
  (forall n, counters_of (f n) = counters_of n /\
     (nr_Status (f n) = NodeStatusSucceeded -> nr_Status n = NodeStatusSucceeded)) ->
  t (setNode runID r_node f).
Proof. intros H. by apply emitsM_call. Qed.
Hint Resolve t_now t_metric t_appendEvent : emits.
Hint Extern 2 (t (setNode _ _ _)) => (apply t_setNode; intros ?; by split) : emits.
Hint Extern 3 (q _) => (apply q_tame) : emits.

Ltac t_solve := emits_auto; try (by simpl).

Lemma t_upsertErrored a t0 reason : t (upsertErrored runID r_node a t0 reason).
Proof. unfold upsertErrored. t_solve. Qed.
Lemma t_sampleRunID : t (sampleRunID runID).
Proof. unfold sampleRunID. t_solve. Qed.
Lemma t_lookup id : t (lookupNodeAttemptID runID id).
Proof. unfold lookupNodeAttemptID. t_solve. Qed.
Lemma t_isRunCanceled : t (isRunCanceled runID).
Proof. unfold isRunCanceled. t_solve. Qed.
Lemma t_effectiveCancellationReason reason : t (effectiveCancellationReason runID reason).
Proof. unfold effectiveCancellationReason. t_solve. Qed.
Lemma t_ctxErr ctx : t (ctxErr ctx).
Proof. unfold ctxErr. t_solve. Qed.
Lemma t_notify_failed a st err : t (notify_failed runID r_node a st err).
Proof. unfold notify_failed. t_solve. Qed.
Lemma t_registerHandle h : t (registerHandle r_node h).
Proof. unfold registerHandle. t_solve. Qed.
Lemma t_unregisterHandle : t (unregisterHandle r_node).
Proof. unfold unregisterHandle. t_solve. Qed.
Lemma t_markUnresolved : t (markUnresolved).
Proof. unfold markUnresolved. t_solve. Qed.
Lemma t_recordLocalityHint b res a : t (recordLocalityHint runID r_node b res a).
Proof. unfold recordLocalityHint. t_solve. Qed.
Lemma t_recordPostSchedulingResolve b req res : t (recordPostSchedulingResolve b req res).
Proof. unfold recordPostSchedulingResolve. t_solve. Qed.
Lemma t_observeLocality i a : t (observeLocality runID r_node i a).
Proof. unfold observeLocality. t_solve. Qed.
Lemma t_fallbackOK a : t (recordLocalityFallbackSuccess runID r_node a).
Proof. unfold recordLocalityFallbackSuccess. t_solve. Qed.
Lemma t_fallbackFail a : t (recordLocalityFallbackFailure runID r_node a).
Proof. unfold recordLocalityFallbackFailure. t_solve. Qed.
Lemma t_shouldObserve : t (shouldObserveScheduling r_node).
Proof. unfold shouldObserveScheduling. t_solve. Qed.
Lemma t_recordPlacement a hints p : t (recordPlacementHintApplication runID r_node a hints p).
Proof. unfold recordPlacementHintApplication. t_solve. Qed.
Hint Resolve t_upsertErrored t_sampleRunID t_lookup t_isRunCanceled
  t_effectiveCancellationReason t_ctxErr t_notify_failed t_registerHandle t_unregisterHandle
  t_markUnresolved t_recordLocalityHint t_recordPostSchedulingResolve t_observeLocality
  t_fallbackOK t_fallbackFail t_shouldObserve t_recordPlacement : emits.
Lemma t_notify ctx st a : st <> "Succeeded" -> t (notifyNodeTerminal runID r_node ctx st a).
Proof. intros H. unfold notifyNodeTerminal. t_solve. Qed.
Hint Extern 2 (t (notifyNodeTerminal _ _ _ _ _)) => (apply t_notify; discriminate) : emits.
Lemma t_resolve_retry ctx req a b left n e :
  t (resolve_retry runID r_node ctx req a b left n e).
Proof. revert n e; induction left; intros n e; simpl; t_solve. Qed.
Hint Resolve t_resolve_retry : emits.
Lemma t_resolveWithRetry ctx req a b : t (resolveBindingWithRetry runID r_node ctx req a b).
Proof. unfold resolveBindingWithRetry. t_solve. Qed.
Hint Resolve t_resolveWithRetry : emits.
Lemma t_resolve_pending ctx req a b left n d l :
  t (resolve_pending runID r_node ctx req a b left n d l).
Proof. revert n d l; induction left; intros n d l; simpl; t_solve. Qed.
Hint Resolve t_resolve_pending : emits.
Lemma t_resolveForExecution ctx req a b : t (resolveBindingForExecution runID r_node ctx req a b).
Proof. unfold resolveBindingForExecution. t_solve. Qed.
Hint Resolve t_resolveForExecution : emits.
Lemma t_postScheduling ctx a n : t (resolvePostSchedulingBindings runID r_node ctx a n).
Proof. unfold resolvePostSchedulingBindings. t_solve. Qed.
Lemma t_collect ctx h n : t (collectOutputMetadata caps r_node ctx h n).
Proof. unfold collectOutputMetadata. t_solve. Qed.
Lemma t_terminalizeFailed c a s f : t (terminalizeFailed runID r_node c a s f).
Proof. unfold terminalizeFailed. t_solve. Qed.
Lemma t_cancelNode a reason : t (cancelNode runID r_node a reason).
Proof. unfold cancelNode. t_solve. Qed.
Lemma t_unresolved a : t (reconcileUnresolved runID r_node a).
Proof. unfold reconcileUnresolved. t_solve. Qed.
Lemma t_defer a f c : t (deferFinalizationAfterSuccess runID r_node a f c).
Proof. unfold deferFinalizationAfterSuccess. t_solve. Qed.
Lemma t_realization : t (realizationRetriesRemaining runID r_node).
Proof. unfold realizationRetriesRemaining. t_solve. Qed.
Lemma t_tryRestore : t (tryRestoreHandle caps runID r_node).
Proof. unfold tryRestoreHandle. t_solve. Qed.
Lemma t_persistHandle h a : t (persistHandle caps runID r_node h a).
Proof. unfold persistHandle. t_solve. Qed.
Lemma t_opened : t (openedOpportunityCount runID r_node).
Proof. unfold openedOpportunityCount. t_solve. Qed.
Hint Resolve t_postScheduling t_collect t_terminalizeFailed t_cancelNode t_unresolved t_defer
  t_realization t_tryRestore t_persistHandle t_opened : emits.
Lemma t_terminalizeNoRetry c a s f : t (terminalizeFailedNoRetry runID r_node c a s f).
Proof. unfold terminalizeFailedNoRetry. t_solve. Qed.
Lemma t_body_observe ctx h a : t (body_observe runID r_node ctx h a).
Proof. unfold body_observe. t_solve. Qed.
Hint Resolve t_terminalizeNoRetry t_body_observe : emits.
Lemma t_markCanceled : t (markNodeCanceledNoAttempt runID r_node).
Proof.
  unfold markNodeCanceledNoAttempt. emits_auto. apply t_setNode. intros n.
  by destruct (NodeStatus_IsTerminal (nr_Status n)); split.
Qed.
Hint Resolve t_markCanceled : emits.

(** The methods with a part in a success create nothing either. *)
Ltac q_solve := emits_auto; try (by intros []).

Lemma q_setNode f : q (setNode runID r_node f).
Proof. apply emitsM_call. by intros []. Qed.
Hint Resolve q_setNode : emits.
Lemma q_notify ctx st a : q (notifyNodeTerminal runID r_node ctx st a).
Proof. unfold notifyNodeTerminal. q_solve. Qed.
Lemma q_register_outputs ctx a s m l : q (register_outputs r_node ctx a s m l).
Proof. induction l; simpl; q_solve. Qed.
Hint Resolve q_notify q_register_outputs : emits.
Lemma q_registerNodeOutputs ctx h a n : q (registerNodeOutputs caps runID r_node ctx h a n).
Proof. unfold registerNodeOutputs. q_solve. Qed.
Lemma q_failNode c a s f b : q (failNode runID r_node c a s f b).
Proof. unfold failNode. q_solve. Qed.
Lemma q_repair n a h : q (repairTerminalProjection runID r_node n a h).
Proof. unfold repairTerminalProjection. q_solve. Qed.
Hint Resolve q_registerNodeOutputs q_failNode q_repair : emits.
Lemma q_waitAndFinalize ctx h a t0 n : q (waitAndFinalize caps runID r_node ctx h a t0 n).
Proof. unfold waitAndFinalize. q_solve. Qed.
Hint Resolve q_waitAndFinalize : emits.
Lemma q_runFromHandle ctx h a : q (runFromHandle caps runID r_node ctx h a).
Proof. unfold runFromHandle. q_solve. Qed.
Hint Resolve q_runFromHandle : emits.
Lemma q_attach ctx h a c : q (attachResolvedHandle caps runID r_node ctx h a c).
Proof. unfold attachResolvedHandle. q_solve. Qed.
Hint Resolve q_attach : emits.
Lemma q_byIdentity ctx n c : q (reconcileByIdentity caps runID r_node ctx n c).
Proof. unfold reconcileByIdentity. q_solve. Qed.
Hint Resolve q_byIdentity : emits.
Lemma q_reconcile ctx : q (reconcileBeforeAllocation caps runID r_node ctx).
Proof. unfold reconcileBeforeAllocation. q_solve. Qed.
Lemma q_drive ctx : q (driveCancellation caps runID r_node ctx).
Proof. unfold driveCancellation. q_solve. Qed.
Lemma q_body_bindings ctx run a t0 l n : q (body_bindings runID r_node ctx run a t0 l n).
Proof. revert n; induction l; intros n; simpl; q_solve. Qed.
Hint Resolve q_body_bindings : emits.
Lemma q_body_inputs ctx run a t0 n : q (body_inputs runID r_node ctx run a t0 n).
Proof. unfold body_inputs. q_solve. Qed.
End classes.

#[export] Hint Resolve q_setNode t_now t_metric t_appendEvent t_upsertErrored t_sampleRunID t_lookup
  t_isRunCanceled t_effectiveCancellationReason t_ctxErr t_notify_failed t_registerHandle
  t_unregisterHandle t_markUnresolved t_recordLocalityHint t_recordPostSchedulingResolve
  t_observeLocality t_fallbackOK t_fallbackFail t_shouldObserve t_recordPlacement
  t_resolveWithRetry t_resolveForExecution t_postScheduling t_collect t_terminalizeFailed
  t_cancelNode t_unresolved t_defer t_realization t_tryRestore t_persistHandle t_opened
  t_terminalizeNoRetry t_body_observe t_resolve_retry t_resolve_pending t_markCanceled q_notify
  q_register_outputs q_registerNodeOutputs q_failNode q_repair q_waitAndFinalize
  q_runFromHandle q_attach q_byIdentity q_reconcile q_drive q_body_bindings q_body_inputs : emits.
#[export] Hint Extern 2 (emitsM tame (setNode _ _ _)) =>
  (apply t_setNode; intros ?; by split) : emits.
#[export] Hint Extern 2 (emitsM tame (notifyNodeTerminal _ _ _ _ _)) =>
  (apply t_notify; discriminate) : emits.
#[export] Hint Extern 3 (emitsM quiet _) => (apply q_tame) : emits.
