(* ===== verification/RunnerWrites.v ===== *)
(** * What a node runner writes

    A monitor over the calls of a node runner that collects the attempts known to
    exist: those it was given by an allocation, and those that reads of the node or
    of its current attempt showed. A runner writes only attempts it knows, and
    updates nodes without touching their names or realization count; the current
    attempt of a node is kept or cleared together with its handle. *)
From S2P Require Import Prelude GoStrings GoErrors Spec Registry Handoff Provenance BackendTypes.
From S2P Require Import Binding Placement Reconcile Prog Runner RunnerLogic.

(** An update of a node that keeps it well-formed. *)
Definition keeps_node (x y : NodeRecord) : Prop :=
  nr_RealizationAttemptCount y = nr_RealizationAttemptCount x /\
  (nr_RunID y = nr_RunID x /\ nr_NodeID y = nr_NodeID x) /\
  ((nr_CurrentAttemptID y = nr_CurrentAttemptID x /\
    (nr_CurrentAttemptHandleJSON y = nr_CurrentAttemptHandleJSON x \/ nr_CurrentAttemptHandleJSON y = "")) \/
   (nr_CurrentAttemptID y = "" /\ nr_CurrentAttemptHandleJSON y = "")).

Ltac keeps_node :=
  intros ?; unfold keeps_node; simpl; repeat case_match; simpl;
  (split; [reflexivity|]); (split; [split; reflexivity|]);
  first [ left; split; [reflexivity|]; first [left; reflexivity | right; reflexivity]
        | right; split; reflexivity ].

Section writes.
Context {BT : BackendTypes} {U : UnicodeTables} (caps : AdapterCaps).

(** Attempts by run, node and identity. *)
Definition knowledge : Type := gset (string * string * string).

Definition allowed (k : knowledge) (X : Type) (e : event X) : Prop :=
  match e with
  | EUpsertAttempt record => (ar_RunID record, ar_NodeID record, ar_AttemptID record) ∈ k
  | EUpdateNode _ _ f => forall x, keeps_node x (f x).2
  | _ => True
  end.

(** The attempts an answer shows. *)
Definition gained (X : Type) (e : event X) : X -> knowledge :=
  match e in event X return X -> knowledge with
  | EGetNode r n => fun x =>
      match x with
      | Ok node => if streq (nr_CurrentAttemptID node) "" then ∅ else {[(r, n, nr_CurrentAttemptID node)]}
      | Err _ => ∅
      end
  | EGetCurrentAttempt r n => fun x =>
      match x with Ok (a, true) => {[(r, n, ar_AttemptID a)]} | _ => ∅ end
  | EAllocateCurrentAttempt r n => fun x =>
      match x with Ok a => {[(r, n, ar_AttemptID a)]} | Err _ => ∅ end
  | _ => fun _ => ∅
  end.

(** What the registry keeps of its records: a node without an attempt has no
    handle, and an attempt is stored under its own run and node. *)
Definition facts (X : Type) (e : event X) : X -> Prop :=
  match e in event X return X -> Prop with
  | EGetNode _ _ => fun x =>
      match x with
      | Ok node => nr_CurrentAttemptID node = "" -> nr_CurrentAttemptHandleJSON node = ""
      | Err _ => True
      end
  | EGetCurrentAttempt r n => fun x =>
      match x with
      | Ok (a, true) => ar_RunID a = r /\ ar_NodeID a = n
      | Ok (a, false) => a = zero_AttemptRecord
      | Err _ => True
      end
  | _ => fun _ => True
  end.

Definition learn (k : knowledge) (X : Type) (e : event X) (x : X) (k' : knowledge) : Prop :=
  facts X e x /\ k' = gained X e x ∪ k.

Lemma learn_more k X (e : event X) x k' : learn k X e x k' -> k ⊆ k'.
Proof. intros [_ ->]. set_solver. Qed.

Local Notation wpK := (wpM allowed learn).

(** From any knowledge that covers [need], a method writes only what it may, and
    forgets nothing. *)
Definition sound {A} (need : knowledge) (m : M A) : Prop :=
  forall r k, need ⊆ k -> wpK m r k (fun _ _ k' => k ⊆ k').

Lemma sound_more {A} (need need' : knowledge) (m : M A) : need ⊆ need' -> sound need m -> sound need' m.
Proof. intros Hn H r k Hk. apply H. set_solver. Qed.

Lemma sound_ret {A} need (a : A) : sound need (mret a).
Proof. intros r k _. by apply wpM_ret. Qed.

Lemma sound_get need : sound need get.
Proof. intros r k _. by apply wpM_get. Qed.

Lemma sound_modify need f : sound need (modify f).
Proof. intros r k _. by apply wpM_modify. Qed.

Lemma sound_bind {A B} need (m : M A) (f : A -> M B) :
  sound need m -> (forall a, sound need (f a)) -> sound need (m ≫= f).
Proof.
  intros Hm Hf r k Hk. apply wpM_bind. eapply wpM_mono; [|by apply Hm].
  simpl. intros a r' k' Hk'. eapply wpM_mono; [|apply Hf; set_solver]. simpl. intros b r'' k'' H. set_solver.
Qed.

Lemma sound_call {X} need (e : event X) : (forall k, need ⊆ k -> allowed k X e) -> sound need (call e).
Proof.
  intros H r k Hk. apply wpM_call; [by apply H|]. intros x k' Hx. by eapply learn_more.
Qed.

(** A read or an allocation, with what it shows. *)
Lemma sound_read {X A} need (e : event X) (f : X -> M A) :
  (forall k, allowed k X e) ->
  (forall x, facts X e x -> sound (gained X e x ∪ need) (f x)) ->
  sound need (call e ≫= f).
Proof.
  intros He Hf r k Hk. apply wpM_bind, wpM_call; [apply He|]. intros x k' [Hx ->].
  eapply wpM_mono; [|apply Hf; [done|set_solver]]. simpl. intros a r' k' H. set_solver.
Qed.

Lemma sound_ignore {A} need (m : M A) : sound need m -> sound need (ignore m).
Proof. intros H. apply sound_bind; [done|]. intros. apply sound_ret. Qed.

(** Calls of the class [tame] that upsert nothing. *)
Definition plain (X : Type) (e : event X) : Prop :=
  match e with
  | EUpsertAttempt _ => False
  | EUpdateNode _ _ f => forall x, keeps_node x (f x).2
  | _ => True
  end.

Lemma sound_plain {A} need (m : M A) : emitsM plain m -> sound need m.
Proof.
  intros Hm r k Hk. eapply (wpM_emits allowed learn plain (fun k' => k ⊆ k')); try done.
  - intros s X e _. by destruct e.
  - intros s X e x s' Hs _ Hx. apply learn_more in Hx. set_solver.
Qed.

(** ** Methods that upsert nothing *)
Context (runID : string) (r_node : Node).

Ltac head_of t := lazymatch t with ?f _ => head_of f | _ => t end.

(** Walk through a method, into the methods it calls. *)
Ltac plain_step :=
  match goal with
  | |- emitsM _ _ => emits_step
  | |- plain _ _ => first [exact I | keeps_node]
  | |- emitsM _ ?m => let f := head_of m in unfold f
  | |- forall _, _ => intros ?
  end.
Ltac plain_auto := repeat first [ solve [auto with writes nocore] | progress cbv zeta | plain_step ].

Create HintDb writes.

Lemma p_resolve_retry ctx req a b left n e : emitsM plain (resolve_retry runID r_node ctx req a b left n e).
Proof. revert n e; induction left; intros n e; simpl; plain_auto. Qed.
#[local] Hint Resolve p_resolve_retry : writes.

Lemma p_resolve_pending ctx req a b left n d l :
  emitsM plain (resolve_pending runID r_node ctx req a b left n d l).
Proof. revert n d l; induction left; intros n d l; simpl; plain_auto. Qed.
#[local] Hint Resolve p_resolve_pending : writes.

Lemma p_register_outputs ctx a s m l : emitsM plain (register_outputs r_node ctx a s m l).
Proof. induction l; simpl; plain_auto. Qed.
#[local] Hint Resolve p_register_outputs : writes.

(** Walk through a method that writes attempts it knows. *)
Ltac sound_step :=
  match goal with
  | |- forall _, _ => intros ?
  | |- sound _ (mret _) => apply sound_ret
  | |- sound _ get => apply sound_get
  | |- sound _ (modify _) => apply sound_modify
  | |- sound _ (_ ≫= _) => apply sound_bind
  | |- sound _ (call _) =>
      apply sound_call; intros ? ?; first [exact I | keeps_node | simpl; set_solver]
  | |- sound _ (ignore _) => apply sound_ignore
  | |- sound _ (match ?x with _ => _ end) => destruct x
  | |- sound _ ?m => let f := head_of m in unfold f
  end.
Ltac sound_auto := repeat first [ solve [eauto with writes nocore] | progress cbv zeta | sound_step ].

Local Notation mine a := ({[(runID, n_NodeID r_node, a)]} : knowledge).

Lemma s_resolve need ctx req a b : sound need (resolveBindingForExecution runID r_node ctx req a b).
Proof. apply sound_plain. plain_auto. Qed.
Lemma s_registerNodeOutputs need ctx h a n :
  sound need (registerNodeOutputs caps runID r_node ctx h a n).
Proof. apply sound_plain. plain_auto. Qed.
Lemma s_postScheduling need ctx a n : sound need (resolvePostSchedulingBindings runID r_node ctx a n).
Proof. apply sound_plain. plain_auto. Qed.
Lemma s_observe need ctx h a : sound need (body_observe runID r_node ctx h a).
Proof. apply sound_plain. plain_auto. Qed.
Lemma s_terminalize need c a s f : sound need (terminalizeFailed runID r_node c a s f).
Proof. apply sound_plain. plain_auto. Qed.
Lemma s_unresolved need a : sound need (reconcileUnresolved runID r_node a).
Proof. apply sound_plain. plain_auto. Qed.
Lemma s_defer need a f c : sound need (deferFinalizationAfterSuccess runID r_node a f c).
Proof. apply sound_plain. plain_auto. Qed.
Lemma s_repair need n a h : sound need (repairTerminalProjection runID r_node n a h).
Proof. apply sound_plain. plain_auto. Qed.
Lemma s_persistHandle need h a : sound need (persistHandle caps runID r_node h a).
Proof. apply sound_plain. plain_auto. Qed.
Lemma s_markCanceled need : sound need (markNodeCanceledNoAttempt runID r_node).
Proof. apply sound_plain. plain_auto. Qed.
Lemma s_recordPlacement need a l p : sound need (recordPlacementHintApplication runID r_node a l p).
Proof. apply sound_plain. plain_auto. Qed.
#[local] Hint Resolve s_recordPlacement s_resolve s_registerNodeOutputs s_postScheduling s_observe s_terminalize
  s_unresolved s_defer s_repair s_persistHandle s_markCanceled : writes.

Lemma s_upsertErrored a t0 reason : sound (mine a) (upsertErrored runID r_node a t0 reason).
Proof. sound_auto. Qed.
#[local] Hint Resolve s_upsertErrored : writes.
Lemma s_cancelNode a reason : sound (mine a) (cancelNode runID r_node a reason).
Proof. sound_auto. Qed.
#[local] Hint Resolve s_cancelNode : writes.
Lemma s_noRetry c a s f : sound (mine a) (terminalizeFailedNoRetry runID r_node c a s f).
Proof. sound_auto. Qed.
#[local] Hint Resolve s_noRetry : writes.

Lemma s_failNode c a s f b : sound (mine a) (failNode runID r_node c a s f b).
Proof.
  unfold failNode. apply sound_bind; [sound_auto|]. intros _. apply sound_bind; [sound_auto|]. intros [];
    [sound_auto|]. apply sound_bind; [sound_auto|]. intros rem. destruct rem as [remaining ok].
  sound_step; [|sound_auto]. sound_step; [sound_auto|]. intros finishedAt.
  apply sound_read; [done|]. intros [[cur []]|err] Hg; simpl in Hg; cbn [andb gained];
    [|sound_auto..].
  destruct Hg as [<- <-]. sound_auto.
Qed.
#[local] Hint Resolve s_failNode : writes.
Lemma s_waitAndFinalize ctx h a t0 n : sound (mine a) (waitAndFinalize caps runID r_node ctx h a t0 n).
Proof. sound_auto. Qed.
#[local] Hint Resolve s_waitAndFinalize : writes.
Lemma s_runFromHandle ctx h a : sound (mine a) (runFromHandle caps runID r_node ctx h a).
Proof. sound_auto. Qed.
#[local] Hint Resolve s_runFromHandle : writes.
Lemma s_attach ctx h a c : sound (mine a) (attachResolvedHandle caps runID r_node ctx h a c).
Proof. sound_auto. Qed.
#[local] Hint Resolve s_attach : writes.
Lemma s_byIdentity ctx n c :
  sound (mine (nr_CurrentAttemptID n)) (reconcileByIdentity caps runID r_node ctx n c).
Proof. sound_auto. Qed.

(** The attempt a node names, when it names one. *)
Definition named (n : NodeRecord) : knowledge :=
  if streq (nr_CurrentAttemptID n) "" then ∅ else mine (nr_CurrentAttemptID n).

Lemma named_spec n : nr_CurrentAttemptID n <> "" -> named n = mine (nr_CurrentAttemptID n).
Proof. intros H. unfold named. by rewrite (proj2 (streq_neq _ _) H). Qed.

(** Going on from an attempt rests on the node naming one. *)
Lemma classified n a h :
  ClassifyReconcile n a h = ReconcileResolveByIdentity \/ ClassifyReconcile n a h = ReconcileResumePreFence ->
  nr_CurrentAttemptID n <> "".
Proof.
  unfold ClassifyReconcile. intros H E. rewrite E, streq_refl, orb_true_r in H.
  repeat case_match; destruct H; congruence.
Qed.

(** A method whose result is about attempts it came to know. *)
Definition shows {A} (need : knowledge) (m : M A) (K : A -> knowledge) : Prop :=
  forall r k, need ⊆ k -> wpK m r k (fun a _ k' => k ⊆ k' /\ K a ⊆ k').

Lemma sound_shows {A B} need (m : M A) K (f : A -> M B) :
  shows need m K -> (forall a, sound (K a ∪ need) (f a)) -> sound need (m ≫= f).
Proof.
  intros Hm Hf r k Hk. apply wpM_bind. eapply wpM_mono; [|by apply Hm].
  simpl. intros a r' k' [H1 H2]. eapply wpM_mono; [|apply Hf; set_solver].
  simpl. intros b r'' k'' H. set_solver.
Qed.

Lemma shows_ret {A} need (a : A) K : K a ⊆ need -> shows need (mret a) K.
Proof. intros H r k Hk. apply wpM_ret. set_solver. Qed.

Lemma shows_read {X A} need (e : event X) (f : X -> M A) K :
  (forall k, allowed k X e) ->
  (forall x, facts X e x -> shows (gained X e x ∪ need) (f x) K) ->
  shows need (call e ≫= f) K.
Proof.
  intros He Hf r k Hk. apply wpM_bind, wpM_call; [apply He|]. intros x k' [Hx ->].
  eapply wpM_mono; [|apply Hf; [done|set_solver]]. simpl. intros a r' k' H. set_solver.
Qed.

Lemma shows_bind {A B} need (m : M A) (f : A -> M B) K :
  sound need m -> (forall a, shows need (f a) K) -> shows need (m ≫= f) K.
Proof.
  intros Hm Hf r k Hk. apply wpM_bind. eapply wpM_mono; [|by apply Hm].
  simpl. intros a r' k' Hk'. eapply wpM_mono; [|apply Hf; set_solver].
  simpl. intros b r'' k'' H. set_solver.
Qed.

Lemma shows_tryRestore need :
  shows need (tryRestoreHandle caps runID r_node)
    (fun o => match o with Some (_, id) => mine id | None => ∅ end).
Proof.
  unfold tryRestoreHandle. destruct (negb _); [by apply shows_ret|].
  apply shows_read; [done|]. intros [n|err] Hn; [|by apply shows_ret].
  destruct (streq (nr_CurrentAttemptHandleJSON n) "") eqn:Eh; [by apply shows_ret|].
  assert (Hid : nr_CurrentAttemptID n <> "").
  { intros Hid. apply Hn in Hid. rewrite Hid in Eh. done. }
  cbn [gained]. rewrite (proj2 (streq_neq _ _) Hid).
  destruct (nr_Status n); try (by apply shows_ret);
    (apply shows_bind; [sound_auto|]; intros [[h|]|err]; apply shows_ret; set_solver).
Qed.

Lemma shows_shows {A B} need (m : M A) K (f : A -> M B) K' :
  shows need m K -> (forall a, shows (K a ∪ need) (f a) K') -> shows need (m ≫= f) K'.
Proof.
  intros Hm Hf r k Hk. apply wpM_bind. eapply wpM_mono; [|by apply Hm].
  simpl. intros a r' k' [H1 H2]. eapply wpM_mono; [|apply Hf; set_solver].
  simpl. intros b r'' k'' H. set_solver.
Qed.

(** ** Reconciliation, the attempt and its body *)

(** The knowledge a decision goes on with. *)
Definition proceeds (x : reconcile_result) : knowledge :=
  match x with Proceed ReconcileResumePreFence n => mine (nr_CurrentAttemptID n) | _ => ∅ end.

Lemma shows_done need (m : M (option GoError)) :
  sound need m -> shows need (r ← m; mret (Done r)) proceeds.
Proof. intros H. apply shows_bind; [done|]. intros r. by apply shows_ret. Qed.

(** What the two reads of a node and its current attempt show. *)
Lemma read_named n : nr_CurrentAttemptID n <> "" ->
  gained (res NodeRecord) (EGetNode runID (n_NodeID r_node)) (Ok n) = mine (nr_CurrentAttemptID n).
Proof. intros H. simpl. by rewrite (proj2 (streq_neq _ _) H). Qed.

Lemma shows_reconcile ctx need :
  shows need (reconcileBeforeAllocation caps runID r_node ctx) proceeds.
Proof.
  unfold reconcileBeforeAllocation.
  apply shows_read; [done|]. intros [n|err] _; [|by apply shows_ret].
  apply shows_read; [done|]. intros [[a has]|err] _; [|by apply shows_ret].
  destruct (ClassifyReconcile n a has) eqn:Ec; try (by apply shows_ret).
  - apply shows_ret. simpl proceeds. pose proof (classified n a has (or_intror Ec)) as Hid.
    rewrite (read_named n Hid). set_solver.
  - eapply shows_shows; [apply shows_tryRestore|]. intros [[h id]|]; apply shows_done.
    + eapply sound_more; [|apply s_runFromHandle]. set_solver.
    + apply s_unresolved.
  - apply shows_done. pose proof (classified n a has (or_introl Ec)) as Hid.
    rewrite (read_named n Hid). eapply sound_more; [|apply s_byIdentity]. set_solver.
  - apply shows_done, s_repair.
Qed.

(** The attempt a body works on. *)
Definition chosen (x : res (string * Z)) : knowledge :=
  match x with Ok (a, _) => mine a | Err _ => ∅ end.

Lemma shows_attempt d n :
  shows (proceeds (Proceed d n)) (body_attempt runID r_node d n) chosen.
Proof.
  unfold body_attempt. destruct d; simpl proceeds.
  2: { apply shows_bind; [sound_auto|]. intros t. apply shows_bind; [sound_auto|]. intros [[]|err];
         [|by apply shows_ret]. apply shows_bind; [sound_auto|]. intros _. by apply shows_ret. }
  all: apply shows_read; [done|]; intros [a|err] _; [|by apply shows_ret];
    apply shows_bind; [sound_auto|]; intros t; apply shows_ret; simpl; set_solver.
Qed.

Lemma s_bindings ctx run a t0 l n : sound (mine a) (body_bindings runID r_node ctx run a t0 l n).
Proof. revert n. induction l as [|b l IH]; intros n; simpl body_bindings; sound_auto; apply IH. Qed.
#[local] Hint Resolve s_bindings s_failNode : writes.
Lemma s_inputs ctx run a t0 n : sound (mine a) (body_inputs runID r_node ctx run a t0 n).
Proof. sound_auto. Qed.
Lemma s_started ctx h a d n : sound (mine a) (body_started caps runID r_node ctx h a d n).
Proof. sound_auto. Qed.
#[local] Hint Resolve s_inputs s_started : writes.
Lemma s_start ctx p a t0 n : sound (mine a) (body_start caps runID r_node ctx p a t0 n).
Proof. sound_auto. Qed.
#[local] Hint Resolve s_start : writes.
Lemma s_prepare ctx run a t0 n : sound (mine a) (body_prepare caps runID r_node ctx run a t0 n).
Proof. sound_auto. Qed.
#[local] Hint Resolve s_prepare : writes.

Lemma s_body ctx need : sound need (runAttemptBody caps runID r_node ctx).
Proof.
  unfold runAttemptBody. eapply sound_shows; [apply shows_reconcile|]. intros [err|d n]; [apply sound_ret|].
  apply sound_bind; [sound_auto|]. intros [run|err]; [|apply sound_ret].
  cbv zeta. apply sound_bind; [apply sound_modify|]. intros _.
  eapply sound_shows; [intros r k Hk; apply shows_attempt; set_solver|].
  intros [[a t0]|err]; [|apply sound_ret]. apply (sound_more (mine a)); [simpl; set_solver|].
  sound_auto.
Qed.

Lemma s_RunE fuel ctx need : sound need (RunE caps runID r_node fuel ctx).
Proof.
  unfold RunE. cbv zeta. generalize (if (0 <? tp_Seconds (n_TimeoutPolicy r_node))%Z
    then CtxTimeout ctx (tp_Seconds (n_TimeoutPolicy r_node)) else ctx). clear ctx. intros ctx.
  induction fuel as [|fuel IH]; simpl; [apply sound_ret|].
  apply sound_bind; [apply s_body|]. intros [e|]; [|apply sound_ret].
  destruct (errors_is e errNodeRetry); [done|apply sound_ret].
Qed.

(** The attempt that is canceled is the one the node names, or the one read. *)
Lemma known_first n a has need :
  facts (res (AttemptRecord * bool)) (EGetCurrentAttempt runID (n_NodeID r_node)) (Ok (a, has)) ->
  streq (FirstNonEmpty [nr_CurrentAttemptID n; ar_AttemptID a]) "" = false ->
  mine (FirstNonEmpty [nr_CurrentAttemptID n; ar_AttemptID a]) ⊆
  gained (res (AttemptRecord * bool)) (EGetCurrentAttempt runID (n_NodeID r_node)) (Ok (a, has)) ∪
  (gained (res NodeRecord) (EGetNode runID (n_NodeID r_node)) (Ok n) ∪ need).
Proof.
  simpl. intros Ha Hf. destruct (streq (nr_CurrentAttemptID n) "") eqn:E; simpl in *; [|set_solver].
  destruct (streq (ar_AttemptID a) "") eqn:E'; simpl in *; [done|].
  destruct has; [set_solver|]. subst. done.
Qed.

Lemma s_drive ctx need : sound need (driveCancellation caps runID r_node ctx).
Proof.
  unfold driveCancellation.
  apply sound_read; [done|]. intros [n|err] _; [|apply sound_ret].
  destruct (NodeStatus_IsTerminal _); [apply sound_ret|].
  apply sound_read; [done|]. intros [[a has]|err] Ha; [|apply sound_ret].
  destruct (ClassifyReconcile n a has) eqn:Ec.
  3: { eapply sound_shows; [apply shows_tryRestore|]. intros [[h id]|]; [|sound_auto].
       apply (sound_more (mine id)); [set_solver|]. sound_auto. }
  3: { pose proof (classified n a has (or_introl Ec)) as Hid. rewrite (read_named n Hid).
       apply sound_ignore. eapply sound_more; [|apply s_byIdentity]. set_solver. }
  3: sound_auto.
  all: cbv zeta; destruct (streq (FirstNonEmpty _) "") eqn:Ef; [sound_auto|];
    apply sound_ignore; eapply sound_more; [by apply known_first|apply s_cancelNode].
Qed.
End writes.
