(* ===== verification/RunnerSafety.v ===== *)
(** * What a node runner does whatever the world answers

    Properties of the runner against a world that answers every call in any
    way: recovery creates nothing, and one call of [RunE] starts at most one
    execution, only behind its own open fence. *)
From S2P Require Import Prelude GoStrings GoErrors Spec Registry Handoff Provenance BackendTypes.
From S2P Require Import Binding Placement Reconcile Prog Runner RunnerLogic.

Section safety.
Context {BT : BackendTypes} {U : UnicodeTables} (caps : AdapterCaps) (runID : string) (r_node : Node).

(** C4. Recovery never creates: reconciling a node before allocation and
    driving the cancellation of a node allocate no attempt, open no fence, and
    prepare and start no execution, whatever the registry, the backend and the
    handoff service answer. *)
Theorem recovery_creates_nothing (ctx : Ctx) :
  emitsM quiet (reconcileBeforeAllocation caps runID r_node ctx) /\
  emitsM quiet (driveCancellation caps runID r_node ctx).
Proof. auto with emits. Qed.

(** ** The monitor of one call of [RunE] *)
Inductive phase :=
  | Idle
  | Prepared (p : PreparedNode)
  | Opened (attemptID : string) (p : PreparedNode)
  | Begun (attemptID : string).

(** Nothing irreversible has happened yet. *)
Definition early (ph : phase) : Prop :=
  match ph with Idle | Prepared _ => True | Opened _ _ | Begun _ => False end.

(** What may be called in a phase: allocating and preparing only before the
    fence, opening the fence only with a prepared execution in hand, starting
    only the prepared execution behind the open fence. *)
Definition may (ph : phase) (X : Type) (e : event X) : Prop :=
  match e with
  | EAllocateCurrentAttempt r n => early ph /\ r = runID /\ n = n_NodeID r_node
  | EPrepareNode _ _ _ => early ph
  | EOpenSemanticAttempt r n _ _ =>
      (exists p, ph = Prepared p) /\ r = runID /\ n = n_NodeID r_node
  | EStartNode _ p => exists a, ph = Opened a p
  | _ => True
  end.

(** The sentinel [errNodeRetry] is private to the package: no registry returns it. *)
Definition foreign {X} (r : res X) : Prop :=
  forall err, r = Err err -> errors_is err errNodeRetry = false.

Definition next (ph : phase) (X : Type) (e : event X) : X -> phase -> Prop :=
  match e in event X return X -> phase -> Prop with
  | EPrepareNode _ _ _ => fun r ph' =>
      ph' = match r with Ok p => Prepared p | Err _ => Idle end
  | EOpenSemanticAttempt _ _ a _ => fun r ph' =>
      ph' = match r, ph with Ok _, Prepared p => Opened a p | _, _ => ph end
  | EStartNode _ _ => fun _ ph' =>
      ph' = match ph with Opened a _ => Begun a | _ => ph end
  | EUpdateNode _ _ _ => fun r ph' => foreign r /\ ph' = ph
  | _ => fun _ ph' => ph' = ph
  end.

Lemma may_quiet ph X (e : event X) : quiet X e -> may ph X e.
Proof. destruct e; simpl; try done; intros H; by destruct H. Qed.

Lemma next_quiet ph X (e : event X) x ph' : quiet X e -> next ph X e x ph' -> ph' = ph.
Proof. destruct e; simpl; try done; try (intros H; by destruct H). by intros _ []. Qed.

Local Notation wpR := (wpM may next).

Lemma wpR_quiet {A} (m : M A) r ph (Q : A -> RunnerState -> phase -> Prop) :
  emitsM quiet m -> (forall a r', Q a r' ph) -> wpR m r ph Q.
Proof.
  intros Hm HQ. eapply (wpM_emits may next quiet (eq ph)); eauto using may_quiet.
  - intros s X e x s' -> He Hn. symmetry. by eapply next_quiet.
  - by intros a r' s' <-.
Qed.

(** A result that does not ask for a retry. *)
Definition final (r : option GoError) : Prop :=
  forall e, r = Some e -> errors_is e errNodeRetry = false.

Lemma final_None : final None.
Proof. done. Qed.

Lemma final_text s : final (Some (Errorf s)).
Proof. intros e [= <-]. reflexivity. Qed.

Lemma final_unresolved : final (Some errReconcileUnresolved).
Proof. intros e [= <-]. reflexivity. Qed.

Lemma final_foreign {X} (err : GoError) : foreign (Err err : res X) -> final (Some err).
Proof. intros H e [= <-]. by apply H. Qed.

(** One step of a proof about [wpR]. *)
Ltac wstep :=
  match goal with
  | |- wpM _ _ (mret _) _ _ _ => apply wpM_ret
  | |- wpM _ _ get _ _ _ => apply wpM_get
  | |- wpM _ _ (modify _) _ _ _ => apply wpM_modify
  | |- wpM _ _ (_ ≫= _) _ _ _ => apply wpM_bind
  | |- wpM _ _ (setNode _ _ _) _ _ _ =>
      apply wpM_call; [exact I|]; intros ? ? [? ->]
  | |- wpM _ _ (match ?x with _ => _ end) _ _ _ => destruct x eqn:?
  | |- wpM _ _ (if ?x then _ else _) _ _ _ => destruct x eqn:?
  | |- wpM _ _ ?m _ _ _ => apply wpR_quiet; [solve [emits_auto; by intros []] | intros ? ?]
  end.

Local Hint Resolve final_None final_text final_unresolved : core.

Lemma cancelNode_final a reason r ph :
  wpR (cancelNode runID r_node a reason) r ph (fun x _ ph' => final x /\ ph' = ph).
Proof.
  unfold cancelNode. repeat wstep; try by auto.
  split; [by eapply final_foreign|done].
Qed.

Lemma terminalizeNoRetry_final text a s f r ph :
  wpR (terminalizeFailedNoRetry runID r_node (Errorf text) a s f) r ph
    (fun x _ ph' => final x /\ ph' = ph).
Proof.
  unfold terminalizeFailedNoRetry. do 4 wstep.
  match goal with b : bool |- _ => destruct b end; [apply cancelNode_final|].
  unfold terminalizeFailed. repeat wstep; by auto.
Qed.

Lemma unresolved_final a r ph :
  wpR (reconcileUnresolved runID r_node a) r ph (fun x _ ph' => final x /\ ph' = ph).
Proof. unfold reconcileUnresolved. repeat wstep; by auto. Qed.

Lemma defer_final a f c r ph :
  wpR (deferFinalizationAfterSuccess runID r_node a f c) r ph (fun x _ ph' => final x /\ ph' = ph).
Proof.
  unfold deferFinalizationAfterSuccess. do 2 wstep. wstep. apply wpM_call; [exact I|].
  intros p ph' ->. repeat wstep; by auto.
Qed.

(** A step, or a method already known to be final. *)
Ltac wfinal :=
  match goal with
  | |- wpM _ _ (cancelNode _ _ _ _) _ _ _ => apply cancelNode_final
  | |- wpM _ _ (terminalizeFailedNoRetry _ _ _ _ _ _) _ _ _ => apply terminalizeNoRetry_final
  | |- wpM _ _ (reconcileUnresolved _ _ _) _ _ _ => apply unresolved_final
  | |- wpM _ _ (deferFinalizationAfterSuccess _ _ _ _ _) _ _ _ => apply defer_final
  | _ => wstep
  end.

Lemma waitAndFinalize_final ctx h a t n r ph :
  wpR (waitAndFinalize caps runID r_node ctx h a t n) r ph (fun x _ ph' => final x /\ ph' = ph).
Proof.
  unfold waitAndFinalize. wstep. apply wpM_call; [exact I|]. intros w ph' ->.
  repeat wfinal; try by auto.
  split; [by eapply final_foreign|done].
Qed.

Lemma body_started_final ctx h a d n r ph :
  wpR (body_started caps runID r_node ctx h a d n) r ph (fun x _ ph' => final x /\ ph' = ph).
Proof.
  unfold body_started, body_observe. repeat first [apply waitAndFinalize_final | wfinal]; try by auto.
  all: split; [by eapply final_foreign|done].
Qed.

(** What a stage of the body leaves: still early, or a final result. *)
Definition settled (x : option GoError) (ph : phase) : Prop := early ph \/ final x.

Lemma body_start_ok ctx p a t n r :
  wpR (body_start caps runID r_node ctx p a t n) r (Prepared p) (fun x _ ph' => settled x ph').
Proof.
  unfold body_start, settled. repeat wstep; try by left.
  - apply wpM_call; [by split; [exists p|]|]. intros f ph' ->. destruct f as [[]|e].
    + wstep. wstep. wstep. apply wpM_call; [by exists a|]. intros h ph' ->.
      wstep. wstep. wstep.
      * do 4 wstep. wstep. eapply wpM_mono; [|apply body_started_final].
        intros x r'' ph'' [Hx ->]. repeat wstep. by right.
      * eapply wpM_mono; [|apply unresolved_final]. intros x r'' ph'' [Hx ->]. by right.
    + repeat wstep. by left.
Qed.

Lemma body_prepare_ok ctx run a t n r ph :
  early ph ->
  wpR (body_prepare caps runID r_node ctx run a t n) r ph (fun x _ ph' => settled x ph').
Proof.
  intros Hph. unfold body_prepare. wstep. wstep.
  destruct (applyPlacementHints n _) as [n' [[]|e]]; [|repeat wstep; by left].
  repeat wstep; try by left.
  apply wpM_call; [done|]. intros p ph' ->. destruct p as [p|e]; [|repeat wstep; by left].
  repeat wstep; try by left. apply body_start_ok.
Qed.

Lemma body_attempt_ok d node r ph :
  early ph -> wpR (body_attempt runID r_node d node) r ph (fun _ _ ph' => early ph').
Proof.
  intros Hph. unfold body_attempt. destruct d; try (repeat wstep; done).
  all: wstep; apply wpM_call; [done|]; intros x ph' ->; repeat wstep; done.
Qed.

Lemma runAttemptBody_ok ctx r ph :
  early ph ->
  wpR (runAttemptBody caps runID r_node ctx) r ph (fun x _ ph' => settled x ph').
Proof.
  intros Hph. unfold runAttemptBody. do 3 wstep; [wstep; by left|]. do 3 wstep; [|wstep; by left].
  do 3 wstep. eapply wpM_mono; [|by apply body_attempt_ok].
  intros [[attemptID t0]|e] r1 ph1 H1; [|wstep; by left].
  do 4 wstep. wstep; [by apply body_prepare_ok|wstep; by left].
Qed.

Lemma RunE_phases (fuel : nat) (ctx : Ctx) (r : RunnerState) :
  wpM may next (RunE caps runID r_node fuel ctx) r Idle
    (fun x _ _ => forall e, x = Some (Some e) -> errors_is e errNodeRetry = false).
Proof.
  unfold RunE. generalize (if (0 <? tp_Seconds (n_TimeoutPolicy r_node))%Z
                           then CtxTimeout ctx (tp_Seconds (n_TimeoutPolicy r_node)) else ctx).
  clear ctx. intros ctx. assert (Hph : early Idle) by exact I. revert Hph. generalize Idle as ph.
  revert r. induction fuel as [|fuel IH]; intros r ph Hph; simpl; [done|].
  wstep. eapply wpM_mono; [|by apply runAttemptBody_ok].
  intros [e|] r' ph' Hs; [|by wstep]. destruct (errors_is e errNodeRetry) eqn:He.
  - destruct Hs as [Hs|Hs]; [by apply IH|]. specialize (Hs e eq_refl). congruence.
  - wstep. by intros e' [= <-].
Qed.

(** C1. One call of [RunE], however often it retries and whatever the world
    answers: it starts at most one execution; it starts only the execution it
    has prepared, behind a fence whose opening the registry confirmed, for its
    own node; it opens at most one fence; once the fence is open it allocates
    and prepares nothing more; and it returns no retry request. The only
    assumption is that the registry does not return the executor's private
    [errNodeRetry]. *)
Theorem RunE_one_start (fuel : nat) (ctx : Ctx) (r : RunnerState) :
  wpM may next (RunE caps runID r_node fuel ctx) r Idle
    (fun x _ _ => forall e, x = Some (Some e) -> errors_is e errNodeRetry = false).
Proof. apply RunE_phases. Qed.
End safety.
