(* ===== verification/RunnerEvidence.v ===== *)
(** * Success needs evidence

    A monitor over the calls of a node runner that collects the evidence of a
    success, and the proof that a runner never writes a success without it. *)
From S2P Require Import Prelude GoStrings GoErrors Spec Registry Handoff Provenance BackendTypes.
From S2P Require Import Binding Placement Reconcile Prog Runner RunnerLogic.

Section evidence.
Context {BT : BackendTypes} {U : UnicodeTables} (caps : AdapterCaps) (runID : string) (r_node : Node).

Record evidence := mkevidence {
  e_finished : bool;                     (** the backend reported a successful end *)
  e_registered : gset (string * string); (** (attempt, output) pairs the handoff accepted *)
  e_announced : option string;           (** the attempt whose success it acknowledged *)
  e_durable : bool;                      (** the registry holds a completed attempt *)
}.

#[local] Instance eta_evidence : Eta evidence := fun r =>
  mkevidence (e_finished r) (e_registered r) (e_announced r) (e_durable r).

Definition no_evidence : evidence := mkevidence false ∅ None false.

(** The attempt ended successfully, every declared output of the node is
    registered for it, and its success is acknowledged. *)
Definition proven (s : evidence) (attemptID : string) : Prop :=
  e_finished s = true /\ e_announced s = Some attemptID /\
  forall o, o ∈ n_Outputs r_node -> o <> "" -> (attemptID, o) ∈ e_registered s.

Definition needs_evidence (s : evidence) (X : Type) (e : event X) : Prop :=
  match e with
  | EUpsertAttempt record =>
      ar_Status record = AttemptStatusCompleted ->
      proven s (ar_AttemptID record) \/ e_durable s = true
  | EUpdateNode _ _ f => forall n,
      nr_Status (f n).2 = NodeStatusSucceeded ->
      nr_Status n = NodeStatusSucceeded \/ (exists a, proven s a) \/ e_durable s = true
  | _ => True
  end.

Definition collect (s : evidence) (X : Type) (e : event X) : X -> evidence -> Prop :=
  match e in event X return X -> evidence -> Prop with
  | EWaitNode _ _ => fun r s' =>
      s' = match r with
           | Ok result => if er_Succeeded result then s <| e_finished := true |> else s
           | Err _ => s
           end
  | ERegisterArtifact _ req => fun r s' =>
      s' = match r with
           | Ok _ => s <| e_registered :=
                       {[(ra_ProducerAttemptID req, ra_OutputName req)]} ∪ e_registered s |>
           | Err _ => s
           end
  | ENotifyNodeTerminal _ req => fun r s' =>
      s' = match r with
           | Ok _ => if streq (nt_TerminalState req) "Succeeded"
                     then s <| e_announced := Some (nt_AttemptID req) |> else s
           | Err _ => s
           end
  | EGetCurrentAttempt _ _ => fun r s' =>
      s' = match r with
           | Ok (a, true) => if decide (ar_Status a = AttemptStatusCompleted)
                             then s <| e_durable := true |> else s
           | _ => s
           end
  | _ => fun _ s' => s' = s
  end.

Local Notation wpE := (wpM needs_evidence collect).

Lemma needs_tame s X (e : event X) : tame X e -> needs_evidence s X e.
Proof. destruct e; simpl; try done. intros H n Hn. left. by apply H. Qed.

Lemma collect_tame s X (e : event X) x s' : tame X e -> collect s X e x s' -> s' = s.
Proof.
  destruct e; simpl; try done. intros H ->. destruct x; [|done].
  by rewrite (proj2 (streq_neq _ _) H).
Qed.

Lemma wpE_tame {A} (m : M A) r s (Q : A -> RunnerState -> evidence -> Prop) :
  emitsM tame m -> (forall a r', Q a r' s) -> wpE m r s Q.
Proof.
  intros Hm HQ. eapply (wpM_emits needs_evidence collect tame (eq s)); eauto using needs_tame.
  - intros s0 X e x s' -> He Hn. symmetry. by eapply collect_tame.
  - by intros a r' s' <-.
Qed.

(** Calls outside the class whose answers do not matter. *)
Lemma wpE_creates {X} (e : event X) r s Q :
  creates X e -> (forall x, Q x r s) -> wpE (call e) r s Q.
Proof.
  intros He HQ. apply wpM_call; [by destruct e|]. intros x s' Hx.
  destruct e; simpl in *; try done; subst; eauto.
Qed.

Ltac estep :=
  match goal with
  | |- wpM _ _ (mret _) _ _ _ => apply wpM_ret
  | |- wpM _ _ get _ _ _ => apply wpM_get
  | |- wpM _ _ (modify _) _ _ _ => apply wpM_modify
  | |- wpM _ _ (_ ≫= _) _ _ _ => apply wpM_bind
  | |- wpM _ _ (match ?x with _ => _ end) _ _ _ => destruct x eqn:?
  | |- wpM _ _ (if ?x then _ else _) _ _ _ => destruct x eqn:?
  | |- wpM _ _ (call _) _ _ _ => apply wpE_creates; [exact I | intros ?]
  | |- wpM _ _ ?m _ _ _ => apply wpE_tame; [solve [emits_auto; by simpl] | intros ? ?]
  end.

Ltac esteps := repeat (estep; try done).

(** Outputs are registered one by one; all of them when no error is returned. *)
Lemma register_outputs_evidence ctx a sample m outputs r s :
  wpE (register_outputs r_node ctx a sample m outputs) r s (fun x _ s' =>
    e_finished s' = e_finished s /\ e_registered s ⊆ e_registered s' /\
    (x = None -> forall o, o ∈ outputs -> o <> "" -> (a, o) ∈ e_registered s')).
Proof.
  revert r s; induction outputs as [|o outputs IH]; intros r s; cbn [register_outputs].
  { estep. split_and!; [done|done|]. intros _ o. set_solver. }
  destruct (streq o "") eqn:Eo; str_tests.
  { eapply wpM_mono; [|apply IH]. intros x r' s' (H1 & H2 & H3). split_and!; try done.
    intros Hx o'. rewrite elem_of_cons. naive_solver. }
  destruct (m !! o) as [md|]; [|estep; by split_and!].
  destruct (streq (TrimSpace (om_Digest md)) ""); [estep; by split_and!|]. cbv zeta.
  match goal with |- wpM _ _ (if ?b then _ else _) _ _ _ => destruct b end; [estep; by split_and!|].
  estep. apply wpM_call; [exact I|]. intros y s' ->. destruct y as [[]|e]; [|estep; by split_and!].
  estep. estep. eapply wpM_mono; [|apply IH]. simpl. intros x r1 s1 (H1 & H2 & H3).
  split_and!; [done|set_solver|]. intros Hx o'. rewrite elem_of_cons. intros [->|Ho'] Hne.
  - apply H2. set_solver.
  - by apply H3.
Qed.

Lemma registerNodeOutputs_evidence ctx h a node r s :
  n_Outputs node = n_Outputs r_node ->
  wpE (registerNodeOutputs caps runID r_node ctx h a node) r s (fun x _ s' =>
    e_finished s' = e_finished s /\
    (x = None -> forall o, o ∈ n_Outputs r_node -> o <> "" -> (a, o) ∈ e_registered s')).
Proof.
  intros Hn. unfold registerNodeOutputs. rewrite Hn. destruct (n_Outputs r_node) as [|o l] eqn:Eo.
  { estep. split; [done|]. intros _ o. set_solver. }
  estep. estep. estep; [|estep; by split].
  estep. estep. eapply wpM_mono; [|apply register_outputs_evidence].
  intros x r1 s1 (H1 & _ & H3). auto.
Qed.

Lemma waitAndFinalize_evidence ctx h a t node r s :
  n_Outputs node = n_Outputs r_node ->
  wpE (waitAndFinalize caps runID r_node ctx h a t node) r s (fun _ _ _ => True).
Proof.
  intros Hn. unfold waitAndFinalize. estep. apply wpM_call; [exact I|].
  intros w s' ->. destruct w as [result|e]; [|esteps].
  destruct (er_Succeeded result) eqn:Es; [|esteps]. cbn [negb]. do 4 estep.
  estep. eapply wpM_mono; [|by apply registerNodeOutputs_evidence].
  intros o r1 s1 [Hf Hreg]. destruct o as [err|]; [esteps|]. specialize (Hreg eq_refl).
  estep. unfold notifyNodeTerminal. do 2 estep. apply wpM_call; [exact I|].
  intros n s' ->. destruct n as [[]|err]; [|esteps].
  set (s2 := s1 <| e_announced := _ |>).
  assert (Hp : proven s2 a) by (by split_and!).
  estep. apply wpM_ignore, wpM_call; [by left|]. intros [] s' ->.
  all: estep; apply wpM_call; [by right; left; exists a|]; intros [] s' ->; esteps.
Qed.

(** From any state, with nothing promised afterwards. *)
Definition safe {A} (m : M A) : Prop := forall r s, wpE m r s (fun _ _ _ => True).

Lemma safe_tame {A} (m : M A) : emitsM tame m -> safe m.
Proof. intros H r s. by apply wpE_tame. Qed.

Lemma safe_bind {A B} (m : M A) (f : A -> M B) : safe m -> (forall a, safe (f a)) -> safe (m ≫= f).
Proof.
  intros Hm Hf r s. apply wpM_bind. eapply wpM_mono; [|apply Hm]. intros a r' s' _. apply Hf.
Qed.

(** A call that reads, or creates. *)
Lemma safe_call {X} (e : event X) : (forall s, needs_evidence s X e) -> safe (call e).
Proof. intros H r s. by apply wpM_call. Qed.

Ltac sstep :=
  match goal with
  | |- forall _, _ => intros ?
  | |- safe (_ ≫= _) => apply safe_bind
  | |- safe (match ?x with _ => _ end) => destruct x eqn:?
  | |- safe (if ?x then _ else _) => destruct x eqn:?
  | |- safe (call _) => apply safe_call; intros ?; exact I
  | |- safe _ => apply safe_tame; solve [emits_auto; by simpl]
  end.

(** Reading the current attempt: a completed one is durable evidence. *)
Definition read_ok (g : res (AttemptRecord * bool)) (s : evidence) : Prop :=
  forall a, g = Ok (a, true) -> ar_Status a = AttemptStatusCompleted -> e_durable s = true.

Lemma safe_current {B} (f : res (AttemptRecord * bool) -> M B) :
  (forall g r s, read_ok g s -> wpE (f g) r s (fun _ _ _ => True)) ->
  safe (call (EGetCurrentAttempt runID (n_NodeID r_node)) ≫= f).
Proof.
  intros H r s. apply wpM_bind, wpM_call; [exact I|]. intros g s' Hg. apply H.
  simpl in Hg. intros a -> Hc. by rewrite decide_True in Hg by done; subst.
Qed.

(** Continue with a safe method. *)
Ltac to_safe := match goal with |- wpM _ _ ?m _ _ _ => let H := fresh in enough (H : safe m) by apply H end.

(** A write of the node that does not make it a success. *)
Lemma safe_setNode f :
  (forall n, nr_Status (f n) = NodeStatusSucceeded -> nr_Status n = NodeStatusSucceeded) ->
  safe (ignore (setNode runID r_node f)).
Proof.
  intros Hf r s. apply wpM_ignore. unfold setNode, updateNode.
  apply wpM_call; [|done]. simpl. intros n Hn. left. by apply Hf.
Qed.

Lemma failNode_safe c a st f b : safe (failNode runID r_node c a st f b).
Proof.
  unfold failNode. do 5 sstep; [sstep|]. do 4 sstep; [|sstep]. do 2 sstep. apply safe_current. intros g r s Hg.
  apply wpM_bind. apply wpM_mono with (Q := fun _ _ _ => True).
  - intros [] r' s' _. to_safe. repeat first [by apply safe_setNode | sstep].
  - destruct g as [[cur ok2]|e]; [|by apply wpM_ret].
    destruct (ok2 && _ && _) eqn:Eg; [|by apply wpM_ret].
    apply andb_true_iff in Eg as [[-> _]%andb_true_iff _].
    apply wpM_ignore, wpM_call; [|by intros]. simpl. intros Hc. right. by eapply Hg.
Qed.

Lemma repair_safe node attempt has r s :
  (has = true -> ar_Status attempt = AttemptStatusCompleted -> e_durable s = true) ->
  wpE (repairTerminalProjection runID r_node node attempt has) r s (fun _ _ _ => True).
Proof.
  intros Hd. unfold repairTerminalProjection. apply wpM_bind.
  apply wpM_mono with (Q := fun _ _ _ => True); [intros; by apply wpM_ret|].
  destruct (_ && has && _) eqn:E; [|by apply wpM_ret].
  apply andb_true_iff in E as [[_ ->]%andb_true_iff _].
  apply wpM_bind, wpM_ignore, wpM_call.
  - simpl. intros n. destruct (NodeStatus_IsTerminal (nr_Status n)); simpl; [auto|].
    unfold nodeStatusFromAttempt. destruct (streq _ _); [done|]. case_decide; [|done]. auto.
  - intros x s' ->. to_safe. repeat sstep.
Qed.

Lemma runFromHandle_safe ctx h a : safe (runFromHandle caps runID r_node ctx h a).
Proof.
  unfold runFromHandle. do 6 sstep. apply safe_bind; [|repeat sstep].
  intros r s. by apply waitAndFinalize_evidence.
Qed.

Lemma attach_safe ctx h a c : safe (attachResolvedHandle caps runID r_node ctx h a c).
Proof. unfold attachResolvedHandle. repeat first [apply runFromHandle_safe | sstep]. Qed.

Lemma byIdentity_safe ctx n c : safe (reconcileByIdentity caps runID r_node ctx n c).
Proof. unfold reconcileByIdentity. repeat first [apply attach_safe | sstep]. Qed.

Lemma reconcile_safe ctx : safe (reconcileBeforeAllocation caps runID r_node ctx).
Proof.
  unfold reconcileBeforeAllocation. do 3 sstep; [|sstep].
  apply safe_current. intros g r s Hg. destruct g as [[cur has]|e]; [|by apply wpM_ret].
  cbv beta iota. destruct (ClassifyReconcile a0 cur has).
  - by apply wpM_ret.
  - by apply wpM_ret.
  - to_safe. repeat first [apply runFromHandle_safe | sstep].
  - to_safe. repeat first [apply byIdentity_safe | sstep].
  - apply wpM_bind. apply wpM_mono with (Q := fun _ _ _ => True); [intros; by apply wpM_ret|].
    apply repair_safe. intros ->. by apply Hg.
Qed.

Lemma drive_safe ctx : safe (driveCancellation caps runID r_node ctx).
Proof.
  unfold driveCancellation. do 4 sstep; [sstep|].
  apply safe_current. intros g r s Hg. destruct g as [[cur has]|e]; [|by apply wpM_ret].
  cbv beta iota. destruct (ClassifyReconcile a0 cur has); unfold ignore; try (to_safe;
    repeat first [apply runFromHandle_safe | apply byIdentity_safe | sstep]; done).
  apply wpM_bind. apply wpM_mono with (Q := fun _ _ _ => True); [intros; by apply wpM_ret|].
  apply repair_safe. intros ->. by apply Hg.
Qed.

(** ** The body *)
Definition same_outputs (node : Node) : Prop := n_Outputs node = n_Outputs r_node.

Ltac bstep :=
  match goal with
  | |- wpM _ _ (failNode _ _ _ _ _ _ _) _ _ _ =>
      eapply wpM_mono; [|apply failNode_safe]; intros ? ? ? _
  | _ => estep
  end.

Lemma body_bindings_safe ctx run a t0 l node r s :
  same_outputs node ->
  wpE (body_bindings runID r_node ctx run a t0 l node) r s (fun x _ _ =>
    match x with inl n => same_outputs n | inr _ => True end).
Proof.
  revert node r s; induction l as [|b l IH]; intros node r s Hn; cbn [body_bindings]; [by apply wpM_ret|].
  repeat (bstep; try done).
  all: apply IH; unfold same_outputs; by rewrite inject_outputs.
Qed.

Lemma body_inputs_safe ctx run a t0 node r s :
  same_outputs node ->
  wpE (body_inputs runID r_node ctx run a t0 node) r s (fun x _ _ =>
    match x with inl n => same_outputs n | inr _ => True end).
Proof.
  intros Hn. unfold body_inputs. destruct (n_ArtifactBindings r_node); [by apply wpM_ret|].
  repeat (bstep; try done). by apply body_bindings_safe.
Qed.

Lemma applyPlacementHints_outputs node hints :
  n_Outputs (applyPlacementHints node hints).1 = n_Outputs node.
Proof. unfold applyPlacementHints. repeat (case_match; simpl; try done). Qed.

Lemma body_started_safe ctx h a d node r s :
  same_outputs node ->
  wpE (body_started caps runID r_node ctx h a d node) r s (fun _ _ _ => True).
Proof.
  intros Hn. unfold body_started.
  repeat (first [by apply waitAndFinalize_evidence | estep]; try done).
Qed.

Lemma body_start_safe ctx p a t0 node r s :
  same_outputs node ->
  wpE (body_start caps runID r_node ctx p a t0 node) r s (fun _ _ _ => True).
Proof.
  intros Hn. unfold body_start. repeat (bstep; try done).
  eapply wpM_mono; [|by apply body_started_safe]. intros. repeat (estep; try done).
Qed.

Lemma body_prepare_safe ctx run a t0 node r s :
  same_outputs node ->
  wpE (body_prepare caps runID r_node ctx run a t0 node) r s (fun _ _ _ => True).
Proof.
  intros Hn. unfold body_prepare. estep. estep.
  pose proof (applyPlacementHints_outputs node (rs_localityHints r)) as Ho.
  destruct (applyPlacementHints _ _) as [node' x]. simpl in Ho.
  repeat (bstep; try done). apply body_start_safe. unfold same_outputs. congruence.
Qed.

Lemma cloneNode_outputs node : n_Outputs (cloneNode node) = n_Outputs node.
Proof. unfold cloneNode. by case_match. Qed.

Lemma runAttemptBody_safe ctx : safe (runAttemptBody caps runID r_node ctx).
Proof.
  unfold runAttemptBody. apply safe_bind; [apply reconcile_safe|]. intros d r s.
  destruct d as [e|d node]; [by apply wpM_ret|].
  estep. estep. estep; [|by apply wpM_ret]. do 3 estep.
  apply wpM_mono with (Q := fun _ _ _ => True).
  - intros x r1 s1 _. estep; [|by apply wpM_ret]. estep. estep. estep. estep.
    eapply wpM_mono; [|by apply body_inputs_safe; unfold same_outputs; rewrite cloneNode_outputs].
    intros [n|e] r2 s2 Hn; [|by apply wpM_ret].
    apply body_prepare_safe. unfold same_outputs. by rewrite runtime_env_outputs.
  - unfold body_attempt. destruct d; repeat (estep; try done).
Qed.

(** C2. A success is never made up. Whatever the world answers, neither [RunE]
    nor the cancellation drive writes a Completed attempt or turns a node
    Succeeded unless either the registry itself returned the current attempt as
    Completed, or in this very call the backend reported a successful end, the
    handoff service accepted every declared output of the node under the written
    attempt's identity, and it acknowledged that attempt's success. *)
Theorem success_needs_evidence (fuel : nat) (ctx : Ctx) (r : RunnerState) :
  wpE (RunE caps runID r_node fuel ctx) r no_evidence (fun _ _ _ => True) /\
  wpE (driveCancellation caps runID r_node ctx) r no_evidence (fun _ _ _ => True).
Proof.
  split; [|apply drive_safe]. unfold RunE.
  enough (H : forall ctx, safe (run_loop caps runID r_node fuel ctx)) by apply H. clear ctx.
  intros ctx. induction fuel as [|fuel IH]; simpl; [intros ??; by apply wpM_ret|].
  apply safe_bind; [apply runAttemptBody_safe|]. intros [e|]; [|repeat sstep].
  destruct (errors_is e errNodeRetry); [done|repeat sstep].
Qed.
End evidence.
