(* ===== verification/RunnerTermination.v ===== *)
(** * [RunE] terminates

    The retry loop of [RunE] has no bound of its own: it ends because every
    retry spends one of the node's realization attempts and [failNode] asks for
    another only below the ceiling. The proof follows the two fields of the
    node's record that matter, against any registry that keeps them
    consistently, whatever else changes in between. *)
From S2P Require Import Prelude GoStrings GoErrors Spec Registry Handoff Provenance BackendTypes.
From S2P Require Import Binding Placement Reconcile Prog Runner RunnerLogic.

Section termination.
Context {BT : BackendTypes} {U : UnicodeTables} (caps : AdapterCaps) (runID : string) (r_node : Node).

Notation nodeID := (n_NodeID r_node).

(** The realization count and the current attempt of the node. *)
Notation counters := (Z * string)%type.

Definition is_retry (e : GoError) : bool := errors_is e errNodeRetry.

(** An answer's error is not the executor's private sentinel. *)
Definition no_retry_answer {X} (e : event X) : X -> Prop :=
  match e in event X return X -> Prop with
  | EGetRun _ | EGetNode _ _ | EListNodes _ | EListAttempts _ _ | EGetCurrentAttempt _ _
  | EUpdateNode _ _ _ | EAllocateCurrentAttempt _ _ | EOpenSemanticAttempt _ _ _ _
  | EPrepareNode _ _ _ | EResolveBinding _ _ => fun r =>
      match r with Ok _ => True | Err err => is_retry err = false end
  | ESleep _ _ => fun r => match r with Some err => is_retry err = false | None => True end
  | _ => fun _ => True
  end.

(** A call, on a registry that holds the node with counters [s]: what it may
    answer, and the counters afterwards. *)
Definition keeps (s : counters) (X : Type) (e : event X) : X -> counters -> Prop :=
  match e in event X return X -> counters -> Prop with
  | EGetNode r n => fun x s' => s' = s /\
      (r = runID -> n = nodeID -> forall node, x = Ok node -> counters_of node = s)
  | EGetCurrentAttempt r n => fun x s' => s' = s /\
      (r = runID -> n = nodeID -> s.2 = "" -> forall a h, x = Ok (a, h) -> h = false)
  | EUpdateNode r n f => fun x s' =>
      if decide (r = runID /\ n = nodeID)
      then is_ok x = true /\ exists node, counters_of node = s /\ s' = counters_of (f node).2
      else s' = s
  | EAllocateCurrentAttempt r n => fun x s' =>
      if decide (r = runID /\ n = nodeID)
      then match x with Ok _ => s'.1 = int_add s.1 1 | Err _ => s' = s end
      else s' = s
  | _ => fun _ s' => s' = s
  end.

Definition answers (s : counters) (X : Type) (e : event X) (x : X) (s' : counters) : Prop :=
  keeps s X e x s' /\ no_retry_answer e x.

Local Notation any := (fun _ _ _ => True).
Local Notation wpT := (wpM any answers).

Lemma answers_tame s X (e : event X) x s' : tame X e -> answers s X e x s' -> s' = s.
Proof.
  intros He [H _]. destruct e; simpl in *; try done; try (by destruct H).
  case_decide; [|done]. destruct H as (_ & node & <- & ->). apply He.
Qed.

Lemma wpT_tame {A} (m : M A) r s (Q : A -> RunnerState -> counters -> Prop) :
  emitsM tame m -> (forall a r', Q a r' s) -> wpT m r s Q.
Proof.
  intros Hm HQ. eapply (wpM_emits any answers tame (eq s)); eauto.
  - intros s0 X e x s' -> He Hn. symmetry. by eapply answers_tame.
  - by intros a r' s' <-.
Qed.

(** A result that does not ask for a retry, with the counters untouched. *)
Definition no_retry (x : option GoError) : Prop := forall e, x = Some e -> is_retry e = false.

Definition still {A} (P : A -> Prop) (s : counters) (x : A) (r : RunnerState) (s' : counters) : Prop :=
  P x /\ s' = s.

Lemma no_retry_None : no_retry None.
Proof. done. Qed.
Lemma no_retry_text s : no_retry (Some (Errorf s)).
Proof. by intros e [= <-]. Qed.
Lemma no_retry_unresolved : no_retry (Some errReconcileUnresolved).
Proof. by intros e [= <-]. Qed.
Lemma no_retry_some e : is_retry e = false -> no_retry (Some e).
Proof. by intros H e' [= <-]. Qed.
Local Hint Resolve no_retry_None no_retry_text no_retry_unresolved no_retry_some : core.

(** A write of the node's projection that keeps the counters. *)
Lemma wpT_setNode f r s (Q : res unit -> RunnerState -> counters -> Prop) :
  (forall n, counters_of (f n) = counters_of n) ->
  (forall x, match x with Ok _ => True | Err e => is_retry e = false end -> Q x r s) ->
  wpT (setNode runID r_node f) r s Q.
Proof.
  intros Hf HQ. apply wpM_call; [exact I|]. intros x s' [H He]. simpl in *.
  rewrite decide_True in H by done. assert (s' = s) as ->; [|by apply HQ].
  destruct H as (_ & node & <- & ->). apply Hf.
Qed.

Ltac tstep :=
  match goal with
  | |- wpM _ _ (mret _) _ _ _ => apply wpM_ret
  | |- wpM _ _ get _ _ _ => apply wpM_get
  | |- wpM _ _ (modify _) _ _ _ => apply wpM_modify
  | |- wpM _ _ (_ ≫= _) _ _ _ => apply wpM_bind
  | |- wpM _ _ (setNode _ _ _) _ _ _ => apply wpT_setNode; [reflexivity | intros ? ?]
  | |- wpM _ _ (match ?x with _ => _ end) _ _ _ => destruct x eqn:?
  | |- wpM _ _ (if ?x then _ else _) _ _ _ => destruct x eqn:?
  | |- wpM _ _ ?m _ _ _ => apply wpT_tame; [solve [emits_auto; by simpl] | intros ? ?]
  end.

Lemma cancelNode_still a reason r s :
  wpT (cancelNode runID r_node a reason) r s (still no_retry s).
Proof. unfold cancelNode. repeat tstep; by split; auto. Qed.

Lemma unresolved_still a r s :
  wpT (reconcileUnresolved runID r_node a) r s (still no_retry s).
Proof. unfold reconcileUnresolved. repeat tstep; by split; auto. Qed.

Lemma defer_still a f c r s :
  wpT (deferFinalizationAfterSuccess runID r_node a f c) r s (still no_retry s).
Proof.
  unfold deferFinalizationAfterSuccess. do 2 tstep. tstep. apply wpM_call; [exact I|].
  intros p s' [-> _]. repeat tstep; by split; auto.
Qed.

Lemma terminalizeFailed_still c a st f r s :
  is_retry c = false ->
  wpT (terminalizeFailed runID r_node c a st f) r s (still no_retry s).
Proof. intros Hc. unfold terminalizeFailed. repeat tstep; by split; auto. Qed.

Lemma terminalizeNoRetry_still c a st f r s :
  is_retry c = false ->
  wpT (terminalizeFailedNoRetry runID r_node c a st f) r s (still no_retry s).
Proof.
  intros Hc. unfold terminalizeFailedNoRetry. do 4 tstep.
  tstep; [apply cancelNode_still | by apply terminalizeFailed_still].
Qed.

(** Calls that keep the counters, the success of an execution included. *)
Definition steady (X : Type) (e : event X) : Prop :=
  match e with
  | EAllocateCurrentAttempt _ _ => False
  | EUpdateNode _ _ f => forall n, counters_of (f n).2 = counters_of n
  | _ => True
  end.

Lemma tame_steady X (e : event X) : tame X e -> steady X e.
Proof. destruct e; simpl; try done. intros H n. apply H. Qed.

Lemma wpT_steady {A} (m : M A) r s (Q : A -> RunnerState -> counters -> Prop) :
  emitsM steady m -> (forall a r', Q a r' s) -> wpT m r s Q.
Proof.
  intros Hm HQ. eapply (wpM_emits any answers steady (eq s)); eauto; [|by intros a r' s' <-].
  intros s0 X e x s' -> He [H _]. symmetry. destruct e; simpl in *; try done; try (by destruct H).
  case_decide; [|done]. destruct H as (_ & node & <- & ->). apply He.
Qed.

Hint Extern 3 (emitsM steady _) => (eapply emitsM_mono; [apply tame_steady|]) : emits.

Lemma register_outputs_steady ctx a sample m l : emitsM steady (register_outputs r_node ctx a sample m l).
Proof. induction l; simpl; emits_auto; by simpl. Qed.
Hint Resolve register_outputs_steady : emits.

Lemma registerNodeOutputs_steady ctx h a n :
  emitsM steady (registerNodeOutputs caps runID r_node ctx h a n).
Proof. unfold registerNodeOutputs. emits_auto. Qed.

Lemma notify_steady ctx st a : emitsM steady (notifyNodeTerminal runID r_node ctx st a).
Proof. unfold notifyNodeTerminal. emits_auto; by simpl. Qed.

Ltac tdone :=
  match goal with
  | |- wpM _ _ (cancelNode _ _ _ _) _ _ _ => apply cancelNode_still
  | |- wpM _ _ (reconcileUnresolved _ _ _) _ _ _ => apply unresolved_still
  | |- wpM _ _ (deferFinalizationAfterSuccess _ _ _ _ _) _ _ _ => apply defer_still
  | |- wpM _ _ (terminalizeFailedNoRetry _ _ _ _ _ _) _ _ _ => by apply terminalizeNoRetry_still
  | |- wpM _ _ (terminalizeFailed _ _ _ _ _ _) _ _ _ => by apply terminalizeFailed_still
  | |- wpM _ _ (registerNodeOutputs _ _ _ _ _ _ _) _ _ _ =>
      apply wpT_steady; [apply registerNodeOutputs_steady | intros ? ?]
  | |- wpM _ _ (notifyNodeTerminal _ _ _ _ _) _ _ _ =>
      apply wpT_steady; [apply notify_steady | intros ? ?]
  | |- wpM _ _ (ignore (call (EUpsertAttempt _))) _ _ _ =>
      apply wpT_steady; [by apply emitsM_ignore, emitsM_call | intros ? ?]
  | |- wpM _ _ (call (ECancelNode _ _)) _ _ _ =>
      apply wpT_steady; [by apply emitsM_call | intros ? ?]
  | |- wpM _ _ (call _) _ _ _ =>
      apply wpM_call; [exact I|]; intros ? ? [-> ?]; simpl in *
  | _ => tstep
  end.

Lemma waitAndFinalize_still ctx h a t node r s :
  wpT (waitAndFinalize caps runID r_node ctx h a t node) r s (still no_retry s).
Proof. unfold waitAndFinalize. repeat tdone; by split; auto. Qed.

Lemma runFromHandle_still ctx h a r s :
  wpT (runFromHandle caps runID r_node ctx h a) r s (still no_retry s).
Proof.
  unfold runFromHandle. repeat tstep. eapply wpM_mono; [|apply waitAndFinalize_still].
  intros x r2 s' [Hx ->]. repeat tstep. by split.
Qed.

Lemma attach_still ctx h a c r s :
  wpT (attachResolvedHandle caps runID r_node ctx h a c) r s (still no_retry s).
Proof.
  unfold attachResolvedHandle.
  repeat lazymatch goal with
         | |- wpM _ _ (runFromHandle _ _ _ _ _ _) _ _ _ => apply runFromHandle_still
         | _ => tdone
         end.
Qed.

Lemma byIdentity_still ctx n c r s :
  wpT (reconcileByIdentity caps runID r_node ctx n c) r s (still no_retry s).
Proof.
  unfold reconcileByIdentity.
  repeat lazymatch goal with
         | |- wpM _ _ (attachResolvedHandle _ _ _ _ _ _ _) _ _ _ => apply attach_still
         | _ => tdone
         end; by split; auto.
Qed.

Lemma repair_still n a h r s :
  wpT (repairTerminalProjection runID r_node n a h) r s (still no_retry s).
Proof.
  unfold repairTerminalProjection. tstep.
  apply wpM_mono with (Q := fun _ _ s' => s' = s).
  - intros n' r' s' ->. apply wpM_ret. split; [|done]. case_decide; auto.
  - tstep; [|by apply wpM_ret]. tstep. apply wpM_ignore, wpT_setNode.
    + intros m. by case_match.
    + intros x Hx. repeat tstep. done.
Qed.

(** A result that may ask for a retry: then the count is below the ceiling and
    the node has no current attempt any more. *)
Definition retry_or_done (s : counters) (x : option GoError) (r : RunnerState) (s' : counters) : Prop :=
  no_retry x \/ ((s.1 < realizationAttemptCeiling)%Z /\ s' = (s.1, "")).

Lemma failNode_retry c a st f b r s :
  is_retry c = false -> wpT (failNode runID r_node c a st f b) r s (retry_or_done s).
Proof.
  intros Hc. unfold failNode. do 4 tstep.
  tstep; [eapply wpM_mono; [|apply cancelNode_still]; intros x r2 s' [Hx _]; by left|].
  unfold realizationRetriesRemaining. tstep. tstep. apply wpM_call; [exact I|].
  intros n s' [[-> Hn] Hn']. apply wpM_ret.
  destruct n as [node|e]; cbv beta iota zeta; [|destruct b; simpl;
    (eapply wpM_mono; [|by apply terminalizeFailed_still]; intros x r2 s' [Hx _]; by left)].
  specialize (Hn eq_refl eq_refl node eq_refl).
  destruct (_ <=? 0)%Z eqn:Hlt; cbv beta iota; rewrite ?andb_false_r, ?andb_true_r;
    [eapply wpM_mono; [|by apply terminalizeFailed_still]; intros x r2 s' [Hx _]; by left|].
  destruct b; [|eapply wpM_mono; [|by apply terminalizeFailed_still]; intros x r2 s' [Hx _]; by left].
  tstep. tstep. tstep. apply wpM_call; [exact I|]. intros g s' [[-> _] _]. tstep.
  apply wpM_mono with (Q := fun _ _ s' => s' = s).
  - intros _ r1 s' ->. tstep. tstep. tstep. apply wpM_ignore, wpM_call; [exact I|].
    intros y s' [H _]. simpl in H. rewrite decide_True in H by done.
    destruct H as (_ & node' & <- & ->). apply wpM_ret. right. split; [|done].
    apply Z.leb_gt in Hlt. injection Hn as Hn1 Hn2. simpl. lia.
  - destruct g as [[cur ok2]|e]; [|by apply wpM_ret].
    tstep; [|by apply wpM_ret]. by tdone.
Qed.

Lemma resolve_retry_err ctx req a b left n e r s :
  is_retry e = false ->
  wpT (resolve_retry runID r_node ctx req a b left n e) r s
    (still (fun x => match x with Ok _ => True | Err err => is_retry err = false end) s).
Proof.
  revert n e r; induction left as [|left IH]; intros n e r He; cbn [resolve_retry].
  { by apply wpM_ret. }
  tstep. apply wpM_call; [exact I|]. intros x s' [-> Hx].
  destruct x as [resolved|err]; [by apply wpM_ret|]. simpl in Hx.
  destruct (isTransientResolveBindingError _); cbn [negb]; [|by apply wpM_ret].
  do 4 tstep. destruct left as [|left]; [by apply wpM_ret|].
  tstep. apply wpM_call; [exact I|]. intros stop s' [-> Hstop].
  destruct stop as [e'|]; [by apply wpM_ret|]. by apply IH.
Qed.

Lemma resolve_pending_err ctx req a b left n d l r s :
  wpT (resolve_pending runID r_node ctx req a b left n d l) r s
    (still (fun x => match x with Ok _ => True | Err err => is_retry err = false end) s).
Proof.
  revert n d l r; induction left as [|left IH]; intros n d l r; cbn [resolve_pending].
  { by apply wpM_ret. }
  tstep. eapply wpM_mono; [|by apply resolve_retry_err].
  intros x r1 s1 [Hx ->]. destruct x as [resolved|err]; [|by apply wpM_ret].
  destruct (classifyResolvedBinding b resolved) as [[] reason].
  - destruct (validateResolvedBindingContract b resolved) as [[]|err] eqn:Ev; apply wpM_ret; [done|].
    split; [|done]. revert Ev.
    unfold validateResolvedBindingContract, check_placement_intent, check_materialization_plan,
      check_local_path. intros Ev. repeat (case_match; simplify_eq; try done).
  - do 4 tstep. destruct left as [|left]; [by apply wpM_ret|].
    tstep. apply wpM_call; [exact I|]. intros stop s' [-> Hstop].
    destruct stop as [e'|]; [by apply wpM_ret|]. apply IH.
  - by apply wpM_ret.
  - by apply wpM_ret.
Qed.

(** A stage of the body: an execution node to go on with and the counters
    untouched, or the body's result. *)
Definition stage (s : counters) (x : Node + option GoError) (r : RunnerState) (s' : counters) : Prop :=
  match x with inl _ => s' = s | inr e => retry_or_done s e r s' end.

Lemma fail_stage c a st f b r s :
  is_retry c = false ->
  wpT (failNode runID r_node c a st f b ≫= fun x => mret (inr x)) r s (stage s).
Proof.
  intros Hc. apply wpM_bind. eapply wpM_mono; [|by apply failNode_retry].
  intros x r' s' Hx. by apply wpM_ret.
Qed.

Lemma body_bindings_stage ctx run a t0 l node r s :
  wpT (body_bindings runID r_node ctx run a t0 l node) r s (stage s).
Proof.
  revert node r; induction l as [|b l IH]; intros node r; cbn [body_bindings]; [by apply wpM_ret|].
  do 4 tstep. tstep. eapply wpM_mono; [|apply resolve_pending_err].
  intros x r1 s1 [Hx ->]. destruct x as [resolved|err].
  - do 4 tstep. tstep. tstep; (tstep; tstep; tstep; (tstep; tstep; tstep; tstep; tstep; apply IH)).
  - tstep. tstep. by apply fail_stage.
Qed.

Lemma env_keys_err seen l e : env_keys_from seen l = Err e -> is_retry e = false.
Proof.
  revert seen; induction l as [|b l IH]; intros seen; simpl; [done|].
  destruct (seen !! _); [by intros [= <-]|apply IH].
Qed.

Lemma body_inputs_stage ctx run a t0 node r s :
  wpT (body_inputs runID r_node ctx run a t0 node) r s (stage s).
Proof.
  unfold body_inputs. destruct (n_ArtifactBindings r_node) as [|b l]; [by apply wpM_ret|].
  destruct (validateResolvedBindingEnvKeys (b :: l)) as [[]|err] eqn:Ek.
  - tstep. tstep. tstep; [|tstep; left; by apply no_retry_some].
    do 4 tstep. tstep. tstep. tstep; [|tstep; left; by apply no_retry_some].
    apply body_bindings_stage.
  - tstep. tstep. apply fail_stage. by eapply env_keys_err.
Qed.

Lemma body_started_still ctx h a d n r s :
  wpT (body_started caps runID r_node ctx h a d n) r s (still no_retry s).
Proof.
  unfold body_started.
  repeat lazymatch goal with
         | |- wpM _ _ (waitAndFinalize _ _ _ _ _ _ _ _) _ _ _ => apply waitAndFinalize_still
         | _ => tstep
         end; split; auto.
Qed.

Lemma body_start_retry ctx p a t0 n r s :
  wpT (body_start caps runID r_node ctx p a t0 n) r s (retry_or_done s).
Proof.
  unfold body_start. tstep. unfold openedOpportunityCount. tstep.
  apply wpM_call; [exact I|]. intros l s' [-> Hl]. apply wpM_ret.
  destruct l as [l|e]; cbv beta iota; [|tstep; left; by apply no_retry_some].
  tstep.
  - tstep. tstep. eapply wpM_mono; [|by apply terminalizeFailed_still].
    intros x r2 s' [H _]. by left.
  - tstep. tstep. tstep. apply wpM_call; [exact I|]. intros f s' [-> Hf].
    destruct f as [[]|e]; [|tstep; tstep; by apply failNode_retry].
    tstep. tstep. tstep. apply wpM_call; [exact I|]. intros h s' [-> _].
    tstep. tstep. destruct h as [h|e].
    + do 4 tstep. tstep. eapply wpM_mono; [|apply body_started_still].
      intros x r2 s' [Hx ->]. repeat tstep. by left.
    + eapply wpM_mono; [|apply unresolved_still]. intros x r2 s' [H _]. by left.
Qed.

Lemma scan_hints_conflict hints q p e :
  scan_hints hints q p = Err e -> exists a b, e = conflict_error a b.
Proof.
  revert q p; induction hints as [|x hints IH]; intros q p; cbn [scan_hints]; [done|].
  intros H. destruct (streq (lh_PlacementMode x) placementModeRequiredNode).
  - destruct (streq (TrimSpace _) ""); [by eapply IH|].
    destruct (streq q ""); [by eapply IH|].
    destruct (negb _); [|by eapply IH]. injection H as <-. eauto.
  - destruct (streq _ placementModePreferredNode); by eapply IH.
Qed.

Lemma applyPlacementHints_err node hints e :
  (applyPlacementHints node hints).2 = Err e -> is_retry e = false.
Proof.
  unfold applyPlacementHints. destruct hints as [|h l]; [done|].
  destruct (scan_hints (h :: l) "" false) as [[req pref]|e'] eqn:Es.
  - destruct (streq req "" && negb pref); [done|]. destruct (negb (streq req "")).
    + destruct (ph_PreferredNodes _); [|by intros [= <-]]. destruct (_ && _); by intros [= <-].
    + destruct (negb _); [by intros [= <-]|]. by destruct (collect_preferred _ _).
  - intros [= <-]. apply scan_hints_conflict in Es as (a & b & ->). reflexivity.
Qed.

Lemma body_prepare_retry ctx run a t0 n r s :
  wpT (body_prepare caps runID r_node ctx run a t0 n) r s (retry_or_done s).
Proof.
  unfold body_prepare. tstep. tstep.
  pose proof (applyPlacementHints_err n (rs_localityHints r)) as He.
  destruct (applyPlacementHints n _) as [n' [[]|e]]; simpl in He.
  - tstep. tstep. tstep. tstep. tstep; [|tstep; left; by apply no_retry_some].
    do 4 tstep. tstep. apply wpM_call; [exact I|]. intros p s' [-> Hp].
    destruct p as [p|e]; [|tstep; tstep; by apply failNode_retry].
    tstep. tstep. tstep; [|tstep; left; by apply no_retry_some].
    do 4 tstep. apply body_start_retry.
  - tstep. tstep. apply failNode_retry. by apply He.
Qed.

(** ** The loop *)

(** Reconciling either ends the call or goes on; without a current attempt it
    does not resume one. *)
Lemma reconcile_stage ctx r s :
  wpT (reconcileBeforeAllocation caps runID r_node ctx) r s (fun x _ s' => s' = s /\
    match x with
    | Done e => no_retry e
    | Proceed d _ => s.2 = "" -> d <> ReconcileResumePreFence
    end).
Proof.
  unfold reconcileBeforeAllocation. tstep. apply wpM_call; [exact I|].
  intros n s' [[-> _] Hn]. destruct n as [node|e]; [|apply wpM_ret; split; auto].
  tstep. apply wpM_call; [exact I|]. intros g s' [[-> Hg] Hg'].
  destruct g as [[cur has]|e]; [|apply wpM_ret; split; auto]. cbv beta iota.
  destruct (ClassifyReconcile node cur has) eqn:Ec.
  - by apply wpM_ret.
  - apply wpM_ret. split; [done|]. intros Hs. specialize (Hg eq_refl eq_refl Hs _ _ eq_refl).
    subst has. unfold ClassifyReconcile in Ec. simpl in Ec.
    destruct (NodeStatus_IsTerminal _), (streq (nr_CurrentAttemptHandleJSON node) ""); done.
  - tstep. tstep. tstep; [tstep|].
    + tstep. eapply wpM_mono; [|apply runFromHandle_still]. intros x r2 s' [Hx ->]. by apply wpM_ret.
    + tstep. eapply wpM_mono; [|apply unresolved_still]. intros x r2 s' [Hx ->]. by apply wpM_ret.
  - tstep. eapply wpM_mono; [|apply byIdentity_still]. intros x r2 s' [Hx ->]. by apply wpM_ret.
  - tstep. eapply wpM_mono; [|apply repair_still]. intros x r2 s' [Hx ->]. by apply wpM_ret.
Qed.

Lemma body_attempt_counts d node r s :
  wpT (body_attempt runID r_node d node) r s (fun x _ s' =>
    match x with
    | Ok _ => s'.1 = int_add s.1 1 \/ (s' = s /\ d = ReconcileResumePreFence)
    | Err e => is_retry e = false
    end).
Proof.
  unfold body_attempt. destruct d.
  2: { repeat tstep; auto. }
  all: tstep; apply wpM_call; [exact I|]; intros a s' [Ha Ha']; simpl in Ha;
    rewrite decide_True in Ha by done; (destruct a as [a|e]; [|by apply wpM_ret]);
    tstep; (apply wpM_mono with (Q := fun _ _ s2 => s2 = s');
      [intros ? ? ? ->; apply wpM_ret; by left | destruct (ar_StartedAt a); by repeat tstep]).
Qed.

(** One body: a retry leaves no current attempt and a count below the ceiling,
    which grew unless an attempt was resumed. *)
Lemma runAttemptBody_counts ctx r s :
  wpT (runAttemptBody caps runID r_node ctx) r s (fun x _ s' =>
    no_retry x \/
    ((s'.1 < realizationAttemptCeiling)%Z /\ s'.2 = "" /\
     (s'.1 = int_add s.1 1 \/ (s'.1 = s.1 /\ s.2 <> "")))).
Proof.
  unfold runAttemptBody. tstep. eapply wpM_mono; [|apply reconcile_stage].
  intros d r1 s' [-> Hd]. destruct d as [e|d node]; [apply wpM_ret; by left|].
  tstep. apply wpM_call; [exact I|]. intros run s' [-> Hrun].
  destruct run as [run|e]; [|apply wpM_ret; left; by apply no_retry_some].
  do 3 tstep. eapply wpM_mono; [|apply body_attempt_counts].
  intros x r2 s1 Hx. destruct x as [[attemptID t0]|e]; [|apply wpM_ret; left; by apply no_retry_some].
  assert (Hs1 : s1.1 = int_add s.1 1 \/ (s1.1 = s.1 /\ s.2 <> "")).
  { destruct Hx as [Hx|[-> ->]]; [by left|right]. split; [done|]. intros Hs. by apply Hd. }
  tstep. tstep. tstep. eapply wpM_mono; [|apply body_inputs_stage].
  intros i r4 s2 Hi. destruct i as [node'|e]; simpl in Hi.
  - subst s2. eapply wpM_mono; [|apply body_prepare_retry].
    intros y r5 s3 [Hy|[Hlt ->]]; [by left|right]. by split_and!.
  - apply wpM_ret. destruct Hi as [Hi|[Hlt ->]]; [by left|right]. by split_and!.
Qed.

Lemma run_loop_fuel fuel ctx r s :
  s.2 = "" -> (0 <= s.1 < int64_max)%Z -> (1 <= fuel)%nat ->
  (realizationAttemptCeiling - s.1 <= Z.of_nat fuel)%Z ->
  wpT (run_loop caps runID r_node fuel ctx) r s (fun x _ _ => x <> None).
Proof.
  revert r s; induction fuel as [|fuel IH]; intros r s Hp Hc H1 Hf; [lia|]. cbn [run_loop].
  apply wpM_bind. eapply wpM_mono; [|apply runAttemptBody_counts].
  intros [e|] r' s' Hx; [|by apply wpM_ret].
  destruct (errors_is e errNodeRetry) eqn:He; [|by apply wpM_ret].
  destruct Hx as [Hx|(Hlt & Hp' & [Hc'|[_ Hne]])].
  - specialize (Hx e eq_refl). unfold is_retry in Hx. congruence.
  - rewrite int_add_succ in Hc' by done. unfold realizationAttemptCeiling, int64_max in *.
    apply IH; [done|lia|lia|lia].
  - done.
Qed.

(** The first body may resume an attempt without a new realization. *)
Lemma run_loop_first n ctx r s :
  (0 <= s.1 < int64_max)%Z -> (32 <= n)%nat ->
  wpT (run_loop caps runID r_node (S n) ctx) r s (fun x _ _ => x <> None).
Proof.
  intros Hc Hn. cbn [run_loop]. apply wpM_bind. eapply wpM_mono; [|apply runAttemptBody_counts].
  intros [e|] r' s' Hx; [|by apply wpM_ret].
  destruct (errors_is e errNodeRetry) eqn:He; [|by apply wpM_ret].
  destruct Hx as [Hx|(Hlt & Hp' & Hc')].
  - specialize (Hx e eq_refl). unfold is_retry in Hx. congruence.
  - rewrite int_add_succ in Hc' by done. unfold realizationAttemptCeiling, int64_max in *.
    apply run_loop_fuel; unfold realizationAttemptCeiling, int64_max; [done|lia..].
Qed.

(** The number of bodies that is always enough. *)
Definition enough_fuel : nat := 33.

Lemma RunE_fuel ctx r s :
  (0 <= s.1 < int64_max)%Z ->
  wpT (RunE caps runID r_node enough_fuel ctx) r s (fun x _ _ => x <> None).
Proof. intros Hc. unfold RunE. by apply (run_loop_first 32). Qed.
End termination.
