(* ===== verification/MemoryWorld.v ===== *)
(** * The executor on the in-memory registry

    An interpreter of programs whose registry calls are served by
    [MemoryRegistry] and whose other calls (backend, handoff, clock, contexts)
    by an arbitrary stateful environment. *)
From S2P Require Import Prelude GoStrings GoErrors Spec Registry Memory Handoff Provenance.
From S2P Require Import BackendTypes Binding Placement Reconcile Prog Runner RunnerLogic.
From S2P Require Import RunnerTermination.

Section world.
Context {BT : BackendTypes} {RO : RangeOrder} {E : Type}.
Context (env : forall X, event X -> E -> E * X).

Definition world : Type := MemoryRegistry * E.

Definition memory_handle (X : Type) (e : event X) (w : world) : world * X :=
  let '(m, s) := w in
  match e in event X return world * X with
  | EGetRun runID => (w, GetRun m runID)
  | EListRuns => (w, ListRuns m)
  | EGetNode runID nodeID => (w, GetNode m runID nodeID)
  | EListNodes runID => (w, ListNodes m runID)
  | EListAttempts runID nodeID => (w, ListAttempts m runID nodeID)
  | EGetCurrentAttempt runID nodeID => (w, GetCurrentAttempt m runID nodeID)
  | EUpdateRun runID f => let '(m, x) := UpdateRun m runID (infallible f) in ((m, s), x)
  | EUpdateNode runID nodeID f => let '(m, x) := UpdateNode m runID nodeID (infallible f) in ((m, s), x)
  | EUpsertAttempt record => let '(m, x) := UpsertAttempt m record in ((m, s), x)
  | EAppendEvent record => let '(m, x) := AppendEvent m record in ((m, s), x)
  | EAllocateCurrentAttempt runID nodeID =>
      let '(s, now) := env _ ENow s in
      let '(m, x) := AllocateCurrentAttempt m now runID nodeID in ((m, s), x)
  | EOpenSemanticAttempt runID nodeID attemptID at_ =>
      let '(m, x) := OpenSemanticAttempt m runID nodeID attemptID at_ in ((m, s), x)
  | EPersistBackendHandle runID nodeID attemptID json =>
      let '(m, x) := PersistBackendHandle m runID nodeID attemptID json in ((m, s), x)
  | EPersistCancellationIntent runID nodeID attemptID at_ reason =>
      let '(m, x) := PersistCancellationIntent m runID nodeID attemptID at_ reason in ((m, s), x)
  | EPersistProcessCompleted runID nodeID attemptID at_ =>
      let '(m, x) := PersistProcessCompleted m runID nodeID attemptID at_ in ((m, s), x)
  | e => let '(s, x) := env _ e s in ((m, s), x)
  end.

(** ** The registry keeps the counters of a node *)
Context (runID : string) (r_node : Node).

Local Notation ourNode := (n_NodeID r_node).

Definition node_counters (w : world) : Z * string :=
  default (0%Z, "") (counters_of <$> get_node w.1 runID ourNode).

Definition has_node (w : world) : Prop := is_Some (get_node w.1 runID ourNode).

(** The environment's errors are not the executor's private sentinel. *)
Definition honest_env : Prop := forall X (e : event X) s, no_retry_answer e (env X e s).2.

(** A write that does not touch the node's record. *)
Lemma same_node w m' s' :
  get_node m' runID ourNode = get_node w.1 runID ourNode ->
  has_node w ->
  node_counters (m', s') = node_counters w /\ has_node (m', s').
Proof. unfold node_counters, has_node. simpl. by intros ->. Qed.

Lemma mutate_attempt_node r a b c f : get_node (lockedMutateAttempt r a b c f).1 runID ourNode = get_node r runID ourNode.
Proof. rewrite mutate_attempt_spec. by destruct (get_attempt r a b c). Qed.

Lemma upsert_node r record : get_node (UpsertAttempt r record).1 runID ourNode = get_node r runID ourNode.
Proof.
  unfold UpsertAttempt. destruct (mr_attempts r !! _) as [ns|]; [|done]. by destruct (ns !! _).
Qed.

Lemma append_node r e : get_node (AppendEvent r e).1 runID ourNode = get_node r runID ourNode.
Proof. unfold AppendEvent. by case_match. Qed.

Lemma update_run_node {X} r id (f : RunRecord -> X * RunRecord) :
  get_node (UpdateRun r id (infallible f)).1 runID ourNode = get_node r runID ourNode.
Proof. unfold UpdateRun, infallible. destruct (mr_runs r !! id) as [rec|]; [|reflexivity]. destruct (f rec); reflexivity. Qed.

(** Opening a fence and storing a handle write the node, but not its counters. *)
Lemma put_same_counters w m' s' a b n :
  has_node w -> get_node m' a b <> None ->
  (forall x y, get_node m' x y = get_node w.1 x y) ->
  (forall old, get_node m' a b = Some old -> counters_of n = counters_of old) ->
  node_counters (put_node m' a b n, s') = node_counters w /\ has_node (put_node m' a b n, s').
Proof.
  intros Hw Hab Hm Hn. unfold node_counters, has_node in *. simpl. rewrite !get_node_put by done.
  destruct (decide (a = runID /\ b = ourNode)) as [[-> ->]|].
  - split; [|eauto]. destruct Hw as [old Hold]. rewrite Hold. simpl. apply Hn. by rewrite Hm.
  - by rewrite Hm.
Qed.

Lemma open_counters w s' a b c t :
  has_node w ->
  node_counters ((OpenSemanticAttempt w.1 a b c t).1, s') = node_counters w /\
  has_node ((OpenSemanticAttempt w.1 a b c t).1, s').
Proof.
  intros Hw. unfold OpenSemanticAttempt. rewrite get_node_locked.
  destruct (get_node w.1 a b) as [n|] eqn:En; [|by destruct (mr_nodes w.1 !! a); apply same_node].
  destruct (negb (streq _ _)); [by apply same_node|].
  rewrite mutate_attempt_spec. destruct (get_attempt w.1 a b c); [|by apply same_node].
  apply put_same_counters; [done|by rewrite get_node_put_attempt, En|done|].
  intros old Hold. rewrite get_node_put_attempt, En in Hold. by injection Hold as <-.
Qed.

Lemma handle_counters w s' a b c h :
  has_node w ->
  node_counters ((PersistBackendHandle w.1 a b c h).1, s') = node_counters w /\
  has_node ((PersistBackendHandle w.1 a b c h).1, s').
Proof.
  intros Hw. unfold PersistBackendHandle. rewrite mutate_attempt_spec.
  destruct (get_attempt w.1 a b c) as [att|]; [|by apply same_node].
  rewrite get_node_put_attempt. destruct (get_node w.1 a b) as [n|] eqn:En; simpl.
  - destruct (streq _ c); [|by apply same_node].
    apply put_same_counters; [done|by rewrite get_node_put_attempt, En|done|].
    intros old Hold. rewrite get_node_put_attempt, En in Hold. by injection Hold as <-.
  - destruct (streq "" c); [|by apply same_node].
    unfold put_node, has_node, node_counters, get_node in *. simpl in *.
    destruct (decide (a = runID)) as [->|]; [|by rewrite lookup_alter_ne].
    rewrite lookup_alter_eq. destruct (mr_nodes w.1 !! runID) as [ns|]; [|done]. simpl in *.
    destruct (decide (b = ourNode)) as [->|]; [by rewrite En in Hw; destruct Hw|].
    by rewrite lookup_insert_ne.
Qed.

Lemma get_node_read w n :
  has_node w -> GetNode w.1 runID ourNode = Ok n -> counters_of n = node_counters w.
Proof.
  unfold has_node, node_counters, GetNode, get_node.
  destruct (mr_nodes w.1 !! runID) as [ns|]; [|done]. simpl.
  destruct (ns !! ourNode) as [m|]; [|done]. by intros _ [= ->].
Qed.

Lemma registry_no_retry : Forall (fun e => is_retry e = false)
  [ErrRunNotFound; ErrNodeNotFound; ErrAttemptNotFound; ErrAttemptNonTerminal; errNilMap].
Proof. repeat constructor. Qed.

Lemma update_node_keeps {X} w (f : NodeRecord -> X * NodeRecord) s' :
  has_node w ->
  let '(m, x) := UpdateNode w.1 runID ourNode (infallible f) in
  is_ok x = true /\
  (exists node, counters_of node = node_counters w /\ node_counters (m, s') = counters_of (f node).2) /\
  has_node (m, s').
Proof.
  intros Hw. unfold UpdateNode, infallible. rewrite get_node_locked. unfold has_node, node_counters in *.
  destruct (get_node w.1 runID ourNode) as [n|] eqn:En; [|by destruct Hw].
  destruct (f n) as [x n'] eqn:Ef. simpl. rewrite get_node_put by (by rewrite En).
  rewrite decide_True by done. split_and!; [done| |eauto]. exists n. by rewrite Ef.
Qed.

Lemma update_node_other {X} w a b (f : NodeRecord -> X * NodeRecord) s' :
  has_node w -> ~ (a = runID /\ b = ourNode) ->
  let '(m, x) := UpdateNode w.1 a b (infallible f) in
  node_counters (m, s') = node_counters w /\ has_node (m, s') /\
  match x with Ok _ => True | Err e => is_retry e = false end.
Proof.
  intros Hw Hab. unfold UpdateNode, infallible. rewrite get_node_locked.
  destruct (get_node w.1 a b) as [n|] eqn:En; [|by destruct (mr_nodes w.1 !! a)].
  destruct (f n) as [x n'].
  assert (Hsame : get_node (put_node w.1 a b n') runID ourNode = get_node w.1 runID ourNode).
  { rewrite get_node_put by (by rewrite En). by rewrite decide_False. }
  unfold node_counters, has_node in *. simpl. by rewrite Hsame.
Qed.

Lemma allocate_keeps w now a b s' :
  has_node w ->
  let '(m, x) := AllocateCurrentAttempt w.1 now a b in
  has_node (m, s') /\ (match x with Ok _ => True | Err e => is_retry e = false end) /\
  if decide (a = runID /\ b = ourNode)
  then match x with
       | Ok _ => (node_counters (m, s')).1 = int_add (node_counters w).1 1
       | Err _ => node_counters (m, s') = node_counters w
       end
  else node_counters (m, s') = node_counters w.
Proof.
  intros Hw. unfold AllocateCurrentAttempt. rewrite get_node_locked.
  destruct (get_node w.1 a b) as [n|] eqn:En;
    [|destruct (mr_nodes w.1 !! a); by destruct (decide _)].
  destruct (if streq _ _ then _ else _); [by destruct (decide _)|].
  destruct (negb _); [by destruct (decide _)|].
  cbv zeta. unfold node_counters, has_node in *. simpl.
  rewrite get_node_put by (by rewrite get_node_put_attempt, En).
  destruct (decide (a = runID /\ b = ourNode)) as [[-> ->]|]; [|done].
  rewrite En. simpl. split_and!; eauto.
Qed.

Lemma GetRun_no_retry m id : match GetRun m id with Ok _ => True | Err e => is_retry e = false end.
Proof. unfold GetRun. by destruct (mr_runs m !! id). Qed.

Lemma GetNode_no_retry m a b :
  match GetNode m a b with Ok _ => True | Err e => is_retry e = false end.
Proof. unfold GetNode. destruct (mr_nodes m !! a) as [ns|]; [|done]. by destruct (ns !! b). Qed.

Lemma current_no_retry m a b :
  match GetCurrentAttempt m a b with Ok _ => True | Err e => is_retry e = false end.
Proof.
  unfold GetCurrentAttempt. rewrite get_node_locked.
  destruct (get_node m a b) as [n|]; [|by destruct (mr_nodes m !! a)].
  destruct (streq _ ""); [done|]. by destruct (get_attempt m a b _).
Qed.

Lemma ListNodes_no_retry m a : match ListNodes m a with Ok _ => True | Err e => is_retry e = false end.
Proof. unfold ListNodes. by destruct (mr_nodes m !! a). Qed.

Lemma ListAttempts_no_retry m a b :
  match ListAttempts m a b with Ok _ => True | Err e => is_retry e = false end.
Proof. unfold ListAttempts. destruct (mr_attempts m !! a) as [ns|]; [|done]. by destruct (ns !! b). Qed.

Lemma open_no_retry m a b c t :
  match (OpenSemanticAttempt m a b c t).2 with Ok _ => True | Err e => is_retry e = false end.
Proof.
  unfold OpenSemanticAttempt. rewrite get_node_locked.
  destruct (get_node m a b) as [n|]; [|by destruct (mr_nodes m !! a)].
  destruct (negb _); [done|]. rewrite mutate_attempt_spec. destruct (get_attempt m a b c); [done|].
  simpl. destruct (mr_attempts m !! a) as [ns|]; [|done]. by destruct (ns !! b).
Qed.

Lemma current_none w a h :
  has_node w -> (node_counters w).2 = "" ->
  GetCurrentAttempt w.1 runID ourNode = Ok (a, h) -> h = false.
Proof.
  unfold has_node, node_counters, GetCurrentAttempt. rewrite get_node_locked.
  intros [n ->]. simpl. intros ->. by intros [= <- <-].
Qed.

(** The registry satisfies the assumptions of the termination argument. *)
Lemma memory_covers X (e : event X) w :
  honest_env -> has_node w ->
  answers runID r_node (node_counters w) X e (memory_handle X e w).2
    (node_counters (memory_handle X e w).1) /\
  has_node (memory_handle X e w).1.
Proof.
  intros Henv Hw. destruct w as [m s].
  destruct e; unfold answers; simpl;
    try (match goal with |- context [env ?X ?e s] =>
           pose proof (Henv X e s); destruct (env X e s) as [s1 x1]; simpl in * end).
  all: try done.
  - split; [|done]. split; [done|apply GetRun_no_retry].
  - split; [|done]. split; [|apply GetNode_no_retry]. split; [done|].
    intros -> -> n Hn. by apply (get_node_read (m, s)).
  - split; [|done]. split; [done|apply ListNodes_no_retry].
  - split; [|done]. split; [done|apply ListAttempts_no_retry].
  - split; [|done]. split; [|apply current_no_retry]. split; [done|].
    intros -> -> Hs a h. by apply (current_none (m, s)).
  - pose proof (update_run_node m runID0 f) as Hn. destruct (UpdateRun m runID0 (infallible f)) as [m' x].
    destruct (same_node (m, s) m' s Hn Hw) as [H1 H2]. by split_and!.
  - destruct (decide (runID0 = runID /\ nodeID = ourNode)) as [[-> ->]|Hd].
    + pose proof (update_node_keeps (m, s) f s Hw) as H. simpl in H.
      destruct (UpdateNode m runID ourNode (infallible f)) as [m' x]. destruct H as (H1 & H2 & H3).
      split; [|done]. split; [by split|]. by destruct x.
    + pose proof (update_node_other (m, s) _ _ f s Hw Hd) as H. simpl in H.
      destruct (UpdateNode m runID0 nodeID (infallible f)) as [m' x]. by destruct H as (H1 & H2 & H3).
  - pose proof (upsert_node m record) as Hn. destruct (UpsertAttempt m record) as [m' x].
    destruct (same_node (m, s) m' s Hn Hw) as [H1 H2]. by split_and!.
  - pose proof (append_node m record) as Hn. destruct (AppendEvent m record) as [m' x].
    destruct (same_node (m, s) m' s Hn Hw) as [H1 H2]. by split_and!.
  - pose proof (allocate_keeps (m, s) x1 runID0 nodeID s1 Hw) as H0. simpl in H0.
    destruct (AllocateCurrentAttempt m x1 runID0 nodeID) as [m' x]. simpl.
    destruct H0 as (H1 & H2 & H3). split; [|done]. split; [|done]. simpl.
    destruct (decide _); [|done]. by destruct x.
  - pose proof (open_counters (m, s) s runID0 nodeID attemptID openedAt Hw) as [H1 H2].
    pose proof (open_no_retry m runID0 nodeID attemptID openedAt) as H3.
    simpl in *. by destruct (OpenSemanticAttempt _ _ _ _ _) as [m' x].
  - pose proof (handle_counters (m, s) s runID0 nodeID attemptID handleJSON Hw) as [H1 H2].
    simpl in *. by destruct (PersistBackendHandle _ _ _ _ _) as [m' x].
  - pose proof (mutate_attempt_node m runID0 nodeID attemptID (fun a =>
      a <| ar_CancellationRequestedAt := Some at_ |> <| ar_CancellationReason := reason |>)) as Hn.
    unfold PersistCancellationIntent. destruct (lockedMutateAttempt _ _ _ _ _) as [m' x].
    destruct (same_node (m, s) m' s Hn Hw) as [H1 H2]. by split_and!.
  - pose proof (mutate_attempt_node m runID0 nodeID attemptID (fun a =>
      a <| ar_ProcessCompletedAt := Some at_ |>)) as Hn.
    unfold PersistProcessCompleted. destruct (lockedMutateAttempt _ _ _ _ _) as [m' x].
    destruct (same_node (m, s) m' s Hn Hw) as [H1 H2]. by split_and!.
Qed.
End world.

(** ** [RunE] terminates on the in-memory registry *)
Section terminates.
Context {BT : BackendTypes} {RO : RangeOrder} {U : UnicodeTables} {E : Type}.
Context (env : forall X, event X -> E -> E * X).

(** C36. On the in-memory registry [RunE] always returns: with fuel for 33 bodies
    (one resumed attempt and the 32 realizations of the ceiling) it never runs
    out, whatever the backend, the handoff service and the clock do and in
    whatever state the node's attempts are, provided the node exists, its
    realization count is a non-negative number below the maximum, and the
    environment does not forge the executor's private retry sentinel. *)
Theorem RunE_terminates (caps : AdapterCaps) (runID : string) (r_node : Node) (ctx : Ctx)
    (r : RunnerState) (m : MemoryRegistry) (s : E) (n : NodeRecord) :
  honest_env env ->
  get_node m runID (n_NodeID r_node) = Some n ->
  (0 <= nr_RealizationAttemptCount n < int64_max)%Z ->
  (run (memory_handle env) (RunE caps runID r_node enough_fuel ctx r) (m, s)).2.2 <> None.
Proof.
  intros Henv Hn Hc.
  assert (Hw : has_node (E := E) runID r_node (m, s)) by (by exists n).
  pose proof (run_wp_inv (memory_handle env) (node_counters runID r_node) (has_node runID r_node)
    _ _ _ (m, s) _ (fun X e w Hi => memory_covers env runID r_node X e w Henv Hi) Hw
    (RunE_fuel caps runID r_node ctx r (node_counters runID r_node (m, s))
       ltac:(unfold node_counters; simpl; by rewrite Hn))) as [H _].
  exact H.
Qed.
End terminates.
