(* ===== verification/MemoryFacts.v ===== *)
(** * The in-memory registry: invariants and operations

    The writes of [MemoryRegistry] as a step relation, the invariants they keep,
    and the behaviour of the operations the executor relies on. *)
From S2P Require Import Prelude GoStrings GoErrors Spec Registry Memory.
From stdpp Require Import sorting.

(** ** Steps *)
Inductive reg_step : MemoryRegistry -> MemoryRegistry -> Prop :=
  | step_CreateRun r record nodes : reg_step r (CreateRun r record nodes).1
  | step_UpdateRun {X} r id (f : RunRecord -> res (X * RunRecord)) : reg_step r (UpdateRun r id f).1
  | step_UpdateNode {X} r id n (f : NodeRecord -> res (X * NodeRecord)) : reg_step r (UpdateNode r id n f).1
  | step_UpsertAttempt r record : reg_step r (UpsertAttempt r record).1
  | step_AppendEvent r e : reg_step r (AppendEvent r e).1
  | step_Allocate r now id n : reg_step r (AllocateCurrentAttempt r now id n).1
  | step_Open r id n a t : reg_step r (OpenSemanticAttempt r id n a t).1
  | step_Fence r id n a t : reg_step r (PersistSubmissionFence r id n a t).1
  | step_Handle r id n a h : reg_step r (PersistBackendHandle r id n a h).1
  | step_Intent r id n a t reason : reg_step r (PersistCancellationIntent r id n a t reason).1
  | step_Completed r id n a t : reg_step r (PersistProcessCompleted r id n a t).1.

(** The states a registry can be in. *)
Definition reachable (r : MemoryRegistry) : Prop := rtc reg_step NewMemoryRegistry r.

(** ** Every run has its nodes, its attempts and its events *)
Record reg_wf (r : MemoryRegistry) : Prop := {
  wf_nodes : dom (mr_nodes r) = dom (mr_runs r);
  wf_attempts : dom (mr_attempts r) = dom (mr_runs r);
  wf_events : dom (mr_events r) = dom (mr_runs r);
  wf_inner : forall id ns ats,
    mr_nodes r !! id = Some ns -> mr_attempts r !! id = Some ats -> dom ats = dom ns;
}.

Lemma wf_empty : reg_wf NewMemoryRegistry.
Proof. split; simpl; rewrite ?dom_empty_L; done. Qed.

Lemma dom_alter_L' {A} (f : A -> A) i (m : gmap string A) : dom (alter f i m) = dom m.
Proof. apply dom_alter_L. Qed.

Lemma wf_put_node r id n node :
  get_node r id n <> None -> reg_wf r -> reg_wf (put_node r id n node).
Proof.
  intros Hn [H1 H2 H3 H4]. split; simpl; rewrite ?dom_alter_L'; try done.
  intros id' ns ats Hns Hats. destruct (decide (id = id')) as [<-|];
    [|rewrite lookup_alter_ne in Hns by done; by eapply H4].
  rewrite lookup_alter_eq in Hns. unfold get_node in Hn.
  destruct (mr_nodes r !! id) as [ns0|] eqn:E; [|done]. simpl in *. injection Hns as <-.
  rewrite dom_insert_L, (H4 id ns0 ats) by done.
  assert (n ∈ dom ns0) by (apply elem_of_dom; by destruct (ns0 !! n)). set_solver.
Qed.

Lemma wf_put_attempt r id n a rec :
  has_attempt_map r id n = true -> reg_wf r -> reg_wf (put_attempt r id n a rec).
Proof.
  intros _ [H1 H2 H3 H4]. split; simpl; rewrite ?dom_alter_L'; try done.
  intros id' ns ats Hns Hats. destruct (decide (id = id')) as [<-|];
    [|rewrite lookup_alter_ne in Hats by done; by eapply H4].
  rewrite lookup_alter_eq in Hats. destruct (mr_attempts r !! id) as [ats0|] eqn:E; [|done].
  injection Hats as <-. rewrite dom_alter_L'. by eapply H4.
Qed.

Lemma wf_has_attempt_map r id n node :
  reg_wf r -> get_node r id n = Some node -> has_attempt_map r id n = true.
Proof.
  intros [H1 H2 _ H4] Hn. unfold has_attempt_map, get_node in *.
  destruct (mr_nodes r !! id) as [ns|] eqn:E; [|done]. simpl in Hn.
  assert (id ∈ dom (mr_attempts r)) as [ats Hats]%elem_of_dom.
  { rewrite H2, <- H1. apply elem_of_dom. eauto. }
  rewrite Hats. simpl. apply is_some_true, elem_of_dom. rewrite (H4 id ns ats) by done.
  apply elem_of_dom. eauto.
Qed.

Lemma wf_attempt_node r id n a att :
  reg_wf r -> get_attempt r id n a = Some att -> exists node, get_node r id n = Some node.
Proof.
  intros [H1 H2 _ H4] Ea. apply has_map_of_attempt in Ea. unfold has_attempt_map in Ea.
  destruct (mr_attempts r !! id) as [ats|] eqn:E1; [|done]. simpl in Ea.
  apply is_some_true, elem_of_dom in Ea.
  assert (id ∈ dom (mr_nodes r)) as [ns Hns]%elem_of_dom.
  { rewrite H1, <- H2. apply elem_of_dom. eauto. }
  rewrite (H4 id ns ats Hns E1) in Ea. apply elem_of_dom in Ea as [x Hx].
  exists x. unfold get_node. by rewrite Hns.
Qed.

Lemma wf_mutate r id n a f : reg_wf r -> reg_wf (lockedMutateAttempt r id n a f).1.
Proof.
  intros H. rewrite mutate_attempt_spec. destruct (get_attempt r id n a) eqn:E; [|done].
  apply wf_put_attempt; [by eapply has_map_of_attempt|done].
Qed.

Lemma dom_foldl_nodes {A} (g : NodeRecord -> A) nodes (m : gmap string A) :
  dom (foldl (fun m node => <[nr_NodeID node := g node]> m) m nodes) =
  dom m ∪ list_to_set (nr_NodeID <$> nodes).
Proof.
  revert m; induction nodes as [|x l IH]; intros m; simpl; [set_solver|].
  rewrite IH, dom_insert_L. set_solver.
Qed.

Lemma wf_create r record nodes : reg_wf r -> reg_wf (CreateRun r record nodes).1.
Proof.
  intros [H1 H2 H3 H4]. unfold CreateRun. destruct (is_some _); [by split|].
  split; simpl; [by rewrite !dom_insert_L, ?H1, ?H2, ?H3..|].
  intros id ns ats. destruct (decide (rr_RunID record = id)) as [<-|].
  - rewrite !lookup_insert_eq. intros [= <-] [= <-].
    by rewrite (dom_foldl_nodes (fun _ => ∅)), (dom_foldl_nodes (fun x => x)), !dom_empty_L.
  - rewrite !lookup_insert_ne by done. apply H4.
Qed.

Lemma wf_events_only r r' :
  mr_runs r' = mr_runs r -> mr_nodes r' = mr_nodes r -> mr_attempts r' = mr_attempts r ->
  dom (mr_events r') = dom (mr_events r) -> reg_wf r -> reg_wf r'.
Proof.
  intros E1 E2 E3 E4 [H1 H2 H3 H4].
  split; rewrite ?E1, ?E2, ?E3, ?E4; done.
Qed.

Lemma wf_step r r' : reg_step r r' -> reg_wf r -> reg_wf r'.
Proof.
  intros Hs Hw. destruct Hs.
  - by apply wf_create.
  - unfold UpdateRun. destruct (mr_runs r !! id) as [rec|] eqn:E; [|done]. destruct (f rec) as [[v rec']|e]; [|done].
    destruct Hw as [H1 H2 H3 H4]. split; simpl; try done;
      rewrite dom_insert_L, (subseteq_union_1_L {[id]}); try done;
      apply singleton_subseteq_l, elem_of_dom; eauto.
  - unfold UpdateNode. rewrite get_node_locked. destruct (get_node r id n) eqn:E;
      [|by destruct (mr_nodes r !! id)]. destruct (f n0) as [[v n']|e]; [|done]. apply wf_put_node; [by rewrite E|done].
  - unfold UpsertAttempt. destruct (mr_attempts r !! _) as [ats|] eqn:E; [|done].
    destruct (ats !! ar_NodeID record) eqn:E'; [|done]. apply wf_put_attempt; [|done].
    unfold has_attempt_map. rewrite E. simpl. by rewrite E'.
  - unfold AppendEvent. destruct (is_some _) eqn:E; [|done]. apply is_some_true, elem_of_dom in E.
    apply (wf_events_only r); try done. simpl. rewrite dom_insert_L.
    destruct Hw as [_ _ H3 _]. rewrite <- H3 in E. set_solver.
  - unfold AllocateCurrentAttempt. rewrite get_node_locked. destruct (get_node r id n) eqn:E;
      [|by destruct (mr_nodes r !! id)].
    destruct (if streq _ _ then _ else _); [done|].
    destruct (has_attempt_map r id n) eqn:Em; [|done]. simpl.
    apply wf_put_node; [by rewrite get_node_put_attempt, E|]. by apply wf_put_attempt.
  - unfold OpenSemanticAttempt. rewrite get_node_locked. destruct (get_node r id n) eqn:E;
      [|by destruct (mr_nodes r !! id)].
    destruct (negb _); [done|]. pose proof (wf_mutate r id n a (open_fence t) Hw) as Hm.
    rewrite mutate_attempt_spec in *. destruct (get_attempt r id n a); [|done].
    apply wf_put_node; [by rewrite get_node_put_attempt, E|done].
  - by apply wf_mutate.
  - unfold PersistBackendHandle.
    pose proof (wf_mutate r id n a (fun x => x <| ar_BackendHandleJSON := h |>) Hw) as Hm.
    rewrite mutate_attempt_spec in *. destruct (get_attempt r id n a) as [att|] eqn:Ea; [|done].
    rewrite get_node_put_attempt. destruct (get_node r id n) as [node|] eqn:E; simpl.
    + destruct (streq _ a); [|done]. apply wf_put_node; [by rewrite get_node_put_attempt, E|done].
    + exfalso. destruct (wf_attempt_node r id n a att Hw Ea) as [node E']. congruence.
  - by apply wf_mutate.
  - by apply wf_mutate.
Qed.

(** C37. In every state the registry can reach, each run has its map of nodes,
    of attempts and of events, and the nodes of a run are exactly the keys of
    its attempts; so no write ever hits a map that was not made. *)
Theorem reachable_wf (r : MemoryRegistry) : reachable r -> reg_wf r.
Proof.
  intros H. pose proof wf_empty as Hw. revert Hw. unfold reachable in H.
  induction H as [x|x y z Hs _ IH]; [done|]. intros Hx. apply IH. by eapply wf_step.
Qed.

Lemma reachable_wf_witness :
  let rec := zero_RunRecord <| rr_RunID := "r" |> in
  let node := zero_NodeRecord <| nr_RunID := "r" |> <| nr_NodeID := "n" |> in
  reg_wf (AllocateCurrentAttempt (CreateRun NewMemoryRegistry rec [node]).1 5 "r" "n").1.
Proof.
  intros rec node. apply reachable_wf.
  eapply rtc_l; [apply step_CreateRun|]. apply rtc_once, step_Allocate.
Defined.

(** ** Allocation *)

(** The node has an attempt that has not ended. *)
Definition unresolved (r : MemoryRegistry) (id n : string) : Prop :=
  exists node att, get_node r id n = Some node /\ nr_CurrentAttemptID node <> "" /\
    get_attempt r id n (nr_CurrentAttemptID node) = Some att /\
    AttemptStatus_IsTerminal (ar_Status att) = false.

(** The attempts of every node are those numbered from 1 to its realization count. *)
Definition numbered (r : MemoryRegistry) : Prop :=
  forall id n node, get_node r id n = Some node ->
    (0 <= nr_RealizationAttemptCount node < int64_max)%Z /\
    forall a, get_attempt r id n a <> None <->
      exists k, (1 <= k <= nr_RealizationAttemptCount node)%Z /\ a = DeterministicAttemptID id n k.

(** The next attempt of a node, and the node that points to it. *)
Definition next_attempt (id n : string) (now : Z) (node : NodeRecord) : AttemptRecord :=
  zero_AttemptRecord <| ar_RunID := id |> <| ar_NodeID := n |>
    <| ar_AttemptID := DeterministicAttemptID id n (nr_RealizationAttemptCount node + 1) |>
    <| ar_Status := AttemptStatusPrepared |> <| ar_StartedAt := Some now |>.

Lemma allocate_ok r now id n node :
  reg_wf r -> get_node r id n = Some node -> ~ unresolved r id n ->
  (0 <= nr_RealizationAttemptCount node < int64_max)%Z ->
  let a := next_attempt id n now node in
  AllocateCurrentAttempt r now id n =
    (put_node (put_attempt r id n (ar_AttemptID a) a) id n
       (node <| nr_RealizationAttemptCount := (nr_RealizationAttemptCount node + 1)%Z |>
             <| nr_CurrentAttemptID := ar_AttemptID a |> <| nr_Status := NodeStatusReady |>
             <| nr_CurrentBottleneckLocation := "release_wait" |>
             <| nr_StartedAt := Some now |>), Ok a).
Proof.
  intros Hw Hn Hu Hc a. unfold AllocateCurrentAttempt. rewrite get_node_locked, Hn.
  assert (Hm : has_attempt_map r id n = true).
  { by eapply wf_has_attempt_map. }
  match goal with |- context [if ?b then (r, Err ErrAttemptNonTerminal) else _] =>
    assert (Hb : b = false) end.
  { destruct (streq (nr_CurrentAttemptID node) "") eqn:Ec; [done|]. str_tests.
    destruct (get_attempt r id n _) as [att|] eqn:Ea; [|done].
    apply negb_false_iff, not_false_iff_true. intros Ht. apply Hu. by exists node, att. }
  rewrite Hb, Hm. cbv zeta. rewrite int_add_succ by done. done.
Qed.

Lemma allocate_refused r now id n e r' :
  AllocateCurrentAttempt r now id n = (r', Err e) -> r' = r.
Proof.
  unfold AllocateCurrentAttempt. destruct (lockedGetNode r id n); [|by intros [= <-]].
  destruct (if streq _ _ then _ else _); [by intros [= <-]|].
  destruct (negb _); [by intros [= <-]|]. done.
Qed.

Lemma allocated_from r now id n r' a :
  reg_wf r -> numbered r -> AllocateCurrentAttempt r now id n = (r', Ok a) ->
  exists node, get_node r id n = Some node /\ ~ unresolved r id n.
Proof.
  intros Hw Hnum E. destruct (get_node r id n) as [node|] eqn:En.
  2: { unfold AllocateCurrentAttempt in E. rewrite get_node_locked, En in E.
       by destruct (mr_nodes r !! id). }
  exists node. split; [done|]. intros (node' & att & H1 & H2 & H3 & H4). simplify_eq.
  unfold AllocateCurrentAttempt in E. rewrite get_node_locked, En in E.
  rewrite (proj2 (streq_neq _ _) H2), H3, H4 in E. done.
Qed.

(** ** Numbering is kept by the steps of the program

    The API creates runs with nodes that were never realized; the executor
    updates a node without touching its realization count or its name and writes only
    attempts that exist; the counts stay far from the machine bound. *)
Inductive program_step : MemoryRegistry -> MemoryRegistry -> Prop :=
  | ps_CreateRun r record nodes :
      Forall (fun n => nr_RealizationAttemptCount n = 0%Z) nodes ->
      program_step r (CreateRun r record nodes).1
  | ps_UpdateRun {X} r id (f : RunRecord -> res (X * RunRecord)) : program_step r (UpdateRun r id f).1
  | ps_UpdateNode {X} r id n (f : NodeRecord -> res (X * NodeRecord)) :
      (forall x v y, f x = Ok (v, y) ->
        nr_RealizationAttemptCount y = nr_RealizationAttemptCount x /\ nr_NodeID y = nr_NodeID x) ->
      program_step r (UpdateNode r id n f).1
  | ps_UpsertAttempt r record :
      get_attempt r (ar_RunID record) (ar_NodeID record) (ar_AttemptID record) <> None ->
      program_step r (UpsertAttempt r record).1
  | ps_AppendEvent r e : program_step r (AppendEvent r e).1
  | ps_Allocate r now id n :
      (forall node, get_node r id n = Some node -> (nr_RealizationAttemptCount node + 1 < int64_max)%Z) ->
      program_step r (AllocateCurrentAttempt r now id n).1
  | ps_Open r id n a t : program_step r (OpenSemanticAttempt r id n a t).1
  | ps_Fence r id n a t : program_step r (PersistSubmissionFence r id n a t).1
  | ps_Handle r id n a h : program_step r (PersistBackendHandle r id n a h).1
  | ps_Intent r id n a t reason : program_step r (PersistCancellationIntent r id n a t reason).1
  | ps_Completed r id n a t : program_step r (PersistProcessCompleted r id n a t).1.

Lemma program_reg r r' : program_step r r' -> reg_step r r'.
Proof.
  destruct 1; [apply step_CreateRun|apply step_UpdateRun|apply step_UpdateNode|apply step_UpsertAttempt
    |apply step_AppendEvent|apply step_Allocate|apply step_Open|apply step_Fence|apply step_Handle
    |apply step_Intent|apply step_Completed].
Qed.

(** A state whose nodes have the same counts and whose attempts were there. *)
Lemma numbered_sub r r' :
  numbered r ->
  (forall id n node', get_node r' id n = Some node' -> exists node, get_node r id n = Some node /\
     nr_RealizationAttemptCount node' = nr_RealizationAttemptCount node) ->
  (forall id n a, get_attempt r' id n a <> None <-> get_attempt r id n a <> None) ->
  numbered r'.
Proof.
  intros Hn Hnode Hatt id n node' Hg. destruct (Hnode _ _ _ Hg) as (node & Hg' & ->).
  destruct (Hn _ _ _ Hg') as [Hc Ha]. split; [done|]. intros a.
  by rewrite Hatt.
Qed.

Lemma numbered_put_node r id n node :
  numbered r -> get_node r id n <> None ->
  (forall old, get_node r id n = Some old ->
     nr_RealizationAttemptCount node = nr_RealizationAttemptCount old) ->
  numbered (put_node r id n node).
Proof.
  intros Hn Hg Hc. apply (numbered_sub r); [done| |].
  - intros id' n' node'. rewrite get_node_put by done. case_decide as Hd; [|by intros H; exists node'].
    destruct Hd as [<- <-]. intros [= <-]. destruct (get_node r id n) as [old|] eqn:E; [|done].
    exists old. split; [done|by apply Hc].
  - intros id' n' a. by rewrite get_attempt_put_node.
Qed.

Lemma numbered_put_attempt r id n a rec :
  numbered r -> get_attempt r id n a <> None -> numbered (put_attempt r id n a rec).
Proof.
  intros Hn Hg. apply (numbered_sub r); [done| |].
  { intros id' n' node' H. exists node'. done. }
  intros id' n' a'. destruct (get_attempt r id n a) eqn:E; [|done].
  rewrite get_attempt_put by (by eapply has_map_of_attempt).
  case_decide as Hd; [destruct Hd as (<- & <- & <-); by rewrite E|done].
Qed.

Lemma numbered_mutate r id n a f : numbered r -> numbered (lockedMutateAttempt r id n a f).1.
Proof.
  intros Hn. rewrite mutate_attempt_spec. destruct (get_attempt r id n a) eqn:E; [|done].
  apply numbered_put_attempt; [done|by rewrite E].
Qed.

Lemma foldl_insert_lookup nodes n node (m : gmap string NodeRecord) :
  foldl (fun m x => <[nr_NodeID x := x]> m) m nodes !! n = Some node ->
  node ∈ nodes \/ m !! n = Some node.
Proof.
  revert m; induction nodes as [|x l IH]; intros m; simpl; [auto|]. intros [H|H]%IH.
  - left. apply elem_of_cons. auto.
  - apply lookup_insert_Some in H as [[_ <-]|[_ H]]; [left; apply elem_of_cons; auto|auto].
Qed.

Lemma foldl_empty_lookup nodes n (m : gmap string (gmap string AttemptRecord)) ats :
  (forall n ats, m !! n = Some ats -> ats = ∅) ->
  foldl (fun m x => <[nr_NodeID x := ∅]> m) m nodes !! n = Some ats -> ats = ∅.
Proof.
  revert m; induction nodes as [|x l IH]; intros m Hm; simpl; [apply Hm|]. apply IH.
  intros n' ats' H. apply lookup_insert_Some in H as [[_ <-]|[_ H]]; [done|by eapply Hm].
Qed.

Lemma numbered_create r record nodes :
  Forall (fun n => nr_RealizationAttemptCount n = 0%Z) nodes -> numbered r ->
  numbered (CreateRun r record nodes).1.
Proof.
  intros Hz Hn. unfold CreateRun. destruct (is_some _); [done|]. simpl.
  intros id n node. unfold get_node, get_attempt, node_attempts. simpl.
  destruct (decide (rr_RunID record = id)) as [<-|].
  - rewrite !lookup_insert_eq. simpl. intros Hg.
    apply foldl_insert_lookup in Hg as [Hg|Hg]; [|by rewrite lookup_empty in Hg].
    rewrite Forall_forall in Hz. rewrite (Hz _ Hg). split; [done|]. intros a.
    assert (Hno : default (∅ : gmap string AttemptRecord)
        (foldl (fun (m : gmap string (gmap string AttemptRecord)) x => <[nr_NodeID x := ∅]> m) ∅ nodes !! n) = ∅).
    { destruct (foldl _ _ nodes !! n) as [ats|] eqn:E; [|done]. simpl.
      apply foldl_empty_lookup in E as ->; [done|]. intros ? ? H. by rewrite lookup_empty in H. }
    rewrite Hno, lookup_empty. split; [done|]. intros (k & Hk & _). lia.
  - rewrite !lookup_insert_ne by done. intros Hg. by apply Hn.
Qed.

Lemma numbered_allocate r now id n :
  reg_wf r -> numbered r ->
  (forall node, get_node r id n = Some node -> (nr_RealizationAttemptCount node + 1 < int64_max)%Z) ->
  numbered (AllocateCurrentAttempt r now id n).1.
Proof.
  intros Hw Hn Hb. destruct (AllocateCurrentAttempt r now id n) as [r' [att|e]] eqn:E; simpl;
    [|by rewrite (allocate_refused _ _ _ _ _ _ E)].
  destruct (allocated_from r now id n r' att Hw Hn E) as (node & En & Hu).
  destruct (Hn _ _ _ En) as [Hc Ha]. rewrite (allocate_ok r now id n node) in E by done.
  injection E as <- <-. specialize (Hb _ En).
  intros id' n' node'. rewrite get_node_put by (by rewrite get_node_put_attempt, En).
  assert (Hm : has_attempt_map r id n = true) by (by eapply wf_has_attempt_map).
  case_decide as Hd; [destruct Hd as [<- <-]; intros [= <-]|intros Hg].
  - simpl. split; [lia|]. intros a. rewrite get_attempt_put_node, get_attempt_put by done.
    case_decide as Hd; [destruct Hd as (_ & _ & <-)|rewrite Ha].
    + split; [intros _|done]. exists (nr_RealizationAttemptCount node + 1)%Z. split; [lia|done].
    + split; intros (k & Hk & ->); exists k; (split; [|done]); [lia|].
      destruct (decide (k = nr_RealizationAttemptCount node + 1)%Z) as [->|]; [|lia].
      by destruct Hd.
  - destruct (Hn _ _ _ Hg) as [Hc' Ha']. split; [done|]. intros a.
    rewrite get_attempt_put_node, get_attempt_put by done.
    rewrite decide_False by (intros (H1 & H2 & _); by apply Hd). apply Ha'.
Qed.

Lemma numbered_step r r' : program_step r r' -> reg_wf r -> numbered r -> numbered r'.
Proof.
  intros Hs Hw Hn. destruct Hs as [r record nodes Hz|X r id f|X r id n f Hf|r record Hr|r e
    |r now id n Hb|r id n a t|r id n a t|r id n a h|r id n a t reason|r id n a t].
  - by apply numbered_create.
  - unfold UpdateRun. destruct (mr_runs r !! id) as [rec|]; [|done]. by destruct (f rec) as [[v rec']|e].
  - unfold UpdateNode. rewrite get_node_locked. destruct (get_node r id n) as [old|] eqn:E;
      [|by destruct (mr_nodes r !! id)]. specialize (Hf old).
    destruct (f old) as [[v new]|e]; [|done]. destruct (Hf v new eq_refl) as [Hf' _].
    apply numbered_put_node; [done|by rewrite E|]. intros old'. rewrite E. by intros [= <-].
  - unfold UpsertAttempt. destruct (mr_attempts r !! _) as [ats|]; [|done].
    destruct (ats !! ar_NodeID record); [|done]. by apply numbered_put_attempt.
  - unfold AppendEvent. by destruct (is_some _).
  - by apply numbered_allocate.
  - unfold OpenSemanticAttempt. rewrite get_node_locked. destruct (get_node r id n) as [node|] eqn:E;
      [|by destruct (mr_nodes r !! id)]. destruct (negb _); [done|].
    pose proof (numbered_mutate r id n a (open_fence t) Hn) as Hm. rewrite mutate_attempt_spec in *.
    destruct (get_attempt r id n a); [|done].
    apply numbered_put_node; [done|by rewrite get_node_put_attempt, E|].
    intros old. rewrite get_node_put_attempt, E. by intros [= <-].
  - by apply numbered_mutate.
  - unfold PersistBackendHandle.
    pose proof (numbered_mutate r id n a (fun x => x <| ar_BackendHandleJSON := h |>) Hn) as Hm.
    rewrite mutate_attempt_spec in *. destruct (get_attempt r id n a) as [att|] eqn:Ea; [|done].
    rewrite get_node_put_attempt. destruct (wf_attempt_node r id n a att Hw Ea) as [node E].
    rewrite E. simpl. destruct (streq _ a); [|done].
    apply numbered_put_node; [done|by rewrite get_node_put_attempt, E|].
    intros old. rewrite get_node_put_attempt, E. by intros [= <-].
  - by apply numbered_mutate.
  - by apply numbered_mutate.
Qed.

(** Every node is stored under its own name. *)
Definition keyed (r : MemoryRegistry) : Prop :=
  forall id n node, get_node r id n = Some node -> nr_NodeID node = n.

Lemma keyed_put_node r id n node :
  keyed r -> get_node r id n <> None -> nr_NodeID node = n -> keyed (put_node r id n node).
Proof.
  intros Hk Hg Hn id' n' node'. rewrite get_node_put by done.
  case_decide as Hd; [destruct Hd as [<- <-]; by intros [= <-]|apply Hk].
Qed.

Lemma keyed_same r r' : mr_nodes r' = mr_nodes r -> keyed r -> keyed r'.
Proof. intros E Hk id n node. unfold get_node. rewrite E. apply Hk. Qed.

Lemma keyed_create r record nodes : keyed r -> keyed (CreateRun r record nodes).1.
Proof.
  intros Hk. unfold CreateRun. destruct (is_some _); [done|]. simpl.
  intros id n node. unfold get_node. simpl. destruct (decide (rr_RunID record = id)) as [<-|];
    [rewrite lookup_insert_eq; simpl|rewrite lookup_insert_ne by done; apply Hk].
  assert (H0 : forall k x, (∅ : gmap string NodeRecord) !! k = Some x -> nr_NodeID x = k).
  { intros k x H. by rewrite lookup_empty in H. }
  revert H0. generalize (∅ : gmap string NodeRecord).
  induction nodes as [|x l IH]; intros m Hm; simpl; [apply Hm|]. apply IH. intros k y H.
  apply lookup_insert_Some in H as [[<- <-]|[_ H]]; [done|by apply Hm].
Qed.

Lemma keyed_mutate r id n a f : keyed r -> keyed (lockedMutateAttempt r id n a f).1.
Proof.
  intros Hk. rewrite mutate_attempt_spec. destruct (get_attempt r id n a); by apply (keyed_same r).
Qed.

Lemma keyed_step r r' : program_step r r' -> reg_wf r -> keyed r -> keyed r'.
Proof.
  intros Hs Hw Hk. destruct Hs as [r record nodes Hz|X r id f|X r id n f Hf|r record Hr|r e
    |r now id n Hb|r id n a t|r id n a t|r id n a h|r id n a t reason|r id n a t].
  - by apply keyed_create.
  - unfold UpdateRun. destruct (mr_runs r !! id) as [rec|]; [|done]. by destruct (f rec) as [[v rec']|e].
  - unfold UpdateNode. rewrite get_node_locked. destruct (get_node r id n) as [old|] eqn:E;
      [|by destruct (mr_nodes r !! id)]. specialize (Hf old).
    destruct (f old) as [[v new]|e]; [|done]. destruct (Hf v new eq_refl) as [_ Hf'].
    apply keyed_put_node; [done|by rewrite E|]. rewrite <- (Hk _ _ _ E). exact Hf'.
  - unfold UpsertAttempt. destruct (mr_attempts r !! _) as [ats|]; [|done].
    destruct (ats !! ar_NodeID record); by apply (keyed_same r).
  - unfold AppendEvent. by destruct (is_some _).
  - unfold AllocateCurrentAttempt. rewrite get_node_locked.
    destruct (get_node r id n) as [node|] eqn:E; [|by destruct (mr_nodes r !! id)].
    destruct (if streq _ _ then _ else _); [done|]. destruct (negb _); [done|].
    apply keyed_put_node; [by apply (keyed_same r)|by rewrite get_node_put_attempt, E|].
    apply (Hk _ _ _ E).
  - unfold OpenSemanticAttempt. rewrite get_node_locked.
    destruct (get_node r id n) as [node|] eqn:E; [|by destruct (mr_nodes r !! id)].
    destruct (negb _); [done|]. rewrite mutate_attempt_spec. destruct (get_attempt r id n a); [|done].
    apply keyed_put_node; [by apply (keyed_same r)|by rewrite get_node_put_attempt, E|].
    apply (Hk _ _ _ E).
  - by apply keyed_mutate.
  - unfold PersistBackendHandle. rewrite mutate_attempt_spec.
    destruct (get_attempt r id n a) as [att|] eqn:Ea; [|done]. rewrite get_node_put_attempt.
    destruct (wf_attempt_node r id n a att Hw Ea) as [node E]. rewrite E. simpl.
    destruct (streq _ a); [|by apply (keyed_same r)].
    apply keyed_put_node; [by apply (keyed_same r)|by rewrite get_node_put_attempt, E|].
    apply (Hk _ _ _ E).
  - by apply keyed_mutate.
  - by apply keyed_mutate.
Qed.

(** The states the program's own calls lead to. *)
Definition program_reachable (r : MemoryRegistry) : Prop := rtc program_step NewMemoryRegistry r.

Lemma program_inv r : program_reachable r -> reg_wf r /\ numbered r /\ keyed r.
Proof.
  assert (H0 : reg_wf NewMemoryRegistry /\ numbered NewMemoryRegistry /\ keyed NewMemoryRegistry).
  { split_and!; [apply wf_empty|..]; intros id n node Hg; unfold get_node in Hg; simpl in Hg;
      by rewrite lookup_empty in Hg. }
  revert H0. unfold program_reachable. generalize NewMemoryRegistry. intros r0 H0 Hs.
  induction Hs as [|x y z Hs _ IH]; [done|]. apply IH. destruct H0 as (Hw & Hn & Hk).
  split_and!; [eapply wf_step; [by apply program_reg|done]|by eapply numbered_step|by eapply keyed_step].
Qed.

(** In every state the program's calls lead to, the attempts of a node are
    exactly those numbered 1 to its realization count: attempts are never lost,
    never reused and never skipped, whatever else is written in between. *)
Theorem attempts_exactly_numbered (r : MemoryRegistry) (id n : string) (node : NodeRecord) :
  program_reachable r -> get_node r id n = Some node ->
  forall a, (exists att, get_attempt r id n a = Some att) <->
    exists k, (1 <= k <= nr_RealizationAttemptCount node)%Z /\ a = DeterministicAttemptID id n k.
Proof.
  intros (Hw & Hn & _)%program_inv Hg a. destruct (Hn _ _ _ Hg) as [_ <-].
  destruct (get_attempt r id n a) as [att|]; split; try done.
  - intros _. by exists att.
  - by intros [? ?].
Qed.

(** C14. Allocating an attempt is all or nothing and never replaces live or
    earlier work. It is refused exactly when the node does not exist or its
    current attempt has not ended, and then nothing changes; otherwise the new
    attempt is Prepared, has the next number of the node and an identity that no
    attempt of the node had before, the node points to it, and no other node and
    no other attempt changes. *)
Theorem AllocateCurrentAttempt_spec (r : MemoryRegistry) (now : Z) (id n : string) :
  program_reachable r ->
  match AllocateCurrentAttempt r now id n with
  | (r', Err _) => r' = r /\ (get_node r id n = None \/ unresolved r id n)
  | (r', Ok a) =>
      exists node, get_node r id n = Some node /\ ~ unresolved r id n /\
        a = next_attempt id n now node /\
        get_attempt r id n (ar_AttemptID a) = None /\
        get_attempt r' id n (ar_AttemptID a) = Some a /\
        (exists node', get_node r' id n = Some node' /\
           nr_CurrentAttemptID node' = ar_AttemptID a /\
           nr_RealizationAttemptCount node' = (nr_RealizationAttemptCount node + 1)%Z /\
           nr_AttemptCount node' = nr_AttemptCount node) /\
        (forall id' n', ~ (id' = id /\ n' = n) -> get_node r' id' n' = get_node r id' n') /\
        (forall id' n' a', ~ (id' = id /\ n' = n /\ a' = ar_AttemptID a) ->
           get_attempt r' id' n' a' = get_attempt r id' n' a')
  end.
Proof.
  intros (Hw & Hnum & _)%program_inv. destruct (AllocateCurrentAttempt r now id n) as [r' [a|e]] eqn:E.
  2: { pose proof (allocate_refused _ _ _ _ _ _ E) as ->. split; [done|].
       destruct (get_node r id n) as [node|] eqn:En; [|by left]. right.
       destruct (Hnum _ _ _ En) as [Hc _].
       destruct (get_attempt r id n (nr_CurrentAttemptID node)) as [att|] eqn:Ea.
       - destruct (decide (nr_CurrentAttemptID node <> "" /\
                           AttemptStatus_IsTerminal (ar_Status att) = false)) as [[H1 H2]|Hd].
         { by exists node, att. }
         rewrite (allocate_ok r now id n node) in E; try done.
         intros (node' & att' & H1 & H2 & H3 & H4). simplify_eq. naive_solver.
       - rewrite (allocate_ok r now id n node) in E; try done.
         intros (node' & att' & H1 & H2 & H3 & H4). simplify_eq. }
  destruct (allocated_from r now id n r' a Hw Hnum E) as (node & En & Hu).
  destruct (Hnum _ _ _ En) as [Hc Ha]. rewrite (allocate_ok r now id n node) in E by done.
  injection E as <- <-. pose proof (wf_has_attempt_map r id n node Hw En) as Hm.
  exists node. split_and!; try done.
  - destruct (get_attempt r id n _) as [att|] eqn:Eatt; [|done]. exfalso.
    destruct (proj1 (Ha (ar_AttemptID (next_attempt id n now node)))) as (k & Hk & Hid);
      [by rewrite Eatt|]. simpl in Hid.
    apply DeterministicAttemptID_inj in Hid. lia.
  - rewrite get_attempt_put_node, get_attempt_put by done. by rewrite decide_True.
  - eexists. rewrite get_node_put by (by rewrite get_node_put_attempt, En).
    rewrite decide_True by done. split; [reflexivity|]. done.
  - intros id' n' Hd. rewrite get_node_put by (by rewrite get_node_put_attempt, En).
    rewrite decide_False by naive_solver. done.
  - intros id' n' a' Hd. rewrite get_attempt_put_node, get_attempt_put by done.
    rewrite decide_False by naive_solver. done.
Qed.

Lemma demo_reachable :
  let rec := zero_RunRecord <| rr_RunID := "r" |> in
  let node := zero_NodeRecord <| nr_RunID := "r" |> <| nr_NodeID := "n" |> in
  program_reachable (CreateRun NewMemoryRegistry rec [node]).1.
Proof. apply rtc_once, ps_CreateRun. by repeat constructor. Qed.

Lemma AllocateCurrentAttempt_spec_witness :
  let rec := zero_RunRecord <| rr_RunID := "r" |> in
  let node := zero_NodeRecord <| nr_RunID := "r" |> <| nr_NodeID := "n" |> in
  let r := (CreateRun NewMemoryRegistry rec [node]).1 in
  get_attempt r "r" "n" "attempt-r-n-1" = None.
Proof.
  intros rec node r. pose proof (AllocateCurrentAttempt_spec r 5 "r" "n" demo_reachable) as H.
  destruct (AllocateCurrentAttempt r 5 "r" "n") as [r' [a|e]] eqn:E; [|by vm_compute in E].
  destruct H as (node' & Hn & _ & -> & Ha & _). vm_compute in Hn. injection Hn as <-. exact Ha.
Defined.

Lemma attempts_exactly_numbered_witness :
  let rec := zero_RunRecord <| rr_RunID := "r" |> in
  let node := zero_NodeRecord <| nr_RunID := "r" |> <| nr_NodeID := "n" |> in
  ~ exists att, get_attempt (CreateRun NewMemoryRegistry rec [node]).1 "r" "n" "x" = Some att.
Proof.
  intros rec node H. apply (attempts_exactly_numbered _ "r" "n" node demo_reachable eq_refl "x") in H.
  destruct H as (k & Hk & _). simpl in Hk. lia.
Defined.

(** ** The event log *)

(** What the writes do to a run's log. *)
Lemma events_step r r' id es :
  reg_step r r' -> mr_events r !! id = Some es -> is_Some (mr_runs r !! id) ->
  exists more, mr_events r' !! id = Some (es ++ more) /\ is_Some (mr_runs r' !! id).
Proof.
  intros Hs He Hr.
  assert (Hsame : forall r1, mr_events r1 = mr_events r -> mr_runs r1 = mr_runs r ->
    exists more, mr_events r1 !! id = Some (es ++ more) /\ is_Some (mr_runs r1 !! id)).
  { intros r1 -> ->. exists []. by rewrite app_nil_r. }
  destruct Hs as [r record nodes|X r id' f|X r id' n f|r record|r e
    |r now id' n|r id' n a t|r id' n a t|r id' n a h|r id' n a t reason|r id' n a t].
  - unfold CreateRun. destruct (is_some _) eqn:E; [by apply Hsame|]. simpl.
    assert (rr_RunID record <> id).
    { intros <-. destruct Hr as [x Hx]. by rewrite Hx in E. }
    exists []. rewrite !lookup_insert_ne, app_nil_r by done. done.
  - unfold UpdateRun. destruct (mr_runs r !! id') as [rec|] eqn:E; [|by apply Hsame].
    destruct (f rec) as [[v rec']|er]; [|by apply Hsame]. exists []. rewrite app_nil_r. split; [done|]. simpl.
    destruct (decide (id' = id)) as [<-|]; [rewrite lookup_insert_eq; eauto|by rewrite lookup_insert_ne].
  - unfold UpdateNode. destruct (lockedGetNode r id' n) as [node|]; [|by apply Hsame].
    destruct (f node) as [[v node']|er]; by apply Hsame.
  - unfold UpsertAttempt. destruct (mr_attempts r !! _) as [ats|]; [|by apply Hsame].
    destruct (ats !! _); by apply Hsame.
  - unfold AppendEvent. destruct (is_some _); [|by apply Hsame]. simpl.
    destruct (decide (ev_RunID e = id)) as [<-|].
    + exists [e]. by rewrite lookup_insert_eq, He.
    + exists []. by rewrite lookup_insert_ne, app_nil_r.
  - unfold AllocateCurrentAttempt. destruct (lockedGetNode r id' n); [|by apply Hsame].
    destruct (if streq _ _ then _ else _); [by apply Hsame|]. destruct (negb _); by apply Hsame.
  - unfold OpenSemanticAttempt. destruct (lockedGetNode r id' n); [|by apply Hsame].
    destruct (negb _); [by apply Hsame|]. rewrite mutate_attempt_spec.
    destruct (get_attempt r id' n a); by apply Hsame.
  - unfold PersistSubmissionFence. rewrite mutate_attempt_spec.
    destruct (get_attempt r id' n a); by apply Hsame.
  - unfold PersistBackendHandle. rewrite mutate_attempt_spec.
    destruct (get_attempt r id' n a); [|by apply Hsame]. destruct (streq _ _); by apply Hsame.
  - unfold PersistCancellationIntent. rewrite mutate_attempt_spec.
    destruct (get_attempt r id' n a); by apply Hsame.
  - unfold PersistProcessCompleted. rewrite mutate_attempt_spec.
    destruct (get_attempt r id' n a); by apply Hsame.
Qed.

(** The event log of a run is append-only: whatever is written later, what a
    caller read from it before is still there, first and in the same order. *)
Theorem event_log_append_only (r r' : MemoryRegistry) (id : string) (es : list EventRecord) :
  reachable r -> rtc reg_step r r' -> ListEvents r id 0 = Ok es ->
  exists more, ListEvents r' id 0 = Ok (es ++ more).
Proof.
  intros Hr Hs. assert (Hw : reg_wf r).
  { revert Hr. unfold reachable. generalize wf_empty. generalize NewMemoryRegistry.
    intros r0 H0 H. induction H; [done|]. by eauto using wf_step. }
  unfold ListEvents at 1. destruct (mr_events r !! id) as [es0|] eqn:E; [|done].
  simpl. intros [= ->].
  assert (Hrun : is_Some (mr_runs r !! id)).
  { apply elem_of_dom. rewrite <- (wf_events r Hw). apply elem_of_dom. eauto. }
  enough (exists more, mr_events r' !! id = Some (es ++ more)) as [more H].
  { exists more. unfold ListEvents. by rewrite H. }
  clear Hr Hw. revert es E Hrun. induction Hs as [x|x y z Hxy _ IH]; intros es E Hrun.
  - exists []. by rewrite app_nil_r.
  - destruct (events_step _ _ _ _ Hxy E Hrun) as (more & E' & Hrun').
    destruct (IH _ E' Hrun') as (more' & ->). exists (more ++ more'). by rewrite app_assoc.
Qed.

Lemma event_log_append_only_witness :
  let rec := zero_RunRecord <| rr_RunID := "r" |> in
  let r := (CreateRun NewMemoryRegistry rec []).1 in
  let e := zero_EventRecord <| ev_RunID := "r" |> in
  exists more, ListEvents (AppendEvent r e).1 "r" 0 = Ok ([] ++ more).
Proof.
  intros rec r e. apply (event_log_append_only r).
  - apply rtc_once, step_CreateRun.
  - apply rtc_once, step_AppendEvent.
  - reflexivity.
Defined.

(** ** The lists the API shows *)

(** A limit keeps the newest events: the answer is a suffix of the log, in
    order, of [limit] events when there are that many and a positive limit was
    asked, and the whole log otherwise. *)
Theorem ListEvents_newest (r : MemoryRegistry) (id : string) (limit : Z) :
  match mr_events r !! id with
  | None => ListEvents r id limit = Err ErrRunNotFound
  | Some log => exists older shown, log = older ++ shown /\ ListEvents r id limit = Ok shown /\
      ((limit <= 0)%Z -> older = []) /\
      ((0 < limit)%Z -> Z.of_nat (length shown) = Z.min limit (Z.of_nat (length log)))
  end.
Proof.
  unfold ListEvents. destruct (mr_events r !! id) as [log|]; [|done].
  destruct (limit <=? 0)%Z eqn:E1; [|destruct (Z.of_nat (length log) <=? limit)%Z eqn:E2]; simpl.
  - exists [], log. split_and!; try done. lia.
  - exists [], log. split_and!; try done. lia.
  - exists (take (length log - Z.to_nat limit) log), (drop (length log - Z.to_nat limit) log).
    split_and!; [by rewrite take_drop|done|lia|]. rewrite length_drop. lia.
Qed.

(** The values of a map sorted by their names, which are their keys. *)
Section Listing.
Context {A : Type} (key : A -> string) (before : relation A) `{!RelDecision before}.
Context (Hbefore : forall a b, before a b <-> String.leb (key a) (key b) = true).
Context (m : gmap string A) (Hm : forall n x, m !! n = Some x -> key x = n).

Definition lists (l : list A) : Prop :=
  StronglySorted string_before (key <$> l) /\ NoDup (key <$> l) /\
  (forall x, x ∈ l <-> m !! key x = Some x).

(** There is one such list. *)
Lemma values_of_names (l : list A) : (forall x, x ∈ l -> m !! key x = Some x) -> l = omap (m !!.) (key <$> l).
Proof.
  induction l as [|x l IH]; intros Hl; simpl; [done|].
  rewrite (Hl x) by (apply elem_of_cons; by left). f_equal. apply IH.
  intros y Hy. apply Hl, elem_of_cons. by right.
Qed.

Lemma lists_names (l l' : list A) n : lists l -> lists l' -> n ∈ key <$> l -> n ∈ key <$> l'.
Proof.
  intros (_ & _ & H) (_ & _ & H') (x & -> & Hx)%list_elem_of_fmap. apply list_elem_of_fmap_2.
  by apply H', H.
Qed.

Lemma lists_unique (l l' : list A) : lists l -> lists l' -> l = l'.
Proof.
  intros H H'. assert (Hn : key <$> l = key <$> l').
  { apply (StronglySorted_unique string_before); [apply H|apply H'|].
    apply NoDup_Permutation; [apply H|apply H'|]. intros n. split; by apply lists_names. }
  rewrite (values_of_names l), (values_of_names l'), Hn by (intros x; apply H || apply H'). done.
Qed.

Lemma omap_keys (l : list string) :
  (forall k, k ∈ l -> is_Some (m !! k)) -> key <$> omap (m !!.) l = l.
Proof.
  induction l as [|k l IH]; intros Hl; simpl; [done|].
  destruct (Hl k) as [x Hx]; [by apply elem_of_cons; left|]. rewrite Hx. simpl.
  rewrite (Hm _ _ Hx). f_equal. apply IH. intros k' Hk'. apply Hl. by apply elem_of_cons; right.
Qed.

Lemma sorted_lists {RO : RangeOrder} :
  lists (merge_sort before (omap (m !!.) (range_keys (dom m)))).
Proof.
  assert (Htrans : Transitive before).
  { intros a b c. rewrite !Hbefore. apply string_leb_trans. }
  assert (Htotal : Total before).
  { intros a b. rewrite !Hbefore. apply String.leb_total. }
  set (l := merge_sort _ _).
  assert (Hp : l ≡ₚ omap (m !!.) (range_keys (dom m))) by apply merge_sort_Permutation.
  split_and!.
  - pose proof (StronglySorted_merge_sort before (omap (m !!.) (range_keys (dom m)))) as Hs.
    fold l in Hs. clear Hp. induction Hs as [|x l' _ IH Hx]; simpl; constructor; [done|].
    rewrite Forall_fmap. eapply Forall_impl; [exact Hx|]. intros y. apply Hbefore.
  - rewrite Hp, omap_keys; [apply NoDup_range_keys|]. intros k. rewrite elem_of_range_keys.
    apply elem_of_dom.
  - intros x. rewrite Hp, list_elem_of_omap. split.
    + intros (k & _ & Hk). by rewrite (Hm _ _ Hk).
    + intros Hx. exists (key x). split; [|done]. apply elem_of_range_keys, elem_of_dom. eauto.
Qed.
End Listing.

(** The list of a run's nodes, in any order of the map's iteration. *)
Lemma list_nodes_spec {RO RO' : RangeOrder} (r : MemoryRegistry) id l :
  keyed r -> @ListNodes RO r id = Ok l ->
  @ListNodes RO' r id = Ok l /\
  StronglySorted string_before (nr_NodeID <$> l) /\ NoDup (nr_NodeID <$> l) /\
  (forall node, node ∈ l <-> get_node r id (nr_NodeID node) = Some node).
Proof.
  intros Hk. unfold ListNodes, get_node. specialize (Hk id). unfold get_node in Hk.
  destruct (mr_nodes r !! id) as [m|]; [simpl in *|done]. intros [= <-].
  assert (Hb : forall a b, id_before a b <-> String.leb (nr_NodeID a) (nr_NodeID b) = true) by done.
  pose proof (@sorted_lists _ nr_NodeID id_before _ Hb m Hk RO) as H.
  pose proof (@sorted_lists _ nr_NodeID id_before _ Hb m Hk RO') as H'.
  split; [|exact H]. f_equal. by apply (lists_unique nr_NodeID m).
Qed.

(** Listing a run's nodes shows each of them once, under its own name, in
    the order of the names, whatever order Go's map iteration takes. *)
Theorem ListNodes_deterministic (RO RO' : RangeOrder) (r : MemoryRegistry) (id : string)
    (l : list NodeRecord) :
  program_reachable r -> @ListNodes RO r id = Ok l ->
  @ListNodes RO' r id = Ok l /\
  StronglySorted string_before (nr_NodeID <$> l) /\ NoDup (nr_NodeID <$> l) /\
  (forall node, node ∈ l <-> get_node r id (nr_NodeID node) = Some node).
Proof. intros (_ & _ & Hk)%program_inv. by apply list_nodes_spec. Qed.

Lemma ListNodes_deterministic_witness :
  let rec := zero_RunRecord <| rr_RunID := "r" |> in
  let node := zero_NodeRecord <| nr_RunID := "r" |> <| nr_NodeID := "n" |> in
  NoDup (nr_NodeID <$> [node]).
Proof.
  intros rec node.
  refine (proj1 (proj2 (proj2 (ListNodes_deterministic elements_order elements_order _ "r" [node]
    demo_reachable _)))).
  vm_compute. reflexivity.
Defined.

(** ** The creation of a run, node by node and attempt by attempt *)
Definition by_name (nodes : list NodeRecord) (mp : gmap string NodeRecord) : gmap string NodeRecord :=
  foldl (fun m node => <[nr_NodeID node := node]> m) mp nodes.

Lemma by_name_other nodes mp n : n ∉ nr_NodeID <$> nodes -> by_name nodes mp !! n = mp !! n.
Proof.
  revert mp. induction nodes as [|x l IH]; intros mp Hn; [done|].
  rewrite fmap_cons, not_elem_of_cons in Hn. destruct Hn as [Hx Hl].
  unfold by_name in *. simpl. rewrite IH by done. by rewrite lookup_insert_ne.
Qed.

Lemma by_name_all nodes mp x : NoDup (nr_NodeID <$> nodes) -> x ∈ nodes ->
  by_name nodes mp !! nr_NodeID x = Some x.
Proof.
  revert mp. induction nodes as [|y l IH]; intros mp Hnd Hx; [by apply not_elem_of_nil in Hx|].
  rewrite fmap_cons in Hnd. apply NoDup_cons in Hnd as [Hy Hl].
  apply elem_of_cons in Hx as [->|Hx]; [|by apply IH].
  unfold by_name. simpl. fold (by_name l (<[nr_NodeID y:=y]> mp)).
  rewrite by_name_other by done. by rewrite lookup_insert_eq.
Qed.

Lemma create_node m record nodes id n :
  mr_runs m !! rr_RunID record = None ->
  get_node (CreateRun m record nodes).1 id n =
  if decide (rr_RunID record = id) then by_name nodes ∅ !! n else get_node m id n.
Proof.
  intros Hr. unfold CreateRun. rewrite Hr. unfold get_node. simpl. case_decide as Hd.
  - by rewrite Hd, lookup_insert_eq.
  - by rewrite lookup_insert_ne.
Qed.

Lemma create_attempt m record nodes id n a :
  mr_runs m !! rr_RunID record = None ->
  get_attempt (CreateRun m record nodes).1 id n a =
  if decide (rr_RunID record = id) then None else get_attempt m id n a.
Proof.
  intros Hr. unfold CreateRun. rewrite Hr. unfold get_attempt, node_attempts. simpl. case_decide as Hd.
  - rewrite Hd, lookup_insert_eq. simpl. destruct (foldl _ _ _ !! n) as [ats|] eqn:E; simpl; [|by rewrite lookup_empty].
    apply foldl_empty_lookup in E as ->; [by rewrite lookup_empty|].
    intros ? ? H. by rewrite lookup_empty in H.
  - by rewrite lookup_insert_ne.
Qed.
