(* ===== verification/MemoryTidy.v ===== *)
(** * What the in-memory registry answers a goroutine

    Two more invariants of the registry, about the records the program's own calls
    write: a node and an attempt are stored under their own names, and a node
    that names an attempt has it, while a node without one has no handle. Under
    them every call a node runner may make ([RunnerWrites]) is a step of the
    program, and its answer is what the runner learns. *)
From S2P Require Import Prelude GoStrings GoErrors Spec Registry Memory Handoff Provenance BackendTypes.
From S2P Require Import Binding Placement Reconcile Prog Runner RunnerLogic RunnerWrites RunnerTermination MemoryWorld MemoryFacts.

(** A node names an attempt that exists, or none and then has no handle. *)
Definition points_right (m : MemoryRegistry) (id n : string) (node : NodeRecord) : Prop :=
  (nr_CurrentAttemptID node = "" /\ nr_CurrentAttemptHandleJSON node = "") \/
  (nr_CurrentAttemptID node <> "" /\ is_Some (get_attempt m id n (nr_CurrentAttemptID node))).

Record tidy (m : MemoryRegistry) : Prop := {
  tidy_own : forall id n a att, get_attempt m id n a = Some att ->
    ar_RunID att = id /\ ar_NodeID att = n /\ ar_AttemptID att = a;
  tidy_current : forall id n node, get_node m id n = Some node -> points_right m id n node;
  tidy_node : forall id n node, get_node m id n = Some node -> nr_RunID node = id /\ nr_NodeID node = n;
}.

Definition counts_below (b : Z) (m : MemoryRegistry) : Prop :=
  forall id n node, get_node m id n = Some node -> (nr_RealizationAttemptCount node <= b)%Z.

(** The attempts of [k] exist. *)
Definition known (m : MemoryRegistry) (k : knowledge) : Prop :=
  forall id n a, (id, n, a) ∈ k -> is_Some (get_attempt m id n a).

(** The registry of a program that allocated at most [b] attempts of any node. *)
Definition good (b : Z) (m : MemoryRegistry) : Prop :=
  program_reachable m /\ tidy m /\ counts_below b m.

(** The later registry of two: no attempt is gone. *)
Definition grows (m m' : MemoryRegistry) : Prop :=
  forall id n a, is_Some (get_attempt m id n a) -> is_Some (get_attempt m' id n a).

#[export] Instance grows_preorder : PreOrder grows.
Proof. split; [by intros m id n a|]. intros x y z H1 H2 id n a H. by apply H2, H1. Qed.

Lemma known_grows m m' k : grows m m' -> known m k -> known m' k.
Proof. intros Hg Hk id n a H. by apply Hg, Hk. Qed.

Lemma known_none m : known m ∅.
Proof. by intros id n a H%elem_of_empty. Qed.

Lemma known_one m id n a : is_Some (get_attempt m id n a) -> known m {[(id, n, a)]}.
Proof. intros H id' n' a' Hin. by apply elem_of_singleton in Hin as [= -> -> ->]. Qed.

Lemma good_mono b b' m : (b <= b')%Z -> good b m -> good b' m.
Proof. intros Hb (H1 & H2 & H3). split_and!; try done. intros id n node H. apply H3 in H. lia. Qed.

Lemma good_empty : good 0 NewMemoryRegistry.
Proof.
  split_and!; [by apply rtc_refl| |by intros id n node; unfold get_node; simpl; rewrite lookup_empty].
  split.
  - intros id n a att. unfold get_attempt, node_attempts. simpl. rewrite lookup_empty. simpl. by rewrite lookup_empty.
  - intros id n node. unfold get_node. simpl. by rewrite lookup_empty.
  - intros id n node. unfold get_node. simpl. by rewrite lookup_empty.
Qed.

(** ** The two ways to write *)
Lemma tidy_same m m' : mr_nodes m' = mr_nodes m -> mr_attempts m' = mr_attempts m -> tidy m -> tidy m'.
Proof.
  intros E1 E2 [H1 H2 H3]. unfold get_node, points_right, get_attempt, node_attempts in *.
  split; unfold points_right, get_node, get_attempt, node_attempts; by rewrite ?E2, ?E1.
Qed.

Lemma tidy_put_node m id n old node :
  get_node m id n = Some old -> points_right m id n node ->
  nr_RunID node = nr_RunID old /\ nr_NodeID node = nr_NodeID old -> tidy m -> tidy (put_node m id n node).
Proof.
  intros Hold Hp Hid [H1 H2 H3]. split; [done|..]; intros id' n' node';
    rewrite get_node_put by (by rewrite Hold);
    (case_decide as Hd; [destruct Hd as [<- <-]; intros [= <-]|]); [done|apply H2| |apply H3].
  destruct (H3 _ _ _ Hold), Hid. split; congruence.
Qed.

Lemma tidy_put_attempt m id n a att :
  has_attempt_map m id n = true ->
  ar_RunID att = id -> ar_NodeID att = n -> ar_AttemptID att = a ->
  tidy m -> tidy (put_attempt m id n a att).
Proof.
  intros Hm E1 E2 E3 [H1 H2 H3]. split; [..|by intros id' n' node'; rewrite get_node_put_attempt; apply H3].
  - intros id' n' a' att'. rewrite get_attempt_put by done.
    case_decide as Hd; [destruct Hd as (<- & <- & <-); by intros [= <-]|apply H1].
  - intros id' n' node Hn. rewrite get_node_put_attempt in Hn.
    destruct (H2 _ _ _ Hn) as [?|[? ?]]; [by left|right; split; [done|]].
    rewrite get_attempt_put by done. case_decide; eauto.
Qed.

Lemma grows_put_attempt m id n a att : has_attempt_map m id n = true -> grows m (put_attempt m id n a att).
Proof. intros Hm id' n' a' H. rewrite get_attempt_put by done. case_decide; eauto. Qed.

(** A node written with a count within the bound. *)
Lemma below_put_node b m id n old node :
  get_node m id n = Some old -> (nr_RealizationAttemptCount node <= b)%Z ->
  counts_below b m -> counts_below b (put_node m id n node).
Proof.
  intros Hold Hb H id' n' node'. rewrite get_node_put by (by rewrite Hold).
  case_decide as Hd; [by intros [= <-]|apply H].
Qed.

(** A registry and the next one. *)
Definition follows (b : Z) (m m' : MemoryRegistry) : Prop := good b m' /\ grows m m'.

Lemma follows_refl b m : good b m -> follows b m m.
Proof. intros H. by split. Qed.

Lemma reachable_step m m' : program_reachable m -> program_step m m' -> program_reachable m'.
Proof. intros H1 H2. unfold program_reachable in *. by eapply rtc_r. Qed.

(** ** The operations *)

(** A step that writes no node and no attempt. *)
Lemma follows_same b m m' :
  program_step m m' -> mr_nodes m' = mr_nodes m -> mr_attempts m' = mr_attempts m ->
  good b m -> follows b m m'.
Proof.
  intros Hs En Ea (H1 & H2 & H3). split; [split_and!|].
  - by eapply reachable_step.
  - by apply (tidy_same m).
  - intros id n node. unfold get_node. rewrite En. apply H3.
  - intros id n a. unfold get_attempt, node_attempts. by rewrite Ea.
Qed.

Lemma follows_UpdateRun {X} b m id (f : RunRecord -> X * RunRecord) :
  good b m -> follows b m (UpdateRun m id (infallible f)).1.
Proof.
  apply follows_same; [apply ps_UpdateRun|..]; unfold UpdateRun, infallible;
    destruct (mr_runs m !! id) as [rec|]; try done; by destruct (f rec).
Qed.

Lemma follows_AppendEvent b m e : good b m -> follows b m (AppendEvent m e).1.
Proof. apply follows_same; [apply ps_AppendEvent|..]; unfold AppendEvent; by destruct (is_some _). Qed.

Lemma follows_UpdateNode {X} b m id n (f : NodeRecord -> X * NodeRecord) :
  (forall x, keeps_node x (f x).2) ->
  good b m -> follows b m (UpdateNode m id n (infallible f)).1.
Proof.
  intros Hf Hg. destruct (get_node m id n) as [old|] eqn:Eo.
  2: { unfold UpdateNode. rewrite get_node_locked, Eo.
       destruct (mr_nodes m !! id); by apply follows_refl. }
  assert (Hs : program_step m (UpdateNode m id n (infallible f)).1).
  { apply ps_UpdateNode. unfold infallible. intros x v y E. specialize (Hf x).
    destruct (f x) as [v' y']. injection E as <- <-. by destruct Hf as (? & [_ ?] & _). }
  assert (E : (UpdateNode m id n (infallible f)).1 = put_node m id n (f old).2).
  { unfold UpdateNode, infallible. rewrite get_node_locked, Eo. by destruct (f old). }
  rewrite E in *. destruct Hg as (H1 & H2 & H3). destruct (Hf old) as (Hc & Hid & Hp).
  split; [split_and!; [by eapply reachable_step|..]|by intros id' n' a'; rewrite get_attempt_put_node].
  - eapply tidy_put_node; [done| |done|done].
    pose proof (tidy_current m H2 _ _ _ Eo) as Ho. unfold points_right in *. intuition congruence.
  - eapply below_put_node; [done| |done]. rewrite Hc. by eapply H3.
Qed.

Lemma follows_UpsertAttempt b m record :
  is_Some (get_attempt m (ar_RunID record) (ar_NodeID record) (ar_AttemptID record)) ->
  good b m -> follows b m (UpsertAttempt m record).1.
Proof.
  intros [att Ha] (H1 & H2 & H3).
  assert (Hm : UpsertAttempt m record =
    (put_attempt m (ar_RunID record) (ar_NodeID record) (ar_AttemptID record) record, Ok tt)).
  { pose proof (has_map_of_attempt _ _ _ _ _ Ha) as Hm. unfold UpsertAttempt, has_attempt_map in *.
    destruct (mr_attempts m !! _) as [ats|]; [|done]. simpl in Hm. by destruct (ats !! _). }
  apply has_map_of_attempt in Ha as Hmap. split; [split_and!|].
  - eapply reachable_step, ps_UpsertAttempt; [done|]. by rewrite Ha.
  - rewrite Hm. by apply tidy_put_attempt.
  - rewrite Hm. by intros id n node H%H3.
  - rewrite Hm. by apply grows_put_attempt.
Qed.

(** Writing a field of an attempt. *)
Lemma follows_mutate b m id n a f :
  (forall x, ar_RunID (f x) = ar_RunID x /\ ar_NodeID (f x) = ar_NodeID x /\ ar_AttemptID (f x) = ar_AttemptID x) ->
  program_reachable (lockedMutateAttempt m id n a f).1 ->
  good b m -> follows b m (lockedMutateAttempt m id n a f).1.
Proof.
  intros Hf Hr (H1 & H2 & H3). rewrite mutate_attempt_spec in *.
  destruct (get_attempt m id n a) as [att|] eqn:Ha; [|by apply follows_refl].
  pose proof (has_map_of_attempt _ _ _ _ _ Ha) as Hmap. simpl in *.
  destruct (tidy_own m H2 _ _ _ _ Ha) as (E1 & E2 & E3). destruct (Hf att) as (F1 & F2 & F3).
  split; [split_and!|]; [done| |by intros id' n' node H%H3|by apply grows_put_attempt].
  apply tidy_put_attempt; congruence.
Qed.

Lemma follows_Intent b m id n a t reason :
  good b m -> follows b m (PersistCancellationIntent m id n a t reason).1.
Proof.
  intros Hg. apply follows_mutate; [done| |done].
  eapply reachable_step; [apply Hg|]. apply ps_Intent.
Qed.

Lemma follows_Completed b m id n a t :
  good b m -> follows b m (PersistProcessCompleted m id n a t).1.
Proof.
  intros Hg. apply follows_mutate; [done| |done].
  eapply reachable_step; [apply Hg|]. apply ps_Completed.
Qed.

Lemma follows_Open b m id n a t : good b m -> follows b m (OpenSemanticAttempt m id n a t).1.
Proof.
  intros Hg. pose proof (ps_Open m id n a t) as Hs. revert Hs.
  unfold OpenSemanticAttempt. rewrite get_node_locked.
  destruct (get_node m id n) as [node|] eqn:En;
    [|destruct (mr_nodes m !! id); intros _; by apply follows_refl].
  destruct (negb _); [intros _; by apply follows_refl|]. rewrite mutate_attempt_spec.
  destruct (get_attempt m id n a) as [att|] eqn:Ea; [|intros _; by apply follows_refl].
  simpl. intros Hs. destruct Hg as (H1 & H2 & H3). pose proof (has_map_of_attempt _ _ _ _ _ Ea) as Hm.
  destruct (tidy_own m H2 _ _ _ _ Ea) as (E1 & E2 & E3).
  split; [split_and!; [by eapply reachable_step|..]|].
  - eapply tidy_put_node; [by rewrite get_node_put_attempt| |done|by apply tidy_put_attempt].
    destruct (tidy_current m H2 _ _ _ En) as [?|[? ?]]; [by left|right]. split; [done|].
    by apply grows_put_attempt.
  - eapply below_put_node; [by rewrite get_node_put_attempt| |done]. simpl. by eapply H3.
  - intros id' n' a' H. by apply grows_put_attempt.
Qed.

(** No attempt is stored without a name. *)
Lemma stored_named m id n a att : program_reachable m -> get_attempt m id n a = Some att -> a <> "".
Proof.
  intros (Hw & Hn & _)%program_inv Ha ->. destruct (wf_attempt_node m id n "" att Hw Ha) as [node En].
  destruct (Hn _ _ _ En) as [_ Hk]. destruct (proj1 (Hk "")) as (k & _ & Hk'); [by rewrite Ha|].
  by apply eq_sym, DeterministicAttemptID_nonempty in Hk'.
Qed.

Lemma follows_Handle b m id n a h : good b m -> follows b m (PersistBackendHandle m id n a h).1.
Proof.
  intros Hg. pose proof (ps_Handle m id n a h) as Hs. revert Hs.
  unfold PersistBackendHandle. rewrite mutate_attempt_spec.
  destruct (get_attempt m id n a) as [att|] eqn:Ea; [|intros _; by apply follows_refl].
  rewrite get_node_put_attempt. destruct Hg as (H1 & H2 & H3).
  destruct (program_inv m H1) as (Hw & _ & _). pose proof (has_map_of_attempt _ _ _ _ _ Ea) as Hm.
  destruct (wf_attempt_node m id n a att Hw Ea) as [node En]. rewrite En.
  destruct (tidy_own m H2 _ _ _ _ Ea) as (E1 & E2 & E3).
  assert (Ht : tidy (put_attempt m id n a (att <| ar_BackendHandleJSON := h |>))) by (by apply tidy_put_attempt).
  change (default zero_NodeRecord (Some node)) with node. destruct (streq (nr_CurrentAttemptID node) a) eqn:Ec; cbn [fst]; intros Hs;
    (split; [split_and!; [by eapply reachable_step|..]|]); try done.
  - eapply tidy_put_node; [by rewrite get_node_put_attempt| |done|done]. right. simpl. str_tests.
    rewrite Ec. split; [by eapply stored_named|]. apply grows_put_attempt; [done|]. rewrite Ea. eauto.
  - eapply below_put_node; [by rewrite get_node_put_attempt| |done]. simpl. by eapply H3.
  - intros id' n' a' H. by apply grows_put_attempt.
  - intros id' n' a' H. by apply grows_put_attempt.
Qed.

Lemma follows_Allocate b m now id n :
  (b + 1 < int64_max)%Z -> good b m -> follows (b + 1) m (AllocateCurrentAttempt m now id n).1.
Proof.
  intros Hb Hg. assert (Hg' : good (b + 1) m) by (by eapply good_mono; [|done]; lia).
  destruct (AllocateCurrentAttempt m now id n) as [m' [a|e]] eqn:E; simpl;
    [|apply allocate_refused in E as ->; by apply follows_refl].
  destruct Hg as (H1 & H2 & H3). destruct (program_inv m H1) as (Hw & Hn & _).
  destruct (allocated_from m now id n m' a Hw Hn E) as (node & En & Hu).
  assert (Hs : program_step m m').
  { replace m' with (AllocateCurrentAttempt m now id n).1 by (by rewrite E). apply ps_Allocate.
    intros node' Hnode. apply H3 in Hnode. lia. }
  destruct (Hn _ _ _ En) as [Hc _]. pose proof (H3 _ _ _ En) as Hle.
  rewrite (allocate_ok m now id n node) in E by done. injection E as <- <-.
  pose proof (wf_has_attempt_map m id n node Hw En) as Hm.
  split; [split_and!; [by eapply reachable_step|..]|].
  - eapply tidy_put_node; [by rewrite get_node_put_attempt| |done|by apply tidy_put_attempt].
    right. cbn -[get_attempt]. split; [apply DeterministicAttemptID_nonempty|].
    rewrite get_attempt_put, decide_True by done. eauto.
  - eapply below_put_node; [by rewrite get_node_put_attempt|cbn; lia|].
    intros id' n' node' H%H3. lia.
  - intros id' n' a' H. by apply grows_put_attempt.
Qed.

(** A run created with nodes that were never touched. *)
Definition untouched (runID : string) (node : NodeRecord) : Prop :=
  nr_RunID node = runID /\ nr_RealizationAttemptCount node = 0%Z /\ nr_CurrentAttemptID node = "" /\
  nr_CurrentAttemptHandleJSON node = "".

Lemma by_name_in nodes n node : by_name nodes ∅ !! n = Some node -> node ∈ nodes.
Proof.
  intros H. apply foldl_insert_lookup in H as [H|H]; [done|by rewrite lookup_empty in H].
Qed.

Lemma by_name_key nodes n node : by_name nodes ∅ !! n = Some node -> nr_NodeID node = n.
Proof.
  unfold by_name. revert n node. induction nodes as [|x l IH] using rev_ind; intros n node.
  - simpl. by rewrite lookup_empty.
  - rewrite foldl_app. simpl. rewrite lookup_insert_Some. intros [[<- <-]|[_ H]]; [done|by apply IH].
Qed.

Lemma follows_CreateRun b m record nodes :
  (0 <= b)%Z -> Forall (untouched (rr_RunID record)) nodes -> good b m -> follows b m (CreateRun m record nodes).1.
Proof.
  intros Hb Hf Hg. assert (Hs : program_step m (CreateRun m record nodes).1).
  { apply ps_CreateRun. eapply Forall_impl; [exact Hf|]. by intros x (_ & H & _). }
  destruct (mr_runs m !! rr_RunID record) as [rec|] eqn:Er.
  { unfold CreateRun in *. rewrite Er in *. by apply follows_refl. }
  destruct Hg as (H1 & H2 & H3). destruct (program_inv m H1) as (Hw & _ & _).
  assert (Hold : forall id n, is_Some (get_node m id n) -> rr_RunID record <> id).
  { intros id n [node Hn] <-. unfold get_node in Hn. destruct (mr_nodes m !! _) as [ns|] eqn:E; [|done].
    assert (Hd : rr_RunID record ∈ dom (mr_runs m)) by (rewrite <- (wf_nodes m Hw); apply elem_of_dom; eauto).
    apply elem_of_dom in Hd. rewrite Er in Hd. by destruct Hd. }
  assert (Hgrow : grows m (CreateRun m record nodes).1).
  { intros id n a [att Ha]. rewrite create_attempt by done. rewrite decide_False; [eauto|].
    destruct (wf_attempt_node m id n a att Hw Ha) as [node Hn]. apply (Hold id n). eauto. }
  rewrite Forall_forall in Hf.
  split; [split_and!; [by eapply reachable_step|split|]|done]; intros id n.
  - intros a att. rewrite create_attempt by done. case_decide; [done|apply H2].
  - intros node. rewrite create_node by done. case_decide.
    + intros Hx. apply by_name_in, Hf in Hx as (_ & _ & ? & ?). by left.
    + intros Hn. destruct (tidy_current m H2 _ _ _ Hn) as [?|[? Ha]]; [by left|right].
      split; [done|by apply Hgrow].
  - intros node. rewrite create_node by done. case_decide as Hd; [|apply H2].
    intros Hx. pose proof (by_name_key _ _ _ Hx) as Hk. apply by_name_in, Hf in Hx as (-> & _). by subst id.
  - intros node. rewrite create_node by done. case_decide; [|apply H3].
    intros Hx. apply by_name_in, Hf in Hx as (_ & -> & _). lia.
Qed.

(** ** What a goroutine is answered *)
Section answers.
Context {BT : BackendTypes} {RO : RangeOrder} {E : Type}.
Context (env : forall X, event X -> E -> E * X).

Lemma read_facts b m id n node :
  good b m -> GetNode m id n = Ok node ->
  (nr_CurrentAttemptID node = "" -> nr_CurrentAttemptHandleJSON node = "") /\
  known m (gained _ (EGetNode id n) (Ok node)).
Proof.
  intros (_ & Ht & _). unfold GetNode. intros H.
  assert (Hn : get_node m id n = Some node).
  { unfold get_node. destruct (mr_nodes m !! id) as [ns|]; [|done]. simpl. destruct (ns !! n); congruence. }
  destruct (tidy_current m Ht _ _ _ Hn) as [[E1 E2]|[E1 E2]].
  - split; [done|]. simpl. rewrite E1. apply known_none.
  - split; [done|]. simpl. rewrite (proj2 (streq_neq _ _) E1).
    by apply known_one.
Qed.

Lemma current_facts b m id n a h :
  good b m -> GetCurrentAttempt m id n = Ok (a, h) ->
  facts _ (EGetCurrentAttempt id n) (Ok (a, h)) /\ known m (gained _ (EGetCurrentAttempt id n) (Ok (a, h))).
Proof.
  intros (_ & Ht & _). unfold GetCurrentAttempt. rewrite get_node_locked.
  destruct (get_node m id n) as [node|]; [|by destruct (mr_nodes m !! id)].
  destruct (streq _ ""); [intros [= <- <-]; split; [done|apply known_none]|].
  destruct (get_attempt m id n _) as [att|] eqn:Ea; intros [= <- <-];
    [|split; [done|apply known_none]].
  destruct (tidy_own m Ht _ _ _ _ Ea) as (E1 & E2 & E3). split; [done|].
  apply known_one. rewrite E3. eauto.
Qed.

Lemma allocated_known m now id n :
  known (AllocateCurrentAttempt m now id n).1
    (gained _ (EAllocateCurrentAttempt id n) (AllocateCurrentAttempt m now id n).2).
Proof.
  unfold AllocateCurrentAttempt. rewrite get_node_locked.
  destruct (get_node m id n) as [node|]; [|by destruct (mr_nodes m !! id); intros ? ? ? ?%elem_of_empty].
  destruct (if streq _ _ then _ else _); [apply known_none|].
  destruct (has_attempt_map m id n) eqn:Hm; [|apply known_none]. cbv zeta.
  apply known_one. cbn -[get_attempt]. rewrite get_attempt_put_node, get_attempt_put, decide_True by done. eauto.
Qed.

Lemma allocated_fresh m now id n m' a :
  program_reachable m -> AllocateCurrentAttempt m now id n = (m', Ok a) ->
  get_attempt m id n (ar_AttemptID a) = None.
Proof.
  intros (Hw & Hnum & _)%program_inv Ea.
  destruct (allocated_from m now id n m' a Hw Hnum Ea) as (node & En & Hu).
  destruct (Hnum _ _ _ En) as [Hc Ha]. rewrite (allocate_ok m now id n node) in Ea by done.
  injection Ea as _ <-. destruct (get_attempt m id n _) as [att|] eqn:Eatt; [|done]. exfalso.
  destruct (proj1 (Ha (ar_AttemptID (next_attempt id n now node)))) as (k & Hk & Hid); [by rewrite Eatt|].
  apply DeterministicAttemptID_inj in Hid. lia.
Qed.

(** The call [e] of a goroutine that knows [k]: the registry follows, and the
    goroutine learns. *)
Lemma answer_follows b m s k X (e : event X) :
  (b + 1 < int64_max)%Z -> good b m -> known m k -> allowed k X e ->
  let w := memory_handle env X e (m, s) in
  follows (b + 1) m w.1.1 /\ facts X e w.2 /\ known w.1.1 (gained X e w.2).
Proof.
  intros Hb Hg Hk Hal. assert (Hg' : good (b + 1) m) by (by eapply good_mono; [|done]; lia).
  assert (Hsame : forall (x : X), facts X e x -> known m (gained X e x) ->
    follows (b + 1) m m /\ facts X e x /\ known m (gained X e x)).
  { intros x H1 H2. split; [by apply follows_refl|done]. }
  assert (Hwrite : forall (mx : MemoryRegistry * X),
    (forall x, facts X e x) -> (forall x, gained X e x = ∅) -> follows (b + 1) m mx.1 ->
    let w := (let '(m', x) := mx in (m', s, x)) in
    follows (b + 1) m w.1.1 /\ facts X e w.2 /\ known w.1.1 (gained X e w.2)).
  { intros [m' x] H1 H2 H3. simpl. rewrite H2. split_and!; [done|done|apply known_none]. }
  destruct e; simpl memory_handle;
    try (match goal with |- context [env ?X ?e s] => destruct (env X e s) as [s1 x1] end);
    try (apply Hsame; [done|apply known_none]);
    try (apply Hwrite; [done|done|]).
  - destruct (GetNode m runID nodeID) as [node|err] eqn:En; [|apply Hsame; [done|apply known_none]].
    destruct (read_facts _ _ _ _ _ Hg En) as [H1 H2]. by apply Hsame.
  - destruct (GetCurrentAttempt m runID nodeID) as [[a h]|err] eqn:En;
      [|apply Hsame; [done|apply known_none]].
    destruct (current_facts _ _ _ _ _ _ Hg En) as [H1 H2]. by apply Hsame.
  - by apply follows_UpdateRun.
  - by apply follows_UpdateNode.
  - apply follows_UpsertAttempt; [by apply Hk|done].
  - by apply follows_AppendEvent.
  - pose proof (follows_Allocate b m x1 runID nodeID Hb Hg) as Hf.
    pose proof (allocated_known m x1 runID nodeID) as Hkn.
    destruct (AllocateCurrentAttempt m x1 runID nodeID) as [m' x]. split_and!; [done|by destruct x|done].
  - by apply follows_Open.
  - by apply follows_Handle.
  - by apply follows_Intent.
  - by apply follows_Completed.
Qed.
End answers.
