(* ===== verification/Sqlite.v ===== *)
(** * The SQLite registry ([src/pkg/registry/sqlite.go])

    The four tables as finite maps on their primary keys (events as the list in
    the order of their sequence numbers), the statements the registry sends as
    functions of the tables, and every method as the Go code composes them. Each
    call of the driver (begin, a statement, commit) may fail: the outcomes of the
    calls are an argument, and a failed call has no effect. A transaction works on
    the tables and leaves them as they were when its body or its commit fails. The
    only connection serialises the methods. Encoding and decoding of records as
    JSON is a parameter, which [RecordJson] provides. *)
From S2P Require Import Prelude GoStrings GoErrors GoTime GoTimeText GoJson Spec Registry.
From stdpp Require Import sorting.

Definition timeText (t : Z) : string := format_time t.

(** ** Tables *)
Record RunRow := mkRunRow { rw_status : string; rw_accepted_at : string; rw_data : string }.
Record NodeRow := mkNodeRow {
  nw_status : string; nw_attempt_count : Z; nw_current_attempt_id : string; nw_data : string }.
Record AttemptRow := mkAttemptRow { aw_status : string; aw_data : string }.

Record Tables := mkTables {
  db_runs : gmap string RunRow;
  db_nodes : gmap (string * string) NodeRow;
  db_attempts : gmap (string * string * string) AttemptRow;
  db_events : list (string * string);
}.

#[export] Instance eta_Tables : Eta Tables := fun d =>
  mkTables (db_runs d) (db_nodes d) (db_attempts d) (db_events d).

Definition empty_tables : Tables := mkTables ∅ ∅ ∅ [].

(** The driver's error for a violated primary key. *)
Class Driver := { ErrConstraint : GoError }.

(** ** Calls of the driver *)

(** The tables and the outcomes of the driver's next calls, in order: an error,
    or the call does its work; all do when the list is exhausted. *)
Definition conn : Type := Tables * list (option GoError).

Definition sql (A : Type) : Type := conn -> conn * res A.

#[export] Instance sql_ret : MRet sql := fun A a c => (c, Ok a).
#[export] Instance sql_bind : MBind sql := fun A B f m c =>
  match m c with
  | (c, Ok a) => f a c
  | (c, Err e) => (c, Err e)
  end.

Definition fail {A} (e : GoError) : sql A := fun c => (c, Err e).
Definition lift {A} (r : res A) : sql A := fun c => (c, r).

(** One call, which works on the tables unless the driver fails. *)
Definition stmt {A} (f : Tables -> Tables * res A) : sql A := fun '(d, outcomes) =>
  match outcomes with
  | Some e :: rest => ((d, rest), Err e)
  | None :: rest => let '(d, r) := f d in ((d, rest), r)
  | [] => let '(d, r) := f d in ((d, []), r)
  end.

Definition query {A} (f : Tables -> A) : sql A := stmt (fun d => (d, Ok (f d))).

(** [BeginTx], the body, [Commit]; [Rollback] when any of them fails. *)
Definition transaction {A} (body : sql A) : sql A := fun c =>
  let d := c.1 in
  match (query (fun _ => tt) ≫= fun _ => body ≫= fun a => query (fun _ => a)) c with
  | (c, Ok a) => (c, Ok a)
  | ((_, outcomes), Err e) => ((d, outcomes), Err e)
  end.

Fixpoint decode_all {A} `{Json A} (rows : list string) : res (list A) :=
  match rows with
  | [] => Ok []
  | data :: rows =>
      match Unmarshal data with
      | Err e => Err e
      | Ok x => match decode_all rows with Err e => Err e | Ok l => Ok (x :: l) end
      end
  end.

(** Rows sorted by a text column. *)
Definition by_key (a b : string * string) : Prop := String.leb a.1 b.1 = true.
#[export] Instance by_key_dec : RelDecision by_key.
Proof. intros a b. unfold by_key. apply _. Defined.

(** [ORDER BY accepted_at ASC, run_id ASC] *)
Definition by_acceptance (a b : string * RunRow) : Prop :=
  if streq (rw_accepted_at a.2) (rw_accepted_at b.2) then String.leb a.1 b.1 = true
  else String.leb (rw_accepted_at a.2) (rw_accepted_at b.2) = true.
#[export] Instance by_acceptance_dec : RelDecision by_acceptance.
Proof. intros a b. unfold by_acceptance. destruct (streq _ _); apply _. Defined.

Section registry.
Context {JR : Json RunRecord} {JN : Json NodeRecord} {JA : Json AttemptRecord}
  {JE : Json EventRecord} {D : Driver}.

(** ** Statements *)
Definition select_run (runID : string) (d : Tables) : option string :=
  rw_data <$> db_runs d !! runID.
Definition select_node (runID nodeID : string) (d : Tables) : option string :=
  nw_data <$> db_nodes d !! (runID, nodeID).
Definition select_attempt (runID nodeID attemptID : string) (d : Tables) : option string :=
  aw_data <$> db_attempts d !! (runID, nodeID, attemptID).

Definition select_runs (d : Tables) : list string :=
  (fun x => rw_data x.2) <$> merge_sort by_acceptance (map_to_list (db_runs d)).
Definition select_nodes (runID : string) (d : Tables) : list string :=
  snd <$> merge_sort by_key
    (omap (fun '((r, n), w) => if streq r runID then Some (n, nw_data w) else None)
       (map_to_list (db_nodes d))).
Definition select_attempts (runID nodeID : string) (d : Tables) : list string :=
  snd <$> merge_sort by_key
    (omap (fun '((r, n, a), w) => if streq r runID && streq n nodeID then Some (a, aw_data w) else None)
       (map_to_list (db_attempts d))).
Definition select_events (runID : string) (d : Tables) : list string :=
  snd <$> List.filter (fun e => streq e.1 runID) (db_events d).

Definition insert_run (runID : string) (w : RunRow) : sql unit :=
  stmt (fun d => match db_runs d !! runID with
                 | Some _ => (d, Err ErrConstraint)
                 | None => (d <| db_runs := <[runID := w]> (db_runs d) |>, Ok tt)
                 end).
Definition insert_node (runID nodeID : string) (w : NodeRow) : sql unit :=
  stmt (fun d => match db_nodes d !! (runID, nodeID) with
                 | Some _ => (d, Err ErrConstraint)
                 | None => (d <| db_nodes := <[(runID, nodeID) := w]> (db_nodes d) |>, Ok tt)
                 end).
(** [UPDATE]: no row, no change, and no error. *)
Definition update_run_row (runID : string) (w : RunRow) : sql unit :=
  stmt (fun d => (d <| db_runs := alter (fun _ => w) runID (db_runs d) |>, Ok tt)).
Definition update_node_row (runID nodeID : string) (w : NodeRow) : sql unit :=
  stmt (fun d => (d <| db_nodes := alter (fun _ => w) (runID, nodeID) (db_nodes d) |>, Ok tt)).
Definition upsert_attempt_row (runID nodeID attemptID : string) (w : AttemptRow) : sql unit :=
  stmt (fun d => (d <| db_attempts := <[(runID, nodeID, attemptID) := w]> (db_attempts d) |>, Ok tt)).
Definition insert_event (runID data : string) : sql unit :=
  stmt (fun d => (d <| db_events := db_events d ++ [(runID, data)] |>, Ok tt)).

(** ** Shared helpers *)
Definition assertRunExistsTx (runID : string) : sql unit :=
  row ← query (select_run runID);
  match row with None => fail ErrRunNotFound | Some _ => mret tt end.

Definition assertNodeExistsTx (runID nodeID : string) : sql unit :=
  row ← query (select_node runID nodeID);
  match row with None => fail ErrNodeNotFound | Some _ => mret tt end.

Definition getNodeTx (runID nodeID : string) : sql NodeRecord :=
  row ← query (select_node runID nodeID);
  match row with
  | None => assertRunExistsTx runID ;; fail ErrNodeNotFound
  | Some data => lift (Unmarshal data)
  end.

Definition getAttemptTx (runID nodeID attemptID : string) : sql (option AttemptRecord) :=
  row ← query (select_attempt runID nodeID attemptID);
  match row with
  | None => mret None
  | Some data => a ← lift (Unmarshal data); mret (Some a)
  end.

Definition writeNodeTx (node : NodeRecord) : sql unit :=
  data ← lift (Marshal node);
  update_node_row (nr_RunID node) (nr_NodeID node)
    (mkNodeRow (NodeStatus_string (nr_Status node)) (nr_AttemptCount node)
       (nr_CurrentAttemptID node) data).

Definition AttemptStatus_text (s : AttemptStatus) : string :=
  match s with
  | AttemptStatusUnset => "" | AttemptStatusPrepared => "Prepared"
  | AttemptStatusStarted => "Started" | AttemptStatusCompleted => "Completed"
  | AttemptStatusErrored => "Errored"
  end.

Definition writeAttemptTx (attempt : AttemptRecord) : sql unit :=
  data ← lift (Marshal attempt);
  upsert_attempt_row (ar_RunID attempt) (ar_NodeID attempt) (ar_AttemptID attempt)
    (mkAttemptRow (AttemptStatus_text (ar_Status attempt)) data).

(** ** Reads *)

(** The checks of a read are made on the connection, outside of a transaction. *)
Definition assertRunExists (runID : string) : sql unit := assertRunExistsTx runID.
Definition assertNodeExists (runID nodeID : string) : sql unit := assertNodeExistsTx runID nodeID.

Definition SQLite_GetRun (runID : string) : sql RunRecord :=
  row ← query (select_run runID);
  match row with None => fail ErrRunNotFound | Some data => lift (Unmarshal data) end.

Definition SQLite_ListRuns : sql (list RunRecord) :=
  rows ← query select_runs; lift (decode_all rows).

Definition SQLite_GetNode (runID nodeID : string) : sql NodeRecord := getNodeTx runID nodeID.

Definition SQLite_ListNodes (runID : string) : sql (list NodeRecord) :=
  assertRunExists runID;;
  rows ← query (select_nodes runID); lift (decode_all rows).

Definition SQLite_ListAttempts (runID nodeID : string) : sql (list AttemptRecord) :=
  assertRunExists runID;;
  assertNodeExists runID nodeID;;
  rows ← query (select_attempts runID nodeID); lift (decode_all rows).

Definition SQLite_ListEvents (runID : string) (limit : Z) : sql (list EventRecord) :=
  assertRunExists runID;;
  rows ← query (select_events runID);
  all_ ← lift (decode_all rows);
  mret (if (limit <=? 0)%Z || (Z.of_nat (length all_) <=? limit)%Z then all_
        else drop (length all_ - Z.to_nat limit) all_).

Definition SQLite_GetCurrentAttempt (runID nodeID : string) : sql (AttemptRecord * bool) :=
  node ← getNodeTx runID nodeID;
  if streq (nr_CurrentAttemptID node) "" then mret (zero_AttemptRecord, false)
  else
    attempt ← getAttemptTx runID nodeID (nr_CurrentAttemptID node);
    mret (match attempt with Some a => (a, true) | None => (zero_AttemptRecord, false) end).

(** ** Writes *)
Fixpoint insert_nodes (nodes : list NodeRecord) : sql unit :=
  match nodes with
  | [] => mret tt
  | node :: nodes =>
      data ← lift (Marshal node);
      insert_node (nr_RunID node) (nr_NodeID node)
        (mkNodeRow (NodeStatus_string (nr_Status node)) (nr_AttemptCount node)
           (nr_CurrentAttemptID node) data);;
      insert_nodes nodes
  end.

Definition SQLite_CreateRun (record : RunRecord) (nodes : list NodeRecord) : sql unit :=
  transaction (
    row ← query (select_run (rr_RunID record));
    match row with
    | Some _ => fail ErrRunAlreadyExists
    | None =>
        data ← lift (Marshal record);
        insert_run (rr_RunID record)
          (mkRunRow (RunStatus_string (rr_Status record)) (timeText (rr_AcceptedAt record)) data);;
        insert_nodes nodes
    end).

Definition SQLite_UpdateRun {X} (runID : string) (update : RunRecord -> res (X * RunRecord)) : sql X :=
  transaction (
    row ← query (select_run runID);
    match row with
    | None => fail ErrRunNotFound
    | Some data =>
        record ← lift (Unmarshal data);
        '(x, record) ← lift (update record);
        updated ← lift (Marshal record);
        update_run_row runID
          (mkRunRow (RunStatus_string (rr_Status record)) (timeText (rr_AcceptedAt record)) updated);;
        mret x
    end).

Definition SQLite_UpdateNode {X} (runID nodeID : string) (update : NodeRecord -> res (X * NodeRecord))
    : sql X :=
  transaction (
    node ← getNodeTx runID nodeID;
    '(x, node) ← lift (update node);
    writeNodeTx node;; mret x).

Definition SQLite_UpsertAttempt (record : AttemptRecord) : sql unit :=
  transaction (
    assertRunExistsTx (ar_RunID record);;
    assertNodeExistsTx (ar_RunID record) (ar_NodeID record);;
    writeAttemptTx record).

Definition SQLite_AppendEvent (event : EventRecord) : sql unit :=
  transaction (
    assertRunExistsTx (ev_RunID event);;
    data ← lift (Marshal event);
    insert_event (ev_RunID event) data).

Definition SQLite_AllocateCurrentAttempt (now : Z) (runID nodeID : string) : sql AttemptRecord :=
  transaction (
    node ← getNodeTx runID nodeID;
    unresolved ← (if streq (nr_CurrentAttemptID node) "" then mret false
                  else
                    cur ← getAttemptTx runID nodeID (nr_CurrentAttemptID node);
                    mret (match cur with
                          | Some cur => negb (AttemptStatus_IsTerminal (ar_Status cur))
                          | None => false
                          end));
    if unresolved : bool then fail ErrAttemptNonTerminal
    else
      let next := int_add (nr_RealizationAttemptCount node) 1 in
      let attemptID := DeterministicAttemptID runID nodeID next in
      let attempt := zero_AttemptRecord
            <| ar_RunID := runID |> <| ar_NodeID := nodeID |>
            <| ar_AttemptID := attemptID |> <| ar_Status := AttemptStatusPrepared |>
            <| ar_StartedAt := Some now |> in
      writeAttemptTx attempt;;
      writeNodeTx (node <| nr_RealizationAttemptCount := next |>
            <| nr_CurrentAttemptID := attemptID |> <| nr_Status := NodeStatusReady |>
            <| nr_CurrentBottleneckLocation := "release_wait" |>
            <| nr_StartedAt := Some now |>);;
      mret attempt).

Definition SQLite_OpenSemanticAttempt (runID nodeID attemptID : string) (openedAt : Z) : sql unit :=
  transaction (
    node ← getNodeTx runID nodeID;
    if negb (streq (nr_CurrentAttemptID node) attemptID) then fail ErrAttemptNotFound
    else
      attempt ← getAttemptTx runID nodeID attemptID;
      match attempt with
      | None => fail ErrAttemptNotFound
      | Some attempt =>
          writeAttemptTx (attempt <| ar_SubmissionWindowOpenedAt := Some openedAt |>);;
          writeNodeTx (node <| nr_AttemptCount := int_add (nr_AttemptCount node) 1 |>)
      end).

Definition mutateAttempt (runID nodeID attemptID : string) (mutate : AttemptRecord -> AttemptRecord)
    : sql unit :=
  transaction (
    attempt ← getAttemptTx runID nodeID attemptID;
    match attempt with
    | None => fail ErrAttemptNotFound
    | Some attempt => writeAttemptTx (mutate attempt)
    end).

Definition SQLite_PersistSubmissionFence (runID nodeID attemptID : string) (openedAt : Z) : sql unit :=
  mutateAttempt runID nodeID attemptID
    (fun a => a <| ar_SubmissionWindowOpenedAt := Some openedAt |>).

Definition SQLite_PersistBackendHandle (runID nodeID attemptID handleJSON : string) : sql unit :=
  transaction (
    attempt ← getAttemptTx runID nodeID attemptID;
    match attempt with
    | None => fail ErrAttemptNotFound
    | Some attempt =>
        writeAttemptTx (attempt <| ar_BackendHandleJSON := handleJSON |>);;
        node ← getNodeTx runID nodeID;
        if streq (nr_CurrentAttemptID node) attemptID
        then writeNodeTx (node <| nr_CurrentAttemptHandleJSON := handleJSON |>)
        else mret tt
    end).

Definition SQLite_PersistCancellationIntent (runID nodeID attemptID : string) (requestedAt : Z)
    (reason : string) : sql unit :=
  mutateAttempt runID nodeID attemptID
    (fun a => a <| ar_CancellationRequestedAt := Some requestedAt |>
                <| ar_CancellationReason := reason |>).

Definition SQLite_PersistProcessCompleted (runID nodeID attemptID : string) (completedAt : Z)
    : sql unit :=
  mutateAttempt runID nodeID attemptID (fun a => a <| ar_ProcessCompletedAt := Some completedAt |>).
End registry.

(** The text of a time does not order times: a whole second follows every
    fraction of it. *)
Example timeText_order :
  timeText 0 = "1970-01-01T00:00:00Z" /\ timeText 1712345678500000000 = "2024-04-05T19:34:38.5Z" /\
  String.leb (timeText 500000000) (timeText 0) = true.
Proof. vm_compute. done. Qed.
