(* ===== verification/SqliteRefines.v ===== *)
(** * The SQLite registry implements the in-memory one

    The in-memory registry as the specification of the durable one: related
    states, and every operation, under any failures of the driver, either fails
    with the driver's error and changes nothing, or answers as the in-memory
    registry and leaves related states. *)
From S2P Require Import Prelude GoStrings GoErrors GoJson Spec Registry Memory MemoryFacts Sqlite.
From stdpp Require Import sorting.

(** ** Reasoning about calls that may fail *)

(** Whatever the driver's outcomes, [o] ends in [Q] or with a driver's error. *)
Definition runs {A} (o : sql A) (db : Tables) (Q : Tables -> res A -> Prop) : Prop :=
  forall outcomes, exists db' rest r, o (db, outcomes) = ((db', rest), r) /\
    rest `suffix_of` outcomes /\ (Q db' r \/ exists e, r = Err e /\ Some e ∈ outcomes).

(** Moreover the tables are unchanged in the latter case. *)
Definition atomically {A} (o : sql A) (db : Tables) (Q : Tables -> res A -> Prop) : Prop :=
  forall outcomes, exists db' rest r, o (db, outcomes) = ((db', rest), r) /\
    (Q db' r \/ exists e, r = Err e /\ Some e ∈ outcomes /\ db' = db).

Lemma runs_ret {A} (a : A) db Q : Q db (Ok a) -> runs (mret a) db Q.
Proof. intros H outcomes. exists db, outcomes, (Ok a). eauto. Qed.

Lemma runs_fail {A} e db (Q : Tables -> res A -> Prop) : Q db (Err e) -> runs (fail e) db Q.
Proof. intros H outcomes. exists db, outcomes, (Err e). eauto. Qed.

Lemma runs_lift {A} (r : res A) db Q : Q db r -> runs (lift r) db Q.
Proof. intros H outcomes. exists db, outcomes, r. eauto. Qed.

Lemma runs_stmt {A} (f : Tables -> Tables * res A) db Q :
  Q (f db).1 (f db).2 -> runs (stmt f) db Q.
Proof.
  intros H outcomes. destruct outcomes as [|[e|] rest]; simpl; destruct (f db) as [db' r] eqn:Ef.
  - exists db', [], r. eauto.
  - exists db, rest, (Err e). split_and!; [done|by exists [Some e]|]. right. exists e.
    split; [done|]. apply elem_of_cons. by left.
  - exists db', rest, r. split_and!; [done|by exists [None]|by left].
Qed.

Lemma runs_query {A} (f : Tables -> A) db Q : Q db (Ok (f db)) -> runs (query f) db Q.
Proof. intros H. by apply runs_stmt. Qed.

Lemma runs_bind {A B} (o : sql A) (f : A -> sql B) db Q :
  runs o db (fun db' r => match r with Ok a => runs (f a) db' Q | Err e => Q db' (Err e) end) ->
  runs (o ≫= f) db Q.
Proof.
  intros Ho outcomes. destruct (Ho outcomes) as (db1 & rest & r & E & Hs & H).
  unfold mbind, sql_bind. rewrite E. destruct r as [a|e].
  - destruct H as [H|(e & [=] & _)]. destruct (H rest) as (db2 & rest2 & r2 & E2 & Hs2 & H2).
    exists db2, rest2, r2. split_and!; [done|by etrans|].
    destruct H2 as [H2|(e & -> & He)]; [by left|right]. exists e. split; [done|].
    destruct Hs as [p ->]. apply elem_of_app. by right.
  - exists db1, rest, (Err e). split_and!; [done|done|].
    destruct H as [H|(e' & [= ->] & He)]; [by left|right; by exists e'].
Qed.

Lemma runs_mono {A} (o : sql A) db (Q Q' : Tables -> res A -> Prop) :
  (forall db' r, Q db' r -> Q' db' r) -> runs o db Q -> runs o db Q'.
Proof.
  intros HQ Ho outcomes. destruct (Ho outcomes) as (db1 & rest & r & E & Hs & H).
  exists db1, rest, r. split_and!; [done|done|]. destruct H as [H|H]; [left; auto|by right].
Qed.

Lemma transaction_atomic {A} (o : sql A) db (Q : Tables -> res A -> Prop) :
  runs o db (fun db' r => match r with Ok a => Q db' (Ok a) | Err e => Q db (Err e) end) ->
  atomically (transaction o) db Q.
Proof.
  intros Ho outcomes.
  assert (Hb : runs (query (fun _ => tt) ≫= fun _ => o ≫= fun a => query (fun _ => a)) db
    (fun db' r => match r with Ok a => Q db' (Ok a) | Err e => Q db (Err e) end)).
  { apply runs_bind, runs_query, runs_bind. eapply runs_mono; [|exact Ho].
    intros db' [a|e] H; [by apply runs_query|done]. }
  destruct (Hb outcomes) as (db' & rest & r & E & _ & H). unfold transaction. cbn [fst]. rewrite E.
  destruct r as [a|e].
  - exists db', rest, (Ok a). split; [done|]. destruct H as [H|(e & [=] & _)]. by left.
  - exists db, rest, (Err e). split; [done|]. destruct H as [H|(e' & [= <-] & He)]; [by left|].
    right. by exists e.
Qed.

(** An operation that only reads. *)
Lemma read_atomic {A} (o : sql A) db (Q : res A -> Prop) :
  (forall c, (o c).1.1 = c.1) -> runs o db (fun _ r => Q r) -> atomically o db (fun db' r => db' = db /\ Q r).
Proof.
  intros Hr Ho outcomes. destruct (Ho outcomes) as (db' & rest & r & E & _ & H).
  pose proof (Hr (db, outcomes)) as Hdb. rewrite E in Hdb. simpl in Hdb. subst db'.
  exists db, rest, r. split; [done|]. destruct H as [H|(e & -> & He)]; [by left|right; by exists e].
Qed.

Section refines.
Context {JR : Json RunRecord} {JN : Json NodeRecord} {JA : Json AttemptRecord}
  {JE : Json EventRecord} {D : Driver} {RO : RangeOrder}.

(** ** Related states *)

(** A row and the value it holds. *)
Definition row_of {W A} (P : W -> A -> Prop) (w : option W) (x : option A) : Prop :=
  match w, x with Some w, Some x => P w x | None, None => True | _, _ => False end.

Definition run_row (w : RunRow) (x : RunRecord) : Prop := Unmarshal (rw_data w) = Ok x.
Definition node_row (id n : string) (w : NodeRow) (x : NodeRecord) : Prop :=
  Unmarshal (nw_data w) = Ok x /\ nr_RunID x = id /\ nr_NodeID x = n.
Definition attempt_row (id n a : string) (w : AttemptRow) (x : AttemptRecord) : Prop :=
  Unmarshal (aw_data w) = Ok x /\ ar_RunID x = id /\ ar_NodeID x = n /\ ar_AttemptID x = a.

Record sim (db : Tables) (m : MemoryRegistry) : Prop := {
  sim_wf : reg_wf m;
  sim_run : forall id, row_of run_row (db_runs db !! id) (mr_runs m !! id);
  sim_node : forall id n, row_of (node_row id n) (db_nodes db !! (id, n)) (get_node m id n);
  sim_attempt : forall id n a,
    row_of (attempt_row id n a) (db_attempts db !! (id, n, a)) (get_attempt m id n a);
  sim_event : forall id, decode_all (select_events id db) = Ok (default [] (mr_events m !! id));
}.

(** ** Reading a row *)
Lemma runs_assertRun db m id (Q : Tables -> res unit -> Prop) :
  sim db m ->
  match mr_runs m !! id with None => Q db (Err ErrRunNotFound) | Some _ => Q db (Ok tt) end ->
  runs (assertRunExistsTx id) db Q.
Proof.
  intros Hs HQ. apply runs_bind, runs_query. unfold select_run. pose proof (sim_run db m Hs id) as H.
  destruct (db_runs db !! id), (mr_runs m !! id); try done; simpl.
  - by apply runs_ret.
  - by apply runs_fail.
Qed.

Lemma sim_no_run db m id n : sim db m -> mr_runs m !! id = None -> get_node m id n = None.
Proof.
  intros Hs Hr. unfold get_node. destruct (mr_nodes m !! id) as [ns|] eqn:En; [|done]. exfalso.
  assert (id ∈ dom (mr_runs m)) as [x Hx]%elem_of_dom; [|congruence].
  rewrite <- (wf_nodes m (sim_wf db m Hs)). apply elem_of_dom. eauto.
Qed.

Lemma sim_run_maps db m id run : sim db m -> mr_runs m !! id = Some run ->
  is_Some (mr_nodes m !! id) /\ is_Some (mr_attempts m !! id) /\ is_Some (mr_events m !! id).
Proof.
  intros [[H1 H2 H3 _] _ _ _ _] Hr. rewrite <- !elem_of_dom, H1, H2, H3.
  assert (id ∈ dom (mr_runs m)) by (apply elem_of_dom; eauto). done.
Qed.

Lemma sim_locked db m id n : sim db m ->
  lockedGetNode m id n =
  match get_node m id n with
  | Some x => Ok x
  | None => Err (match mr_runs m !! id with None => ErrRunNotFound | Some _ => ErrNodeNotFound end)
  end.
Proof.
  intros Hs. rewrite get_node_locked. destruct (get_node m id n); [done|].
  destruct (mr_runs m !! id) as [run|] eqn:Er.
  - by destruct (sim_run_maps db m id run Hs Er) as [[ns ->] _].
  - destruct (mr_nodes m !! id) as [ns|] eqn:En; [|done]. exfalso.
    assert (id ∈ dom (mr_runs m)) as [x Hx]%elem_of_dom; [|congruence].
    rewrite <- (wf_nodes m (sim_wf db m Hs)). apply elem_of_dom. eauto.
Qed.

Lemma runs_assertNode db m id n (Q : Tables -> res unit -> Prop) :
  sim db m ->
  match get_node m id n with None => Q db (Err ErrNodeNotFound) | Some _ => Q db (Ok tt) end ->
  runs (assertNodeExistsTx id n) db Q.
Proof.
  intros Hs HQ. apply runs_bind, runs_query. unfold select_node. pose proof (sim_node db m Hs id n) as H.
  destruct (db_nodes db !! (id, n)), (get_node m id n); try done; simpl.
  - by apply runs_ret.
  - by apply runs_fail.
Qed.

Lemma runs_getNode db m id n (Q : Tables -> res NodeRecord -> Prop) :
  sim db m -> Q db (lockedGetNode m id n) -> runs (getNodeTx id n) db Q.
Proof.
  intros Hs. rewrite (sim_locked db m id n Hs). intros HQ.
  apply runs_bind, runs_query. unfold select_node. pose proof (sim_node db m Hs id n) as H.
  destruct (db_nodes db !! (id, n)) as [w|], (get_node m id n) as [x|]; try done; simpl.
  - destruct H as [-> _]. by apply runs_lift.
  - apply runs_bind, (runs_assertRun db m); [done|].
    destruct (mr_runs m !! id); [by apply runs_fail|done].
Qed.

Lemma runs_getAttempt db m id n a (Q : Tables -> res (option AttemptRecord) -> Prop) :
  sim db m -> Q db (Ok (get_attempt m id n a)) -> runs (getAttemptTx id n a) db Q.
Proof.
  intros Hs HQ. apply runs_bind, runs_query. unfold select_attempt.
  pose proof (sim_attempt db m Hs id n a) as H.
  destruct (db_attempts db !! (id, n, a)) as [w|], (get_attempt m id n a) as [x|]; try done; simpl.
  - destruct H as [-> _]. apply runs_bind, runs_lift. by apply runs_ret.
  - by apply runs_ret.
Qed.

(** ** Writing a row *)
Lemma put_node_same m id n x old : get_node m id n = Some old -> get_node (put_node m id n x) id n = Some x.
Proof. intros H. rewrite get_node_put by (by rewrite H). by rewrite decide_True. Qed.

Lemma put_attempt_same m id n a x :
  has_attempt_map m id n = true -> get_attempt (put_attempt m id n a x) id n a = Some x.
Proof. intros H. rewrite get_attempt_put by done. by rewrite decide_True. Qed.

Lemma sim_put_node db m id n x old (w : NodeRow) :
  sim db m -> get_node m id n = Some old -> node_row id n w x ->
  sim (db <| db_nodes := alter (fun _ => w) (id, n) (db_nodes db) |>) (put_node m id n x).
Proof.
  intros Hs Hn Hw. destruct Hs as [H1 H2 H3 H4 H5]. split; try done.
  - apply wf_put_node; [by rewrite Hn|done].
  - intros id' n'. simpl. rewrite get_node_put by (by rewrite Hn).
    destruct (decide (id = id' /\ n = n')) as [[<- <-]|Hd].
    + specialize (H3 id n). rewrite Hn in H3. rewrite lookup_alter_eq.
      by destruct (db_nodes db !! (id, n)).
    + rewrite lookup_alter_ne by naive_solver. apply H3.
Qed.

Lemma sim_put_attempt db m id n a x (w : AttemptRow) :
  sim db m -> has_attempt_map m id n = true -> attempt_row id n a w x ->
  sim (db <| db_attempts := <[(id, n, a) := w]> (db_attempts db) |>) (put_attempt m id n a x).
Proof.
  intros Hs Hm Hw. destruct Hs as [H1 H2 H3 H4 H5]. split; try done.
  - by apply wf_put_attempt.
  - intros id' n' a'. simpl. rewrite get_attempt_put by done.
    destruct (decide (id = id' /\ n = n' /\ a = a')) as [(<- & <- & <-)|Hd].
    + by rewrite lookup_insert_eq.
    + rewrite lookup_insert_ne by naive_solver. apply H4.
Qed.

Lemma runs_writeNode db m x old (Q : Tables -> res unit -> Prop) :
  sim db m -> round_trips x -> get_node m (nr_RunID x) (nr_NodeID x) = Some old ->
  (forall db', sim db' (put_node m (nr_RunID x) (nr_NodeID x) x) -> Q db' (Ok tt)) ->
  runs (writeNodeTx x) db Q.
Proof.
  intros Hs (data & Hm & Hu) Hn HQ. apply runs_bind, runs_lift. rewrite Hm. apply runs_stmt. simpl.
  apply HQ. by eapply sim_put_node.
Qed.

Lemma runs_writeAttempt db m x (Q : Tables -> res unit -> Prop) :
  sim db m -> round_trips x -> has_attempt_map m (ar_RunID x) (ar_NodeID x) = true ->
  (forall db', sim db' (put_attempt m (ar_RunID x) (ar_NodeID x) (ar_AttemptID x) x) -> Q db' (Ok tt)) ->
  runs (writeAttemptTx x) db Q.
Proof.
  intros Hs (data & Hm & Hu) Hn HQ. apply runs_bind, runs_lift. rewrite Hm. apply runs_stmt. simpl.
  apply HQ. by apply sim_put_attempt.
Qed.

(** ** Listing rows *)
Lemma by_key_sorted (l : list (string * string)) :
  StronglySorted string_before (fst <$> merge_sort by_key l).
Proof.
  assert (Htr : Transitive by_key) by (intros a b c; apply string_leb_trans).
  assert (Hto : Total by_key) by (intros a b; apply String.leb_total).
  pose proof (StronglySorted_merge_sort by_key l) as Hs.
  induction Hs as [|x l' _ IH Hx]; simpl; constructor; [done|].
  rewrite Forall_fmap. eapply Forall_impl; [exact Hx|]. done.
Qed.

Lemma omap_nodup {K W} (f : K * W -> option (string * string)) (g : string -> K) (l : list (K * W)) :
  (forall k w n d, f (k, w) = Some (n, d) -> k = g n) ->
  NoDup (fst <$> l) -> NoDup (fst <$> omap f l).
Proof.
  intros Hg. induction l as [|[k w] l IH]; simpl; [by constructor|].
  intros [Hk Hl]%NoDup_cons. specialize (IH Hl). destruct (f (k, w)) as [[n d]|] eqn:Ef; [|done].
  simpl. apply NoDup_cons. split; [|done]. intros ([n' d'] & Heq & Hin)%list_elem_of_fmap.
  simpl in Heq. subst n'. apply list_elem_of_omap in Hin as ([k' w'] & Hin & Hf).
  apply Hg in Ef, Hf. subst. apply Hk. apply list_elem_of_fmap. by exists (g n, w').
Qed.

Section decoding.
Context {A : Type} `{Json A} (key : A -> string) (mp : gmap string A).
Context (Hkey : forall n x, mp !! n = Some x -> key x = n).

Lemma decode_rows (rows : list (string * string)) :
  (forall n d, (n, d) ∈ rows -> exists x, mp !! n = Some x /\ Unmarshal d = Ok x) ->
  exists l, decode_all (snd <$> rows) = Ok l /\ key <$> l = fst <$> rows /\
    (forall x, x ∈ l -> mp !! key x = Some x).
Proof.
  induction rows as [|[n d] rows IH]; intros Hr.
  { exists []. split_and!; [done|done|]. intros x Hx. by apply not_elem_of_nil in Hx. }
  destruct (Hr n d) as (x & Hx & Hu); [apply elem_of_cons; by left|].
  destruct IH as (l & Hd & Hk & Hl). { intros n' d' Hin. apply Hr, elem_of_cons. by right. }
  exists (x :: l). pose proof (Hkey _ _ Hx) as Hn.
  rewrite !fmap_cons, Hk, Hn. cbn [decode_all snd fst]. rewrite Hd, Hu. split_and!; [done|done|].
  intros y [->|Hy]%elem_of_cons; [by rewrite Hn|by apply Hl].
Qed.

Lemma decode_listing {K W} (f : K * W -> option (string * string)) (g : string -> K) (t : list (K * W)) :
  (forall k w n d, f (k, w) = Some (n, d) -> k = g n) -> NoDup (fst <$> t) ->
  (forall n d, (n, d) ∈ omap f t -> exists x, mp !! n = Some x /\ Unmarshal d = Ok x) ->
  (forall n x, mp !! n = Some x -> exists d, (n, d) ∈ omap f t) ->
  exists l, decode_all (snd <$> merge_sort by_key (omap f t)) = Ok l /\ lists key mp l.
Proof.
  intros Hg Ht Hrows Hall. set (rows := merge_sort by_key (omap f t)).
  assert (Hp : rows ≡ₚ omap f t) by apply merge_sort_Permutation.
  destruct (decode_rows rows) as (l & Hd & Hk & Hl).
  { intros n d Hin. apply Hrows. by rewrite <- Hp. }
  exists l. split; [done|]. split_and!.
  - rewrite Hk. apply by_key_sorted.
  - rewrite Hk, Hp. by apply (omap_nodup f g).
  - intros x. split; [apply Hl|]. intros Hx. destruct (Hall _ _ Hx) as [d Hin].
    rewrite <- Hp in Hin. assert (Hkx : key x ∈ key <$> l).
    { rewrite Hk. apply list_elem_of_fmap. by exists (key x, d). }
    apply list_elem_of_fmap in Hkx as (y & Hy & Hyl). pose proof (Hl _ Hyl) as Hmy.
    rewrite <- Hy, Hx in Hmy. by injection Hmy as ->.
Qed.
End decoding.

Lemma list_nodes_rows db m id l :
  sim db m -> ListNodes m id = Ok l -> decode_all (select_nodes id db) = Ok l.
Proof.
  intros Hs Hl. unfold ListNodes in Hl. destruct (mr_nodes m !! id) as [ns|] eqn:En; [|done].
  injection Hl as Hl.
  assert (Hg : forall n, get_node m id n = ns !! n) by (intros n; unfold get_node; by rewrite En).
  assert (Hn : forall n, row_of (node_row id n) (db_nodes db !! (id, n)) (ns !! n)).
  { intros n. rewrite <- Hg. by apply sim_node. }
  assert (Hk : forall n x, ns !! n = Some x -> nr_NodeID x = n).
  { intros n x Hx. specialize (Hn n). rewrite Hx in Hn.
    destruct (db_nodes db !! (id, n)) as [w|]; [|done]. by destruct Hn as (_ & _ & ?). }
  destruct (decode_listing nr_NodeID ns Hk
    (fun '((r, n), w) => if streq r id then Some (n, nw_data w) else None) (fun n => (id, n))
    (map_to_list (db_nodes db))) as (l' & Hd & Hl').
  - intros [r n] w n' d. destruct (streq r id) eqn:E; [|done]. apply streq_eq in E as ->. by intros [= -> _].
  - apply NoDup_fst_map_to_list.
  - intros n d ([[r n'] w] & Hin & Hf)%list_elem_of_omap. apply elem_of_map_to_list in Hin.
    destruct (streq r id) eqn:E; [|done]. apply streq_eq in E as ->. injection Hf as -> <-.
    specialize (Hn n). rewrite Hin in Hn. destruct (ns !! n) as [x|]; [|done].
    exists x. split; [done|]. by destruct Hn.
  - intros n x Hx. specialize (Hn n). rewrite Hx in Hn.
    destruct (db_nodes db !! (id, n)) as [w|] eqn:Ew; [|done]. exists (nw_data w).
    apply list_elem_of_omap. exists ((id, n), w). split; [by apply elem_of_map_to_list|].
    by rewrite streq_refl.
  - unfold select_nodes. rewrite Hd. f_equal. rewrite <- Hl.
    apply (lists_unique nr_NodeID ns); [done|]. by apply sorted_lists.
Qed.

Lemma list_attempts_rows db m id n l :
  sim db m -> ListAttempts m id n = Ok l -> decode_all (select_attempts id n db) = Ok l.
Proof.
  intros Hs Hl. unfold ListAttempts in Hl. destruct (mr_attempts m !! id) as [ns|] eqn:En; [|done].
  destruct (ns !! n) as [ats|] eqn:Ea; [|done]. injection Hl as Hl.
  assert (Hg : forall a, get_attempt m id n a = ats !! a).
  { intros a. unfold get_attempt, node_attempts. rewrite En. simpl. by rewrite Ea. }
  assert (Hn : forall a, row_of (attempt_row id n a) (db_attempts db !! (id, n, a)) (ats !! a)).
  { intros a. rewrite <- Hg. by apply sim_attempt. }
  assert (Hk : forall a x, ats !! a = Some x -> ar_AttemptID x = a).
  { intros a x Hx. specialize (Hn a). rewrite Hx in Hn.
    destruct (db_attempts db !! (id, n, a)) as [w|]; [|done]. by destruct Hn as (_ & _ & _ & ?). }
  destruct (decode_listing ar_AttemptID ats Hk
    (fun '((r, x, a), w) => if streq r id && streq x n then Some (a, aw_data w) else None)
    (fun a => (id, n, a)) (map_to_list (db_attempts db))) as (l' & Hd & Hl').
  - intros [[r x] a] w a' d. destruct (streq r id && streq x n) eqn:E; [|done]. str_tests.
    by intros [= -> _].
  - apply NoDup_fst_map_to_list.
  - intros a d ([[[r x] a'] w] & Hin & Hf)%list_elem_of_omap. apply elem_of_map_to_list in Hin.
    destruct (streq r id && streq x n) eqn:E; [|done]. str_tests.
    specialize (Hn a). rewrite Hin in Hn. destruct (ats !! a) as [y|]; [|done].
    exists y. split; [done|]. by destruct Hn.
  - intros a x Hx. specialize (Hn a). rewrite Hx in Hn.
    destruct (db_attempts db !! (id, n, a)) as [w|] eqn:Ew; [|done]. exists (aw_data w).
    apply list_elem_of_omap. exists ((id, n, a), w). split; [by apply elem_of_map_to_list|].
    by rewrite !streq_refl.
  - unfold select_attempts. rewrite Hd. f_equal. rewrite <- Hl.
    apply (lists_unique ar_AttemptID ats); [done|]. by apply sorted_lists.
Qed.

(** ** Operations *)
Inductive op : Type -> Type :=
  | OGetRun (runID : string) : op RunRecord
  | OListRuns : op (list RunRecord)
  | OGetNode (runID nodeID : string) : op NodeRecord
  | OListNodes (runID : string) : op (list NodeRecord)
  | OListAttempts (runID nodeID : string) : op (list AttemptRecord)
  | OListEvents (runID : string) (limit : Z) : op (list EventRecord)
  | OGetCurrentAttempt (runID nodeID : string) : op (AttemptRecord * bool)
  | OCreateRun (record : RunRecord) (nodes : list NodeRecord) : op unit
  | OUpdateRun {X} (runID : string) (f : RunRecord -> res (X * RunRecord)) : op X
  | OUpdateNode {X} (runID nodeID : string) (f : NodeRecord -> res (X * NodeRecord)) : op X
  | OUpsertAttempt (record : AttemptRecord) : op unit
  | OAppendEvent (event : EventRecord) : op unit
  | OAllocate (now : Z) (runID nodeID : string) : op AttemptRecord
  | OOpen (runID nodeID attemptID : string) (openedAt : Z) : op unit
  | OFence (runID nodeID attemptID : string) (openedAt : Z) : op unit
  | OHandle (runID nodeID attemptID handleJSON : string) : op unit
  | OIntent (runID nodeID attemptID : string) (requestedAt : Z) (reason : string) : op unit
  | OCompleted (runID nodeID attemptID : string) (completedAt : Z) : op unit.

Definition on_sqlite {A} (o : op A) : sql A :=
  match o in op A return sql A with
  | OGetRun id => SQLite_GetRun id
  | OListRuns => SQLite_ListRuns
  | OGetNode id n => SQLite_GetNode id n
  | OListNodes id => SQLite_ListNodes id
  | OListAttempts id n => SQLite_ListAttempts id n
  | OListEvents id limit => SQLite_ListEvents id limit
  | OGetCurrentAttempt id n => SQLite_GetCurrentAttempt id n
  | OCreateRun record nodes => SQLite_CreateRun record nodes
  | OUpdateRun id f => SQLite_UpdateRun id f
  | OUpdateNode id n f => SQLite_UpdateNode id n f
  | OUpsertAttempt record => SQLite_UpsertAttempt record
  | OAppendEvent event => SQLite_AppendEvent event
  | OAllocate now id n => SQLite_AllocateCurrentAttempt now id n
  | OOpen id n a t => SQLite_OpenSemanticAttempt id n a t
  | OFence id n a t => SQLite_PersistSubmissionFence id n a t
  | OHandle id n a h => SQLite_PersistBackendHandle id n a h
  | OIntent id n a t reason => SQLite_PersistCancellationIntent id n a t reason
  | OCompleted id n a t => SQLite_PersistProcessCompleted id n a t
  end.

Definition on_memory {A} (o : op A) (m : MemoryRegistry) : MemoryRegistry * res A :=
  match o in op A return MemoryRegistry * res A with
  | OGetRun id => (m, GetRun m id)
  | OListRuns => (m, ListRuns m)
  | OGetNode id n => (m, GetNode m id n)
  | OListNodes id => (m, ListNodes m id)
  | OListAttempts id n => (m, ListAttempts m id n)
  | OListEvents id limit => (m, ListEvents m id limit)
  | OGetCurrentAttempt id n => (m, GetCurrentAttempt m id n)
  | OCreateRun record nodes => CreateRun m record nodes
  | OUpdateRun id f => UpdateRun m id f
  | OUpdateNode id n f => UpdateNode m id n f
  | OUpsertAttempt record => UpsertAttempt m record
  | OAppendEvent event => AppendEvent m event
  | OAllocate now id n => AllocateCurrentAttempt m now id n
  | OOpen id n a t => OpenSemanticAttempt m id n a t
  | OFence id n a t => PersistSubmissionFence m id n a t
  | OHandle id n a h => PersistBackendHandle m id n a h
  | OIntent id n a t reason => PersistCancellationIntent m id n a t reason
  | OCompleted id n a t => PersistProcessCompleted m id n a t
  end.

(** The registry holds records that survive their encoding, under their own
    names. *)
Record well_kept (m : MemoryRegistry) : Prop := {
  kept_run : forall id x, mr_runs m !! id = Some x -> round_trips x;
  kept_node : forall id n x, get_node m id n = Some x ->
    round_trips x /\ nr_RunID x = id /\ nr_NodeID x = n;
  kept_attempt : forall id n a x, get_attempt m id n a = Some x ->
    round_trips x /\ ar_RunID x = id /\ ar_NodeID x = n /\ ar_AttemptID x = a;
  kept_event : forall id es x, mr_events m !! id = Some es -> x ∈ es -> round_trips x;
}.

(** The primary key of the nodes refuses two nodes of one name, which the map of
    the in-memory registry merges. *)
Definition distinct_nodes {A} (o : op A) : Prop :=
  match o with
  | OCreateRun _ nodes => NoDup (nr_NodeID <$> nodes)
  | _ => True
  end.

(** Equal answers; a missing node or attempt is reported by different errors in
    some operations, and the runs are listed in different orders. *)
Definition same_answer {A} (o : op A) : res A -> res A -> Prop :=
  match o in op A return res A -> res A -> Prop with
  | OListRuns => fun r r' => match r, r' with Ok l, Ok l' => l ≡ₚ l' | _, _ => False end
  | OGetNode _ _ | OFence _ _ _ _ | OHandle _ _ _ _ | OIntent _ _ _ _ _ | OCompleted _ _ _ _ =>
      fun r r' => match r, r' with Ok x, Ok y => x = y | Err _, Err _ => True | _, _ => False end
  | _ => eq
  end.

(** What is to be shown of an operation. *)
Definition refines {A} (o : op A) : Prop := forall db m,
  sim db m -> well_kept (on_memory o m).1 -> distinct_nodes o ->
  atomically (on_sqlite o) db
    (fun db' r => sim db' (on_memory o m).1 /\ same_answer o r (on_memory o m).2).

(** A read answers from unchanged tables. *)
Lemma refines_read {A} (o : op A) :
  (forall m, (on_memory o m).1 = m) ->
  (forall c, (on_sqlite o c).1.1 = c.1) ->
  (forall db m, sim db m -> runs (on_sqlite o) db (fun _ r => same_answer o r (on_memory o m).2)) ->
  refines o.
Proof.
  intros Hm Hr Ho db m Hs _ _ outcomes. rewrite Hm.
  destruct (read_atomic (on_sqlite o) db _ Hr (Ho db m Hs) outcomes) as (db' & rest & r & E & H).
  exists db', rest, r. split; [done|]. destruct H as [[-> H]|H]; [by left|by right].
Qed.

(** Programs of queries leave the tables alone. *)
Lemma reads_bind {A B} (o : sql A) (f : A -> sql B) :
  (forall c, (o c).1.1 = c.1) -> (forall a c, (f a c).1.1 = c.1) ->
  forall c, ((o ≫= f) c).1.1 = c.1.
Proof.
  intros Ho Hf c. specialize (Ho c). unfold mbind, sql_bind. destruct (o c) as [c' [a|e]]; simpl in *.
  - by rewrite Hf.
  - done.
Qed.

Lemma reads_query {A} (f : Tables -> A) c : (query f c).1.1 = c.1.
Proof. destruct c as [d [|[e|] l]]; done. Qed.

Ltac reads :=
  repeat match goal with
  | |- forall _, _ => intros ?
  | |- ((_ ≫= _) _).1.1 = _ => apply reads_bind
  | |- (query _ _).1.1 = _ => apply reads_query
  | |- (match ?x with _ => _ end _).1.1 = _ => destruct x
  | |- _ => done
  end.

Lemma reads_getNode id n c : (getNodeTx id n c).1.1 = c.1.
Proof. revert c. unfold getNodeTx, assertRunExistsTx. reads. Qed.

Lemma reads_getAttempt id n a c : (getAttemptTx id n a c).1.1 = c.1.
Proof. revert c. unfold getAttemptTx. reads. Qed.

Lemma refines_GetRun id : refines (OGetRun id).
Proof.
  apply refines_read; [done|simpl; unfold SQLite_GetRun; reads|]. intros db m Hs. simpl.
  apply runs_bind, runs_query. unfold select_run, GetRun. pose proof (sim_run db m Hs id) as H.
  destruct (db_runs db !! id) as [w|], (mr_runs m !! id) as [x|]; try done; simpl.
  - rewrite H. by apply runs_lift.
  - by apply runs_fail.
Qed.

Lemma decode_runs db m rows :
  sim db m -> (forall id w, (id, w) ∈ rows -> db_runs db !! id = Some w) ->
  decode_all ((fun x => rw_data x.2) <$> rows) = Ok (omap (fun id => mr_runs m !! id) (fst <$> rows)).
Proof.
  intros Hs. induction rows as [|[id w] rows IH]; intros Hr; [done|].
  rewrite !fmap_cons. cbn [decode_all fst snd]. rewrite IH.
  2: { intros id' w' H. apply Hr, elem_of_cons. by right. }
  pose proof (sim_run db m Hs id) as H. rewrite (Hr id w) in H by (apply elem_of_cons; by left).
  destruct (mr_runs m !! id) as [x|] eqn:Ex; [|done]. simpl. by rewrite H, Ex.
Qed.

Lemma refines_ListRuns : refines OListRuns.
Proof.
  apply refines_read; [done|simpl; unfold SQLite_ListRuns; reads|]. intros db m Hs.
  apply runs_bind, runs_query, runs_lift. unfold select_runs.
  set (rows := merge_sort by_acceptance (map_to_list (db_runs db))).
  assert (Hp : rows ≡ₚ map_to_list (db_runs db)) by apply merge_sort_Permutation.
  rewrite (decode_runs db m).
  2: { trivial. } 2: { intros id w. rewrite Hp. by rewrite elem_of_map_to_list. }
  simpl. rewrite merge_sort_Permutation. apply omap_Permutation, NoDup_Permutation.
  - rewrite Hp. apply NoDup_fst_map_to_list.
  - apply NoDup_range_keys.
  - intros id. rewrite elem_of_range_keys, elem_of_dom, Hp, list_elem_of_fmap.
    pose proof (sim_run db m Hs id) as H. split.
    + intros ([id' w] & Hid & Hin). simpl in Hid. subst id'. apply elem_of_map_to_list in Hin.
      rewrite Hin in H. destruct (mr_runs m !! id); [by eexists|done].
    + intros [x Hx]. rewrite Hx in H. destruct (db_runs db !! id) as [w|] eqn:Ew; [|done].
      exists (id, w). split; [done|]. by apply elem_of_map_to_list.
Qed.

Lemma refines_GetNode id n : refines (OGetNode id n).
Proof.
  apply refines_read; [done|simpl; intros c; apply reads_getNode|]. intros db m Hs. simpl.
  apply (runs_getNode db m); [done|]. unfold lockedGetNode, GetNode.
  destruct (mr_nodes m !! id) as [ns|]; [|done]. by destruct (ns !! n).
Qed.

Lemma refines_GetCurrent id n : refines (OGetCurrentAttempt id n).
Proof.
  apply refines_read; [done| |].
  { simpl. unfold SQLite_GetCurrentAttempt. intros c. apply reads_bind; [apply reads_getNode|].
    intros node c'. destruct (streq _ _); [done|]. apply reads_bind; [apply reads_getAttempt|done]. }
  intros db m Hs. simpl. apply runs_bind, (runs_getNode db m); [done|]. unfold GetCurrentAttempt.
  destruct (lockedGetNode m id n) as [x|e]; [|done]. destruct (streq _ _); [by apply runs_ret|].
  apply runs_bind, (runs_getAttempt db m); [done|]. by apply runs_ret; destruct (get_attempt m id n _).
Qed.

Lemma no_run_maps db m id : sim db m -> mr_runs m !! id = None ->
  mr_nodes m !! id = None /\ mr_attempts m !! id = None /\ mr_events m !! id = None.
Proof.
  intros [[H1 H2 H3 _] _ _ _ _] Hr. rewrite <- !not_elem_of_dom, H1, H2, H3, !not_elem_of_dom. done.
Qed.

Lemma refines_ListNodes id : refines (OListNodes id).
Proof.
  apply refines_read; [done|simpl; unfold SQLite_ListNodes, assertRunExists, assertRunExistsTx; reads|].
  intros db m Hs. simpl. apply runs_bind, (runs_assertRun db m); [done|].
  destruct (mr_runs m !! id) as [run|] eqn:Er.
  - destruct (sim_run_maps db m id run Hs Er) as ([ns Hns] & _).
    apply runs_bind, runs_query, runs_lift.
    destruct (ListNodes m id) as [l|e] eqn:El; [by apply (list_nodes_rows db m)|].
    unfold ListNodes in El. by rewrite Hns in El.
  - unfold ListNodes. by destruct (no_run_maps db m id Hs Er) as (-> & _).
Qed.

(** The node exists exactly when it has a map of attempts. *)
Lemma sim_attempts_of db m id n : sim db m ->
  mr_attempts m !! id ≫= (.!! n) = None <-> get_node m id n = None.
Proof.
  intros Hs. destruct (mr_attempts m !! id ≫= (.!! n)) as [ats|] eqn:Ea; simpl.
  - split; [done|]. intros Hn. destruct (mr_attempts m !! id) as [as_|] eqn:Eas; [|done]. simpl in Ea.
    destruct (mr_nodes m !! id) as [ns|] eqn:En.
    + assert (n ∈ dom ns) as [x Hx]%elem_of_dom.
      { rewrite <- (wf_inner m (sim_wf db m Hs) id ns as_) by done. apply elem_of_dom. eauto. }
      unfold get_node in Hn. rewrite En in Hn. simpl in Hn. congruence.
    + apply not_elem_of_dom in En. rewrite (wf_nodes m (sim_wf db m Hs)) in En.
      rewrite <- (wf_attempts m (sim_wf db m Hs)) in En. apply not_elem_of_dom in En. congruence.
  - split; [|done]. intros _. destruct (get_node m id n) as [x|] eqn:En; [|done].
    pose proof (wf_has_attempt_map m id n x (sim_wf db m Hs) En) as H. unfold has_attempt_map in H.
    by rewrite Ea in H.
Qed.

Lemma refines_ListAttempts id n : refines (OListAttempts id n).
Proof.
  apply refines_read; [done|simpl; unfold SQLite_ListAttempts, assertRunExists, assertNodeExists, assertRunExistsTx, assertNodeExistsTx; reads|].
  intros db m Hs. simpl. pose proof (sim_attempts_of db m id n Hs) as Ha.
  apply runs_bind, (runs_assertRun db m); [done|]. destruct (mr_runs m !! id) as [run|] eqn:Er.
  - destruct (sim_run_maps db m id run Hs Er) as (_ & [as_ Has] & _). rewrite Has in Ha. simpl in Ha.
    apply runs_bind, (runs_assertNode db m); [done|].
    destruct (ListAttempts m id n) as [l|e] eqn:El; unfold ListAttempts in El; rewrite Has in El.
    + destruct (get_node m id n) as [x|] eqn:En.
      * apply runs_bind, runs_query, runs_lift. apply (list_attempts_rows db m); [done|].
        unfold ListAttempts. by rewrite Has.
      * destruct Ha as [_ Ha]. by rewrite Ha in El.
    + destruct (as_ !! n) as [ats|] eqn:Eas; [done|]. destruct Ha as [Ha _]. rewrite Ha by done.
      by injection El as <-.
  - unfold ListAttempts. by destruct (no_run_maps db m id Hs Er) as (_ & -> & _).
Qed.

Lemma refines_ListEvents id limit : refines (OListEvents id limit).
Proof.
  apply refines_read; [done|simpl; unfold SQLite_ListEvents, assertRunExists, assertRunExistsTx; reads|].
  intros db m Hs. simpl. apply runs_bind, (runs_assertRun db m); [done|]. unfold ListEvents.
  destruct (mr_runs m !! id) as [run|] eqn:Er.
  - destruct (sim_run_maps db m id run Hs Er) as (_ & _ & [es Hes]).
    pose proof (sim_event db m Hs id) as He. rewrite Hes in *. simpl in He.
    apply runs_bind, runs_query, runs_bind, runs_lift. rewrite He. apply runs_ret. by destruct (_ || _).
  - by destruct (no_run_maps db m id Hs Er) as (_ & _ & ->).
Qed.

(** *** Writes *)

(** Where the body of a transaction must end. *)
Definition ends {A} (o : op A) (m : MemoryRegistry) (db' : Tables) (r : res A) : Prop :=
  same_answer o r (on_memory o m).2 /\
  match r with Ok _ => sim db' (on_memory o m).1 | Err _ => (on_memory o m).1 = m end.

Lemma refines_write {A} (o : op A) (body : sql A) :
  on_sqlite o = transaction body ->
  (forall db m, sim db m -> well_kept (on_memory o m).1 -> distinct_nodes o -> runs body db (ends o m)) ->
  refines o.
Proof.
  intros Hb Ho db m Hs Hk Hd. rewrite Hb. apply transaction_atomic.
  eapply runs_mono; [|by apply Ho]. intros db' [a|e] [Ha H]; [by split|]. by rewrite H.
Qed.

Lemma sim_put_run db m id run x w :
  sim db m -> mr_runs m !! id = Some run -> run_row w x ->
  sim (db <| db_runs := alter (fun _ => w) id (db_runs db) |>) (m <| mr_runs := <[id := x]> (mr_runs m) |>).
Proof.
  intros Hs Hr Hw. destruct Hs as [H1 H2 H3 H4 H5]. split; try done.
  - pose proof (wf_step m _ (step_UpdateRun m id (fun _ => Ok (tt, x))) H1) as H.
    unfold UpdateRun in H. by rewrite Hr in H.
  - intros id'. simpl. specialize (H2 id'). destruct (decide (id = id')) as [<-|].
    + rewrite lookup_alter_eq, lookup_insert_eq. rewrite Hr in H2. by destruct (db_runs db !! id).
    + by rewrite lookup_alter_ne, lookup_insert_ne.
Qed.

Lemma refines_UpdateRun {X} id (f : RunRecord -> res (X * RunRecord)) : refines (OUpdateRun id f).
Proof.
  eapply refines_write; [reflexivity|]. intros db m Hs [Hk _ _ _] _. unfold ends. simpl in *.
  unfold UpdateRun in *. pose proof (sim_run db m Hs id) as Hrow.
  apply runs_bind, runs_query. unfold select_run.
  destruct (db_runs db !! id) as [w|], (mr_runs m !! id) as [x|] eqn:Er; try done; simpl;
    [|by apply runs_fail].
  apply runs_bind, runs_lift. rewrite Hrow. apply runs_bind, runs_lift.
  destruct (f x) as [[a y]|e]; [|done]. simpl in *.
  destruct (Hk id y) as (data & Hm & Hu); [by rewrite lookup_insert_eq|].
  apply runs_bind, runs_lift. rewrite Hm. apply runs_bind, runs_stmt, runs_ret. simpl.
  split; [done|]. by eapply sim_put_run.
Qed.

Lemma refines_UpdateNode {X} id n (f : NodeRecord -> res (X * NodeRecord)) : refines (OUpdateNode id n f).
Proof.
  eapply refines_write; [reflexivity|]. intros db m Hs [_ Hk _ _] _. unfold ends. simpl in *.
  unfold UpdateNode in *. apply runs_bind, (runs_getNode db m); [done|].
  rewrite (sim_locked db m id n Hs) in *. destruct (get_node m id n) as [x|] eqn:En; [|done].
  apply runs_bind, runs_lift. destruct (f x) as [[a y]|e]; [|done]. simpl in *.
  destruct (Hk id n y) as (Hrt & H1 & H2); [by eapply put_node_same|].
  apply runs_bind, (runs_writeNode db m y x); [done|done|by rewrite H1, H2|].
  intros db' Hs'. apply runs_ret. split; [done|]. by rewrite H1, H2 in Hs'.
Qed.

Lemma refines_UpsertAttempt x : refines (OUpsertAttempt x).
Proof.
  eapply refines_write; [reflexivity|]. intros db m Hs [_ _ Hk _] _. unfold ends. simpl in *.
  unfold UpsertAttempt in *. pose proof (sim_attempts_of db m (ar_RunID x) (ar_NodeID x) Hs) as Ha.
  apply runs_bind, (runs_assertRun db m); [done|]. destruct (mr_runs m !! _) as [run|] eqn:Er.
  - destruct (sim_run_maps db m _ run Hs Er) as (_ & [as_ Has] & _). rewrite Has in *. simpl in Ha.
    apply runs_bind, (runs_assertNode db m); [done|].
    destruct (as_ !! ar_NodeID x) as [ats|] eqn:Eas.
    + destruct (get_node m (ar_RunID x) (ar_NodeID x)) as [y|] eqn:En; [|destruct Ha as [_ Ha]; specialize (Ha eq_refl); congruence].
      assert (Hm : has_attempt_map m (ar_RunID x) (ar_NodeID x) = true).
      { unfold has_attempt_map. rewrite Has. simpl. by rewrite Eas. }
      apply (runs_writeAttempt db m); [done| |done|].
      * apply (Hk (ar_RunID x) (ar_NodeID x) (ar_AttemptID x)). by apply put_attempt_same.
      * intros db' Hs'. by split.
    + destruct Ha as [Ha _]. by rewrite Ha.
  - by destruct (no_run_maps db m _ Hs Er) as (_ & -> & _).
Qed.

Lemma decode_all_app {A} `{Json A} (rows rows' : list string) (l l' : list A) :
  decode_all rows = Ok l -> decode_all rows' = Ok l' -> decode_all (rows ++ rows') = Ok (l ++ l').
Proof.
  intros Hl Hl'. revert l Hl. induction rows as [|r rows IH]; intros l Hl; cbn [decode_all app] in *.
  { by injection Hl as <-. }
  destruct (Unmarshal r) as [x|]; [|done]. destruct (decode_all rows) as [xs|]; [|done].
  injection Hl as <-. by rewrite (IH xs).
Qed.

Lemma select_events_insert id id' data d :
  select_events id (d <| db_events := db_events d ++ [(id', data)] |>) =
  select_events id d ++ (if streq id' id then [data] else []).
Proof.
  unfold select_events. simpl. rewrite List.filter_app, fmap_app. simpl. by destruct (streq id' id).
Qed.

Lemma sim_append db m e data :
  sim db m -> is_some (mr_runs m !! ev_RunID e) = true -> Unmarshal data = Ok e ->
  sim (db <| db_events := db_events db ++ [(ev_RunID e, data)] |>) (AppendEvent m e).1.
Proof.
  intros Hs Hr Hu. pose proof (wf_step m _ (step_AppendEvent m e) (sim_wf db m Hs)) as Hw.
  unfold AppendEvent in *. rewrite Hr in *. simpl in *. destruct Hs as [H1 H2 H3 H4 H5]. split; try done.
  intros id. etrans; [apply f_equal, select_events_insert|]. simpl. specialize (H5 id).
  destruct (streq (ev_RunID e) id) eqn:E; str_tests.
  - rewrite lookup_insert_eq. apply decode_all_app; [done|]. cbn [decode_all]. by rewrite Hu.
  - by rewrite lookup_insert_ne, app_nil_r.
Qed.

Lemma refines_AppendEvent e : refines (OAppendEvent e).
Proof.
  eapply refines_write; [reflexivity|]. intros db m Hs [_ _ _ Hk] _. unfold ends.
  apply runs_bind, (runs_assertRun db m); [done|]. cbn [on_memory same_answer] in *.
  pose proof (sim_append db m e) as Hsim. unfold AppendEvent in *.
  destruct (mr_runs m !! ev_RunID e) as [run|] eqn:Er; [|done]. simpl in *.
  destruct (Hk (ev_RunID e) (default [] (mr_events m !! ev_RunID e) ++ [e]) e) as (data & Hm & Hu).
  { by rewrite lookup_insert_eq. } { apply elem_of_app. right. by apply list_elem_of_singleton. }
  apply runs_bind, runs_lift. rewrite Hm. apply runs_stmt. simpl. split; [done|]. by apply Hsim.
Qed.

(** The mutations of an attempt. *)
Lemma runs_mutate db m id n a (f : AttemptRecord -> AttemptRecord) (Q : Tables -> res unit -> Prop) :
  sim db m ->
  match get_attempt m id n a with
  | None => Q db (Err ErrAttemptNotFound)
  | Some x => round_trips (f x) /\ ar_RunID (f x) = id /\ ar_NodeID (f x) = n /\ ar_AttemptID (f x) = a /\
      forall db', sim db' (put_attempt m id n a (f x)) -> Q db' (Ok tt)
  end ->
  runs (attempt ← getAttemptTx id n a;
        match attempt with None => fail ErrAttemptNotFound | Some x => writeAttemptTx (f x) end) db Q.
Proof.
  intros Hs HQ. apply runs_bind, (runs_getAttempt db m); [done|].
  destruct (get_attempt m id n a) as [x|] eqn:Ea; [|by apply runs_fail].
  destruct HQ as (Hrt & H1 & H2 & H3 & HQ). apply (runs_writeAttempt db m); [done|done| |].
  - rewrite H1, H2. by eapply has_map_of_attempt.
  - by rewrite H1, H2, H3.
Qed.

Lemma refines_mutate (o : op unit) id n a (f : AttemptRecord -> AttemptRecord) :
  on_sqlite o = mutateAttempt id n a f ->
  (forall m, on_memory o m = lockedMutateAttempt m id n a f) ->
  (forall e e', same_answer o (Err e) (Err e')) -> same_answer o (Ok tt) (Ok tt) ->
  refines o.
Proof.
  intros Hq Hm He Hok. eapply refines_write; [exact Hq|]. intros db m Hs [_ _ Hk _] _. unfold ends.
  rewrite Hm, mutate_attempt_spec in *. apply (runs_mutate db m); [done|].
  destruct (get_attempt m id n a) as [x|] eqn:Ea; [|by split; [apply He|]]. simpl in *.
  destruct (Hk id n a (f x)) as (Hrt & H1 & H2 & H3).
  { by eapply put_attempt_same, has_map_of_attempt. }
  split_and!; [done..|]. intros db' Hs'. by split.
Qed.

Lemma refines_Fence id n a t : refines (OFence id n a t).
Proof. by eapply refines_mutate. Qed.
Lemma refines_Intent id n a t reason : refines (OIntent id n a t reason).
Proof. by eapply refines_mutate. Qed.
Lemma refines_Completed id n a t : refines (OCompleted id n a t).
Proof. by eapply refines_mutate. Qed.

Definition with_handle (h : string) (x : AttemptRecord) : AttemptRecord := x <| ar_BackendHandleJSON := h |>.
Definition node_handle (h : string) (y : NodeRecord) : NodeRecord := y <| nr_CurrentAttemptHandleJSON := h |>.
Definition one_more_attempt (y : NodeRecord) : NodeRecord :=
  y <| nr_AttemptCount := int_add (nr_AttemptCount y) 1 |>.

Lemma handle_found m id n a h x y :
  get_attempt m id n a = Some x -> get_node m id n = Some y ->
  PersistBackendHandle m id n a h =
  (if streq (nr_CurrentAttemptID y) a
   then put_node (put_attempt m id n a (with_handle h x)) id n (node_handle h y)
   else put_attempt m id n a (with_handle h x), Ok tt).
Proof.
  intros Ha Hn. unfold PersistBackendHandle. rewrite mutate_attempt_spec, Ha.
  rewrite get_node_put_attempt, Hn. simpl. by destruct (streq _ _).
Qed.

Lemma handle_missing m id n a h :
  get_attempt m id n a = None -> exists e, PersistBackendHandle m id n a h = (m, Err e).
Proof. intros Ha. unfold PersistBackendHandle. rewrite mutate_attempt_spec, Ha. by eexists. Qed.

(** After the attempt is written the node is read back as it was. *)
Lemma runs_putAttempt db m id n a x (Q : Tables -> res unit -> Prop) :
  sim db m -> has_attempt_map m id n = true ->
  round_trips x /\ ar_RunID x = id /\ ar_NodeID x = n /\ ar_AttemptID x = a ->
  (forall db', sim db' (put_attempt m id n a x) -> Q db' (Ok tt)) ->
  runs (writeAttemptTx x) db Q.
Proof. intros Hs Hm (Hrt & <- & <- & <-) HQ. by apply (runs_writeAttempt db m). Qed.

Lemma runs_putNode db m id n x old (Q : Tables -> res unit -> Prop) :
  sim db m -> get_node m id n = Some old ->
  round_trips x /\ nr_RunID x = id /\ nr_NodeID x = n ->
  (forall db', sim db' (put_node m id n x) -> Q db' (Ok tt)) ->
  runs (writeNodeTx x) db Q.
Proof. intros Hs Hm (Hrt & <- & <-) HQ. by eapply (runs_writeNode db m). Qed.

Lemma refines_Handle id n a h : refines (OHandle id n a h).
Proof.
  eapply refines_write; [reflexivity|]. intros db m Hs [_ Hkn Hka _] _. unfold ends.
  cbn [on_memory same_answer] in *. apply runs_bind, (runs_getAttempt db m); [done|].
  destruct (get_attempt m id n a) as [x|] eqn:Ea.
  2: { destruct (handle_missing m id n a h Ea) as [e ->]. by apply runs_fail. }
  destruct (wf_attempt_node m id n a x (sim_wf db m Hs) Ea) as [y Ey].
  rewrite (handle_found m id n a h x y Ea Ey) in *.
  pose proof (has_map_of_attempt m id n a x Ea) as Hmap.
  apply runs_bind, (runs_putAttempt db m id n a (with_handle h x)); [done|done| |].
  { apply Hka. cbn [fst]. destruct (streq _ _); by apply put_attempt_same. }
  intros db' Hs'. eapply runs_bind, runs_getNode; [exact Hs'|].
  rewrite (sim_locked _ _ id n Hs'), get_node_put_attempt, Ey.
  destruct (streq (nr_CurrentAttemptID y) a) eqn:E; [|by apply runs_ret].
  eapply (runs_putNode _ _ id n (node_handle h y)); [exact Hs'|exact Ey| |by intros].
  apply Hkn. by eapply put_node_same.
Qed.

Lemma open_found m id n a t y :
  reg_wf m -> get_node m id n = Some y -> 
  OpenSemanticAttempt m id n a t =
  if negb (streq (nr_CurrentAttemptID y) a) then (m, Err ErrAttemptNotFound)
  else match get_attempt m id n a with
       | Some x => (put_node (put_attempt m id n a (open_fence t x)) id n (one_more_attempt y), Ok tt)
       | None => (m, Err ErrAttemptNotFound)
       end.
Proof.
  intros Hw Hn. pose proof (wf_has_attempt_map m id n y Hw Hn) as Hmap.
  unfold OpenSemanticAttempt. rewrite get_node_locked, Hn, mutate_attempt_spec.
  destruct (negb _); [done|]. destruct (get_attempt m id n a); [done|].
  unfold has_attempt_map in Hmap. destruct (mr_attempts m !! id) as [as_|]; [|done]. simpl in Hmap.
  by destruct (as_ !! n).
Qed.

Lemma refines_Open id n a t : refines (OOpen id n a t).
Proof.
  eapply refines_write; [reflexivity|]. intros db m Hs [_ Hkn Hka _] _. unfold ends.
  cbn [on_memory same_answer] in *. apply runs_bind, (runs_getNode db m); [done|].
  rewrite (sim_locked db m id n Hs). destruct (get_node m id n) as [y|] eqn:Ey.
  2: { unfold OpenSemanticAttempt. by rewrite (sim_locked db m id n Hs), Ey. }
  rewrite (open_found m id n a t y (sim_wf db m Hs) Ey) in *.
  destruct (negb (streq (nr_CurrentAttemptID y) a)) eqn:E; [by apply runs_fail|].
  apply runs_bind, (runs_getAttempt db m); [done|].
  destruct (get_attempt m id n a) as [x|] eqn:Ea; [|by apply runs_fail].
  pose proof (has_map_of_attempt m id n a x Ea) as Hmap.
  apply runs_bind, (runs_putAttempt db m id n a (open_fence t x)); [done|done| |].
  { apply Hka. by apply put_attempt_same. }
  intros db' Hs'. eapply (runs_putNode _ _ id n (one_more_attempt y)); [exact Hs'|exact Ey| |by intros].
  apply Hkn. by eapply put_node_same.
Qed.

(** The guard of an allocation. *)
Definition still_running (m : MemoryRegistry) (id n : string) (y : NodeRecord) : bool :=
  if streq (nr_CurrentAttemptID y) "" then false
  else match get_attempt m id n (nr_CurrentAttemptID y) with
       | Some cur => negb (AttemptStatus_IsTerminal (ar_Status cur))
       | None => false
       end.

Definition allocated_attempt (now : Z) (id n : string) (y : NodeRecord) : AttemptRecord :=
  zero_AttemptRecord <| ar_RunID := id |> <| ar_NodeID := n |>
    <| ar_AttemptID := DeterministicAttemptID id n (int_add (nr_RealizationAttemptCount y) 1) |>
    <| ar_Status := AttemptStatusPrepared |> <| ar_StartedAt := Some now |>.

Definition allocated_node (now : Z) (id n : string) (y : NodeRecord) : NodeRecord :=
  y <| nr_RealizationAttemptCount := int_add (nr_RealizationAttemptCount y) 1 |>
    <| nr_CurrentAttemptID := ar_AttemptID (allocated_attempt now id n y) |>
    <| nr_Status := NodeStatusReady |> <| nr_CurrentBottleneckLocation := "release_wait" |>
    <| nr_StartedAt := Some now |>.

Lemma allocate_found m now id n y :
  reg_wf m -> get_node m id n = Some y ->
  AllocateCurrentAttempt m now id n =
  (let a := allocated_attempt now id n y in
   if still_running m id n y then (m, Err ErrAttemptNonTerminal)
   else (put_node (put_attempt m id n (ar_AttemptID a) a) id n (allocated_node now id n y), Ok a)).
Proof.
  intros Hw Hn. unfold AllocateCurrentAttempt, still_running. rewrite get_node_locked, Hn.
  rewrite (wf_has_attempt_map m id n y Hw Hn). cbv zeta. by destruct (if streq _ _ then _ else _).
Qed.

Lemma refines_Allocate now id n : refines (OAllocate now id n).
Proof.
  eapply refines_write; [reflexivity|]. intros db m Hs [_ Hkn Hka _] _. unfold ends.
  cbn [on_memory same_answer] in *. apply runs_bind, (runs_getNode db m); [done|].
  rewrite (sim_locked db m id n Hs). destruct (get_node m id n) as [y|] eqn:Ey.
  2: { unfold AllocateCurrentAttempt. by rewrite (sim_locked db m id n Hs), Ey. }
  rewrite (allocate_found m now id n y (sim_wf db m Hs) Ey) in *.
  pose proof (wf_has_attempt_map m id n y (sim_wf db m Hs) Ey) as Hmap.
  apply runs_bind. eapply (runs_mono _ _ (fun db' r => db' = db /\ r = Ok (still_running m id n y))).
  2: { unfold still_running. destruct (streq _ _); [by apply runs_ret|].
       apply runs_bind, (runs_getAttempt db m); [done|]. by apply runs_ret. }
  intros ? ? [-> ->]. cbv zeta in *. destruct (still_running m id n y); [by apply runs_fail|].
  apply runs_bind.
  apply (runs_putAttempt db m id n (ar_AttemptID (allocated_attempt now id n y)) (allocated_attempt now id n y)); [done|done|by apply Hka, put_attempt_same|].
  intros db' Hs'. apply runs_bind.
  eapply (runs_putNode _ _ id n (allocated_node now id n y)); [exact Hs'|exact Ey| |].
  - apply Hkn. by eapply put_node_same.
  - intros db2 Hs2. by apply runs_ret.
Qed.

(** *** The creation of a run *)
(** The nodes table holds the rows of [mp] under the run, and the rows of [db]
    elsewhere; the other tables are those of [db]. *)
Definition holding (db : Tables) (id : string) (mp : gmap string NodeRecord) (db' : Tables) : Prop :=
  db_runs db' = db_runs db /\ db_attempts db' = db_attempts db /\ db_events db' = db_events db /\
  (forall n, row_of (node_row id n) (db_nodes db' !! (id, n)) (mp !! n)) /\
  (forall r n, r <> id -> db_nodes db' !! (r, n) = db_nodes db !! (r, n)).

Lemma runs_insert_nodes db id nodes mp db0 (Q : Tables -> res unit -> Prop) :
  NoDup (nr_NodeID <$> nodes) -> (forall n, n ∈ nr_NodeID <$> nodes -> mp !! n = None) ->
  (forall x, x ∈ nodes -> round_trips x /\ nr_RunID x = id) ->
  holding db id mp db0 ->
  (forall db', holding db id (by_name nodes mp) db' -> Q db' (Ok tt)) ->
  runs (insert_nodes nodes) db0 Q.
Proof.
  revert mp db0. induction nodes as [|x l IH]; intros mp db0 Hnd Hfree Hx Hh HQ.
  { apply runs_ret. by apply HQ. }
  rewrite fmap_cons in *. apply NoDup_cons in Hnd as [Hxl Hl].
  destruct (Hx x) as [(data & Hm & Hu) Hid]; [apply elem_of_cons; by left|].
  simpl. apply runs_bind, runs_lift. rewrite Hm. apply runs_bind, runs_stmt.
  destruct Hh as (H1 & H2 & H3 & H4 & H5). pose proof (H4 (nr_NodeID x)) as Hrow.
  rewrite Hfree in Hrow by (apply elem_of_cons; by left). rewrite Hid.
  destruct (db_nodes db0 !! (id, nr_NodeID x)) as [w|] eqn:Ew; [done|].
  apply (IH (<[nr_NodeID x := x]> mp)); [done| | | |done].
  - intros n Hn. rewrite lookup_insert_ne by (by intros <-). apply Hfree, elem_of_cons. by right.
  - intros y Hy. apply Hx, elem_of_cons. by right.
  - split_and!; [done..| |].
    + intros n. simpl. destruct (decide (nr_NodeID x = n)) as [<-|Hne].
      * rewrite !lookup_insert_eq. by split_and!.
      * rewrite !lookup_insert_ne by naive_solver. apply H4.
    + intros r n Hr. simpl. rewrite lookup_insert_ne by naive_solver. by apply H5.
Qed.

Lemma sim_create db m record nodes w db' :
  sim db m -> mr_runs m !! rr_RunID record = None -> run_row w record ->
  holding (db <| db_runs := <[rr_RunID record := w]> (db_runs db) |>) (rr_RunID record) (by_name nodes ∅) db' ->
  sim db' (CreateRun m record nodes).1.
Proof.
  intros Hs Hr Hw (H1 & H2 & H3 & H4 & H5). destruct (no_run_maps db m _ Hs Hr) as (_ & Hat & Hev).
  destruct Hs as [Hwf Hrun Hnode Hatt Hevs].
  split; [by apply wf_create| | | |].
  - intros id. rewrite H1. unfold CreateRun. rewrite Hr. simpl.
    destruct (decide (rr_RunID record = id)) as [<-|]; [by rewrite !lookup_insert_eq|].
    by rewrite !lookup_insert_ne.
  - intros id n. rewrite create_node by done. case_decide as Hd; [by subst|]. by rewrite H5.
  - intros id n a. rewrite create_attempt by done. rewrite H2. specialize (Hatt id n a).
    case_decide as Hd; [|done]. subst. simpl.
    unfold get_attempt, node_attempts in Hatt. rewrite Hat in Hatt. simpl in Hatt.
    by rewrite lookup_empty in Hatt.
  - intros id. unfold select_events. rewrite H3. simpl. specialize (Hevs id).
    unfold CreateRun. rewrite Hr. simpl. destruct (decide (rr_RunID record = id)) as [<-|].
    + rewrite lookup_insert_eq. by rewrite Hev in Hevs.
    + by rewrite lookup_insert_ne.
Qed.

Lemma refines_CreateRun record nodes : refines (OCreateRun record nodes).
Proof.
  eapply refines_write; [reflexivity|]. intros db m Hs [Hkr Hkn _ _] Hnd. unfold ends.
  cbn [on_memory same_answer] in *. apply runs_bind, runs_query. unfold select_run.
  pose proof (sim_run db m Hs (rr_RunID record)) as Hrow.
  destruct (mr_runs m !! rr_RunID record) as [old|] eqn:Er.
  { destruct (db_runs db !! rr_RunID record); [|done]. apply runs_fail. unfold CreateRun. by rewrite Er. }
  destruct (db_runs db !! rr_RunID record) as [w|] eqn:Ew; [done|]. simpl.
  assert (Hok : (CreateRun m record nodes).2 = Ok tt) by (unfold CreateRun; by rewrite Er). rewrite Hok.
  destruct (Hkr (rr_RunID record) record) as (data & Hm & Hu).
  { unfold CreateRun. rewrite Er. simpl. by rewrite lookup_insert_eq. }
  apply runs_bind, runs_lift. rewrite Hm. apply runs_bind, runs_stmt. rewrite Ew.
  eapply (runs_insert_nodes _ (rr_RunID record) nodes ∅); [done|intros; apply lookup_empty| | |].
  - intros x Hx. destruct (Hkn (rr_RunID record) (nr_NodeID x) x) as (Hrt & Hid & _); [|done].
    rewrite create_node, decide_True by done. by apply by_name_all.
  - split_and!; [reflexivity..| |done]. intros n. simpl. rewrite lookup_empty.
    pose proof (sim_node db m Hs (rr_RunID record) n) as Hn. by rewrite (sim_no_run db m) in Hn.
  - intros db' Hh. split; [done|].
    by eapply (sim_create db m record nodes (mkRunRow _ _ data)).
Qed.

Lemma every_op_refines {A} (o : op A) : refines o.
Proof.
destruct o.
  - apply refines_GetRun.
  - apply refines_ListRuns.
  - apply refines_GetNode.
  - apply refines_ListNodes.
  - apply refines_ListAttempts.
  - apply refines_ListEvents.
  - apply refines_GetCurrent.
  - apply refines_CreateRun.
  - apply refines_UpdateRun.
  - apply refines_UpdateNode.
  - apply refines_UpsertAttempt.
  - apply refines_AppendEvent.
  - apply refines_Allocate.
  - apply refines_Open.
  - apply refines_Fence.
  - apply refines_Handle.
  - apply refines_Intent.
  - apply refines_Completed.
Qed.
End refines.

(** ** The refinement *)

(** C8. From tables that represent a state of the in-memory registry, every
    method of the SQLite registry, whatever calls of the driver fail, either
    returns the error of a driver's call that failed and leaves the tables as
    they were, or returns what the method of the in-memory registry returns and
    leaves tables that represent its next state. The records written must
    survive their encoding, and a run be created with nodes of distinct names. *)
Theorem sqlite_refines_memory {JR : Json RunRecord} {JN : Json NodeRecord} {JA : Json AttemptRecord}
    {JE : Json EventRecord} {D : Driver} {RO : RangeOrder} {A} (o : op A) (db : Tables)
    (m : MemoryRegistry) (outcomes : list (option GoError)) :
  sim db m -> well_kept (on_memory o m).1 -> distinct_nodes o ->
  exists db' rest r, on_sqlite o (db, outcomes) = ((db', rest), r) /\
    ((sim db' (on_memory o m).1 /\ same_answer o r (on_memory o m).2) \/
     exists e, r = Err e /\ Some e ∈ outcomes /\ db' = db).
Proof.
  intros Hs Hk Hd. by apply (every_op_refines o).
Qed.

(** An encoding that keeps the names of a record of the run [r]. *)
Module Demo.
#[export] Instance run_json : Json RunRecord :=
  { Marshal := fun x => Ok (rr_RunID x); Unmarshal := fun d => Ok (zero_RunRecord <| rr_RunID := d |>) }.
#[export] Instance node_json : Json NodeRecord :=
  { Marshal := fun x => Ok (nr_NodeID x);
    Unmarshal := fun d => Ok (zero_NodeRecord <| nr_RunID := "r" |> <| nr_NodeID := d |>) }.
#[export] Instance attempt_json : Json AttemptRecord :=
  { Marshal := fun x => Ok (ar_AttemptID x);
    Unmarshal := fun d => Ok (zero_AttemptRecord <| ar_RunID := "r" |> <| ar_NodeID := "n" |>
                                <| ar_AttemptID := d |>) }.
#[export] Instance event_json : Json EventRecord :=
  { Marshal := fun x => Ok (ev_RunID x); Unmarshal := fun d => Ok (zero_EventRecord <| ev_RunID := d |>) }.
#[export] Instance constraint : Driver := { ErrConstraint := ErrNew "UNIQUE constraint failed" }.
#[export] Existing Instance elements_order.

Definition run : RunRecord := zero_RunRecord <| rr_RunID := "r" |>.
Definition node : NodeRecord := zero_NodeRecord <| nr_RunID := "r" |> <| nr_NodeID := "n" |>.
Definition creation : op unit := OCreateRun run [node].
Definition disk_full : GoError := ErrNew "disk full".

Lemma nothing_stored : sim empty_tables NewMemoryRegistry.
Proof. split; [apply wf_empty|done..]. Qed.

Lemma creation_kept : well_kept (on_memory creation NewMemoryRegistry).1.
Proof.
  split.
  - intros id x H. change (<["r" := run]> (∅ : gmap string RunRecord) !! id = Some x) in H.
    apply lookup_insert_Some in H as [[_ <-]|[_ H]]; [by eexists|done].
  - intros id n x H. cbn [on_memory creation] in H. rewrite create_node in H by done.
    case_decide as Hd; [|done]. subst id.
    change (<["n" := node]> (∅ : gmap string NodeRecord) !! n = Some x) in H. apply lookup_insert_Some in H as [[<- <-]|[_ H]]; [|done].
    split_and!; [by eexists|done|done].
  - intros id n a x H. cbn [on_memory creation] in H. rewrite create_attempt in H by done.
    by case_decide.
  - intros id es x H Hx. change (<["r" := []]> (∅ : gmap string (list EventRecord)) !! id = Some es) in H.
    apply lookup_insert_Some in H as [[_ <-]|[_ H]]; [|done].
    by apply not_elem_of_nil in Hx.
Qed.
End Demo.

Import Demo.

(** The commit of a creation fails, and nothing is stored; it succeeds, and the
    run is there. *)
Lemma sqlite_refines_memory_witness :
  let outcomes := [None; None; None; None; Some disk_full] in
  on_sqlite creation (empty_tables, outcomes) = ((empty_tables, []), Err disk_full) /\
  exists db' rest r, on_sqlite creation (empty_tables, []) = ((db', rest), r) /\
    ((sim db' (on_memory creation NewMemoryRegistry).1 /\
      same_answer creation r (on_memory creation NewMemoryRegistry).2) \/
     exists e, r = Err e /\ Some e ∈ ([] : list (option GoError)) /\ db' = empty_tables).
Proof.
  split; [vm_compute; reflexivity|].
  apply (sqlite_refines_memory creation empty_tables NewMemoryRegistry []).
  - apply nothing_stored.
  - apply creation_kept.
  - apply NoDup_singleton.
Defined.
