(* ===== verification/SqliteOpen.v ===== *)
(** * Opening the SQLite registry ([src/pkg/registry/sqlite.go])

    [NewSQLiteRegistry] over a database file: the pool of one connection it asks
    for, the pragmas, and the statements that create what is missing of the schema.
    Each call of the driver may fail, as in [Sqlite]. The mode of the journal is
    kept in the file; the other settings belong to the connection, which
    [database/sql] replaces when its lifetime has passed. *)
From S2P Require Import Prelude GoStrings GoErrors GoTime Spec Registry Sqlite.

(** ** The schema *)
Record column := mkColumn {
  co_name : string; co_type : string; co_not_null : bool; co_default : option string }.

Inductive object :=
  | Table (columns : list column) (key : list string)
  | Index (table : string) (columns : list string).

Inductive statement :=
  | Pragma (name value : string)
  | CreateTableIfNotExists (name : string) (columns : list column) (key : list string)
  | CreateIndexIfNotExists (name table : string) (columns : list string).

(** [NOT NULL] and plain columns of a type. *)
Definition required (type name : string) : column := mkColumn name type true None.

Definition pragmas : list statement :=
  [Pragma "journal_mode" "WAL"; Pragma "busy_timeout" "5000"; Pragma "synchronous" "NORMAL";
   Pragma "foreign_keys" "OFF"].

Definition create_runs : statement := CreateTableIfNotExists "runs"
  [mkColumn "run_id" "TEXT" false None; required "TEXT" "status"; required "TEXT" "accepted_at";
   required "TEXT" "data"] ["run_id"].
Definition create_nodes : statement := CreateTableIfNotExists "nodes"
  [required "TEXT" "run_id"; required "TEXT" "node_id"; required "TEXT" "status";
   mkColumn "attempt_count" "INTEGER" true (Some "0");
   mkColumn "current_attempt_id" "TEXT" true (Some "''"); required "TEXT" "data"] ["run_id"; "node_id"].
Definition create_attempts : statement := CreateTableIfNotExists "attempts"
  [required "TEXT" "run_id"; required "TEXT" "node_id"; required "TEXT" "attempt_id";
   required "TEXT" "status"; required "TEXT" "data"] ["run_id"; "node_id"; "attempt_id"].
Definition create_events : statement := CreateTableIfNotExists "events"
  [mkColumn "seq" "INTEGER" false None; required "TEXT" "run_id"; required "TEXT" "data"] ["seq"].
Definition create_idx_events_run : statement := CreateIndexIfNotExists "idx_events_run" "events" ["run_id"; "seq"].

Definition ddl : list statement :=
  [create_runs; create_nodes; create_attempts; create_events; create_idx_events_run].

(** ** Files and connections *)
Record File := mkFile {
  fi_schema : gmap string object;
  fi_journal : string;
  fi_tables : Tables;
}.

#[export] Instance eta_File : Eta File := fun f => mkFile (fi_schema f) (fi_journal f) (fi_tables f).

(** What SQLite makes of a path that names no file. *)
Definition new_file : File := mkFile ∅ "delete" empty_tables.

(** A [sql.DB]: its limits, and the settings of its connection. *)
Record DB := mkDB {
  db_MaxOpenConns : Z;
  db_MaxIdleConns : Z;
  db_ConnMaxLifetime : Z;
  db_settings : gmap string string;
}.

#[export] Instance eta_DB : Eta DB := fun d =>
  mkDB (db_MaxOpenConns d) (db_MaxIdleConns d) (db_ConnMaxLifetime d) (db_settings d).

Definition opened : DB := mkDB 0 2 0 ∅.

(** The error of an index on a table that is not there, and whether [sql.Open]
    takes the path. *)
Class OpenDriver := { ErrNoSuchTable : GoError; sql_Open : string -> option GoError }.

Section open.
Context {OD : OpenDriver}.

(** The file, the handle and the outcomes of the next calls. *)
Definition session : Type := File * DB * list (option GoError).

(** What a statement does. *)
Definition perform (st : statement) (f : File) (db : DB) : File * DB * option GoError :=
  match st with
  | Pragma name value =>
      if streq name "journal_mode" then (f <| fi_journal := value |>, db, None)
      else (f, db <| db_settings := <[name := value]> (db_settings db) |>, None)
  | CreateTableIfNotExists name columns key =>
      match fi_schema f !! name with
      | Some _ => (f, db, None)
      | None => (f <| fi_schema := <[name := Table columns key]> (fi_schema f) |>, db, None)
      end
  | CreateIndexIfNotExists name table columns =>
      match fi_schema f !! name with
      | Some _ => (f, db, None)
      | None =>
          match fi_schema f !! table with
          | Some (Table _ _) =>
              (f <| fi_schema := <[name := Index table columns]> (fi_schema f) |>, db, None)
          | _ => (f, db, Some ErrNoSuchTable)
          end
      end
  end.

Definition Exec (st : statement) (s : session) : session * option GoError :=
  let '(f, db, outcomes) := s in
  match outcomes with
  | Some e :: rest => ((f, db, rest), Some e)
  | _ => let '(f, db, err) := perform st f db in ((f, db, tail outcomes), err)
  end.

(** The statements in order, up to the first that fails. *)
Fixpoint exec_all (wrap : statement -> GoError -> GoError) (l : list statement) (s : session)
    : session * option GoError :=
  match l with
  | [] => (s, None)
  | st :: l =>
      match Exec st s with
      | (s, Some err) => (s, Some (wrap st err))
      | (s, None) => exec_all wrap l s
      end
  end.

Definition pragma_text (st : statement) : string :=
  match st with Pragma name value => "PRAGMA " +:+ name +:+ "=" +:+ value | _ => "" end.

Definition sqliteApplyPragmas (s : session) : session * option GoError :=
  exec_all (fun st => Wrapf (pragma_text st)) pragmas s.

Definition sqliteMigrate (s : session) : session * option GoError :=
  exec_all (fun _ => Wrapf "ddl") ddl s.

(** The file that is left, and the registry or the error; a handle that is not
    returned was closed. *)
Definition NewSQLiteRegistry (path : string) (f : File) (outcomes : list (option GoError))
    : File * res DB :=
  match sql_Open path with
  | Some err => (f, Err (Wrapf "open sqlite" err))
  | None =>
      let db := opened <| db_MaxOpenConns := 1%Z |> <| db_MaxIdleConns := 1%Z |>
                       <| db_ConnMaxLifetime := (30 * 60 * Second)%Z |> in
      match sqliteApplyPragmas (f, db, outcomes) with
      | ((f, _, _), Some err) => (f, Err (Wrapf "apply pragmas" err))
      | (s, None) =>
          match sqliteMigrate s with
          | ((f, _, _), Some err) => (f, Err (Wrapf "migrate" err))
          | ((f, db, _), None) => (f, Ok db)
          end
      end
  end.

(** A statement that comes after the connection's lifetime has its own connection,
    on which no pragma was executed. *)
Definition recycle (db : DB) : DB := db <| db_settings := ∅ |>.

(** ** What an opening leaves *)
Definition object_name (st : statement) : string :=
  match st with
  | Pragma _ _ => ""
  | CreateTableIfNotExists name _ _ | CreateIndexIfNotExists name _ _ => name
  end.

Definition object_of (st : statement) : object :=
  match st with
  | CreateIndexIfNotExists _ table columns => Index table columns
  | CreateTableIfNotExists _ columns key => Table columns key
  | Pragma _ _ => Table [] []
  end.

(** Later than [f]: the same rows, and no object lost or redefined. *)
Definition extends (f f' : File) : Prop := fi_tables f' = fi_tables f /\ fi_schema f ⊆ fi_schema f'.

#[export] Instance extends_preorder : PreOrder extends.
Proof. split; [by intros f|]. intros f g h [H1 H2] [H3 H4]. split; [congruence|by etrans]. Qed.

Definition creates (st : statement) : Prop := match st with Pragma _ _ => False | _ => True end.

(** The effect of a statement that did not fail. *)
Definition effected (f : File) (db : DB) (st : statement) : Prop :=
  match st with
  | Pragma name value =>
      if streq name "journal_mode" then fi_journal f = value else db_settings db !! name = Some value
  | _ => is_Some (fi_schema f !! object_name st)
  end.

Lemma perform_extends st f db f' db' r : perform st f db = (f', db', r) ->
  extends f f' /\ (r = None -> effected f' db' st) /\ (forall e, r = Some e -> e = ErrNoSuchTable).
Proof.
  destruct st as [name value|name columns key|name table columns]; simpl.
  - destruct (streq name "journal_mode") eqn:E; intros [= <- <- <-]; (split_and!; [by split|intros _|done]).
    + done.
    + simpl. by rewrite lookup_insert_eq.
  - destruct (fi_schema f !! name) eqn:E; intros [= <- <- <-]; (split_and!; [|intros _|done]); simpl.
    + done.
    + rewrite E. eauto.
    + split; [done|]. by apply insert_subseteq.
    + rewrite lookup_insert_eq. eauto.
  - destruct (fi_schema f !! name) eqn:E; [|destruct (fi_schema f !! table) as [[c k|t c]|] eqn:Et];
      intros [= <- <- <-]; (split_and!; [|try done|by intros e [= <-]]); try done; simpl.
    + split; [done|]. by apply insert_subseteq.
    + intros _. rewrite lookup_insert_eq. eauto.
Qed.

Lemma Exec_extends st f db out f' db' out' r : Exec st (f, db, out) = ((f', db', out'), r) ->
  extends f f' /\ (r = None -> effected f' db' st) /\
  (forall e, r = Some e -> e = ErrNoSuchTable \/ Some e ∈ out) /\ out' `suffix_of` out.
Proof.
  intros E. unfold Exec in E. assert (Hw : forall r0, (let '(f0, db0, err) := perform st f db in
    ((f0, db0, tail out), err)) = ((f', db', out'), r0) ->
    extends f f' /\ (r0 = None -> effected f' db' st) /\
    (forall e, r0 = Some e -> e = ErrNoSuchTable \/ Some e ∈ out) /\ out' `suffix_of` out).
  { intros r0 H. destruct (perform st f db) as [[f0 db0] err] eqn:Ep. injection H as <- <- <- <-.
    destruct (perform_extends _ _ _ _ _ _ Ep) as (H1 & H2 & H3). split_and!; [done|done|by left; apply H3|].
    destruct out as [|x out]; [done|]. by exists [x]. }
  destruct out as [|[e|] out]; [by apply Hw| |by apply Hw].
  injection E as <- <- <- <-. split_and!; [done|done| |by exists [Some e]].
  intros e' [= <-]. right. apply elem_of_cons. by left.
Qed.

(** Later statements keep the effects of earlier ones of other names. *)
Lemma Exec_keeps st st' f db out f' db' out' r :
  (creates st \/ (creates st' \/ match st, st' with Pragma a _, Pragma b _ => a <> b | _, _ => True end)) ->
  Exec st' (f, db, out) = ((f', db', out'), r) -> effected f db st -> effected f' db' st.
Proof.
  intros Hne E Hst. destruct (Exec_extends _ _ _ _ _ _ _ _ E) as ([_ Hsub] & _).
  assert (Hsame : creates st -> effected f' db' st).
  { destruct st; [done|intros _..]; destruct Hst as [o Ho]; exists o; by eapply lookup_weaken. }
  destruct st as [a v| |]; [|by apply Hsame..]. clear Hsame Hsub. unfold Exec in E.
  assert (Hp : forall g, (let '(f0, db0, err) := perform st' f db in ((f0, db0, tail out), err)) = g ->
    effected g.1.1.1 g.1.1.2 (Pragma a v)).
  { intros g <-. destruct st' as [b w|name columns key|name table columns]; simpl.
    - destruct Hne as [[]|[[]|Hne]]. simpl in Hst.
      destruct (streq b "journal_mode") eqn:Eb, (streq a "journal_mode") eqn:Ea; simpl; try done.
      + apply streq_eq in Eb, Ea. congruence.
      + by rewrite lookup_insert_ne.
    - by destruct (fi_schema f !! name).
    - destruct (fi_schema f !! name); [done|]. by destruct (fi_schema f !! table) as [[]|]. }
  destruct out as [|[e|] out]; [apply Hp in E; exact E| |apply Hp in E; exact E].
  injection E as <- <- <- <-. exact Hst.
Qed.

(** Statements that do not set the same thing. *)
Definition apart (st st' : statement) : Prop :=
  creates st \/ (creates st' \/ match st, st' with Pragma a _, Pragma b _ => a <> b | _, _ => True end).

Lemma exec_all_keeps wrap st l f db out f' db' out' r :
  Forall (apart st) l -> exec_all wrap l (f, db, out) = ((f', db', out'), r) ->
  effected f db st -> effected f' db' st.
Proof.
  intros Hl. revert f db out. induction Hl as [|st' l Ha _ IH]; intros f db out E Hst; cbn [exec_all] in E.
  { by injection E as <- <- <- <-. }
  destruct (Exec st' (f, db, out)) as [[[f1 db1] out1] [e|]] eqn:E1.
  - injection E as <- <- <- <-. by eapply Exec_keeps.
  - eapply IH; [exact E|]. by eapply Exec_keeps.
Qed.

Lemma exec_all_spec wrap l f db out f' db' out' r :
  ForallOrdPairs apart l ->
  exec_all wrap l (f, db, out) = ((f', db', out'), r) ->
  extends f f' /\ out' `suffix_of` out /\
  match r with
  | None => Forall (effected f' db') l
  | Some err => exists st cause, st ∈ l /\ err = wrap st cause /\ (cause = ErrNoSuchTable \/ Some cause ∈ out)
  end.
Proof.
  intros Hl. revert f db out. induction Hl as [|st l Ha Hl IH]; intros f db out E; cbn [exec_all] in E.
  { injection E as <- <- <- <-. by split_and!. }
  destruct (Exec st (f, db, out)) as [[[f1 db1] out1] [e|]] eqn:E1;
    destruct (Exec_extends _ _ _ _ _ _ _ _ E1) as (H1 & H2 & H3 & H4).
  - injection E as <- <- <- <-. split_and!; [done|done|]. exists st, e. split_and!; [apply elem_of_cons; by left|done|auto].
  - destruct (IH _ _ _ E) as (G1 & G2 & G3). split_and!; [by etrans|by etrans|]. destruct r as [err|].
    + destruct G3 as (st' & cause & Hin & -> & Hc). exists st', cause. split_and!; [apply elem_of_cons; by right|done|].
      destruct Hc as [Hc|Hc]; [by left|right]. destruct H4 as [p ->]. apply elem_of_app. by right.
    + constructor; [|done]. eapply exec_all_keeps; [exact Ha|exact E|]. auto.
Qed.

(** The objects of the file that bear the names of the registry's are its own. *)
Definition ours (f : File) : Prop :=
  forall st o, st ∈ ddl -> fi_schema f !! object_name st = Some o -> o = object_of st.

Lemma ddl_names st st' : st ∈ ddl -> st' ∈ ddl -> object_name st = object_name st' -> st = st'.
Proof.
  assert (H : NoDup (object_name <$> ddl)) by (apply (bool_decide_unpack _); vm_compute; done).
  revert H. generalize ddl. induction l as [|x l IH]; [by intros _ ?%not_elem_of_nil|].
  rewrite fmap_cons. intros [Hx Hl]%NoDup_cons [->|H1]%elem_of_cons [->|H2]%elem_of_cons E; [done| | |auto].
  - destruct Hx. rewrite E. by apply list_elem_of_fmap_2.
  - destruct Hx. rewrite <- E. by apply list_elem_of_fmap_2.
Qed.

Lemma Exec_ours st f db out f' db' out' r :
  ours f -> st ∈ pragmas \/ st ∈ ddl -> Exec st (f, db, out) = ((f', db', out'), r) -> ours f'.
Proof.
  intros Hf Hst E.
  assert (Hadd : forall name o, st ∈ ddl -> object_name st = name -> object_of st = o ->
    ours (f <| fi_schema := <[name := o]> (fi_schema f) |>)).
  { intros name o Hin Hn <- st' o' Hin'. simpl. rewrite lookup_insert_Some.
    intros [[Hne <-]|[_ H]]; [|by eapply Hf]. f_equal. apply ddl_names; [done|done|congruence]. }
  assert (Hp : forall g, (let '(f0, db0, err) := perform st f db in ((f0, db0, tail out), err)) = g ->
    ours g.1.1.1).
  { intros g <-. destruct Hst as [Hst|Hst].
    - repeat (apply elem_of_cons in Hst as [->|Hst]; [done|]). by apply not_elem_of_nil in Hst.
    - destruct st as [a v|name columns key|name table columns]; simpl.
      + repeat (apply elem_of_cons in Hst as [?|Hst]; [done|]). by apply not_elem_of_nil in Hst.
      + destruct (fi_schema f !! name); [done|by apply Hadd].
      + destruct (fi_schema f !! name); [done|].
        destruct (fi_schema f !! table) as [[]|]; [by apply Hadd|done..]. }
  unfold Exec in E. destruct out as [|[e|] out]; [apply Hp in E; exact E| |apply Hp in E; exact E].
  by injection E as <- <- <- <-.
Qed.

Lemma exec_all_ours wrap l f db out f' db' out' r :
  (forall st, st ∈ l -> st ∈ pragmas \/ st ∈ ddl) -> ours f ->
  exec_all wrap l (f, db, out) = ((f', db', out'), r) -> ours f'.
Proof.
  revert f db out. induction l as [|st l IH]; intros f db out Hl Hf E; cbn [exec_all] in E.
  { by injection E as <- <- <- <-. }
  destruct (Exec st (f, db, out)) as [[[f1 db1] out1] [e|]] eqn:E1;
    pose proof (Exec_ours _ _ _ _ _ _ _ _ Hf (Hl st ltac:(apply elem_of_cons; by left)) E1) as Hf1.
  - by injection E as <- <- <- <-.
  - eapply IH; [|exact Hf1|exact E]. intros st' Hin. apply Hl, elem_of_cons. by right.
Qed.

(** No statement changes the limits of the pool. *)
Lemma exec_all_limits wrap l s g : exec_all wrap l s = g -> db_MaxOpenConns g.1.1.2 = db_MaxOpenConns s.1.2.
Proof.
  intros <-. revert s. induction l as [|st l IH]; intros s; [done|]. cbn [exec_all].
  assert (He : db_MaxOpenConns (Exec st s).1.1.2 = db_MaxOpenConns s.1.2).
  { destruct s as [[f db] out]. unfold Exec.
    assert (Hp : db_MaxOpenConns (perform st f db).1.2 = db_MaxOpenConns db).
    { destruct st; simpl; repeat case_match; done. }
    destruct out as [|[e|] out]; [|done|]; by destruct (perform st f db) as [[f' db'] r]. }
  destruct (Exec st s) as [s1 [e|]]; [done|]. by rewrite IH.
Qed.

Lemma pragmas_apart : ForallOrdPairs apart pragmas.
Proof.
  repeat first [apply FOP_cons|apply FOP_nil|apply Forall_cons_2|apply Forall_nil_2]; right; right; discriminate.
Qed.
Lemma ddl_apart : ForallOrdPairs apart ddl.
Proof. repeat first [apply FOP_cons|apply FOP_nil|apply Forall_cons_2|apply Forall_nil_2]; by left. Qed.
Lemma pragma_ddl_apart st : st ∈ pragmas -> Forall (apart st) ddl.
Proof. intros _. repeat first [apply Forall_cons_2|apply Forall_nil_2]; by right; left. Qed.

(** Creating a table does not fail of itself, and the index only without its table. *)
Lemma table_step st f db :
  match st with CreateTableIfNotExists _ _ _ => True | _ => False end ->
  st ∈ ddl -> ours f -> exists f', Exec st (f, db, []) = ((f', db, []), None) /\ ours f' /\
    fi_schema f' !! object_name st = Some (object_of st).
Proof.
  intros Ht Hst Hf. destruct (Exec st (f, db, [])) as [[[f' db'] out'] r] eqn:E. exists f'.
  assert (db' = db /\ out' = [] /\ r = None) as (-> & -> & ->).
  { revert E. unfold Exec. destruct st as [|name columns key|]; [done| |done]. simpl.
    by destruct (fi_schema f !! name); intros [= <- <- <- <-]. }
  pose proof (Exec_ours _ _ _ _ _ _ _ _ Hf (or_intror Hst) E) as Hf'.
  destruct (Exec_extends _ _ _ _ _ _ _ _ E) as (_ & He & _). specialize (He eq_refl).
  assert (is_Some (fi_schema f' !! object_name st)) as [o' Ho'] by (by destruct st).
  split_and!; [done|done|]. rewrite Ho'. f_equal. by apply (Hf' st).
Qed.

Ltac in_ddl := unfold ddl; repeat first [apply list_elem_of_here|apply list_elem_of_further].

Lemma migrate_succeeds f db : ours f -> exists f' db', sqliteMigrate (f, db, []) = ((f', db', []), None).
Proof.
  intros Hf. unfold sqliteMigrate. cbn [exec_all ddl].
  destruct (table_step create_runs f db I ltac:(in_ddl) Hf) as (f1 & -> & H1 & _).
  destruct (table_step create_nodes f1 db I ltac:(in_ddl) H1) as (f2 & -> & H2 & _).
  destruct (table_step create_attempts f2 db I ltac:(in_ddl) H2) as (f3 & -> & H3 & _).
  destruct (table_step create_events f3 db I ltac:(in_ddl) H3) as (f4 & -> & _ & H4).
  unfold Exec, create_idx_events_run. cbn [perform tail]. cbn in H4. rewrite H4.
  destruct (fi_schema f4 !! "idx_events_run"); eauto.
Qed.

(** From a file of the registry, an opening without failures succeeds. *)
Lemma opening_succeeds path f : ours f -> sql_Open path = None ->
  exists f' db, NewSQLiteRegistry path f [] = (f', Ok db).
Proof.
  intros Hf Ho. unfold NewSQLiteRegistry. rewrite Ho. set (db0 := _ <| db_ConnMaxLifetime := _ |>).
  destruct (sqliteApplyPragmas (f, db0, [])) as [[[f1 db1] out1] r1] eqn:E1.
  assert (ours f1 /\ r1 = None /\ out1 = []) as (Hf1 & -> & ->).
  { split; [|by revert E1; vm_compute; intros [= <- <- <- <-]].
    eapply (exec_all_ours _ pragmas); [by left|exact Hf|exact E1]. }
  destruct (migrate_succeeds f1 db1 Hf1) as (f2 & db2 & ->). eauto.
Qed.

Lemma wrapped_twice a b cause : cause ∈ error_chain (Wrapf a (Wrapf b cause)).
Proof. simpl. do 2 apply list_elem_of_further. destruct cause; apply list_elem_of_here. Qed.

(** What an opening does, whatever fails. *)
Lemma opening_spec path f outcomes f' r : NewSQLiteRegistry path f outcomes = (f', r) ->
  extends f f' /\ (ours f -> ours f') /\
  match r with
  | Ok db => Forall (effected f' db) (pragmas ++ ddl) /\ db_MaxOpenConns db = 1%Z
  | Err e => exists cause, cause ∈ error_chain e /\
      (sql_Open path = Some cause \/ cause = ErrNoSuchTable \/ Some cause ∈ outcomes)
  end.
Proof.
  unfold NewSQLiteRegistry. destruct (sql_Open path) as [e|] eqn:Eo.
  { intros [= <- <-]. split_and!; [done|done|]. exists e. split; [|by left]. unfold Wrapf. destruct e; set_solver. }
  set (db0 := _ <| db_ConnMaxLifetime := _ |>).
  destruct (sqliteApplyPragmas (f, db0, outcomes)) as [[[f1 db1] out1] r1] eqn:E1.
  destruct (exec_all_spec _ _ _ _ _ _ _ _ _ pragmas_apart E1) as (H1 & H2 & H3).
  pose proof (fun Hf => exec_all_ours _ pragmas _ _ _ _ _ _ _ (fun st H => or_introl H) Hf E1) as O1.
  destruct r1 as [err|].
  { intros [= <- <-]. split; [done|split; [done|]].
    destruct H3 as (st & cause & _ & -> & Hc). exists cause. split; [apply wrapped_twice|tauto]. }
  destruct (sqliteMigrate (f1, db1, out1)) as [[[f2 db2] out2] r2] eqn:E2.
  destruct (exec_all_spec _ _ _ _ _ _ _ _ _ ddl_apart E2) as (G1 & G2 & G3).
  pose proof (fun Hf => exec_all_ours _ ddl _ _ _ _ _ _ _ (fun st H => or_intror H) Hf E2) as O2.
  destruct r2 as [err|]; intros [= <- <-]; (split; [by etrans|split; [exact (fun Hf => O2 (O1 Hf))|]]).
  - destruct G3 as (st & cause & _ & -> & Hc). exists cause. split; [apply wrapped_twice|].
    destruct Hc as [->|Hc]; [auto|]. right. right. destruct H2 as [p ->]. apply elem_of_app. by right.
  - split; [|exact (eq_trans (exec_all_limits _ _ _ _ E2) (exec_all_limits _ _ _ _ E1))]. apply Forall_app. split; [|done]. apply Forall_forall. intros st Hst.
    eapply exec_all_keeps; [by apply pragma_ddl_apart|exact E2|].
    rewrite Forall_forall in H3. by apply H3.
Qed.

(** C12. However the calls of an opening fail, it loses no row and redefines no
    object of the file. When it succeeds, every setting holds, every table and the
    index are there, and the pool has one connection; when it fails, the error wraps
    the one of a call that failed, and the file it leaves can be opened again, rows
    and all. *)
Theorem opening_is_safe (path : string) (f f' : File) (outcomes : list (option GoError)) (r : res DB) :
  NewSQLiteRegistry path f outcomes = (f', r) ->
  extends f f' /\
  match r with
  | Ok db => Forall (effected f' db) (pragmas ++ ddl) /\ db_MaxOpenConns db = 1%Z
  | Err e =>
      (exists cause, cause ∈ error_chain e /\
         (sql_Open path = Some cause \/ cause = ErrNoSuchTable \/ Some cause ∈ outcomes)) /\
      (ours f -> sql_Open path = None ->
       exists f2 db, NewSQLiteRegistry path f' [] = (f2, Ok db) /\ extends f f2)
  end.
Proof.
  intros E. destruct (opening_spec _ _ _ _ _ E) as (H1 & H2 & H3). split; [done|].
  destruct r as [db|e]; [done|]. split; [done|]. intros Hf Ho.
  destruct (opening_succeeds path f' (H2 Hf) Ho) as (f2 & db & E2). exists f2, db. split; [done|].
  etrans; [exact H1|]. by destruct (opening_spec _ _ _ _ _ E2).
Qed.
End open.

(** ** A disk that is full *)
Module OpenDemo.
#[export] Instance driver : OpenDriver :=
  { ErrNoSuchTable := ErrNew "no such table"; sql_Open _ := None }.

Definition disk_full : GoError := ErrNew "disk full".

(** The third table cannot be created. *)
Definition interrupted : list (option GoError) := [None; None; None; None; None; None; Some disk_full].

Example half_open :
  let '(f, r) := NewSQLiteRegistry "jumi-registry.db" new_file interrupted in
  dom (fi_schema f) = {["runs"; "nodes"]} /\
  res_err r = Some (Wrapf "migrate" (Wrapf "ddl" disk_full)) /\
  error_text (Wrapf "migrate" (Wrapf "ddl" disk_full)) = "migrate: ddl: disk full".
Proof. vm_compute. done. Qed.

(** A connection that [database/sql] opens after the first one's lifetime waits for
    no lock: the pragmas were executed once, on the first connection. *)
Example pragmas_of_one_connection :
  match NewSQLiteRegistry "jumi-registry.db" new_file [] with
  | (f, Ok db) =>
      db_settings db !! "busy_timeout" = Some "5000" /\ db_settings (recycle db) !! "busy_timeout" = None /\
      fi_journal f = "WAL" /\ db_ConnMaxLifetime db = (1800 * Second)%Z
  | _ => False
  end.
Proof. vm_compute. done. Qed.
End OpenDemo.

Import OpenDemo.

Lemma opening_is_safe_witness :
  exists f' e, NewSQLiteRegistry "jumi-registry.db" new_file OpenDemo.interrupted = (f', Err e) /\
  exists f2 db, NewSQLiteRegistry "jumi-registry.db" f' [] = (f2, Ok db) /\ extends new_file f2.
Proof.
  destruct (NewSQLiteRegistry "jumi-registry.db" new_file OpenDemo.interrupted) as [f' r] eqn:E.
  pose proof (opening_is_safe "jumi-registry.db" new_file f' OpenDemo.interrupted r E) as [_ H].
  destruct r as [db|e]; [vm_compute in E; discriminate|]. exists f', e. split; [done|].
  apply H; [|done]. intros st o _ Ho. exfalso. change ((∅ : gmap string object) !! object_name st = Some o) in Ho.
  by rewrite lookup_empty in Ho.
Defined.
