(* ===== verification/Engine.v ===== *)
(** * The run engines ([src/pkg/executor/executor.go], [reconcile.go])

    [NoopEngine] and [DagEngine]: admission, cancellation, the execution of a
    run's graph, its end, and recovery at start-up, as programs over the events of
    [Prog]. The graph library and the goroutines an engine starts are events; the
    body of the fast-fail watcher is [watch_tick], one turn of its loop. What is
    written to the process log is not modelled. [active.cancel()] and the handles
    of the active run are events of the run they belong to. *)
From S2P Require Import Prelude GoStrings GoErrors Spec Validate Registry Handoff Provenance.
From S2P Require Import BackendTypes Reconcile Prog Runner.

#[export] Instance prog_ret {BT : BackendTypes} : MRet prog := fun A a => Ret a.
#[export] Instance prog_bind {BT : BackendTypes} : MBind prog := fun A B f p => bind p f.

(** ** The end of a run, as a function of its nodes *)

(** The variables of [finalizeRun]'s loop. *)
Record tally := mkTally {
  ta_Counters : RunCounters;
  ta_Status : RunStatus;
  ta_Cause : string;
  ta_Reason : string;
}.

#[export] Instance eta_tally : Eta tally := fun t =>
  mkTally (ta_Counters t) (ta_Status t) (ta_Cause t) (ta_Reason t).

Definition tally_node (t : tally) (node : NodeRecord) : tally :=
  let c := ta_Counters t in
  match nr_Status node with
  | NodeStatusSucceeded =>
      t <| ta_Counters := c <| rc_SucceededNodes := (rc_SucceededNodes c + 1)%Z |> |>
  | NodeStatusFailed =>
      t <| ta_Counters := c <| rc_FailedNodes := (rc_FailedNodes c + 1)%Z |> |>
        <| ta_Status := RunStatusFailed |> <| ta_Cause := "failed" |>
        <| ta_Reason := if streq (ta_Reason t) "" then nr_TerminalFailureReason node
                        else ta_Reason t |>
  | NodeStatusCanceled =>
      let t := t <| ta_Counters := c <| rc_CanceledNodes := (rc_CanceledNodes c + 1)%Z |> |> in
      if decide (ta_Status t = RunStatusFailed) then t
      else t <| ta_Status := RunStatusCanceled |> <| ta_Cause := "canceled" |>
             <| ta_Reason := FirstNonEmpty [nr_TerminalFailureReason node; ta_Reason t] |>
  | NodeStatusSkipped =>
      t <| ta_Counters := c <| rc_SkippedNodes := (rc_SkippedNodes c + 1)%Z |> |>
  | NodeStatusRunning | NodeStatusStarting | NodeStatusReleasing | NodeStatusReady =>
      t <| ta_Counters := c <| rc_RunningNodes := (rc_RunningNodes c + 1)%Z |> |>
  | _ => t
  end.

(** All of [finalizeRun] between the two reads and the first write. *)
Definition tally_run (run : RunRecord) (nodes : list NodeRecord) (succeeded : bool)
    (reason : string) : tally :=
  let t := foldl tally_node
    (mkTally (zero_RunCounters <| rc_TotalNodes := Z.of_nat (length nodes) |>)
       RunStatusSucceeded "finished" "") nodes in
  let t := if decide (rr_Status run = RunStatusCanceled)
           then t <| ta_Status := RunStatusCanceled |> <| ta_Cause := "canceled" |>
                  <| ta_Reason := FirstNonEmpty [rr_TerminalFailureReason run; ta_Reason t;
                                                 reason; "cancellation_requested"] |>
           else t in
  if negb succeeded && bool_decide (ta_Status t = RunStatusSucceeded)
  then t <| ta_Status := RunStatusFailed |> <| ta_Cause := "failed" |>
         <| ta_Reason := if streq (ta_Reason t) "" then reason else ta_Reason t |>
  else t.

Definition eventLevelForRunStatus (runStatus : RunStatus) : string :=
  match runStatus with
  | RunStatusSucceeded => "info"
  | RunStatusCanceled => "warn"
  | _ => "error"
  end.

Section engine.
Context {BT : BackendTypes} {U : UnicodeTables} {RO : RangeOrder} (caps : AdapterCaps).

Definition act {X} (e : event X) : prog X := trigger e.
Definition drop {X} (e : event X) : prog unit := x ← act e; mret tt.
Definition log (e : EventRecord) : prog unit := drop (EAppendEvent e).

Fixpoint each {A} (l : list A) (body : A -> prog unit) : prog unit :=
  match l with
  | [] => mret tt
  | x :: l => body x ;; each l body
  end.

(** An [EventRecord] of the run, and of one of its nodes. *)
Definition run_event (runID typ : string) (at_ : Z) (level : string) : EventRecord :=
  zero_EventRecord <| ev_RunID := runID |> <| ev_Type := typ |> <| ev_OccurredAt := at_ |>
    <| ev_Level := level |>.
Definition node_event (runID nodeID typ : string) (at_ : Z) (level : string) : EventRecord :=
  (run_event runID typ at_ level) <| ev_NodeID := nodeID |>.

(** ** Admission *)
Definition admit_run (now : Z) (run : RunRecord) : unit * RunRecord :=
  (tt, run <| rr_Status := RunStatusAdmitted |>
           <| rr_CurrentBottleneckLocation := "dispatch_wait" |> <| rr_StartedAt := Some now |>).

Definition NoopEngine_Admit (record : RunRecord) : prog (option GoError) :=
  t ← act ENow;
  try act (EUpdateRun (rr_RunID record) (admit_run t));
  log ((run_event (rr_RunID record) "run.admitted" t "info")
    <| ev_Message := "run admitted to executor" |>);;
  mret None.

Definition DagEngine_Admit (record : RunRecord) : prog (option GoError) :=
  t ← act ENow;
  try act (EUpdateRun (rr_RunID record) (admit_run t));
  log ((run_event (rr_RunID record) "run.admitted" t "info")
    <| ev_Message := "run admitted to dag executor" |>);;
  act (EGoExecuteRun (rr_RunID record));;
  mret None.

(** ** Cancellation *)

(** The callback on a node of [markRunCanceled]: was it canceled? *)
Definition mark_canceled (now : Z) (current : NodeRecord) : bool * NodeRecord :=
  match nr_Status current with
  | NodeStatusSucceeded | NodeStatusFailed | NodeStatusCanceled | NodeStatusSkipped =>
      (false, current)
  | _ => (true, current <| nr_Status := NodeStatusCanceled |>
                        <| nr_TerminalStopCause := "canceled" |>
                        <| nr_TerminalFailureReason := "cancellation_requested" |>
                        <| nr_FinishedAt := Some now |>)
  end.

Definition markRunCanceled (runID : string) : prog (option GoError) :=
  t ← act ENow;
  try act (EUpdateRun runID (fun run => (tt, run <| rr_Status := RunStatusCanceled |>
    <| rr_TerminalStopCause := "canceled" |>
    <| rr_TerminalFailureReason := "cancellation_requested" |> <| rr_FinishedAt := Some t |>)));
  log ((run_event runID "run.canceled" t "warn") <| ev_StopCause := "canceled" |>
    <| ev_FailureReason := "cancellation_requested" |>);;
  nodes ←? act (EListNodes runID);
  each nodes (fun node =>
    r ← act (EUpdateNode runID (nr_NodeID node) (mark_canceled t));
    match r with
    | Ok true =>
        log ((node_event runID (nr_NodeID node) "node.canceled" t "warn")
          <| ev_StopCause := "canceled" |> <| ev_FailureReason := "cancellation_requested" |>)
    | _ => mret tt
    end);;
  mret None.

Definition NoopEngine_Cancel (runID reason : string) : prog (option GoError) :=
  markRunCanceled runID.

Definition cancel_reason (reason : string) : string :=
  FirstNonEmpty [reason; "cancellation_requested"].

(** The callbacks of [DagEngine.Cancel] on the run and on each node; the latter
    with [canceledImmediately] and [intentAttemptID]. *)
Definition cancel_run (reason : string) (run : RunRecord) : unit * RunRecord :=
  (tt, match rr_Status run with
       | RunStatusSucceeded | RunStatusFailed | RunStatusCanceled => run
       | _ => run <| rr_Status := RunStatusCanceled |> <| rr_TerminalStopCause := "canceled" |>
                  <| rr_TerminalFailureReason := cancel_reason reason |>
                  <| rr_CurrentBottleneckLocation := "" |>
       end).

Definition cancel_node (reason : string) (now : Z) (current : NodeRecord)
    : (bool * string) * NodeRecord :=
  match nr_Status current with
  | NodeStatusSucceeded | NodeStatusFailed | NodeStatusCanceled | NodeStatusSkipped =>
      ((false, ""), current)
  | NodeStatusPending | NodeStatusReady | NodeStatusReleasing
  | NodeStatusBuildingBindings | NodeStatusResolvingInputs | NodeStatusStarting =>
      ((true, ""), current <| nr_Status := NodeStatusCanceled |>
        <| nr_TerminalStopCause := "canceled" |>
        <| nr_TerminalFailureReason := cancel_reason reason |>
        <| nr_CurrentBottleneckLocation := "" |> <| nr_FinishedAt := Some now |>)
  | _ => ((false, nr_CurrentAttemptID current),
          current <| nr_CurrentBottleneckLocation := "canceling" |>)
  end.

Definition cancel_one (runID reason : string) (now : Z) (node : NodeRecord) : prog unit :=
  let nodeID := nr_NodeID node in
  r ← act (EUpdateNode runID nodeID (cancel_node reason now));
  let '(canceledImmediately, intentAttemptID) :=
    match r with Ok x => x | Err _ => (false, "") end in
  (if negb (streq intentAttemptID "")
   then drop (EPersistCancellationIntent runID nodeID intentAttemptID now (cancel_reason reason))
   else mret tt);;
  if canceledImmediately : bool
  then log ((node_event runID nodeID "node.canceled" now "warn") <| ev_StopCause := "canceled" |>
         <| ev_FailureReason := cancel_reason reason |>)
  else mret tt.

Definition Cancel (runID reason : string) : prog (option GoError) :=
  t ← act ENow;
  try act (EUpdateRun runID (cancel_run reason));
  log ((run_event runID "run.cancel.requested" t "warn") <| ev_StopCause := "canceled" |>
    <| ev_FailureReason := cancel_reason reason |>);;
  active ← act (EGetActive runID);
  (if active : bool then
     act (ECancelActive runID);;
     handles ← act (ESnapshotHandles runID);
     each handles (fun handle => drop (ECancelNode CtxBackground handle))
   else mret tt);;
  nodes ←? act (EListNodes runID);
  each nodes (cancel_one runID reason t);;
  mret None.

(** ** The graph of a run *)

(** The body of the watcher's loop over the nodes: does the watcher return? *)
Fixpoint watch_nodes (runID : string) (failFast : bool) (nodes : list NodeRecord) : prog bool :=
  match nodes with
  | [] => mret false
  | node :: nodes =>
      if decide (nr_Status node = NodeStatusFailed) then
        act (ETrySendFirstErr (Errorf ("node " +:+ nr_NodeID node +:+ " failed")));;
        if failFast then
          act (EMetric FastFailTrigger);;
          act (ETrySendFastFailRoot (nr_NodeID node));;
          t ← act ENow;
          log ((node_event runID (nr_NodeID node) "run.fast_fail.triggered" t "warn")
            <| ev_StopCause := "failed" |>
            <| ev_FailureReason := FirstNonEmpty [nr_TerminalFailureReason node; "fast_fail"] |>);;
          act (ECancelActive runID);;
          handles ← act (ESnapshotHandles runID);
          each handles (fun handle => drop (ECancelNode CtxBackground handle));;
          mret true
        else watch_nodes runID failFast nodes
      else watch_nodes runID failFast nodes
  end.

(** One turn of the fast-fail watcher, every 100 ms until the run's context ends. *)
Definition watch_tick (runID : string) (failFast : bool) : prog bool :=
  r ← act (EListNodes runID);
  match r with
  | Err _ => mret false
  | Ok nodes => watch_nodes runID failFast nodes
  end.

(** The callback that skips a node whose dependency failed: was it skipped? *)
Definition skip_node (fastFailRootNodeID nodeID : string) (current : NodeRecord)
    : bool * NodeRecord :=
  if decide (nr_Status current = NodeStatusPending) then
    (true,
     let current := current <| nr_Status := NodeStatusSkipped |>
       <| nr_TerminalFailureReason := "dependency_failed" |>
       <| nr_TerminalStopCause := "failed" |> in
     if negb (streq fastFailRootNodeID "") && negb (streq fastFailRootNodeID nodeID)
     then current <| nr_CausedByNodeID := fastFailRootNodeID |> else current)
  else (false, current).

Definition skip_pending (runID fastFailRootNodeID : string) (node : Node) : prog unit :=
  occurredAt ← act ENow;
  r ← act (EUpdateNode runID (n_NodeID node) (skip_node fastFailRootNodeID (n_NodeID node)));
  match r with
  | Ok true =>
      log ((node_event runID (n_NodeID node) "node.skipped" occurredAt "warn")
        <| ev_StopCause := "failed" |> <| ev_FailureReason := "dependency_failed" |>
        <| ev_Message := causedByMessage fastFailRootNodeID |>)
  | _ => mret tt
  end.

(** The loop over the edges, with the in-degrees it counts. *)
Fixpoint add_edges (edges : list (list string)) (inDegree : gmap string Z)
    : prog (res (gmap string Z)) :=
  match edges with
  | [] => mret (Ok inDegree)
  | [from; to] :: edges =>
      r ← act (EDagAddEdge from to);
      match r with
      | Err err => mret (Err err)
      | Ok _ => add_edges edges (<[to := (default 0 (inDegree !! to) + 1)%Z]> inDegree)
      end
  | _ :: _ => mret (Err (Errorf "invalid edge shape"))
  end.

(** The loop over [inDegree], in the order Go visits the map. *)
Fixpoint add_starts (ids : list string) (inDegree : gmap string Z) : prog (option GoError) :=
  match ids with
  | [] => mret None
  | nodeID :: ids =>
      if (default 0 (inDegree !! nodeID) =? 0)%Z then
        try act (EDagAddStartEdge nodeID); add_starts ids inDegree
      else add_starts ids inDegree
  end.

(** [runGraph] up to [GetReady]. *)
Definition build_graph (ctx : Ctx) (graph : Graph) : prog (option GoError) :=
  try act EDagInit;
  each (g_Nodes graph) (fun node => act (EDagCreateNode (n_NodeID node)));;
  inDegree ←? add_edges (g_Edges graph)
    (foldl (fun m node => <[n_NodeID node := 0%Z]> m) ∅ (g_Nodes graph));
  s ← add_starts (range_keys (dom inDegree)) inDegree;
  match s with
  | Some err => mret (Some err)
  | None =>
      try act EDagFinish;
      missing ← act (EDagSetNodeRunners (g_Nodes graph));
      match missing with
      | _ :: _ => mret (Some (Errorf ("failed to set dag-go runners for nodes: ["
                    +:+ str_join " " missing +:+ "]")))
      | [] =>
          connected ← act EDagConnectRunner;
          if negb connected then mret (Some (Errorf "failed to connect runners"))
          else
            ready ← act (EDagGetReady ctx);
            if negb ready then mret (Some (Errorf "failed to initialize dag worker pool"))
            else mret None
      end
  end.

(** [runGraph] after [d.Wait] answered false. The error made of the watcher's text
    is a fresh one, which no sentinel is. *)
Definition graph_failed (run : RunRecord) (graph : Graph) : prog (option GoError) :=
  unresolved ← act EIsUnresolved;
  if unresolved : bool then mret (Some errRunUnresolved)
  else
    first ← act ETryReceiveFirstErr;
    let runErr := match first with Some err => error_text err | None => "dag execution failed" end in
    root ← act ETryReceiveFastFailRoot;
    each (g_Nodes graph) (skip_pending (rr_RunID run) (default "" root));;
    mret (Some (Errorf runErr)).

Definition runGraph (ctx : Ctx) (run : RunRecord) : prog (option GoError) :=
  let graph := ApplyDefaults (es_Graph (rr_Spec run)) (es_Defaults (rr_Spec run)) in
  b ← build_graph ctx graph;
  match b with
  | Some err => mret (Some err)
  | None =>
      t ← act ENow;
      drop (EUpdateRun (rr_RunID run) (fun current => (tt,
        current <| rr_Status := RunStatusRunning |> <| rr_CurrentBottleneckLocation := "running" |>)));;
      log ((run_event (rr_RunID run) "run.running" t "info")
        <| ev_Message := "run execution started" |>);;
      let mode := fp_Mode (rm_FailurePolicy (es_Run (rr_Spec run))) in
      let failFast := streq mode "" || streq mode "fail-fast" in
      act (EGoWatcher (rr_RunID run) failFast);;
      started ← act EDagStart;
      if negb started then mret (Some (Errorf "failed to start dag"))
      else
        ok ← act (EDagWait ctx);
        if negb ok then graph_failed run graph else mret None
  end.

(** ** The end of a run *)

(** A handoff call of [finalizeRun] failed: note it, and make a run that would
    have succeeded a failed one. [inl]: go on; [inr]: the value returned. *)
Definition handoff_failed (runID typ reason : string) (err : GoError) (t : tally)
    : prog (tally + GoError) :=
  at_ ← act ENow;
  log ((run_event runID typ at_ "error") <| ev_StopCause := "failed" |>
    <| ev_FailureReason := reason |> <| ev_Message := error_text err |>);;
  if decide (ta_Status t = RunStatusSucceeded) then
    let t := t <| ta_Status := RunStatusFailed |> <| ta_Cause := "failed" |>
               <| ta_Reason := reason |> in
    u ← act (EUpdateRun runID (fun current => (tt, current <| rr_Status := RunStatusFailed |>
      <| rr_TerminalStopCause := "failed" |> <| rr_TerminalFailureReason := reason |>)));
    match u with Err err => mret (inr err) | Ok _ => mret (inl t) end
  else mret (inl t).

(** [finalizeRun] after the write of the outcome. *)
Definition finalize_handoff (runID sample : string) (now : Z) (t : tally)
    : prog (option GoError) :=
  r ← act (EFinalizeSampleRun sample);
  f ← match r with
      | Err err => handoff_failed runID "run.handoff.finalize_failed" "handoff_finalize_error" err t
      | Ok _ => act (EMetric SampleRunsFinalized);; mret (inl t)
      end;
  match f with
  | inr err => mret (Some err)
  | inl t =>
      r ← act (EEvaluateGC sample);
      f ← match r with
          | Err err =>
              handoff_failed runID "run.handoff.gc_evaluate_failed" "handoff_gc_evaluate_error" err t
          | Ok _ => act (EMetric GCEvaluateRequests);; mret (inl t)
          end;
      match f with
      | inr err => mret (Some err)
      | inl t =>
          log ((run_event runID "run.completed" now (eventLevelForRunStatus (ta_Status t)))
            <| ev_StopCause := ta_Cause t |> <| ev_FailureReason := ta_Reason t |>
            <| ev_Message := RunStatus_string (ta_Status t) |>);;
          mret None
      end
  end.

Definition finalizeRun (runID : string) (succeeded : bool) (reason : string)
    : prog (option GoError) :=
  run ←? act (EGetRun runID);
  nodes ←? act (EListNodes runID);
  now ← act ENow;
  let t := tally_run run nodes succeeded reason in
  try act (EUpdateRun runID (fun current => (tt, current <| rr_Status := ta_Status t |>
    <| rr_FinishedAt := Some now |> <| rr_Counters := ta_Counters t |>
    <| rr_TerminalStopCause := ta_Cause t |> <| rr_TerminalFailureReason := ta_Reason t |>
    <| rr_CurrentBottleneckLocation := "" |>)));
  finalize_handoff runID (FirstNonEmpty [rm_SampleRunID (es_Run (rr_Spec run)); runID]) now t.

(** [finalizeRun] failed: a run still shown running becomes failed. *)
Definition finalize_error (run : RunRecord) : unit * RunRecord :=
  (tt, if decide (rr_Status run = RunStatusRunning)
       then run <| rr_Status := RunStatusFailed |> <| rr_TerminalStopCause := "failed" |>
                <| rr_TerminalFailureReason := "finalize_error" |>
       else run).

Definition mark_run_unresolved (run : RunRecord) : unit * RunRecord :=
  (tt, if negb (RunStatus_IsTerminal (rr_Status run))
       then run <| rr_CurrentBottleneckLocation := "reconcile_unresolved" |> else run).

(** [executeRun] after the graph returned. *)
Definition conclude_run (runID : string) (graphErr : option GoError) : prog unit :=
  match graphErr with
  | Some err =>
      if errors_is err errRunUnresolved then
        drop (EUpdateRun runID mark_run_unresolved);;
        t ← act ENow;
        log ((run_event runID "run.recovery.unresolved" t "warn")
          <| ev_FailureReason := "reconcile_unresolved" |>
          <| ev_Message := "run left non-terminal: backend truth unresolved (recoverable on next reconcile)" |>)
      else
        ferr ← finalizeRun runID false (error_text err);
        match ferr with
        | Some _ => drop (EUpdateRun runID finalize_error)
        | None => mret tt
        end
  | None =>
      ferr ← finalizeRun runID true "";
      match ferr with
      | Some _ => drop (EUpdateRun runID finalize_error)
      | None => mret tt
      end
  end.

Definition executeRun (runID : string) : prog unit :=
  r ← act (EGetRun runID);
  match r with
  | Err _ => mret tt
  | Ok run =>
      act (ERegisterActive runID);;
      err ← runGraph CtxLive run;
      conclude_run runID err;;
      act (ECancelActive runID);;
      act (EUnregisterActive runID)
  end.

(** ** Recovery at start-up *)
Definition runHasNonTerminalNode (runID : string) : prog bool :=
  r ← act (EListNodes runID);
  mret (match r with
        | Err _ => false
        | Ok nodes => existsb (fun node => negb (NodeStatus_IsTerminal (nr_Status node))) nodes
        end).

(** The nodes are driven by one goroutine each; here one after the other, in the
    order they are started: each works on its own node's records. Interleaved with
    one another they are goroutines of [Goroutines]. *)
Definition recoverCanceledRun (run : RunRecord) : prog unit :=
  act (ERegisterActive (rr_RunID run));;
  each (g_Nodes (es_Graph (rr_Spec run))) (fun node =>
    bind (driveCancellation caps (rr_RunID run) node CtxLive new_runner) (fun _ => mret tt));;
  left ← runHasNonTerminalNode (rr_RunID run);
  (if negb left then
     t ← act ENow;
     log ((run_event (rr_RunID run) "run.recovery.cancel_completed" t "info")
       <| ev_StopCause := "canceled" |>
       <| ev_Message := "all nodes driven to terminal truth after cancellation recovery" |>)
   else mret tt);;
  act (ECancelActive (rr_RunID run));;
  act (EUnregisterActive (rr_RunID run)).

Definition recover_one (run : RunRecord) : prog unit :=
  if RunStatus_IsTerminal (rr_Status run) then
    left ← runHasNonTerminalNode (rr_RunID run);
    if left : bool then
      t ← act ENow;
      log ((run_event (rr_RunID run) "run.recovery.cancel_resumed" t "warn") <| ev_Message :=
        "terminal run with non-terminal node re-driven to terminal truth by startup reconcile sweep" |>);;
      act (EGoRecoverCanceledRun run)
    else mret tt
  else
    t ← act ENow;
    log ((run_event (rr_RunID run) "run.recovery.resumed" t "info")
      <| ev_Message := "run resumed by startup reconcile sweep" |>);;
    act (EGoExecuteRun (rr_RunID run)).

Definition Recover : prog (option GoError) :=
  runs ←? act EListRuns;
  each runs recover_one;;
  mret None.
End engine.
