(* ===== verification/EngineFacts.v ===== *)
(** * The run engines: outcome, cancellation, recovery

    The end of a run as a function of its nodes, the engines' operations on the
    in-memory registry, and what they never do whatever their calls answer. *)
From S2P Require Import Prelude GoStrings GoErrors Spec Validate Registry Memory Handoff Provenance.
From S2P Require Import BackendTypes Reconcile Prog Runner RunnerTermination MemoryWorld.
From S2P Require Import MemoryFacts Engine.

(** ** The outcome of a run *)
Definition with_status (s : NodeStatus) (n : NodeRecord) : bool := bool_decide (nr_Status n = s).
Definition in_flight (n : NodeRecord) : bool :=
  match nr_Status n with
  | NodeStatusRunning | NodeStatusStarting | NodeStatusReleasing | NodeStatusReady => true
  | _ => false
  end.

Definition counts (nodes : list NodeRecord) : RunCounters :=
  {| rc_TotalNodes := Z.of_nat (length nodes);
     rc_SucceededNodes := countb (with_status NodeStatusSucceeded) nodes;
     rc_FailedNodes := countb (with_status NodeStatusFailed) nodes;
     rc_CanceledNodes := countb (with_status NodeStatusCanceled) nodes;
     rc_SkippedNodes := countb (with_status NodeStatusSkipped) nodes;
     rc_RunningNodes := countb in_flight nodes |}.

(** What a run ends as: cancellation first, then failure, then canceled nodes. *)
Definition outcome (run : RunRecord) (nodes : list NodeRecord) (succeeded : bool) : RunStatus :=
  if decide (rr_Status run = RunStatusCanceled) then RunStatusCanceled
  else if existsb (with_status NodeStatusFailed) nodes then RunStatusFailed
  else if existsb (with_status NodeStatusCanceled) nodes then RunStatusCanceled
  else if succeeded then RunStatusSucceeded else RunStatusFailed.

Definition stop_cause (s : RunStatus) : string :=
  match s with
  | RunStatusSucceeded => "finished" | RunStatusCanceled => "canceled" | _ => "failed"
  end.

(** The reasons of the nodes that a predicate selects, in order. *)
Definition reasons (p : NodeRecord -> bool) (nodes : list NodeRecord) : list string :=
  nr_TerminalFailureReason <$> List.filter p nodes.

Fixpoint before_failure (nodes : list NodeRecord) : list NodeRecord :=
  match nodes with
  | [] => []
  | x :: nodes => if with_status NodeStatusFailed x then [] else x :: before_failure nodes
  end.

(** The reason the nodes give: the last one of a canceled node that is listed before
    every failed one, else the first one of a failed node. *)
Definition nodes_reason (nodes : list NodeRecord) : string :=
  FirstNonEmpty (rev (reasons (with_status NodeStatusCanceled) (before_failure nodes))
    ++ reasons (with_status NodeStatusFailed) nodes).

(** The reason a run ends with; [reason] is that of its graph. *)
Definition end_reason (run : RunRecord) (nodes : list NodeRecord) (succeeded : bool) (reason : string) : string :=
  if decide (rr_Status run = RunStatusCanceled)
  then FirstNonEmpty [rr_TerminalFailureReason run; nodes_reason nodes; reason; "cancellation_requested"]
  else if existsb (with_status NodeStatusFailed) nodes || existsb (with_status NodeStatusCanceled) nodes || succeeded
  then nodes_reason nodes
  else reason.

(** The nodes seen so far. *)
Definition nodes_status (nodes : list NodeRecord) : RunStatus :=
  if existsb (with_status NodeStatusFailed) nodes then RunStatusFailed
  else if existsb (with_status NodeStatusCanceled) nodes then RunStatusCanceled
  else RunStatusSucceeded.

Lemma countb_snoc {A} (p : A -> bool) l x :
  countb p (l ++ [x]) = (countb p l + if p x then 1 else 0)%Z.
Proof. rewrite countb_app, countb_cons. change (countb p []) with 0%Z. destruct (p x); lia. Qed.

(** Evaluate the comparisons of concrete statuses. *)
Ltac eval_statuses :=
  repeat match goal with
  | |- context [bool_decide (?a = ?b)] =>
      let v := eval vm_compute in (bool_decide (a = b)) in
      change (bool_decide (a = b)) with v
  end.

Lemma tally_step nodes x total t :
  ta_Counters t = (counts nodes) <| rc_TotalNodes := total |> ->
  ta_Status t = nodes_status nodes -> ta_Cause t = stop_cause (nodes_status nodes) ->
  let t' := tally_node t x in
  ta_Counters t' = (counts (nodes ++ [x])) <| rc_TotalNodes := total |> /\
  ta_Status t' = nodes_status (nodes ++ [x]) /\
  ta_Cause t' = stop_cause (nodes_status (nodes ++ [x])).
Proof.
  intros Hc Hs Ha. cbv zeta. unfold counts, nodes_status in *.
  rewrite !existsb_app, !countb_snoc. cbn [existsb].
  unfold with_status at 2 4 6 8 10 12 14 16, in_flight at 2. unfold tally_node.
  destruct (nr_Status x); eval_statuses; cbn -[countb].
  all: rewrite ?Hs, ?Hc, ?Ha; destruct (existsb (with_status NodeStatusFailed) nodes);
    destruct (existsb (with_status NodeStatusCanceled) nodes); cbn -[countb].
  all: rewrite ?Hs, ?Hc, ?Ha, ?Z.add_0_r; try done.
Qed.

Lemma tally_nodes nodes total :
  let t := foldl tally_node (mkTally (zero_RunCounters <| rc_TotalNodes := total |>)
                               RunStatusSucceeded "finished" "") nodes in
  ta_Counters t = (counts nodes) <| rc_TotalNodes := total |> /\
  ta_Status t = nodes_status nodes /\ ta_Cause t = stop_cause (nodes_status nodes).
Proof.
  cbv zeta. induction nodes as [|x l (H1 & H2 & H3)] using rev_ind; [done|].
  rewrite foldl_snoc. by apply tally_step.
Qed.

Lemma FirstNonEmpty_app l l' : FirstNonEmpty (l ++ l') = FirstNonEmpty [FirstNonEmpty l; FirstNonEmpty l'].
Proof.
  induction l as [|x l IH]; cbn; [by destruct (streq (FirstNonEmpty l') "") eqn:E; str_tests; rewrite ?E|].
  destruct (streq x "") eqn:E; cbn; [exact IH|]. by rewrite E.
Qed.

Lemma FirstNonEmpty_one x : FirstNonEmpty [x] = x.
Proof. cbn. by destruct (streq x "") eqn:E; str_tests. Qed.

Lemma FirstNonEmpty_snoc l x : FirstNonEmpty (l ++ [x]) = FirstNonEmpty [FirstNonEmpty l; x].
Proof. by rewrite FirstNonEmpty_app, FirstNonEmpty_one. Qed.

Lemma FirstNonEmpty_cons x l : FirstNonEmpty (x :: l) = FirstNonEmpty [x; FirstNonEmpty l].
Proof. change (x :: l) with ([x] ++ l). by rewrite FirstNonEmpty_app, FirstNonEmpty_one. Qed.

Lemma FirstNonEmpty_two x y : FirstNonEmpty [x; y] = if streq x "" then y else x.
Proof. rewrite FirstNonEmpty_cons, FirstNonEmpty_one. cbn. destruct (streq x ""); [exact (FirstNonEmpty_one y)|done]. Qed.

Lemma reasons_snoc p nodes x : reasons p (nodes ++ [x]) = reasons p nodes ++ (if p x then [nr_TerminalFailureReason x] else []).
Proof. unfold reasons. rewrite List.filter_app, fmap_app. cbn. by destruct (p x). Qed.

Lemma before_failure_snoc nodes x :
  before_failure (nodes ++ [x]) = before_failure nodes ++
    (if existsb (with_status NodeStatusFailed) nodes || with_status NodeStatusFailed x then [] else [x]).
Proof.
  induction nodes as [|y nodes IH]; cbn; [by destruct (with_status _ x)|].
  destruct (with_status NodeStatusFailed y); [done|]. by rewrite IH.
Qed.

Lemma no_failed_reasons nodes :
  existsb (with_status NodeStatusFailed) nodes = false -> reasons (with_status NodeStatusFailed) nodes = [].
Proof.
  induction nodes as [|x nodes IH]; [done|]. cbn. intros [Hx Hn]%orb_false_iff. unfold reasons. cbn.
  rewrite Hx. by apply IH.
Qed.

Lemma nodes_reason_snoc nodes x :
  nodes_reason (nodes ++ [x]) =
  match nr_Status x with
  | NodeStatusFailed => FirstNonEmpty [nodes_reason nodes; nr_TerminalFailureReason x]
  | NodeStatusCanceled =>
      if existsb (with_status NodeStatusFailed) nodes then nodes_reason nodes
      else FirstNonEmpty [nr_TerminalFailureReason x; nodes_reason nodes]
  | _ => nodes_reason nodes
  end.
Proof.
  assert (HF : with_status NodeStatusFailed x = match nr_Status x with NodeStatusFailed => true | _ => false end)
    by (unfold with_status; by destruct (nr_Status x)).
  assert (HC : with_status NodeStatusCanceled x = match nr_Status x with NodeStatusCanceled => true | _ => false end)
    by (unfold with_status; by destruct (nr_Status x)).
  unfold nodes_reason. rewrite before_failure_snoc, (reasons_snoc (with_status NodeStatusFailed)), HF.
  destruct (existsb (with_status NodeStatusFailed) nodes) eqn:Ef; cbn [orb];
    [|rewrite (no_failed_reasons nodes Ef)]; destruct (nr_Status x); rewrite ?app_nil_r, ?reasons_snoc, ?HC, ?app_nil_r; try done.
  - by rewrite app_assoc, FirstNonEmpty_snoc.
  - by rewrite app_nil_l, FirstNonEmpty_snoc.
  - rewrite rev_app_distr. apply FirstNonEmpty_cons.
Qed.

Lemma countb_and {A} (p q : A -> bool) l :
  (forall x, p x = true -> q x = false) ->
  (countb p l + countb q l = countb (fun x => p x || q x) l)%Z.
Proof.
  intros H. induction l as [|x l IH]; [done|]. rewrite !countb_cons. specialize (H x).
  destruct (p x); [rewrite H by done|]; destruct (q x); simpl; lia.
Qed.

Lemma tally_run_status run nodes succeeded reason :
  let t := tally_run run nodes succeeded reason in
  ta_Status t = outcome run nodes succeeded /\
  ta_Cause t = stop_cause (outcome run nodes succeeded) /\ ta_Counters t = counts nodes.
Proof.
  cbv zeta. unfold tally_run, outcome.
  destruct (tally_nodes nodes (Z.of_nat (length nodes))) as (H1 & H2 & H3).
  set (t0 := foldl _ _ nodes) in *.
  assert (Hc : ta_Counters t0 = counts nodes) by (rewrite H1; done). clear H1.
  destruct (decide (rr_Status run = RunStatusCanceled)) as [Hr|Hr].
  - cbn. by rewrite andb_false_r.
  - rewrite H2. unfold nodes_status in *.
    destruct (existsb (with_status NodeStatusFailed) nodes);
      [|destruct (existsb (with_status NodeStatusCanceled) nodes)]; eval_statuses;
      rewrite ?andb_false_r, ?andb_true_r; [by split_and!..|].
    destruct succeeded; cbn -[counts]; by split_and!.
Qed.

Lemma tally_nodes_reason nodes total :
  ta_Reason (foldl tally_node (mkTally (zero_RunCounters <| rc_TotalNodes := total |>)
               RunStatusSucceeded "finished" "") nodes) = nodes_reason nodes.
Proof.
  induction nodes as [|x l IH] using rev_ind; [done|].
  destruct (tally_nodes l total) as (_ & Hs & _). rewrite foldl_snoc, nodes_reason_snoc, <- IH.
  set (t := foldl _ _ l) in *. clearbody t. unfold tally_node, nodes_status in *. destruct (nr_Status x); try done.
  - by rewrite FirstNonEmpty_two.
  - cbn -[FirstNonEmpty]. rewrite Hs. destruct (existsb (with_status NodeStatusFailed) l); [done|].
    by destruct (existsb _ l).
Qed.

Lemma no_reason nodes :
  existsb (with_status NodeStatusFailed) nodes = false -> existsb (with_status NodeStatusCanceled) nodes = false ->
  nodes_reason nodes = "".
Proof.
  intros Hf Hc. unfold nodes_reason. rewrite (no_failed_reasons nodes Hf), app_nil_r.
  assert (H : reasons (with_status NodeStatusCanceled) (before_failure nodes) = []); [|by rewrite H].
  induction nodes as [|x l IH]; [done|]. cbn in *. apply orb_false_iff in Hf as [-> Hf], Hc as [Hx Hc].
  unfold reasons. cbn. rewrite Hx. by apply IH.
Qed.

Lemma tally_run_reason run nodes succeeded reason :
  ta_Reason (tally_run run nodes succeeded reason) = end_reason run nodes succeeded reason.
Proof.
  unfold tally_run, end_reason. pose proof (tally_nodes_reason nodes (Z.of_nat (length nodes))) as Hr.
  destruct (tally_nodes nodes (Z.of_nat (length nodes))) as (_ & Hs & _).
  set (t := foldl _ _ nodes) in *. clearbody t. destruct (decide (rr_Status run = RunStatusCanceled)).
  - cbn -[FirstNonEmpty]. rewrite andb_false_r. by rewrite Hr.
  - rewrite Hs. unfold nodes_status. destruct (existsb (with_status NodeStatusFailed) nodes) eqn:Ef;
      [|destruct (existsb (with_status NodeStatusCanceled) nodes) eqn:Ec]; eval_statuses; cbn [orb];
      rewrite ?andb_false_r, ?andb_true_r; [done..|].
    destruct succeeded; cbn; [done|]. by rewrite Hr, no_reason.
Qed.

(** How a run ends. A canceled run ends canceled; otherwise one failed node
    makes it failed, else one canceled node makes it canceled, else it succeeds
    exactly when its graph did. The stop cause follows the status, every counter
    is the number of nodes of its kind, and together they never exceed the
    number of nodes. *)
Theorem tally_run_outcome (run : RunRecord) (nodes : list NodeRecord) (succeeded : bool)
    (reason : string) :
  let t := tally_run run nodes succeeded reason in
  ta_Status t = outcome run nodes succeeded /\
  ta_Cause t = stop_cause (outcome run nodes succeeded) /\
  ta_Counters t = counts nodes /\
  (let c := ta_Counters t in
   rc_SucceededNodes c + rc_FailedNodes c + rc_CanceledNodes c + rc_SkippedNodes c
   + rc_RunningNodes c <= rc_TotalNodes c)%Z.
Proof.
  destruct (tally_run_status run nodes succeeded reason) as (H1 & H2 & H3). cbv zeta in *.
  split_and!; [done..|]. rewrite H3. cbn -[countb]. rewrite !countb_and; [apply countb_le_length|..].
  all: intros x; unfold with_status, in_flight; destruct (nr_Status x); eval_statuses; done.
Qed.

(** The reason is another matter: a canceled node listed before the failed one
    leaves its own reason on the failed run. *)
Example tally_reason_of_canceled :
  let canceled := zero_NodeRecord <| nr_NodeID := "a" |> <| nr_Status := NodeStatusCanceled |>
                    <| nr_TerminalFailureReason := "cancellation_requested" |> in
  let failed := zero_NodeRecord <| nr_NodeID := "b" |> <| nr_Status := NodeStatusFailed |>
                    <| nr_TerminalFailureReason := "exit_1" |> in
  let t := tally_run zero_RunRecord [canceled; failed] false "node b failed" in
  ta_Status t = RunStatusFailed /\ ta_Reason t = "cancellation_requested".
Proof. split; reflexivity. Qed.

(** ** On the in-memory registry *)
Section on_memory.
Context {BT : BackendTypes} {U : UnicodeTables} {RO : RangeOrder} {E : Type}.
Context (env : forall X, event X -> E -> E * X).

Local Notation exec := (run (memory_handle env)).

Lemma run_bind {A B} (p : prog A) (f : A -> prog B) w :
  exec (p ≫= f) w = let '(w, a) := exec p w in exec (f a) w.
Proof.
  revert w. induction p as [a|X e k IH]; intros w; [done|].
  change (exec (Vis e k ≫= f) w) with
    (let '(w, x) := memory_handle env X e w in exec (k x ≫= f) w).
  simpl. destruct (memory_handle env X e w) as [w' x]. apply IH.
Qed.

Lemma run_act {X} (e : event X) w : exec (act e) w = memory_handle env X e w.
Proof. simpl. by destruct (memory_handle env X e w). Qed.

(** A call of the environment leaves the registry alone. *)
Lemma run_log e w :
  (exec (log e) w).2 = tt /\ (exec (log e) w).1 = ((AppendEvent w.1 e).1, w.2).
Proof. destruct w as [m s]. simpl. by destruct (AppendEvent m e). Qed.

(** The parts of the registry that are not the log of events. *)
Definition same_records (m m' : MemoryRegistry) : Prop :=
  mr_runs m' = mr_runs m /\ mr_nodes m' = mr_nodes m /\ mr_attempts m' = mr_attempts m.

Lemma append_same m e : same_records m (AppendEvent m e).1.
Proof. unfold AppendEvent. by case_match. Qed.

(** The run record [finalizeRun] leaves. *)
Definition finished (now : Z) (t : tally) (run : RunRecord) : RunRecord :=
  run <| rr_Status := ta_Status t |> <| rr_FinishedAt := Some now |>
      <| rr_Counters := ta_Counters t |> <| rr_TerminalStopCause := ta_Cause t |>
      <| rr_TerminalFailureReason := ta_Reason t |> <| rr_CurrentBottleneckLocation := "" |>.

(** A successful run whose handoff call failed. *)
Definition demote (ok : bool) (reason : string) (t : tally) : tally :=
  if negb ok && bool_decide (ta_Status t = RunStatusSucceeded)
  then t <| ta_Status := RunStatusFailed |> <| ta_Cause := "failed" |> <| ta_Reason := reason |>
  else t.

Lemma run_handoff_failed id typ reason err t m s rec now :
  mr_runs m !! id = Some (finished now t rec) ->
  exists m', exec (handoff_failed id typ reason err t) (m, s) =
      ((m', (env _ ENow s).1), inl (demote false reason t)) /\
    mr_runs m' = <[id := finished now (demote false reason t) rec]> (mr_runs m) /\
    mr_nodes m' = mr_nodes m /\ mr_attempts m' = mr_attempts m.
Proof.
  intros Hr. unfold handoff_failed, demote. rewrite run_bind, run_act. cbn [memory_handle].
  destruct (env Z ENow s) as [s1 at_]. rewrite run_bind.
  set (ev := _ <| ev_Message := _ |>). destruct (run_log ev (m, s1)) as [_ Hl].
  destruct (exec (log ev) (m, s1)) as [[m1 s2] []]. cbn [fst snd] in Hl.
  injection Hl as -> ->. destruct (append_same m ev) as (H1 & H2 & H3).
  set (m1 := (AppendEvent m ev).1) in *. clearbody m1. cbn [andb negb].
  destruct (decide (ta_Status t = RunStatusSucceeded)) as [Hs|Hs].
  - rewrite bool_decide_eq_true_2 by done. rewrite run_bind, run_act.
    cbn [memory_handle]. unfold UpdateRun, infallible. rewrite H1, Hr. cbv beta iota zeta.
    eexists _. split; [reflexivity|]. cbn. split_and!; [|done..].
    f_equal.
  - rewrite bool_decide_eq_false_2 by done. exists m1. split; [reflexivity|].
    by rewrite H1, insert_id.
Qed.

(** The state of the environment after what follows a handoff call: a counter is
    incremented, or the clock is read to note the failure. *)
Definition env_after {X} (metric : Metric) (r : res X) (s : E) : E :=
  match r with Ok _ => (env _ (EMetric metric) s).1 | Err _ => (env _ ENow s).1 end.

(** After one handoff call, whatever it answered. *)
Lemma run_after_handoff {X} id typ reason (metric : Metric) t m s rec now (r : res X) :
  mr_runs m !! id = Some (finished now t rec) ->
  let t' := demote (is_ok r) reason t in
  exists m', exec (match r with
      | Err err => handoff_failed id typ reason err t
      | Ok _ => act (EMetric metric) ;; mret (inl t)
      end) (m, s) = ((m', env_after metric r s), inl t') /\
    mr_runs m' = <[id := finished now t' rec]> (mr_runs m) /\
    mr_nodes m' = mr_nodes m /\ mr_attempts m' = mr_attempts m.
Proof.
  intros Hr. destruct r as [x|err]; cbv zeta; [|by apply run_handoff_failed].
  rewrite run_bind, run_act. cbn [memory_handle].
  cbn [env_after]. destruct (env unit (EMetric metric) s) as [s1 []]. exists m.
  split; [done|]. cbn. by rewrite insert_id.
Qed.

Lemma run_finalize_handoff id sample now t m s rec :
  mr_runs m !! id = Some (finished now t rec) ->
  let '(s1, fin) := env _ (EFinalizeSampleRun sample) s in
  let '(_, gc) := env _ (EEvaluateGC sample) (env_after SampleRunsFinalized fin s1) in
  let t' := demote (is_ok gc) "handoff_gc_evaluate_error" (demote (is_ok fin) "handoff_finalize_error" t) in
  exists w, exec (finalize_handoff id sample now t) (m, s) = (w, None) /\
    mr_runs w.1 = <[id := finished now t' rec]> (mr_runs m) /\
    mr_nodes w.1 = mr_nodes m /\ mr_attempts w.1 = mr_attempts m.
Proof.
  intros Hr. unfold finalize_handoff. rewrite run_bind, run_act. cbn [memory_handle].
  destruct (env _ (EFinalizeSampleRun sample) s) as [s1 r1]. rewrite run_bind.
  destruct (run_after_handoff id "run.handoff.finalize_failed" "handoff_finalize_error"
    SampleRunsFinalized t m s1 rec now r1 Hr) as (m1 & -> & Hr1 & Hn1 & Ha1).
  rewrite run_bind, run_act. cbn [memory_handle].
  destruct (env _ (EEvaluateGC sample) (env_after SampleRunsFinalized r1 s1)) as [s2 r2]. rewrite run_bind.
  destruct (run_after_handoff id "run.handoff.gc_evaluate_failed" "handoff_gc_evaluate_error"
    GCEvaluateRequests (demote (is_ok r1) "handoff_finalize_error" t) m1 s2 rec now r2)
    as (m2 & -> & Hr2 & Hn2 & Ha2); [by rewrite Hr1, lookup_insert_eq|].
  rewrite run_bind. set (ev := _ <| ev_Message := _ |>).
  destruct (run_log ev (m2, env_after GCEvaluateRequests r2 s2)) as [_ Hl].
  destruct (exec (log ev) (m2, env_after GCEvaluateRequests r2 s2)) as [w []]. cbn [fst snd] in Hl.
  destruct (append_same m2 ev) as (H1 & H2 & H3). exists w. split; [done|]. subst w. cbn [fst].
  rewrite H1, H2, H3, Hr2, Hr1, insert_insert_eq. split_and!; congruence.
Qed.

(** The record of a run that has ended: [status] with its stop cause, the numbers of
    its nodes, and a reason. *)
Definition ended (now : Z) (nodes : list NodeRecord) (status : RunStatus) (reason : string) (run : RunRecord)
    : RunRecord :=
  run <| rr_Status := status |> <| rr_FinishedAt := Some now |> <| rr_Counters := counts nodes |>
      <| rr_TerminalStopCause := stop_cause status |> <| rr_TerminalFailureReason := reason |>
      <| rr_CurrentBottleneckLocation := "" |>.

(** The status and the reason that are left after the handoff calls. *)
Definition acknowledged (fin gc : bool) (status : RunStatus) (reason : string) : RunStatus * string :=
  match status with
  | RunStatusSucceeded =>
      if negb fin then (RunStatusFailed, "handoff_finalize_error")
      else if negb gc then (RunStatusFailed, "handoff_gc_evaluate_error")
      else (RunStatusSucceeded, reason)
  | _ => (status, reason)
  end.

Lemma finished_ended now run nodes succeeded reason fin gc :
  let '(status, why) := acknowledged fin gc (outcome run nodes succeeded) (end_reason run nodes succeeded reason) in
  finished now (demote gc "handoff_gc_evaluate_error"
    (demote fin "handoff_finalize_error" (tally_run run nodes succeeded reason))) run =
  ended now nodes status why run.
Proof.
  destruct (tally_run_status run nodes succeeded reason) as (H1 & H2 & H3).
  pose proof (tally_run_reason run nodes succeeded reason) as H4.
  set (t := tally_run run nodes succeeded reason) in *. clearbody t. destruct t as [c st cause why].
  cbn [ta_Status ta_Cause ta_Counters ta_Reason] in *. subst.
  unfold acknowledged, demote, ended, finished. destruct (outcome run nodes succeeded), fin, gc; reflexivity.
Qed.

(** C16. On the in-memory registry [finalizeRun] succeeds on a run that exists. The
    run ends canceled when it was canceled, otherwise failed when one of its nodes
    failed, otherwise canceled when one was canceled, otherwise as its graph did;
    except that a run that would have succeeded is failed when the sample run could
    not be finalized or its garbage collection not evaluated. Its counters are the
    numbers of its nodes of each kind, its stop cause is that of the status, and its
    reason that of the canceled run or of its nodes, of the graph, or of the handoff
    call that failed. Nothing else in the registry changes but the event log. *)
Theorem finalizeRun_on_memory (runID : string) (succeeded : bool) (reason : string)
    (m : MemoryRegistry) (s : E) (run : RunRecord) (nodes : list NodeRecord) :
  mr_runs m !! runID = Some run -> ListNodes m runID = Ok nodes ->
  let sample := FirstNonEmpty [rm_SampleRunID (es_Run (rr_Spec run)); runID] in
  let '(s0, now) := env _ ENow s in
  let '(s1, fin) := env _ (EFinalizeSampleRun sample) s0 in
  let '(_, gc) := env _ (EEvaluateGC sample) (env_after SampleRunsFinalized fin s1) in
  let '(status, why) :=
    acknowledged (is_ok fin) (is_ok gc) (outcome run nodes succeeded) (end_reason run nodes succeeded reason) in
  exists m' s',
    exec (finalizeRun runID succeeded reason) (m, s) = ((m', s'), None) /\
    mr_runs m' = <[runID := ended now nodes status why run]> (mr_runs m) /\
    mr_nodes m' = mr_nodes m /\ mr_attempts m' = mr_attempts m.
Proof.
  intros Hr Hn sample. unfold finalizeRun. rewrite run_bind, run_act. cbn [memory_handle].
  unfold GetRun. rewrite Hr. cbv beta iota. rewrite run_bind, run_act. cbn [memory_handle].
  rewrite Hn. cbv beta iota. rewrite run_bind, run_act. cbn [memory_handle].
  destruct (env Z ENow s) as [s0 now]. rewrite run_bind, run_act. cbn [memory_handle].
  unfold UpdateRun, infallible. rewrite Hr. cbv beta iota zeta.
  set (t := tally_run run nodes succeeded reason). set (m1 := m <| mr_runs := _ |>).
  assert (H1 : mr_runs m1 !! runID = Some (finished now t run)) by apply lookup_insert_eq.
  pose proof (run_finalize_handoff runID sample now t m1 s0 run H1) as Hf. fold sample.
  destruct (env _ (EFinalizeSampleRun sample) s0) as [s1 fin].
  destruct (env _ (EEvaluateGC sample) (env_after SampleRunsFinalized fin s1)) as [s2 gc].
  destruct Hf as (w & He & Hrun & Hnode & Hatt).
  pose proof (finished_ended now run nodes succeeded reason (is_ok fin) (is_ok gc)) as Hend.
  destruct (acknowledged _ _ _ _) as [status why]. exists w.1, w.2.
  split_and!; [by destruct w| |done|done]. rewrite Hrun. fold t in Hend. rewrite Hend. unfold m1. cbn.
  by rewrite insert_insert_eq.
Qed.

(** ** Cancellation *)

(** Calls that the environment answers. *)
Definition outside (X : Type) (e : event X) : Prop :=
  match e with
  | EGetRun _ | EListRuns | EGetNode _ _ | EListNodes _ | EListAttempts _ _
  | EGetCurrentAttempt _ _ | EUpdateRun _ _ | EUpdateNode _ _ _ | EUpsertAttempt _
  | EAppendEvent _ | EAllocateCurrentAttempt _ _ | EOpenSemanticAttempt _ _ _ _
  | EPersistBackendHandle _ _ _ _ | EPersistCancellationIntent _ _ _ _ _
  | EPersistProcessCompleted _ _ _ _ => False
  | _ => True
  end.

Lemma run_outside {A} (p : prog A) m s :
  emits outside p -> exists s' a, exec p (m, s) = ((m, s'), a).
Proof.
  revert s. induction p as [a|X e k IH]; intros s; [by exists s, a|]. intros [He Hk].
  change (exec (Vis e k) (m, s)) with
    (let '(w, x) := memory_handle env X e (m, s) in exec (k x) w).
  assert (Hm : exists s1 x, memory_handle env X e (m, s) = ((m, s1), x)).
  { destruct e; try done; simpl; match goal with |- context [env ?Y ?f s] =>
      destruct (env Y f s) as [s1 x]; by exists s1, x end. }
  destruct Hm as (s1 & x & ->). by apply IH.
Qed.

Lemma emits_each P {A} (l : list A) body :
  (forall x, emits P (body x)) -> emits P (each l body).
Proof. intros H. induction l as [|x l IH]; [done|]. simpl. by apply emits_bind. Qed.

(** What canceling leaves of a run and of a node, and the attempt that the intent
    of a running node is noted on. *)
Definition canceled_run (reason : string) (run : RunRecord) : RunRecord :=
  if RunStatus_IsTerminal (rr_Status run) then run
  else run <| rr_Status := RunStatusCanceled |> <| rr_TerminalStopCause := "canceled" |>
           <| rr_TerminalFailureReason := FirstNonEmpty [reason; "cancellation_requested"] |>
           <| rr_CurrentBottleneckLocation := "" |>.

(** Running, or with no status at all, which no record of the program has. *)
Definition shown_running (x : NodeRecord) : bool :=
  match nr_Status x with NodeStatusRunning | NodeStatusUnset => true | _ => false end.

Definition canceled_node (reason : string) (now : Z) (x : NodeRecord) : NodeRecord :=
  if NodeStatus_IsTerminal (nr_Status x) then x
  else if shown_running x then x <| nr_CurrentBottleneckLocation := "canceling" |>
  else x <| nr_Status := NodeStatusCanceled |> <| nr_TerminalStopCause := "canceled" |>
         <| nr_TerminalFailureReason := FirstNonEmpty [reason; "cancellation_requested"] |>
         <| nr_CurrentBottleneckLocation := "" |> <| nr_FinishedAt := Some now |>.

Definition intent_of (x : NodeRecord) : string :=
  if shown_running x then nr_CurrentAttemptID x else "".

Definition with_intent (reason : string) (now : Z) (node : option NodeRecord) (attemptID : string)
    (a : AttemptRecord) : AttemptRecord :=
  let intent := match node with Some cur => intent_of cur | None => "" end in
  if negb (streq intent "") && streq intent attemptID
  then a <| ar_CancellationRequestedAt := Some now |>
         <| ar_CancellationReason := FirstNonEmpty [reason; "cancellation_requested"] |>
  else a.

Lemma cancel_run_spec reason run : cancel_run reason run = (tt, canceled_run reason run).
Proof. unfold cancel_run, canceled_run. by destruct (rr_Status run). Qed.

Lemma cancel_node_spec reason now x : exists b,
  cancel_node reason now x = ((b, intent_of x), canceled_node reason now x).
Proof.
  unfold cancel_node, canceled_node, intent_of, shown_running.
  destruct (nr_Status x); simpl; try (by exists false); by exists true.
Qed.

(** Noting the intent of a node's current attempt, when it has one. *)
Lemma run_intent id name intent reason now m s :
  exists m', exec (if negb (streq intent "")
      then drop (EPersistCancellationIntent id name intent now (cancel_reason reason))
      else mret tt) (m, s) = ((m', s), tt) /\ mr_runs m' = mr_runs m /\
    (forall i n, get_node m' i n = get_node m i n) /\
    (forall i n a, get_attempt m' i n a =
       (if decide (id = i /\ name = n)
        then fun x => if negb (streq intent "") && streq intent a
             then x <| ar_CancellationRequestedAt := Some now |>
                    <| ar_CancellationReason := FirstNonEmpty [reason; "cancellation_requested"] |> else x
        else fun x => x) <$> get_attempt m i n a).
Proof.
  destruct (streq intent "") eqn:Ei; simpl.
  { exists m. split_and!; try done. intros i n a. by destruct (decide _), (get_attempt m i n a). }
  unfold PersistCancellationIntent. rewrite mutate_attempt_spec.
  destruct (get_attempt m id name intent) as [att|] eqn:Ea.
  - eexists. split_and!; [reflexivity|done|done|]. intros i n a.
    rewrite get_attempt_put by (by eapply has_map_of_attempt).
    destruct (decide (id = i /\ name = n /\ intent = a)) as [(<- & <- & <-)|Hd].
    { rewrite decide_True by done. by rewrite Ea, streq_refl. }
    destruct (decide (id = i /\ name = n)) as [[<- <-]|]; [|by destruct (get_attempt m i n a)].
    destruct (streq intent a) eqn:Es; [apply streq_eq in Es; by destruct Hd|].
    by destruct (get_attempt _ _ _ a).
  - exists m. split_and!; try done. intros i n a.
    case_decide as Hd; [|by destruct (get_attempt m i n a)]. destruct Hd as [<- <-].
    destruct (streq intent a) eqn:Es; [apply streq_eq in Es as <-; by rewrite Ea|].
    by destruct (get_attempt _ _ _ a).
Qed.

Lemma run_cancel_one id reason now node m s cur :
  get_node m id (nr_NodeID node) = Some cur ->
  exists m', exec (cancel_one id reason now node) (m, s) = ((m', s), tt) /\
    mr_runs m' = mr_runs m /\
    (forall i n, get_node m' i n = if decide (id = i /\ nr_NodeID node = n)
                                   then Some (canceled_node reason now cur) else get_node m i n) /\
    (forall i n a, get_attempt m' i n a =
       (if decide (id = i /\ nr_NodeID node = n) then with_intent reason now (Some cur) a
        else fun x => x) <$> get_attempt m i n a).
Proof.
  intros Hn. unfold cancel_one. rewrite run_bind, run_act. cbn [memory_handle].
  unfold UpdateNode, infallible. rewrite get_node_locked, Hn.
  destruct (cancel_node_spec reason now cur) as [done_ ->]. cbv beta iota zeta.
  rewrite run_bind. set (m1 := put_node m id (nr_NodeID node) (canceled_node reason now cur)).
  assert (Hn1 : forall i n, get_node m1 i n = if decide (id = i /\ nr_NodeID node = n)
                                   then Some (canceled_node reason now cur) else get_node m i n).
  { intros i n. apply get_node_put. by rewrite Hn. }
  destruct (run_intent id (nr_NodeID node) (intent_of cur) reason now m1 s)
    as (m2 & -> & Hr2 & Hn2 & Ha2).
  destruct done_; [|exists m2; split_and!; [done|done|intros i n; by rewrite Hn2|done]].
  set (ev := _ <| ev_FailureReason := _ |>). destruct (run_log ev (m2, s)) as [H1 H2].
  destruct (exec (log ev) (m2, s)) as [w []]. cbn [fst snd] in H2. subst w.
  destruct (append_same m2 ev) as (E1 & E2 & E3). eexists. split; [reflexivity|].
  split_and!; [by rewrite E1| |].
  - intros i n. rewrite <- Hn1, <- Hn2. unfold get_node. by rewrite E2.
  - intros i n a. unfold get_attempt at 1, node_attempts. rewrite E3.
    exact (Ha2 i n a).
Qed.

Lemma run_cancel_each id reason now l m s :
  NoDup (nr_NodeID <$> l) -> (forall x, x ∈ l -> get_node m id (nr_NodeID x) = Some x) ->
  exists m', exec (each l (cancel_one id reason now)) (m, s) = ((m', s), tt) /\
    mr_runs m' = mr_runs m /\
    (forall i n, get_node m' i n =
       (if decide (id = i /\ n ∈ nr_NodeID <$> l) then canceled_node reason now
        else fun x => x) <$> get_node m i n) /\
    (forall i n a, get_attempt m' i n a =
       (if decide (id = i /\ n ∈ nr_NodeID <$> l) then with_intent reason now (get_node m i n) a
        else fun x => x) <$> get_attempt m i n a).
Proof.
  revert m. induction l as [|x l IH]; intros m Hnd Hl.
  { exists m. split_and!; [done|done|intros i n|intros i n a].
    all: rewrite decide_False by (by intros [_ ?%not_elem_of_nil]).
    - by destruct (get_node m i n).
    - by destruct (get_attempt m i n a). }
  rewrite fmap_cons in Hnd. apply NoDup_cons in Hnd as [Hx Hnd].
  assert (Hgx : get_node m id (nr_NodeID x) = Some x) by (apply Hl, elem_of_cons; by left).
  destruct (run_cancel_one id reason now x m s x Hgx) as (m1 & He1 & Hr1 & Hn1 & Ha1).
  cbn [each]. rewrite run_bind, He1. destruct (IH m1 Hnd) as (m2 & He2 & Hr2 & Hn2 & Ha2).
  { intros y Hy. rewrite Hn1, decide_False; [by apply Hl, elem_of_cons; right|].
    intros [_ Heq]. apply Hx. rewrite Heq. by apply list_elem_of_fmap_2. }
  exists m2. split_and!; [done|congruence|intros i n|intros i n a].
  - rewrite Hn2, Hn1. destruct (decide (id = i /\ nr_NodeID x = n)) as [[<- <-]|Hd].
    + rewrite (decide_False (P := id = id /\ nr_NodeID x ∈ _)) by (by intros [_ ?]).
      rewrite decide_True by (split; [done|apply elem_of_cons; by left]). by rewrite Hgx.
    + f_equal. apply decide_ext. rewrite fmap_cons, elem_of_cons. naive_solver.
  - rewrite Ha2, Ha1, Hn1. destruct (decide (id = i /\ nr_NodeID x = n)) as [[<- <-]|Hd].
    + rewrite (decide_False (P := id = id /\ nr_NodeID x ∈ _)) by (by intros [_ ?]).
      rewrite decide_True by (split; [done|apply elem_of_cons; by left]).
      rewrite Hgx. by destruct (get_attempt m id _ a).
    + rewrite option_fmap_id. f_equal. apply decide_ext. rewrite fmap_cons, elem_of_cons.
      naive_solver.
Qed.

(** The same for the nodes that a listing of the run shows, which are all. *)
Lemma run_cancel_all id reason now l m s :
  program_reachable m -> ListNodes m id = Ok l ->
  exists m', exec (each l (cancel_one id reason now)) (m, s) = ((m', s), tt) /\
    mr_runs m' = mr_runs m /\
    (forall i n, get_node m' i n =
       (if decide (id = i) then canceled_node reason now else fun x => x) <$> get_node m i n) /\
    (forall i n a, get_attempt m' i n a =
       (if decide (id = i) then with_intent reason now (get_node m i n) a else fun x => x)
         <$> get_attempt m i n a).
Proof.
  intros (Hw & _ & Hk)%program_inv El.
  destruct (list_nodes_spec (RO' := RO) m id l Hk El) as (_ & _ & Hnd & Hin).
  destruct (run_cancel_each id reason now l m s Hnd) as (m' & He & Hr & Hn & Ha).
  { intros x Hx. by apply Hin. }
  assert (Hall : forall n x, get_node m id n = Some x -> n ∈ nr_NodeID <$> l).
  { intros n x Eg. pose proof (Hk _ _ _ Eg) as <-. apply list_elem_of_fmap_2. by apply Hin. }
  exists m'. split_and!; [done|done|intros i n|intros i n a].
  - rewrite Hn. destruct (get_node m i n) as [x|] eqn:Eg; [|done]. do 2 f_equal.
    apply decide_ext. split; [by intros [? _]|]. intros <-. split; [done|]. by eapply Hall.
  - rewrite Ha. destruct (get_attempt m i n a) as [att|] eqn:Ea; [|done].
    destruct (wf_attempt_node m i n a att Hw Ea) as [x Eg]. do 2 f_equal.
    apply decide_ext. split; [by intros [? _]|]. intros <-. split; [done|]. by eapply Hall.
Qed.

Lemma listed m id run :
  program_reachable m -> mr_runs m !! id = Some run -> exists l, ListNodes m id = Ok l.
Proof.
  intros (Hw & _)%program_inv Hr. unfold ListNodes.
  assert (id ∈ dom (mr_nodes m)) as [ns ->]%elem_of_dom; [|eauto].
  rewrite (wf_nodes m Hw). apply elem_of_dom. eauto.
Qed.

(** C15. Canceling a run that exists, on the in-memory registry: the run becomes
    canceled unless it has already ended; every node that is not
    yet running becomes canceled, a running one is only marked "canceling", an
    ended one is untouched; the intent and its reason are noted on the current attempt of each
    running node and on no other attempt; and no other run, node or attempt
    changes. Whatever the backend answers to its cancellations, the answer is
    nil. *)
Theorem Cancel_on_memory (runID reason : string) (m : MemoryRegistry) (s : E) (run : RunRecord) :
  program_reachable m -> mr_runs m !! runID = Some run ->
  exists now m' s',
    exec (Cancel runID reason) (m, s) = ((m', s'), None) /\
    mr_runs m' = <[runID := canceled_run reason run]> (mr_runs m) /\
    (forall i n, get_node m' i n =
       (if decide (runID = i) then canceled_node reason now else fun x => x)
         <$> get_node m i n) /\
    (forall i n a, get_attempt m' i n a =
       (if decide (runID = i) then with_intent reason now (get_node m i n) a else fun x => x)
         <$> get_attempt m i n a).
Proof.
  intros Hm Hr. unfold Cancel. rewrite run_bind, run_act. cbn [memory_handle].
  destruct (env Z ENow s) as [s1 now]. rewrite run_bind, run_act. cbn [memory_handle].
  assert (Hu : UpdateRun m runID (infallible (cancel_run reason)) =
    (m <| mr_runs := <[runID := canceled_run reason run]> (mr_runs m) |>, Ok tt)).
  { unfold UpdateRun, infallible. by rewrite Hr, cancel_run_spec. }
  pose proof (ps_UpdateRun m runID (infallible (cancel_run reason))) as Hs1. rewrite Hu in *. cbv beta iota zeta.
  set (m1 := m <| mr_runs := _ |>) in *. rewrite run_bind.
  set (ev := _ <| ev_FailureReason := _ |>). destruct (run_log ev (m1, s1)) as [_ Hl].
  destruct (exec (log ev) (m1, s1)) as [w []]. cbn [fst snd] in Hl. subst w.
  destruct (append_same m1 ev) as (E1 & E2 & E3). set (m2 := (AppendEvent m1 ev).1) in *.
  assert (Hm2 : program_reachable m2).
  { eapply rtc_r; [eapply rtc_r; [exact Hm|exact Hs1]|apply ps_AppendEvent]. }
  rewrite run_bind, run_act. cbn [memory_handle].
  destruct (env bool (EGetActive runID) s1) as [s2 active]. rewrite run_bind.
  match goal with |- context [exec ?p (m2, s2)] =>
    destruct (run_outside p m2 s2) as (s3 & [] & Hx) end.
  { destruct active; [|done]. simpl. split; [done|]. intros _. split; [done|]. intros hs.
    by apply emits_each. }
  rewrite Hx, run_bind, run_act. cbn [memory_handle].
  destruct (listed m2 runID (canceled_run reason run) Hm2) as [l El];
    [rewrite E1; apply lookup_insert_eq|].
  rewrite El. cbv beta iota. rewrite run_bind.
  destruct (run_cancel_all runID reason now l m2 s3 Hm2 El) as (m3 & -> & Hr3 & Hn3 & Ha3).
  exists now, m3, s3. split_and!; [done|by rewrite Hr3, E1|intros i n|intros i n a].
  - rewrite Hn3. unfold get_node. by rewrite E2.
  - rewrite Ha3. unfold get_attempt, get_node, node_attempts. by rewrite E2, E3.
Qed.

(** ** A graph that failed *)
Lemma skip_node_twice root n x : (skip_node root n (skip_node root n x).2).2 = (skip_node root n x).2.
Proof.
  unfold skip_node. destruct (decide (nr_Status x = NodeStatusPending)) as [Hp|Hp]; simpl;
    [|by rewrite decide_False].
  by destruct (_ && _).
Qed.

Lemma run_skip_one id root node m s :
  exists m' s', exec (skip_pending id root node) (m, s) = ((m', s'), tt) /\
    mr_runs m' = mr_runs m /\ mr_attempts m' = mr_attempts m /\
    (forall i n, get_node m' i n =
       (if decide (id = i /\ n_NodeID node = n) then fun x => (skip_node root n x).2
        else fun x => x) <$> get_node m i n).
Proof.
  unfold skip_pending. rewrite run_bind, run_act. cbn [memory_handle].
  destruct (env Z ENow s) as [s1 now]. rewrite run_bind, run_act. cbn [memory_handle].
  unfold UpdateNode, infallible. rewrite get_node_locked.
  destruct (get_node m id (n_NodeID node)) as [cur|] eqn:En.
  2: { exists m, s1. split_and!; [by destruct (mr_nodes m !! id)|done|done|]. intros i n.
       destruct (decide (id = i /\ n_NodeID node = n)) as [[<- <-]|];
         [by rewrite En|by destruct (get_node m i n)]. }
  destruct (skip_node root (n_NodeID node) cur) as [b cur'] eqn:Es. cbv beta iota zeta.
  set (m1 := put_node m id (n_NodeID node) cur').
  assert (Hn1 : forall i n, get_node m1 i n =
       (if decide (id = i /\ n_NodeID node = n) then fun x => (skip_node root n x).2
        else fun x => x) <$> get_node m i n).
  { intros i n. unfold m1. rewrite get_node_put by (by rewrite En).
    destruct (decide (id = i /\ n_NodeID node = n)) as [[<- <-]|];
      [by rewrite En; simpl; rewrite Es|by destruct (get_node m i n)]. }
  destruct b; [|by exists m1, s1].
  set (ev := _ <| ev_Message := _ |>). destruct (run_log ev (m1, s1)) as [H1 H2].
  destruct (exec (log ev) (m1, s1)) as [w []]. cbn [fst snd] in H2. subst w.
  destruct (append_same m1 ev) as (E1 & E2 & E3). eexists _, _. split; [reflexivity|].
  split_and!; [by rewrite E1|by rewrite E3|]. intros i n. rewrite <- Hn1. unfold get_node. by rewrite E2.
Qed.

Lemma run_skip_each id root l m s :
  exists m' s', exec (each l (skip_pending id root)) (m, s) = ((m', s'), tt) /\
    mr_runs m' = mr_runs m /\ mr_attempts m' = mr_attempts m /\
    (forall i n, get_node m' i n =
       (if decide (id = i /\ n ∈ n_NodeID <$> l) then fun x => (skip_node root n x).2
        else fun x => x) <$> get_node m i n).
Proof.
  revert m s. induction l as [|x l IH]; intros m s.
  { exists m, s. split_and!; [done|done|done|intros i n].
    rewrite decide_False by (by intros [_ ?%not_elem_of_nil]). by destruct (get_node m i n). }
  destruct (run_skip_one id root x m s) as (m1 & s1 & He1 & Hr1 & Ha1 & Hn1).
  cbn [each]. rewrite run_bind, He1. destruct (IH m1 s1) as (m2 & s2 & He2 & Hr2 & Ha2 & Hn2).
  exists m2, s2. split_and!; [done|congruence|congruence|intros i n]. rewrite Hn2, Hn1, fmap_cons.
  destruct (decide (id = i /\ n_NodeID x = n)) as [[<- <-]|Hd].
  - rewrite (decide_True (P := id = id /\ n_NodeID x ∈ _ :: _)) by (split; [done|apply elem_of_cons; by left]).
    destruct (get_node m id _) as [cur|]; [|done]. simpl.
    destruct (decide _); simpl; by rewrite ?skip_node_twice.
  - rewrite option_fmap_id. f_equal. apply decide_ext. rewrite elem_of_cons. naive_solver.
Qed.

(** A node skipped because another one failed; [root] is where the failure started,
    when the fast-fail named it. *)
Definition dependency_skipped (root : option string) (n : string) (x : NodeRecord) : NodeRecord :=
  x <| nr_Status := NodeStatusSkipped |> <| nr_TerminalFailureReason := "dependency_failed" |>
    <| nr_TerminalStopCause := "failed" |>
    <| nr_CausedByNodeID :=
         match root with
         | Some root => if decide (root = "" \/ root = n) then nr_CausedByNodeID x else root
         | None => nr_CausedByNodeID x
         end |>.

Lemma skip_node_skips root n x :
  (skip_node (default "" root) n x).2 =
  if decide (nr_Status x = NodeStatusPending) then dependency_skipped root n x else x.
Proof.
  unfold skip_node. destruct (decide (nr_Status x = NodeStatusPending)); [|done]. cbn [snd].
  unfold dependency_skipped. destruct root as [r|]; [|by destruct x].
  change (default "" (Some r)) with r.
  destruct (streq r "") eqn:E1; [|destruct (streq r n) eqn:E2]; cbn [negb andb].
  - apply streq_eq in E1. rewrite decide_True by auto. by destruct x.
  - apply streq_eq in E2. rewrite decide_True by auto. by destruct x.
  - str_tests. rewrite decide_False by (by intros [?|?]). by destruct x.
Qed.

(** C33. When the graph of a run did not complete: if a node is unresolved, nothing
    is written and the run is reported unresolved, so that its pending nodes can
    still run after the next recovery. Otherwise every node of the graph that is
    still pending, and no other, is skipped for its failed dependency, and caused by
    the root the fast-fail named, unless it is that root itself or none was named;
    the run is reported failed with the first error the watcher saw, or in general;
    runs and attempts do not change. *)
Theorem graph_failed_on_memory (run : RunRecord) (graph : Graph) (m : MemoryRegistry) (s : E) :
  let id := rr_RunID run in
  let '(s1, unresolved) := env _ EIsUnresolved s in
  let '(s2, first) := env _ ETryReceiveFirstErr s1 in
  let '(_, root) := env _ ETryReceiveFastFailRoot s2 in
  exists m' s',
    exec (graph_failed run graph) (m, s) =
      ((m', s'), Some (if unresolved then errRunUnresolved
                       else Errorf (match first with Some err => error_text err | None => "dag execution failed" end))) /\
    (unresolved = true -> m' = m) /\ mr_runs m' = mr_runs m /\ mr_attempts m' = mr_attempts m /\
    (forall i n, get_node m' i n =
       (fun x =>
          if decide (unresolved = false /\ id = i /\ n ∈ n_NodeID <$> g_Nodes graph /\ nr_Status x = NodeStatusPending)
          then dependency_skipped root n x else x) <$> get_node m i n).
Proof.
  intros id. destruct (env bool EIsUnresolved s) as [s1 unresolved] eqn:E1.
  destruct (env _ ETryReceiveFirstErr s1) as [s2 first] eqn:E2.
  destruct (env _ ETryReceiveFastFailRoot s2) as [s3 root] eqn:E3.
  unfold graph_failed. rewrite run_bind, run_act. cbn [memory_handle]. rewrite E1. destruct unresolved.
  - exists m, s1. split_and!; try done. intros i n. by destruct (get_node m i n).
  - rewrite run_bind, run_act. cbn [memory_handle]. rewrite E2, run_bind, run_act.
    cbn [memory_handle]. rewrite E3, run_bind.
    destruct (run_skip_each id (default "" root) (g_Nodes graph) m s3) as (m1 & s4 & He & Hr & Ha & Hn).
    unfold id in He. rewrite He. exists m1, s4. split_and!; try done. intros i n. rewrite Hn.
    destruct (get_node m i n) as [x|]; [|done]. cbn [fmap option_fmap option_map]. f_equal.
    destruct (decide (id = i /\ n ∈ n_NodeID <$> g_Nodes graph)) as [Hd|Hd];
      [rewrite skip_node_skips|]; repeat destruct (decide _); naive_solver.
Qed.

(** ** The fast-fail watcher *)
Lemma run_then {A B} (p : prog A) (b : B) w : (exec (p ;; mret b) w).2 = b.
Proof. rewrite run_bind. by destruct (exec p w). Qed.

Lemma run_step {A B} (p : prog A) (f : A -> prog B) w (Q : B -> Prop) :
  (forall w a, Q (exec (f a) w).2) -> Q (exec (p ≫= f) w).2.
Proof. intros H. rewrite run_bind. destruct (exec p w) as [w' a]. apply H. Qed.

(** A turn of the watcher stops the run exactly when the run fails fast and
    one of its nodes failed; otherwise it goes on watching. *)
Theorem watch_tick_stops (runID : string) (failFast : bool) (m : MemoryRegistry) (s : E)
    (nodes : list NodeRecord) :
  ListNodes m runID = Ok nodes ->
  (exec (watch_tick runID failFast) (m, s)).2 =
  failFast && existsb (fun node => bool_decide (nr_Status node = NodeStatusFailed)) nodes.
Proof.
  intros Hn. unfold watch_tick. rewrite run_bind, run_act. cbn [memory_handle]. rewrite Hn.
  clear Hn. generalize (m, s). clear m s. induction nodes as [|x l IH]; intros w;
    cbn [watch_nodes existsb]; [by rewrite andb_false_r|].
  destruct (decide (nr_Status x = NodeStatusFailed)) as [Hf|Hf].
  - rewrite bool_decide_eq_true_2 by done. cbn [orb]. rewrite andb_true_r.
    apply run_step. intros w1 []. destruct failFast; [|by rewrite IH].
    do 5 (apply run_step; intros ? ?). apply run_step. intros ? ?. apply run_then.
  - rewrite bool_decide_eq_false_2 by done. apply IH.
Qed.
End on_memory.
