(* ===== verification/EngineSafety.v ===== *)
(** * What the engine never does, whatever its calls answer

    Monitors over the calls of [executeRun] and [Recover]. *)
From S2P Require Import Prelude GoStrings GoErrors Spec Validate Registry Memory Handoff Provenance.
From S2P Require Import BackendTypes Reconcile Prog Runner MemoryWorld Engine EngineFacts.

Section safety.
Context {BT : BackendTypes} {U : UnicodeTables} {RO : RangeOrder} (caps : AdapterCaps).

(** ** An unresolved run stays recoverable *)

(** [known]: the engine has read that a node's backend truth is unresolved. *)
Definition hands_off (known : bool) (X : Type) (e : event X) : Prop :=
  known = true ->
  match e with
  | EUpdateRun _ f => forall r, rr_Status (f r).2 = rr_Status r
  | EUpdateNode _ _ _ | EUpsertAttempt _ | EAllocateCurrentAttempt _ _
  | EOpenSemanticAttempt _ _ _ _ | EStartNode _ _ | EGoExecuteRun _
  | EFinalizeSampleRun _ | EEvaluateGC _ => False
  | _ => True
  end.

Definition learns (known : bool) (X : Type) (e : event X) : X -> bool -> Prop :=
  match e in event X return X -> bool -> Prop with
  | EIsUnresolved => fun answer known' => known' = answer
  | _ => fun _ known' => known' = known
  end.

Local Notation wpU := (wp hands_off learns).

(** Programs that do not ask. *)
Definition unasking (X : Type) (e : event X) : Prop :=
  match e with EIsUnresolved => False | _ => True end.

Lemma wpU_unasking {A} (p : prog A) (Q : A -> bool -> Prop) :
  emits unasking p -> (forall a, Q a false) -> wpU p false Q.
Proof.
  intros Hp HQ. eapply wp_mono; [|eapply (wp_emits _ _ unasking (eq false)); [| |exact Hp|done]].
  - intros a s' <-. apply HQ.
  - by intros s X e <- _ [=].
  - intros s X e x s' <- He Hl. destruct e; by simpl in *.
Qed.

Lemma wpU_drop {X} (e : event X) b (Q : unit -> bool -> Prop) :
  hands_off b X e -> unasking X e -> Q tt b -> wpU (drop e) b Q.
Proof. intros H1 H2 HQ. split; [done|]. intros x s' Hs. destruct e; simpl in *; by subst. Qed.

Lemma emits_mbind P {A B} (p : prog A) (f : A -> prog B) :
  emits P p -> (forall a, emits P (f a)) -> emits P (p ≫= f).
Proof. apply emits_bind. Qed.

(** Descend through a program whose every call is in the class. *)
Ltac unask :=
  repeat match goal with
  | |- forall _, _ => intros ?
  | |- emits _ (_ ≫= _) => apply emits_mbind
  | |- emits _ (act _) => by split
  | |- emits _ (drop _) => by split
  | |- emits _ (log _) => by split
  | |- emits _ (mret _) => exact I
  | |- emits _ (match ?x with _ => _ end) => destruct x
  | |- emits _ (each _ _) => apply emits_each
  end.

Lemma add_edges_unasking l m : emits unasking (add_edges l m).
Proof.
  revert m. induction l as [|x l IH]; intros m; [done|].
  destruct x as [|from [|to [|]]]; try done. cbn [add_edges]. unask. apply IH.
Qed.

Lemma add_starts_unasking l m : emits unasking (add_starts l m).
Proof. induction l as [|x l IH]; [done|]. cbn [add_starts]. unask; apply IH. Qed.

Lemma build_graph_unasking ctx g : emits unasking (build_graph ctx g).
Proof. unfold build_graph. unask; [apply add_edges_unasking|apply add_starts_unasking]. Qed.

Lemma handoff_failed_unasking id typ why err t : emits unasking (handoff_failed id typ why err t).
Proof. unfold handoff_failed. unask. Qed.

Lemma finalizeRun_unasking id ok reason : emits unasking (finalizeRun id ok reason).
Proof. unfold finalizeRun, finalize_handoff. unask; apply handoff_failed_unasking. Qed.

Lemma wp_mbind {S} ok step {A B} (p : prog A) (f : A -> prog B) (s : S) Q :
  wp ok step p s (fun a s' => wp ok step (f a) s' Q) -> wp ok step (p ≫= f) s Q.
Proof. apply wp_bind. Qed.

Lemma wp_mret {S} ok step {A} (a : A) (s : S) (Q : A -> S -> Prop) : Q a s -> wp ok step (Ret a) s Q.
Proof. done. Qed.

(** Step over a call that is allowed, or a branch. *)
Ltac wstep :=
  match goal with
  | |- forall _, _ => intros ?
  | |- wp _ _ (_ ≫= _) _ _ => apply wp_mbind
  | |- wp _ _ (act _) _ _ => split; [try done|intros ? ? Hans; simpl in Hans; try subst]
  | |- wp _ _ (log _) _ _ => unfold log
  | |- wp _ _ (drop _) _ _ => unfold drop
  | |- wp _ _ (mret _) _ _ => apply wp_mret; try done
  | |- wp _ _ (Ret _) _ _ => apply wp_mret; try done
  | |- wp _ _ (match ?x with _ => _ end) _ _ => destruct x eqn:?
  end.

Lemma graph_failed_unresolved run graph :
  wpU (graph_failed run graph) false (fun r known => known = true -> r = Some errRunUnresolved).
Proof.
  unfold graph_failed. do 3 wstep. wstep; [by wstep|].
  eapply wp_mono; [|apply wpU_unasking with (Q := fun _ b => b = false); [|done]]; [by intros a s' ->|].
  unask. unfold skip_pending. unask.
Qed.

Lemma runGraph_unresolved ctx run :
  wpU (runGraph ctx run) false (fun r known => known = true -> r = Some errRunUnresolved).
Proof.
  unfold runGraph. apply wp_mbind, wpU_unasking; [apply build_graph_unasking|].
  intros [err|]; [done|]. repeat first [apply graph_failed_unresolved | wstep].
Qed.

Lemma executeRun_hands_off (runID : string) :
  wp hands_off learns (executeRun runID) false (fun _ _ => True).
Proof.
  unfold executeRun. do 3 wstep. wstep; [|by wstep]. do 4 wstep.
  eapply wp_mono; [|apply runGraph_unresolved]. intros g known Hg. apply wp_mbind.
  apply wp_mono with (Q := fun _ b => b = known); [intros [] b ->; repeat wstep|].
  destruct known.
  - rewrite (Hg eq_refl). unfold conclude_run.
    change (errors_is errRunUnresolved errRunUnresolved) with true. cbv iota. repeat wstep.
    intros _ rec. unfold mark_run_unresolved. simpl. by destruct (negb _).
  - apply wpU_unasking; [|done]. unfold conclude_run. unask; apply finalizeRun_unasking.
Qed.

(** Once the engine has read that a node's backend truth is unresolved, the
    rest of [executeRun] leaves the run as it is: it never changes the run's
    status, writes no node or attempt, starts nothing, and does not finalize the
    sample run; whatever every call answers. *)
Theorem executeRun_unresolved_recoverable (runID : string) :
  wp hands_off learns (executeRun runID) false (fun _ _ => True).
Proof. apply executeRun_hands_off. Qed.

(** ** Recovery *)
Record sweep := mkSweep {
  sw_runs : list RunRecord;
  sw_nodes : list NodeRecord;
  sw_executed : list string;
}.

(** Only a non-terminal run that was listed is executed again, and only a
    terminal one that was listed and shows a non-terminal node is driven to its
    end. *)
Definition sweeps (s : sweep) (X : Type) (e : event X) : Prop :=
  match e with
  | EGoExecuteRun id => exists run, run ∈ sw_runs s /\ rr_RunID run = id /\
      RunStatus_IsTerminal (rr_Status run) = false
  | EGoRecoverCanceledRun run => run ∈ sw_runs s /\ RunStatus_IsTerminal (rr_Status run) = true /\
      exists node, node ∈ sw_nodes s /\ NodeStatus_IsTerminal (nr_Status node) = false
  | EUpdateRun _ _ | EUpdateNode _ _ _ | EUpsertAttempt _ | EAllocateCurrentAttempt _ _ => False
  | _ => True
  end.

Definition swept (s : sweep) (X : Type) (e : event X) : X -> sweep -> Prop :=
  match e in event X return X -> sweep -> Prop with
  | EListRuns => fun r s' =>
      s' = mkSweep (match r with Ok l => l | Err _ => [] end) (sw_nodes s) (sw_executed s)
  | EListNodes _ => fun r s' =>
      s' = mkSweep (sw_runs s) (match r with Ok l => l | Err _ => [] end) (sw_executed s)
  | EGoExecuteRun id => fun _ s' => s' = mkSweep (sw_runs s) (sw_nodes s) (sw_executed s ++ [id])
  | _ => fun _ s' => s' = s
  end.

Definition alive (run : RunRecord) : bool := negb (RunStatus_IsTerminal (rr_Status run)).

Lemma recover_each l s :
  (forall x, x ∈ l -> x ∈ sw_runs s) ->
  wp sweeps swept (each l recover_one) s
    (fun _ s' => sw_runs s' = sw_runs s /\
       sw_executed s' = sw_executed s ++ map rr_RunID (List.filter alive l)).
Proof.
  revert s. induction l as [|run l IH]; intros s Hl; [by split; [|rewrite app_nil_r]|].
  assert (Hrun : run ∈ sw_runs s) by (apply Hl, elem_of_cons; by left).
  assert (Htl : forall x, x ∈ l -> x ∈ sw_runs s) by (intros x Hx; apply Hl, elem_of_cons; by right).
  cbn [each List.filter]. apply wp_mbind. unfold recover_one, alive at 1.
  destruct (RunStatus_IsTerminal (rr_Status run)) eqn:Et; cbn [negb].
  - unfold runHasNonTerminalNode. do 3 wstep. wstep. destruct x as [nodes|err];
      [|by apply (IH (mkSweep _ _ _))].
    destruct (existsb _ nodes) eqn:Ex; [|by apply (IH (mkSweep _ _ _))].
    apply existsb_exists in Ex as (node & Hin & Hnt). apply list_elem_of_In in Hin.
    apply negb_true_iff in Hnt.
    repeat wstep; [by split_and!; [..|exists node]|]. by apply (IH (mkSweep _ _ _)).
  - repeat wstep; [by exists run|].
    eapply wp_mono; [|by apply (IH (mkSweep _ _ _))].
    intros _ s' [H1 H2]. simpl in *. split; [done|]. by rewrite H2, <- app_assoc.
Qed.

(** C34. The start-up sweep executes every run it lists as non-terminal exactly
    once, in the order of the list, executes no terminal run again, drives a
    terminal run only when it shows a node that has not ended, and itself writes
    no run, node or attempt; whatever every call answers. *)
Theorem Recover_once :
  wp sweeps swept Recover (mkSweep [] [] [])
    (fun r s => sw_executed s = map rr_RunID (List.filter alive (sw_runs s))).
Proof.
  unfold Recover. do 3 wstep. wstep; [|by wstep]. apply wp_mbind.
  eapply wp_mono; [|by apply recover_each]. intros _ s' [H1 H2]. simpl in *. by rewrite H2, H1.
Qed.
End safety.
