(* ===== verification/Api.v ===== *)
(** * The run service ([src/pkg/api/service.go]) and the status snapshot
      ([src/pkg/observe/status.go])

    The handlers behind the gRPC methods, over any registry ([Registry]) and any
    engine ([Engine], the Go interface): each takes the state of the two and
    returns the new one with the Go result. The instants that a handler reads
    from the clock are arguments. *)
From S2P Require Import Prelude GoStrings GoErrors Spec Validate Registry.

(** [executor.Engine] *)
Class Engine (W : Type) := {
  eng_Admit : W -> RunRecord -> W * option GoError;
  eng_Cancel : W -> string -> string -> W * option GoError;
}.

Record SubmitRunResponse := mkSubmitRunResponse {
  sr_RunID : string;
  sr_Status : RunStatus;
  sr_AcceptedAt : Z;
}.

Record CancelRunResponse := mkCancelRunResponse {
  cr_RunID : string;
  cr_Accepted : bool;
  cr_Status : RunStatus;
  cr_AcceptedAt : Z;
}.

Definition errRunIDRequired : GoError := ErrNew "runId is required".
Definition errNodeIDRequired : GoError := ErrNew "nodeId is required".

(** The record and the nodes a submitted spec becomes. *)
Definition accepted_run (now : Z) (spec : ExecutableRunSpec) : RunRecord :=
  zero_RunRecord <| rr_RunID := rm_RunID (es_Run spec) |> <| rr_Status := RunStatusAccepted |>
    <| rr_AcceptedAt := now |> <| rr_Metadata := es_Metadata spec |> <| rr_Spec := spec |>
    <| rr_Counters := zero_RunCounters
         <| rc_TotalNodes := Z.of_nat (length (g_Nodes (es_Graph spec))) |> |>.

Definition pending_node (runID : string) (node : Node) : NodeRecord :=
  zero_NodeRecord <| nr_RunID := runID |> <| nr_NodeID := n_NodeID node |>
    <| nr_Status := NodeStatusPending |>.

Definition pending_nodes (spec : ExecutableRunSpec) : list NodeRecord :=
  pending_node (rm_RunID (es_Run spec)) <$> g_Nodes (es_Graph spec).

Section service.
Context {W : Type} `{Registry W} `{Engine W} {U : UnicodeTables} {RO : RangeOrder}.

Definition SubmitRun (w : W) (now : Z) (spec : ExecutableRunSpec) : W * res SubmitRunResponse :=
  match ValidateExecutableRunSpec spec with
  | Some err => (w, Err err)
  | None =>
      let record := accepted_run now spec in
      match reg_CreateRun w record (pending_nodes spec) with
      | (w, Err err) => (w, Err err)
      | (w, Ok _) =>
          match eng_Admit w record with
          | (w, Some err) => (w, Err err)
          | (w, None) => (w, Ok (mkSubmitRunResponse (rr_RunID record) RunStatusAccepted now))
          end
      end
  end.

Definition Service_GetRun (w : W) (runID : string) : res RunRecord :=
  if streq runID "" then Err errRunIDRequired else reg_GetRun w runID.

Definition ListRunNodes (w : W) (runID : string) : res (list NodeRecord) :=
  if streq runID "" then Err errRunIDRequired else reg_ListNodes w runID.

Definition ListNodeAttempts (w : W) (runID nodeID : string) : res (list AttemptRecord) :=
  if streq runID "" then Err errRunIDRequired
  else if streq nodeID "" then Err errNodeIDRequired
  else reg_ListAttempts w runID nodeID.

Definition ListRunEvents (w : W) (runID : string) (limit : Z) : res (list EventRecord) :=
  if streq runID "" then Err errRunIDRequired else reg_ListEvents w runID limit.

Definition CancelRun (w : W) (now : Z) (runID reason : string) : W * res CancelRunResponse :=
  if streq runID "" then (w, Err errRunIDRequired)
  else
    match eng_Cancel w runID reason with
    | (w, Some err) => (w, Err err)
    | (w, None) =>
        match reg_GetRun w runID with
        | Err err => (w, Err err)
        | Ok record => (w, Ok (mkCancelRunResponse runID true (rr_Status record) now))
        end
    end.
End service.

(** ** The status snapshot *)
Record BackendSnapshot := mkBackendSnapshot {
  bs_Ready : bool;
  bs_ReleaseBounded : bool;
  bs_ReleaseInflight : Z;
  bs_ReleaseSlotsAvailable : Z;
  bs_ReleaseMaxConcurrent : Z;
}.

Record StatusSnapshot := mkStatusSnapshot {
  ss_RunningRuns : Z;
  ss_ReleaseWaitNodes : Z;
  ss_BackendReady : bool;
  ss_ReleaseBounded : bool;
  ss_ReleaseInflight : Z;
  ss_ReleaseSlotsAvailable : Z;
  ss_ReleaseMaxConcurrent : Z;
  ss_RecentErrors : list string;
}.

#[export] Instance eta_StatusSnapshot : Eta StatusSnapshot := fun s =>
  mkStatusSnapshot (ss_RunningRuns s) (ss_ReleaseWaitNodes s) (ss_BackendReady s)
    (ss_ReleaseBounded s) (ss_ReleaseInflight s) (ss_ReleaseSlotsAvailable s)
    (ss_ReleaseMaxConcurrent s) (ss_RecentErrors s).

Definition run_active (run : RunRecord) : bool :=
  match rr_Status run with RunStatusAdmitted | RunStatusRunning => true | _ => false end.

Definition release_wait (node : NodeRecord) : bool :=
  match nr_Status node with NodeStatusReady | NodeStatusReleasing => true | _ => false end.

Definition error_line (e : EventRecord) : list string :=
  if streq (ev_Level e) "error"
  then [ev_Type e +:+ ":" +:+ FirstNonEmpty [ev_FailureReason e; ev_Message e]] else [].

Section observe.
Context {W : Type} `{Registry W}.

(** The body of the loop over the runs. *)
Definition observe_run (w : W) (run : RunRecord) (s : StatusSnapshot) : res StatusSnapshot :=
  if negb (run_active run) then Ok s
  else
    let s := s <| ss_RunningRuns := (ss_RunningRuns s + 1)%Z |> in
    match reg_ListNodes w (rr_RunID run) with
    | Err err => Err err
    | Ok nodes =>
        let s := s <| ss_ReleaseWaitNodes := (ss_ReleaseWaitNodes s + countb release_wait nodes)%Z |> in
        match reg_ListEvents w (rr_RunID run) 5 with
        | Err err => Err err
        | Ok events => Ok (s <| ss_RecentErrors := ss_RecentErrors s ++ (events ≫= error_line) |>)
        end
    end.

Fixpoint observe_runs (w : W) (runs : list RunRecord) (s : StatusSnapshot) : res StatusSnapshot :=
  match runs with
  | [] => Ok s
  | run :: runs =>
      match observe_run w run s with
      | Err err => Err err
      | Ok s => observe_runs w runs s
      end
  end.

Definition SnapshotFromRegistry (w : W) (backend : BackendSnapshot) : res StatusSnapshot :=
  match reg_ListRuns w with
  | Err err => Err err
  | Ok runs =>
      observe_runs w runs
        (mkStatusSnapshot 0 0 (bs_Ready backend) (bs_ReleaseBounded backend)
           (bs_ReleaseInflight backend) (bs_ReleaseSlotsAvailable backend)
           (bs_ReleaseMaxConcurrent backend) [])
  end.
End observe.

(** ** Lemmas *)

(** What the handlers rely on after validation. *)
Lemma validated_nodes {U : UnicodeTables} {RO : RangeOrder} spec :
  ValidateExecutableRunSpec spec = None ->
  rm_RunID (es_Run spec) <> "" /\ g_Nodes (es_Graph spec) <> [] /\
  NoDup (n_NodeID <$> g_Nodes (es_Graph spec)).
Proof.
  unfold ValidateExecutableRunSpec. destruct (streq _ "") eqn:E1; [done|]. str_tests.
  destruct (_ =? 0)%nat eqn:E2; [done|]. destruct (collect_nodes _ _) as [ns|] eqn:E3; [|done].
  intros _. apply collect_nodes_spec in E3 as (_ & Hnd & _). split_and!; [done| |done].
  intros Hn. by rewrite Hn in E2.
Qed.

Lemma pending_names spec :
  nr_NodeID <$> pending_nodes spec = n_NodeID <$> g_Nodes (es_Graph spec).
Proof. unfold pending_nodes. rewrite <- list_fmap_compose. done. Qed.
