(* ===== verification/ApiFacts.v ===== *)
(** * The run service over the DAG engine and the in-memory registry

    The service's interfaces implemented by the components that [main] wires
    together: the registry inside the executor's world, and [DagEngine] as the
    engine. A submission and a status snapshot, end to end. *)
From S2P Require Import Prelude GoStrings GoErrors Spec Validate Registry Memory BackendTypes.
From S2P Require Import Prog Runner MemoryWorld MemoryFacts Engine EngineFacts Api.
From stdpp Require Import sorting.

(** The registry inside a larger state. *)
#[export] Instance beside_registry {R E : Type} `{Registry R} : Registry (R * E) := {|
  reg_CreateRun w record nodes :=
    let '(m, x) := reg_CreateRun w.1 record nodes in ((m, w.2), x);
  reg_GetRun w := reg_GetRun w.1;
  reg_ListRuns w := reg_ListRuns w.1;
  reg_GetNode w := reg_GetNode w.1;
  reg_ListNodes w := reg_ListNodes w.1;
  reg_ListAttempts w := reg_ListAttempts w.1;
  reg_ListEvents w := reg_ListEvents w.1;
  reg_UpdateRun X w id f := let '(m, x) := reg_UpdateRun w.1 id f in ((m, w.2), x);
  reg_UpdateNode X w id n f := let '(m, x) := reg_UpdateNode w.1 id n f in ((m, w.2), x);
  reg_UpsertAttempt w a := let '(m, x) := reg_UpsertAttempt w.1 a in ((m, w.2), x);
  reg_AppendEvent w e := let '(m, x) := reg_AppendEvent w.1 e in ((m, w.2), x);
  reg_GetCurrentAttempt w := reg_GetCurrentAttempt w.1;
  reg_AllocateCurrentAttempt w now id n :=
    let '(m, x) := reg_AllocateCurrentAttempt w.1 now id n in ((m, w.2), x);
  reg_OpenSemanticAttempt w id n a t :=
    let '(m, x) := reg_OpenSemanticAttempt w.1 id n a t in ((m, w.2), x);
  reg_PersistSubmissionFence w id n a t :=
    let '(m, x) := reg_PersistSubmissionFence w.1 id n a t in ((m, w.2), x);
  reg_PersistBackendHandle w id n a h :=
    let '(m, x) := reg_PersistBackendHandle w.1 id n a h in ((m, w.2), x);
  reg_PersistCancellationIntent w id n a t reason :=
    let '(m, x) := reg_PersistCancellationIntent w.1 id n a t reason in ((m, w.2), x);
  reg_PersistProcessCompleted w id n a t :=
    let '(m, x) := reg_PersistProcessCompleted w.1 id n a t in ((m, w.2), x);
|}.

(** [NewDagEngine(registry, …)] in an environment. *)
Definition dag_engine {BT : BackendTypes} {U : UnicodeTables} {RO : RangeOrder} {E : Type}
    (env : forall X, event X -> E -> E * X) : Engine (MemoryRegistry * E) := {|
  eng_Admit w record := run (memory_handle env) (DagEngine_Admit record) w;
  eng_Cancel w runID reason := run (memory_handle env) (Engine.Cancel runID reason) w;
|}.

Section submission.
Context {BT : BackendTypes} {U : UnicodeTables} {RO : RangeOrder} {E : Type}.
Context (env : forall X, event X -> E -> E * X).

#[local] Instance engine_here : Engine (MemoryRegistry * E) := dag_engine env.

(** The nodes of a created run, looked up by name. *)
Lemma foldl_pending id l n (m : gmap string NodeRecord) :
  by_name (pending_node id <$> l) m !! n =
  if decide (n ∈ n_NodeID <$> l) then Some (pending_node id (zero_Node <| n_NodeID := n |>)) else m !! n.
Proof.
  revert m. induction l as [|x l IH]; intros m.
  { rewrite decide_False; [done|]. apply not_elem_of_nil. }
  rewrite !fmap_cons. unfold by_name in *. simpl. rewrite IH. destruct (decide (n ∈ n_NodeID <$> l)) as [Hl|Hl].
  { rewrite decide_True; [done|]. apply elem_of_cons. by right. }
  destruct (decide (n = n_NodeID x)) as [->|Hne].
  - rewrite decide_True by (apply elem_of_cons; by left). by rewrite lookup_insert_eq.
  - rewrite decide_False by (rewrite elem_of_cons; naive_solver). by rewrite lookup_insert_ne.
Qed.

(** The registry after a run was accepted and admitted at [t]. *)
Record submitted (spec : ExecutableRunSpec) (now t : Z) (m m' : MemoryRegistry) : Prop := {
  sub_run : mr_runs m' = <[rm_RunID (es_Run spec) :=
    (admit_run t (accepted_run now spec)).2]> (mr_runs m);
  sub_nodes : forall i n, get_node m' i n =
    if decide (i = rm_RunID (es_Run spec))
    then if decide (n ∈ n_NodeID <$> g_Nodes (es_Graph spec))
         then Some (pending_node i (zero_Node <| n_NodeID := n |>)) else None
    else get_node m i n;
  sub_attempts : forall i n a, get_attempt m' i n a =
    if decide (i = rm_RunID (es_Run spec)) then None else get_attempt m i n a;
  sub_events : forall i, mr_events m' !! i =
    if decide (i = rm_RunID (es_Run spec))
    then Some [(run_event i "run.admitted" t "info")
                 <| ev_Message := "run admitted to dag executor" |>]
    else mr_events m !! i;
}.

(** Admission of a run that was just created. *)
Lemma admit_created m (s : E) record es :
  mr_runs m !! rr_RunID record = Some record -> mr_events m !! rr_RunID record = Some es ->
  exists t m' s', eng_Admit (m, s) record = ((m', s'), None) /\ rtc program_step m m' /\
    m' = m <| mr_runs := <[rr_RunID record := (admit_run t record).2]> (mr_runs m) |>
           <| mr_events := <[rr_RunID record := es ++ [(run_event (rr_RunID record) "run.admitted" t "info")
                 <| ev_Message := "run admitted to dag executor" |>]]> (mr_events m) |>.
Proof.
  intros Hr Hl. cbn [eng_Admit engine_here dag_engine]. unfold DagEngine_Admit. rewrite run_bind, run_act.
  cbn [memory_handle]. destruct (env Z ENow s) as [s1 t]. rewrite run_bind, run_act.
  cbn [memory_handle]. unfold UpdateRun, infallible. rewrite Hr. cbn [admit_run snd]. cbv beta iota zeta.
  rewrite run_bind. set (ev := _ <| ev_Message := _ |>). set (m1 := m <| mr_runs := _ |>).
  destruct (run_log env ev (m1, s1)) as [_ H1]. destruct (run (memory_handle env) (log ev) (m1, s1)) as [w []].
  cbn [fst snd] in H1. subst w. rewrite run_bind, run_act. cbn [memory_handle].
  destruct (env unit (EGoExecuteRun (rr_RunID record)) s1) as [s2 []].
  pose proof (ps_UpdateRun m (rr_RunID record) (infallible (admit_run t))) as Hs1.
  unfold UpdateRun, infallible in Hs1. rewrite Hr in Hs1. cbn [admit_run fst] in Hs1.
  eexists t, _, s2. split; [reflexivity|].
  split; [eapply rtc_l; [exact Hs1|]; apply rtc_once, (ps_AppendEvent m1 ev)|]. unfold AppendEvent. simpl. rewrite lookup_insert_eq. simpl.
  by rewrite Hl.
Qed.

(** C26. A submission, end to end, on the in-memory registry and the DAG engine.
    A spec that the guard refuses, or whose run identity is taken, is answered
    with an error and changes nothing. Any other becomes a run: the record is
    stored as admitted with the submitted spec, it has exactly the nodes of the
    graph, each once and pending, no attempts, and the one event of its
    admission; nothing of any other run changes; and the registry stays one the
    program can be in. *)
Theorem SubmitRun_on_memory (spec : ExecutableRunSpec) (now : Z) (m : MemoryRegistry) (s : E) :
  program_reachable m ->
  match ValidateExecutableRunSpec spec, mr_runs m !! rm_RunID (es_Run spec) with
  | Some err, _ => SubmitRun (m, s) now spec = ((m, s), Err err)
  | None, Some _ => SubmitRun (m, s) now spec = ((m, s), Err ErrRunAlreadyExists)
  | None, None => exists t m' s',
      SubmitRun (m, s) now spec =
        ((m', s'), Ok (mkSubmitRunResponse (rm_RunID (es_Run spec)) RunStatusAccepted now)) /\
      submitted spec now t m m' /\ program_reachable m'
  end.
Proof.
  intros Hm. unfold SubmitRun. destruct (ValidateExecutableRunSpec spec) as [err|] eqn:Ev; [done|].
  set (record := accepted_run now spec). change (rm_RunID (es_Run spec)) with (rr_RunID record).
  cbn [reg_CreateRun beside_registry MemoryRegistry_registry fst snd].
  destruct (mr_runs m !! rr_RunID record) as [old|] eqn:Er.
  { unfold CreateRun. by rewrite Er. }
  assert (Hok : (CreateRun m record (pending_nodes spec)).2 = Ok tt) by (unfold CreateRun; by rewrite Er).
  pose proof (ps_CreateRun m record (pending_nodes spec)) as Hs1.
  pose proof (create_node m record (pending_nodes spec)) as Hn.
  pose proof (create_attempt m record (pending_nodes spec)) as Ha.
  assert (Hr : mr_runs (CreateRun m record (pending_nodes spec)).1 = <[rr_RunID record := record]> (mr_runs m))
    by (unfold CreateRun; by rewrite Er).
  assert (He : mr_events (CreateRun m record (pending_nodes spec)).1 = <[rr_RunID record := []]> (mr_events m))
    by (unfold CreateRun; by rewrite Er).
  destruct (CreateRun m record (pending_nodes spec)) as [m1 x]. cbn [fst snd] in *. subst x.
  destruct (admit_created m1 s record []) as (t & m2 & s2 & -> & Hsteps & Hm2);
    [by rewrite Hr, lookup_insert_eq|by rewrite He, lookup_insert_eq|].
  exists t, m2, s2. split_and!; [done| |].
  - subst m2. split; simpl.
    + by rewrite Hr, insert_insert_eq.
    + intros i n. unfold get_node in *. simpl. rewrite Hn by done.
      destruct (decide (rr_RunID record = i)) as [<-|]; [|by rewrite decide_False by done].
      rewrite decide_True by done. unfold pending_nodes. rewrite foldl_pending. by case_decide.
    + intros i n a. unfold get_attempt, node_attempts in *. simpl. rewrite Ha by done.
      destruct (decide (rr_RunID record = i)) as [<-|]; [by rewrite decide_True|by rewrite decide_False].
    + intros i. rewrite He, insert_insert_eq. destruct (decide (i = rr_RunID record)) as [->|].
      * by rewrite lookup_insert_eq, decide_True.
      * by rewrite lookup_insert_ne, decide_False.
  - assert (Hm1 : program_reachable m1).
    { eapply rtc_r; [exact Hm|]. apply Hs1. unfold pending_nodes. rewrite Forall_fmap.
      apply Forall_forall. done. }
    unfold program_reachable in *. by etrans.
Qed.
End submission.

(** ** The status snapshot *)
Section snapshot.
Context {RO : RangeOrder} {E : Type}.

(** The values of a map, collected by ranging over it. *)
Lemma range_values {A} (mp : gmap string A) :
  omap (fun k => mp !! k) (range_keys (dom mp)) ≡ₚ snd <$> map_to_list mp.
Proof.
  assert (Hp : range_keys (dom mp) ≡ₚ fst <$> map_to_list mp).
  { apply NoDup_Permutation; [apply NoDup_range_keys|apply NoDup_fst_map_to_list|]. intros k.
    rewrite elem_of_range_keys, elem_of_dom, list_elem_of_fmap. split.
    - intros [x Hx]. exists (k, x). split; [done|]. by apply elem_of_map_to_list.
    - intros ([k' x] & -> & Hin). apply elem_of_map_to_list in Hin. eauto. }
  rewrite Hp. clear Hp.
  assert (H : forall k x, (k, x) ∈ map_to_list mp -> mp !! k = Some x)
    by (intros k x; apply elem_of_map_to_list).
  induction (map_to_list mp) as [|[k x] l IH]; [done|]. cbn [fmap list_fmap omap list_omap fst snd].
  rewrite (H k x) by (apply elem_of_cons; by left). constructor. apply IH.
  intros k' x' Hin. apply H, elem_of_cons. by right.
Qed.

(** The nodes of a run that wait for their release. *)
Definition waiting (m : MemoryRegistry) (run : RunRecord) : Z :=
  countb release_wait (snd <$> map_to_list (default ∅ (mr_nodes m !! rr_RunID run))).

(** The sum of a measure over the active runs. *)
Definition over_active (f : RunRecord -> Z) (runs : list RunRecord) : Z :=
  foldr (fun run n => if run_active run then f run + n else n)%Z 0%Z runs.

#[export] Instance over_active_proper f : Proper (Permutation ==> eq) (over_active f).
Proof.
  intros l l'. induction 1; simpl; [done|by rewrite IHPermutation| |congruence].
  destruct (run_active x), (run_active y); lia.
Qed.

Definition stored_under_id (m : MemoryRegistry) : Prop :=
  forall id run, mr_runs m !! id = Some run -> rr_RunID run = id.

(** The error lines of an active run: those among its newest five events. *)
Definition recent_errors (m : MemoryRegistry) (run : RunRecord) : list string :=
  if run_active run then
    let log := default [] (mr_events m !! rr_RunID run) in
    drop (length log - 5) log ≫= error_line
  else [].

Lemma ListEvents_five m id log :
  mr_events m !! id = Some log -> ListEvents m id 5 = Ok (drop (length log - 5) log).
Proof.
  intros H. unfold ListEvents. rewrite H. simpl. destruct (Z.leb_spec (Z.of_nat (length log)) 5); [|done].
  by replace (length log - 5) with 0 by lia.
Qed.

Lemma observe_runs_spec (m : MemoryRegistry) (s : E) runs snap :
  reg_wf m -> (forall run, run ∈ runs -> is_Some (mr_runs m !! rr_RunID run)) ->
  observe_runs (m, s) runs snap =
    Ok (snap <| ss_RunningRuns := (ss_RunningRuns snap + over_active (fun _ => 1) runs)%Z |>
             <| ss_ReleaseWaitNodes := (ss_ReleaseWaitNodes snap + over_active (waiting m) runs)%Z |>
             <| ss_RecentErrors := ss_RecentErrors snap ++ (runs ≫= recent_errors m) |>).
Proof.
  intros Hw. revert snap. induction runs as [|run runs IH]; intros snap Hr.
  { simpl. destruct snap; simpl. by rewrite !Z.add_0_r, app_nil_r. }
  assert (Hruns : forall r, r ∈ runs -> is_Some (mr_runs m !! rr_RunID r)).
  { intros r Hin. apply Hr, elem_of_cons. by right. }
  destruct (Hr run) as [x Hx]; [apply elem_of_cons; by left|].
  simpl. unfold observe_run, recent_errors at 1. destruct (run_active run); simpl; [|by apply IH].
  assert (rr_RunID run ∈ dom (mr_nodes m) /\ rr_RunID run ∈ dom (mr_events m)) as [Hn He].
  { rewrite (wf_nodes m Hw), (wf_events m Hw). split; apply elem_of_dom; eauto. }
  apply elem_of_dom in Hn as [ns Hn], He as [es He].
  cbn [reg_ListNodes reg_ListEvents beside_registry MemoryRegistry_registry fst].
  unfold ListNodes at 1. rewrite Hn.
  assert (Hc : countb release_wait (merge_sort id_before (omap (fun k => ns !! k) (range_keys (dom ns))))
    = waiting m run).
  { unfold waiting. rewrite Hn. apply countb_perm. by rewrite merge_sort_Permutation, range_values. }
  rewrite Hc, (ListEvents_five m _ es He), IH, He by done.
  destruct snap; simpl. by rewrite !Z.add_assoc, <- app_assoc.
Qed.

(** On the in-memory registry the snapshot always succeeds, in whatever order
    Go visits the maps: it counts the runs that are admitted or running, and,
    over these runs only, the nodes that wait for their release; the errors it
    lists are those among the newest five events of each of these runs; what it
    says of the backend is what the backend said. *)
Theorem SnapshotFromRegistry_on_memory (m : MemoryRegistry) (s : E) (backend : BackendSnapshot) :
  reg_wf m -> stored_under_id m ->
  exists errors, errors ≡ₚ (snd <$> map_to_list (mr_runs m)) ≫= recent_errors m /\
    SnapshotFromRegistry (m, s) backend =
    Ok (mkStatusSnapshot
          (countb run_active (snd <$> map_to_list (mr_runs m)))
          (over_active (waiting m) (snd <$> map_to_list (mr_runs m)))
          (bs_Ready backend) (bs_ReleaseBounded backend) (bs_ReleaseInflight backend)
          (bs_ReleaseSlotsAvailable backend) (bs_ReleaseMaxConcurrent backend) errors).
Proof.
  intros Hw Hid. unfold SnapshotFromRegistry.
  cbn [reg_ListRuns beside_registry MemoryRegistry_registry fst]. unfold ListRuns.
  set (runs := merge_sort accepted_before _).
  assert (Hp : runs ≡ₚ snd <$> map_to_list (mr_runs m)).
  { unfold runs. by rewrite merge_sort_Permutation, range_values. }
  rewrite observe_runs_spec; [|done|].
  2: { intros run. rewrite Hp. intros ([id x] & -> & Hin)%list_elem_of_fmap.
    apply elem_of_map_to_list in Hin. simpl. rewrite (Hid id x Hin). eauto. }
  exists (runs ≫= recent_errors m). split; [by rewrite Hp|]. rewrite <- Hp. simpl. do 2 f_equal. clear. induction runs as [|x l IH]; [done|]. rewrite countb_cons. simpl.
  destruct (run_active x); lia.
Qed.
End snapshot.
