(* ===== verification/Goroutines.v ===== *)
(** * The goroutines of a server, interleaved ([src/pkg/executor], [src/pkg/api])

    The service, the engine, the watchers and the node runners of a server run as
    goroutines over one registry. A [pool] is the in-memory registry, the state of
    everything else, and the programs of the goroutines so far; a [move] lets one
    of them make its next call, starts any goroutine of the program, or stores a
    submitted run. Calls are atomic, as the registry's mutex makes them. The
    schedule is any list of moves: goroutines are started at any time and in any
    number, so that what the code starts, in whatever order, is one of them. *)
From S2P Require Import Prelude GoStrings GoErrors Spec Validate Registry Memory Handoff Provenance BackendTypes.
From S2P Require Import Binding Placement Reconcile Prog Runner RunnerLogic RunnerWrites RunnerSafety.
From S2P Require Import RunnerTermination MemoryWorld MemoryFacts MemoryTidy Engine EngineFacts EngineSafety Api.

Section goroutines.
Context {BT : BackendTypes} {U : UnicodeTables} {RO : RangeOrder} (caps : AdapterCaps).

(** ** The code they run *)
Inductive goroutine :=
  | GoAdmit (record : RunRecord)
  | GoNoopAdmit (record : RunRecord)
  | GoCancel (runID reason : string)
  | GoNoopCancel (runID reason : string)
  | GoRecover
  | GoExecuteRun (runID : string)
  | GoWatcher (turns : nat) (runID : string) (failFast : bool)
  | GoRunE (fuel : nat) (ctx : Ctx) (runID : string) (node : Node)
  | GoRecoverCanceledRun (run : RunRecord)
  | GoDriveCancellation (ctx : Ctx) (runID : string) (node : Node).

(** The watcher's loop, cut after [turns] ticks: its context has ended. *)
Fixpoint watch (turns : nat) (runID : string) (failFast : bool) : prog unit :=
  match turns with
  | O => mret tt
  | S turns => stop ← watch_tick runID failFast; if stop : bool then mret tt else watch turns runID failFast
  end.

Definition forget {A} (p : prog A) : prog unit := bind p (fun _ => Ret tt).

Definition code (g : goroutine) : prog unit :=
  match g with
  | GoAdmit record => forget (DagEngine_Admit record)
  | GoNoopAdmit record => forget (NoopEngine_Admit record)
  | GoCancel runID reason => forget (Cancel runID reason)
  | GoNoopCancel runID reason => forget (NoopEngine_Cancel runID reason)
  | GoRecover => forget Recover
  | GoExecuteRun runID => executeRun runID
  | GoWatcher turns runID failFast => watch turns runID failFast
  | GoRunE fuel ctx runID node => forget (RunE caps runID node fuel ctx new_runner)
  | GoRecoverCanceledRun run => recoverCanceledRun caps run
  | GoDriveCancellation ctx runID node => forget (driveCancellation caps runID node ctx new_runner)
  end.

(** ** Scheduling *)

(** A call a goroutine made, with its answer. *)
Record answered := mkAnswered {
  an_goroutine : nat;
  an_type : Type;
  an_event : event an_type;
  an_answer : an_type;
}.

(** What is not the registry answers each goroutine by its number: a goroutine
    has variables of its own. *)
Context {E : Type} (env : nat -> forall X, event X -> E -> E * X).

Record pool := mkpool {
  po_registry : MemoryRegistry;
  po_env : E;
  po_started : list goroutine;
  po_left : list (prog unit);
  po_trace : list answered;
}.

Inductive move :=
  | Turn (i : nat)
  | Start (g : goroutine)
  | Submit (now : Z) (spec : ExecutableRunSpec).

Definition make (mv : move) (p : pool) : pool :=
  match mv with
  | Turn i =>
      match po_left p !! i with
      | Some (Vis e k) =>
          let '((m, s), x) := memory_handle (env i) _ e (po_registry p, po_env p) in
          mkpool m s (po_started p) (<[i := k x]> (po_left p)) (po_trace p ++ [mkAnswered i _ e x])
      | _ => p
      end
  | Start g => mkpool (po_registry p) (po_env p) (po_started p ++ [g]) (po_left p ++ [code g]) (po_trace p)
  | Submit now spec =>
      mkpool (CreateRun (po_registry p) (accepted_run now spec) (pending_nodes spec)).1
        (po_env p) (po_started p) (po_left p) (po_trace p)
  end.

Definition idle (s : E) : pool := mkpool NewMemoryRegistry s [] [] [].

Definition play (schedule : list move) (s : E) : pool := foldl (fun p mv => make mv p) (idle s) schedule.

(** ** What every goroutine writes *)

(** Started with no knowledge, a goroutine writes only what it comes to know. *)
Definition careful {A} (k : knowledge) (p : prog A) : Prop := wp allowed learn p k (fun _ _ => True).

Lemma careful_plain {A} k (p : prog A) : emits plain p -> careful k p.
Proof.
  intros H. eapply wp_mono; [|eapply (wp_emits allowed learn plain (fun _ => True)); try done].
  - done.
  - intros s X e _. by destruct e.
Qed.

Lemma careful_bind {A B} k (p : prog A) (f : A -> prog B) :
  careful k p -> (forall a k', careful k' (f a)) -> careful k (bind p f).
Proof. intros Hp Hf. apply wp_bind. eapply wp_mono; [|exact Hp]. intros a k' _. apply Hf. Qed.

Lemma careful_method {A} k (m : M A) r : sound ∅ m -> careful k (m r).
Proof.
  intros H. pose proof (H r k (empty_subseteq _)) as Hw. unfold wpM in Hw.
  eapply wp_mono; [|exact Hw]. done.
Qed.

(** The calls of the engine and the service write no attempt, keep the nodes, and
    create nothing. *)
Definition orderly (X : Type) (e : event X) : Prop := plain X e /\ quiet X e.

(** They leave the table of active runs alone as well, but for [Cancel] and the
    goroutine that executes a run. *)
Definition calm (X : Type) (e : event X) : Prop :=
  orderly X e /\
  match e with ERegisterActive _ | EUnregisterActive _ | EGetActive _ => False | _ => True end.

Ltac class_call :=
  repeat match goal with |- calm _ _ => split | |- orderly _ _ => split end;
  first [exact I | unfold plain, mark_canceled, cancel_node, skip_node; keeps_node | intros []].

Ltac walk :=
  repeat match goal with
  | |- forall _, _ => intros ?
  | |- emits _ (_ ≫= _) => apply emits_mbind
  | |- emits _ (forget _) => apply emits_bind
  | |- emits _ (act _) => split; [class_call|intros ?; exact I]
  | |- emits _ (drop _) => split; [class_call|intros ?; exact I]
  | |- emits _ (log _) => split; [class_call|intros ?; exact I]
  | |- emits _ (mret _) => exact I
  | |- emits _ (Ret _) => exact I
  | |- emits _ (each _ _) => apply emits_each
  | |- emits _ (match ?x with _ => _ end) => destruct x
  | |- emits _ (let '(_, _) := ?x in _) => destruct x
  end.

Local Notation o := (emits orderly).
Local Notation c := (emits calm).

Lemma calm_orderly {A} (p : prog A) : c p -> o p.
Proof. apply emits_mono. by intros X e []. Qed.

Lemma c_markRunCanceled runID : c (markRunCanceled runID).
Proof. unfold markRunCanceled. walk. Qed.
Lemma c_Recover : c Recover.
Proof. unfold Recover. walk. unfold recover_one, runHasNonTerminalNode. walk. Qed.
Lemma c_watch_nodes runID ff l : c (watch_nodes runID ff l).
Proof. induction l as [|x l IH]; cbn [watch_nodes]; walk; apply IH. Qed.
Lemma c_watch n runID ff : c (watch n runID ff).
Proof. induction n as [|n IH]; cbn [watch]; walk; [|apply IH]. unfold watch_tick. walk. apply c_watch_nodes. Qed.
Lemma c_add_edges l m : c (add_edges l m).
Proof.
  revert m. induction l as [|x l IH]; intros m; [done|].
  destruct x as [|from [|to [|]]]; try done. cbn [add_edges]. walk. apply IH.
Qed.
Lemma c_add_starts l m : c (add_starts l m).
Proof. induction l as [|x l IH]; [done|]. cbn [add_starts]. walk; apply IH. Qed.
Lemma c_handoff_failed id typ why err t : c (handoff_failed id typ why err t).
Proof. unfold handoff_failed. walk. Qed.
Lemma c_finalizeRun id ok reason : c (finalizeRun id ok reason).
Proof. unfold finalizeRun, finalize_handoff. walk; apply c_handoff_failed. Qed.
Lemma c_runGraph ctx run : c (runGraph ctx run).
Proof.
  unfold runGraph. walk; [unfold build_graph; walk; [apply c_add_edges|apply c_add_starts]|].
  unfold graph_failed. walk. unfold skip_pending. walk.
Qed.
Lemma c_conclude_run runID err : c (conclude_run runID err).
Proof. unfold conclude_run. walk; apply c_finalizeRun. Qed.

Lemma o_Cancel runID reason : o (Cancel runID reason).
Proof. unfold Cancel. walk. unfold cancel_one. walk. Qed.
Lemma o_executeRun runID : o (executeRun runID).
Proof. unfold executeRun. walk; apply calm_orderly; [apply c_runGraph|apply c_conclude_run]. Qed.

Lemma orderly_plain {A} (p : prog A) : o p -> emits plain p.
Proof. apply emits_mono. by intros X e []. Qed.
Lemma orderly_quiet {A} (p : prog A) : o p -> emits quiet p.
Proof. apply emits_mono. by intros X e []. Qed.

(** The goroutines of the engine and the service, and those of the nodes. *)
Definition of_node (g : goroutine) : bool :=
  match g with
  | GoRunE _ _ _ _ | GoRecoverCanceledRun _ | GoDriveCancellation _ _ _ => true
  | _ => false
  end.

Lemma o_code g : of_node g = false -> o (code g).
Proof.
  destruct g; try done; intros _; cbn [code].
  - walk. unfold DagEngine_Admit. walk.
  - walk. unfold NoopEngine_Admit. walk.
  - walk. apply o_Cancel.
  - walk. apply calm_orderly, c_markRunCanceled.
  - walk. apply calm_orderly, c_Recover.
  - apply o_executeRun.
  - apply calm_orderly, c_watch.
Qed.

Lemma careful_each {A} k (l : list A) (body : A -> prog unit) :
  (forall x k, careful k (body x)) -> careful k (each l body).
Proof.
  intros H. revert k. induction l as [|x l IH]; intros k; [done|].
  apply (careful_bind k (body x) (fun _ => each l body)); auto.
Qed.

Lemma careful_code g k : careful k (code g).
Proof.
  destruct (of_node g) eqn:Eg; [|by apply careful_plain, orderly_plain, o_code].
  destruct g; try done; cbn [code].
  - apply careful_bind; [|done]. apply careful_method, s_RunE.
  - unfold recoverCanceledRun.
    apply (careful_bind k (act (ERegisterActive (rr_RunID run)))); [by apply careful_plain|].
    intros [] k'. apply (careful_bind k' (each _ _)).
    { apply careful_each. intros node k1. apply careful_bind; [|done]. apply careful_method, s_drive. }
    intros [] k1. apply careful_plain, orderly_plain. unfold runHasNonTerminalNode. walk.
  - apply careful_bind; [|done]. apply careful_method, s_drive.
Qed.

(** ** The registry under any schedule *)

(** The attempt an answer handed out. *)
Definition allocation (a : answered) : option (string * string * string) :=
  match an_event a in event X return X -> option (string * string * string) with
  | EAllocateCurrentAttempt r n => fun x =>
      match x with Ok att => Some (r, n, ar_AttemptID att) | Err _ => None end
  | _ => fun _ => None
  end (an_answer a).

Definition allocations (trace : list answered) : list (string * string * string) := omap allocation trace.

(** The registry after at most [b] calls, what is left of the goroutines, and the
    calls they made. *)
Record held (b : Z) (m : MemoryRegistry) (left : list (prog unit)) (trace : list answered) : Prop := {
  held_good : good b m;
  held_careful : Forall (fun t => exists k, known m k /\ careful k t) left;
  held_known : forall id n a, (id, n, a) ∈ allocations trace -> is_Some (get_attempt m id n a);
  held_once : NoDup (allocations trace);
}.

Lemma held_mono b b' m left trace : (b <= b')%Z -> held b m left trace -> held b' m left trace.
Proof. intros Hb [H1 H2 H3 H4]. split; [by eapply good_mono|done..]. Qed.

(** The call of a goroutine is allowed, and what is left of it is careful. *)
Lemma held_next b m left trace i X (e : event X) cont :
  held b m left trace -> left !! i = Some (Vis e cont) ->
  exists k, known m k /\ allowed k X e /\ forall x, facts X e x -> careful (gained X e x ∪ k) (cont x).
Proof.
  intros [_ Hc _ _] Et. destruct (Forall_lookup_1 _ _ _ _ Hc Et) as (k & Hkn & [Hal Hcont]).
  exists k. split_and!; [done|done|]. intros x Hx. by apply Hcont.
Qed.

Lemma held_answered b b' m m' left trace i X (e : event X) x k t :
  held b m left trace -> follows b' m m' -> known m k -> known m' (gained X e x) ->
  careful (gained X e x ∪ k) t ->
  (forall id n a, allocation (mkAnswered i X e x) = Some (id, n, a) ->
     get_attempt m id n a = None /\ is_Some (get_attempt m' id n a)) ->
  held b' m' (<[i := t]> left) (trace ++ [mkAnswered i X e x]).
Proof.
  clear env. intros [_ Hc Hk Ho] [Hg' Hgr] Hkn Hgk Ht Hf.
  assert (Ha : forall y, y ∈ allocations (trace ++ [mkAnswered i X e x]) <->
    y ∈ allocations trace \/ allocation (mkAnswered i X e x) = Some y).
  { intros y. unfold allocations. rewrite omap_app, elem_of_app. simpl.
    destruct (allocation _) as [z|]; rewrite ?list_elem_of_singleton; [|set_solver]. naive_solver. }
  split.
  - done.
  - apply Forall_insert.
    + eapply Forall_impl; [exact Hc|]. intros u (k' & Hk' & Hu). exists k'. split; [by eapply known_grows|done].
    + exists (gained X e x ∪ k). split; [|done].
      intros id n a [?|?]%elem_of_union; [by apply Hgk|by apply Hgr, Hkn].
  - intros id n a [Hin|Hin]%Ha; [by apply Hgr, Hk|by apply Hf].
  - unfold allocations. rewrite omap_app. apply NoDup_app. split_and!; [done| |].
    + intros [[id n] a] Hin Hnew. simpl in Hnew. destruct (allocation _) as [z|] eqn:Ez;
        [|by apply not_elem_of_nil in Hnew]. apply list_elem_of_singleton in Hnew as <-.
      destruct (Hf _ _ _ eq_refl) as [Hno _]. destruct (Hk _ _ _ Hin) as [att Hatt]. congruence.
    + simpl. destruct (allocation _); [apply NoDup_singleton|apply NoDup_nil_2].
Qed.

(** A goroutine that starts knows nothing. *)
Lemma held_start b m left trace g : held b m left trace -> held b m (left ++ [code g]) trace.
Proof.
  intros [H1 H2 H3 H4]. split; [done| |done|done]. apply Forall_app. split; [done|]. apply Forall_singleton.
  exists ∅. split; [apply known_none|apply careful_code].
Qed.

(** A registry that follows without a call of a goroutine. *)
Lemma held_follows b b' m m' left trace : follows b' m m' -> held b m left trace -> held b' m' left trace.
Proof.
  intros [Hg' Hgr] [_ Hc Hk Ho]. split; [done| |by intros; apply Hgr, Hk|done].
  eapply Forall_impl; [exact Hc|]. intros t (k' & Hk' & Ht). exists k'. split; [by eapply known_grows|done].
Qed.

Lemma pending_untouched now spec : Forall (untouched (rr_RunID (accepted_run now spec))) (pending_nodes spec).
Proof. apply Forall_fmap, Forall_true. by intros x. Qed.

(** An allocation hands out an attempt that was not there. *)
Lemma allocation_fresh b m s i X (e : event X) id n a :
  good b m -> let w := memory_handle (env i) X e (m, s) in
  allocation (mkAnswered i X e w.2) = Some (id, n, a) ->
  get_attempt m id n a = None /\ is_Some (get_attempt w.1.1 id n a).
Proof.
  intros (Hr & _). destruct e; try done; simpl memory_handle.
  destruct (env i Z ENow s) as [s1 t].
  pose proof (allocated_known m t runID nodeID) as Hk.
  destruct (AllocateCurrentAttempt m t runID nodeID) as [m' [att|err]] eqn:Ea; [|done].
  unfold allocation. cbn. intros [= <- <- <-]. split; [by eapply allocated_fresh|].
  apply Hk. by apply elem_of_singleton.
Qed.

Definition pool_held (b : Z) (p : pool) : Prop := held b (po_registry p) (po_left p) (po_trace p).

Lemma held_turn b p i :
  (b + 1 < int64_max)%Z -> pool_held b p -> pool_held (b + 1) (make (Turn i) p).
Proof.
  unfold pool_held. intros Hb Hh. assert (Hsame : held (b + 1) (po_registry p) (po_left p) (po_trace p))
    by (eapply held_mono; [|done]; lia).
  cbn [make]. destruct (po_left p !! i) as [t|] eqn:Et; [|done]. destruct t as [[]|X e cont]; [done|].
  destruct (held_next _ _ _ _ _ _ _ _ Hh Et) as (k & Hkn & Hal & Hcont). pose proof (held_good _ _ _ _ Hh) as Hg.
  pose proof (answer_follows (env i) b (po_registry p) (po_env p) k X e Hb Hg Hkn Hal) as H.
  pose proof (fun id n a => allocation_fresh b (po_registry p) (po_env p) i X e id n a Hg) as Hf.
  destruct (memory_handle (env i) X e (po_registry p, po_env p)) as [[m s] x].
  cbn zeta in H, Hf. cbn [fst snd] in H, Hf. destruct H as (Hfo & Hfa & Hgk).
  eapply held_answered; [exact Hh|done|done|done|by apply Hcont|done].
Qed.

Lemma held_make b p mv :
  (0 <= b)%Z -> (b + 1 < int64_max)%Z -> pool_held b p -> pool_held (b + 1) (make mv p).
Proof.
  intros H0 Hb Hh. destruct mv as [i|g|now spec]; [by apply held_turn|..]; unfold pool_held in *;
    (assert (Hh' : held (b + 1) (po_registry p) (po_left p) (po_trace p)) by (eapply held_mono; [|done]; lia)).
  - by apply held_start.
  - eapply held_follows; [|done]. apply follows_CreateRun; [lia|apply pending_untouched|apply Hh'].
Qed.

Lemma held_play schedule s :
  (Z.of_nat (length schedule) < int64_max)%Z -> pool_held (Z.of_nat (length schedule)) (play schedule s).
Proof.
  induction schedule as [|mv l IH] using rev_ind; intros Hl.
  - split; [apply good_empty|done|by intros ? ? ? ?%not_elem_of_nil|apply NoDup_nil_2].
  - rewrite length_app, Nat2Z.inj_add in *. simpl in *. unfold play. rewrite foldl_app. apply held_make; [lia|lia|].
    apply IH. lia.
Qed.

(** C7. However the goroutines of a server are interleaved, in whatever number and
    whatever the backend, the handoff service and the clock answer, the registry
    only takes the steps of the program: every run keeps its nodes and attempts,
    the attempts of a node are those numbered 1 to its realization count, every
    node and attempt is stored under its own names, and a node names an attempt that exists
    or none, and then holds no handle. *)
Theorem any_schedule_keeps_registry (schedule : list move) (s : E) :
  (Z.of_nat (length schedule) < int64_max)%Z ->
  program_reachable (po_registry (play schedule s)) /\ tidy (po_registry (play schedule s)).
Proof. intros H. destruct (held_play schedule s H) as [(H1 & H2 & _) _ _ _]. done. Qed.

(** C6. However the goroutines are interleaved, no two allocations hand out the
    same attempt, and an attempt that was handed out is never lost. *)
Theorem attempts_allocated_once (schedule : list move) (s : E) :
  (Z.of_nat (length schedule) < int64_max)%Z ->
  NoDup (allocations (po_trace (play schedule s))) /\
  forall id n a, (id, n, a) ∈ allocations (po_trace (play schedule s)) ->
    is_Some (get_attempt (po_registry (play schedule s)) id n a).
Proof. intros H. by destruct (held_play schedule s H) as [_ _ H1 H2]. Qed.

(** ** Starting executions *)
Definition is_start (a : answered) : bool :=
  match an_event a with EStartNode _ _ => true | _ => false end.

(** The calls of goroutine [i] that start an execution. *)
Definition starts (i : nat) (trace : list answered) : list answered :=
  List.filter (fun a => is_start a && Nat.eqb (an_goroutine a) i) trace.

(** Goroutine [i] opened the fence of [attemptID] of its node. *)
Definition fenced (i : nat) (runID : string) (node : Node) (attemptID : string) (trace : list answered) : Prop :=
  exists t, mkAnswered i _ (EOpenSemanticAttempt runID (n_NodeID node) attemptID t) (Ok tt) ∈ trace.

Definition begun (ph : phase) : bool := match ph with Begun _ => true | _ => false end.

(** Where goroutine [i] stands: what it is, what is left of it, what it did. *)
Inductive standing (i : nat) (trace : list answered) : goroutine -> prog unit -> Prop :=
  | standing_quiet g p : emits quiet p -> starts i trace = [] -> standing i trace g p
  | standing_node fuel ctx runID node p ph :
      wp (may runID node) next p ph (fun _ _ => True) ->
      length (starts i trace) = (if begun ph then 1 else 0) ->
      (forall a q, ph = Opened a q -> fenced i runID node a trace) ->
      standing i trace (GoRunE fuel ctx runID node) p.

(** What [RunE] starts, and that driving a cancellation starts nothing. *)
Lemma RunE_starts runID node fuel ctx :
  wp (may runID node) next (RunE caps runID node fuel ctx new_runner) Idle (fun _ _ => True).
Proof. eapply wp_mono; [|apply (RunE_phases caps runID node fuel ctx new_runner)]. done. Qed.

Lemma quiet_drive runID node ctx : emits quiet (driveCancellation caps runID node ctx new_runner).
Proof. apply (q_drive caps runID node ctx). Qed.

Lemma standing_code i trace g : starts i trace = [] -> standing i trace g (code g).
Proof.
  intros Hi. destruct (of_node g) eqn:Eg; [|by apply standing_quiet; [apply orderly_quiet, o_code|]].
  destruct g; try done; cbn [code].
  - apply standing_node with (ph := Idle); [|by rewrite Hi|done].
    apply wp_bind. pose proof (RunE_starts runID node fuel ctx) as H.
    eapply wp_mono; [|exact H]. done.
  - apply standing_quiet; [|done]. unfold recoverCanceledRun.
    apply emits_mbind; [split; [by intros []|done]|]. intros [].
    apply emits_mbind.
    { apply emits_each. intros node. apply emits_bind; [|done]. apply quiet_drive. }
    intros []. apply orderly_quiet. unfold runHasNonTerminalNode. walk.
  - apply standing_quiet; [|done]. apply emits_bind; [|done]. apply quiet_drive.
Qed.

Lemma starts_snoc i trace a :
  starts i (trace ++ [a]) = starts i trace ++ (if is_start a && Nat.eqb (an_goroutine a) i then [a] else []).
Proof. unfold starts. rewrite List.filter_app. simpl. by destruct (_ && _). Qed.

Lemma fenced_snoc i runID node a trace b : fenced i runID node a trace -> fenced i runID node a (trace ++ [b]).
Proof. intros [t H]. exists t. apply elem_of_app. by left. Qed.

Lemma standing_snoc i trace g p a :
  is_start a && Nat.eqb (an_goroutine a) i = false -> standing i trace g p -> standing i (trace ++ [a]) g p.
Proof.
  intros Ha. destruct 1.
  - apply standing_quiet; [done|]. by rewrite starts_snoc, Ha, app_nil_r.
  - eapply standing_node; [done|by rewrite starts_snoc, Ha, app_nil_r|].
    intros. eapply fenced_snoc. eauto.
Qed.

(** An answer that does not forge the private sentinel. *)
Definition believable {X} (e : event X) (x : X) : Prop := forall ph, exists ph', next ph X e x ph'.

Lemma update_foreign {X} m runID nodeID (f : NodeRecord -> X * NodeRecord) :
  foreign (UpdateNode m runID nodeID (infallible f)).2.
Proof.
  unfold UpdateNode, infallible. rewrite get_node_locked.
  destruct (get_node m runID nodeID) as [n|]; [by destruct (f n); intros err [=]|].
  by destruct (mr_nodes m !! runID); intros err [= <-].
Qed.

Lemma believable_update {X} (e : event X) x :
  (match e in event X return X -> Prop with EUpdateNode _ _ _ => foreign | _ => fun _ => True end x) ->
  believable e x.
Proof. intros H ph. destruct e; try (by eexists; reflexivity). exists ph. by split. Qed.

Lemma memory_believable i X (e : event X) w : believable e (memory_handle (env i) X e w).2.
Proof.
  destruct w as [m s]. apply believable_update. destruct e; try done.
  pose proof (update_foreign m runID nodeID f) as Hf. simpl. by destruct (UpdateNode _ _ _ _).
Qed.

Lemma standing_answered i trace g X (e : event X) k x :
  believable e x -> standing i trace g (Vis e k) -> standing i (trace ++ [mkAnswered i X e x]) g (k x).
Proof.
  intros Hx H. inversion H as [g' p Hq Hs|fuel ctx runID node p ph Hw Hl Ho]; subst.
  - destruct Hq as [He Hk]. apply standing_quiet; [apply Hk|].
    rewrite starts_snoc, Hs. destruct e; try done. by destruct He.
  - destruct Hw as [Hm Hk]. destruct (Hx ph) as [ph' Hn]. specialize (Hk _ _ Hn).
    eapply standing_node; [exact Hk| |].
    + rewrite starts_snoc, length_app, Hl. clear -Hm Hn.
      destruct e; simpl in *; destruct_and?; subst; try done.
      * destruct H as [q ->]. by destruct x.
      * destruct ph; try done; by destruct x.
      * destruct Hm as [a ->]. by rewrite Nat.eqb_refl.
    + intros a q ->. clear Hk Hl.
      destruct e; simpl in *; destruct_and?; subst; try (eapply fenced_snoc, Ho; done).
      * match goal with H : exists p, _ = Prepared p |- _ => destruct H as [q' ->] end. destruct x as [[]|err]; [|done].
        injection Hn as -> ->. exists openedAt. apply elem_of_app. right. by apply list_elem_of_singleton.
      * by destruct x.
      * by destruct ph.
Qed.

(** Every execution was started by a runner of a node, behind a fence it had opened. *)
Definition behind_fences (started : list goroutine) (trace : list answered) : Prop :=
  forall before a after, trace = before ++ a :: after -> is_start a = true ->
    exists fuel ctx runID node attemptID,
      started !! an_goroutine a = Some (GoRunE fuel ctx runID node) /\
      fenced (an_goroutine a) runID node attemptID before.

Record ordered (started : list goroutine) (left : list (prog unit)) (trace : list answered) : Prop := {
  or_length : length started = length left;
  or_standing : forall i g t, started !! i = Some g -> left !! i = Some t -> standing i trace g t;
  or_later : forall i, (length started <= i)%nat -> starts i trace = [];
  or_fences : behind_fences started trace;
}.

Lemma split_snoc {A} (l : list A) x before a after :
  l ++ [x] = before ++ a :: after ->
  (after = [] /\ before = l /\ a = x) \/ (exists after', after = after' ++ [x] /\ l = before ++ a :: after').
Proof.
  destruct after as [|y after _] using rev_ind; intros H.
  - left. apply app_inj_tail in H as [-> ->]. done.
  - right. rewrite app_comm_cons, app_assoc in H. apply app_inj_tail in H as [-> ->]. by exists after.
Qed.

Lemma ordered_idle : ordered [] [] [].
Proof. split; try done. by intros [] ? ?. Qed.

Lemma ordered_answered started left trace i X (e : event X) k x :
  ordered started left trace -> left !! i = Some (Vis e k) -> believable e x ->
  ordered started (<[i := k x]> left) (trace ++ [mkAnswered i X e x]).
Proof.
  intros [Hl Hs Hn Hf] Et Hx. destruct (lookup_lt_is_Some_2 started i) as [g Eg].
  { rewrite Hl. by eapply lookup_lt_Some. }
  pose proof (Hs _ _ _ Eg Et) as Hst. pose proof (standing_answered i trace g X e k x Hx Hst) as Hnew.
  assert (Hother : forall j, j <> i -> is_start (mkAnswered i X e x) && Nat.eqb (an_goroutine (mkAnswered i X e x)) j = false).
  { intros j Hj. apply andb_false_intro2. apply Nat.eqb_neq. cbn. congruence. }
  split.
  - by rewrite length_insert.
  - intros j g' t Eg' Et'. destruct (decide (j = i)) as [->|Hj].
    + rewrite list_lookup_insert_eq in Et' by (by eapply lookup_lt_Some). by simplify_eq.
    + rewrite list_lookup_insert_ne in Et' by done. apply standing_snoc; [by apply Hother|by apply Hs].
  - intros j Hj. rewrite starts_snoc, Hn by done. rewrite Hother; [done|].
    intros ->. apply lookup_lt_Some in Eg. lia.
  - intros before a after Heq Ha. apply split_snoc in Heq as [(-> & -> & ->)|(after' & -> & Heq)];
      [|by apply (Hf before a after')].
    cbn [an_goroutine]. inversion Hst as [g' q Hq|fuel ctx runID node q ph Hw Hlen Hop]; subst.
    + destruct Hq as [He _]. unfold is_start in Ha. simpl in Ha. destruct e; try done. by destruct He.
    + destruct Hw as [Hm _]. unfold is_start in Ha. simpl in Ha. destruct e; try done.
      destruct Hm as [att ->]. exists fuel, ctx, runID, node, att. split; [done|]. by eapply Hop.
Qed.

Lemma ordered_start started left trace g :
  ordered started left trace -> ordered (started ++ [g]) (left ++ [code g]) trace.
Proof.
  intros [Hl Hs Hn Hf]. split.
  - by rewrite !length_app, Hl.
  - intros i g' t Hg Ht. apply lookup_app_Some in Hg as [Hg|[Hi Hg]].
    + apply lookup_lt_Some in Hg as Hlt. rewrite lookup_app_l in Ht by lia. by apply Hs.
    + rewrite lookup_app_r in Ht by lia. rewrite <- Hl in Ht.
      apply list_lookup_singleton_Some in Hg as [Hi0 ->]. rewrite Hi0 in Ht.
      apply list_lookup_singleton_Some in Ht as [_ <-]. by apply standing_code, Hn.
  - intros i Hi. rewrite length_app in Hi. apply Hn. lia.
  - intros before a after Heq Ha. destruct (Hf before a after Heq Ha) as (fuel & ctx & runID & node & at' & H1 & H2).
    exists fuel, ctx, runID, node, at'. split; [|done]. by apply lookup_app_l_Some.
Qed.

(** What is left of goroutines may be dropped. *)
Lemma ordered_end started left trace : ordered started left trace -> ordered started ((fun _ => Ret tt) <$> left) trace.
Proof.
  intros [Hl Hs Hn Hf]. split; [by rewrite length_fmap| |done|done].
  intros i g t Hg Ht. apply list_lookup_fmap_Some in Ht as (t0 & -> & Ht0).
  destruct (Hs _ _ _ Hg Ht0); [by apply standing_quiet|by eapply standing_node].
Qed.

(** A goroutine starts at most one execution. *)
Lemma ordered_once started left trace i : ordered started left trace -> (length (starts i trace) <= 1)%nat.
Proof.
  intros [Hl Hs Hn _].
  destruct (started !! i) as [g|] eqn:Eg; [|apply lookup_ge_None_1 in Eg; rewrite Hn by done; simpl; lia].
  destruct (lookup_lt_is_Some_2 left i) as [t Et].
  { rewrite <- Hl. by eapply lookup_lt_Some. }
  destruct (Hs _ _ _ Eg Et) as [g' p _ ->|fuel ctx runID node p ph _ -> _]; [simpl; lia|].
  destruct (begun ph); lia.
Qed.

Definition pool_ordered (p : pool) : Prop := ordered (po_started p) (po_left p) (po_trace p).

Lemma ordered_make p mv : pool_ordered p -> pool_ordered (make mv p).
Proof.
  intros Ho. destruct mv as [i|g|now spec]; [|by apply ordered_start|exact Ho]. unfold pool_ordered. cbn [make].
  destruct (po_left p !! i) as [[[]|X e k]|] eqn:Et; [done| |done].
  pose proof (memory_believable i X e (po_registry p, po_env p)) as Hx.
  destruct (memory_handle (env i) X e (po_registry p, po_env p)) as [[m s] x]. by apply ordered_answered.
Qed.

Lemma ordered_play schedule s : pool_ordered (play schedule s).
Proof.
  induction schedule as [|mv l IH] using rev_ind; [apply ordered_idle|].
  unfold play. rewrite foldl_app. by apply ordered_make.
Qed.

(** C5. However the goroutines are interleaved and whatever the world answers, a
    goroutine starts at most one execution, only a node's runner does, and only
    after it opened itself, with the registry's consent, the submission fence of
    an attempt of its own node. *)
Theorem starts_stay_behind_fences (schedule : list move) (s : E) :
  let p := play schedule s in
  (forall i, (length (starts i (po_trace p)) <= 1)%nat) /\ behind_fences (po_started p) (po_trace p).
Proof.
  pose proof (ordered_play schedule s) as Ho. split; [|exact (or_fences _ _ _ Ho)].
  intros i. by eapply ordered_once.
Qed.
End goroutines.
