(* ===== verification/ActiveRuns.v ===== *)
(** * The active runs of the engine ([src/pkg/executor/executor.go], [activeRun])

    The table of the runs an engine is executing: each entry is an object shared by
    the goroutine that executes the run, the runners of its nodes, its watcher and
    whoever cancels it. Objects are cells of a heap; a goroutine holds the pointer
    it made or was started with. The other calls go to an arbitrary environment. *)
From S2P Require Import Prelude GoStrings GoErrors Spec Registry Memory Handoff Provenance BackendTypes.
From S2P Require Import Reconcile Prog Runner MemoryWorld Engine EngineFacts EngineSafety Goroutines.

Section active.
Context {BT : BackendTypes} {U : UnicodeTables} {RO : RangeOrder} (caps : AdapterCaps).

(** [activeRun]; [ac_canceled]: its [cancel] was called. *)
Record activeRun := mkactiveRun {
  ac_canceled : bool;
  ac_handles : gmap string Handle;
  ac_unresolved : bool;
}.

#[export] Instance eta_activeRun : Eta activeRun := fun a =>
  mkactiveRun (ac_canceled a) (ac_handles a) (ac_unresolved a).

(** [&activeRun{cancel: cancel, handles: make(map[string]backend.Handle)}] *)
Definition new_active : activeRun := mkactiveRun false ∅ false.

Definition active_cancel (a : activeRun) : activeRun := a <| ac_canceled := true |>.
Definition active_markUnresolved (a : activeRun) : activeRun := a <| ac_unresolved := true |>.
Definition active_isUnresolved (a : activeRun) : bool := ac_unresolved a.
Definition active_registerHandle (nodeID : string) (handle : Handle) (a : activeRun) : activeRun :=
  a <| ac_handles := <[nodeID := handle]> (ac_handles a) |>.
Definition active_unregisterHandle (nodeID : string) (a : activeRun) : activeRun :=
  a <| ac_handles := delete nodeID (ac_handles a) |>.
Definition snapshotHandles (a : activeRun) : list Handle :=
  omap (fun k => ac_handles a !! k) (range_keys (dom (ac_handles a))).

(** [e.active] with the heap it points into, and the variable [active] of each
    goroutine. *)
Record actives := mkactives {
  en_heap : list activeRun;
  en_active : gmap string nat;
  en_own : gmap nat nat;
}.

#[export] Instance eta_actives : Eta actives := fun s => mkactives (en_heap s) (en_active s) (en_own s).

Definition no_actives : actives := mkactives [] ∅ ∅.

Definition registerActiveRun (runID : string) (p : nat) (s : actives) : actives :=
  s <| en_active := <[runID := p]> (en_active s) |>.
Definition unregisterActiveRun (runID : string) (s : actives) : actives :=
  s <| en_active := delete runID (en_active s) |>.
Definition getActiveRun (runID : string) (s : actives) : option nat := en_active s !! runID.

(** ** Serving the goroutines

    [parent i]: the goroutine that started [i] and gave it its pointer. *)
Context (parent : nat -> option nat).

Definition holder (i : nat) : nat := default i (parent i).
Definition pointer (i : nat) (s : actives) : option nat := en_own s !! holder i.
Definition object (i : nat) (s : actives) : option activeRun := pointer i s ≫= fun p => en_heap s !! p.

(** Through a nil pointer nothing is written; no goroutine that writes has one. *)
Definition write (i : nat) (f : activeRun -> activeRun) (s : actives) : actives :=
  match pointer i s with Some p => s <| en_heap := alter f p (en_heap s) |> | None => s end.

(** Is the context done because the run's was canceled? *)
Fixpoint run_canceled (i : nat) (ctx : Ctx) (s : actives) : bool :=
  match ctx with
  | CtxLive => match object i s with Some a => ac_canceled a | None => false end
  | CtxTimeout parent _ | CtxCancel parent => run_canceled i parent s
  | CtxBackground => false
  end.

(** What a call does to the table. *)
Definition table_step (i : nat) (X : Type) (e : event X) (s : actives) : actives :=
  match e with
  | ERegisterActive runID =>
      registerActiveRun runID (length (en_heap s))
        (s <| en_heap := en_heap s ++ [new_active] |> <| en_own := <[i := length (en_heap s)]> (en_own s) |>)
  | EUnregisterActive runID => unregisterActiveRun runID s
  | EGetActive runID =>
      match getActiveRun runID s with
      | Some p => s <| en_own := <[i := p]> (en_own s) |>
      | None => s
      end
  | ECancelActive _ => write i active_cancel s
  | ERegisterHandle nodeID handle => write i (active_registerHandle nodeID handle) s
  | EUnregisterHandle nodeID => write i (active_unregisterHandle nodeID) s
  | EMarkUnresolved => write i active_markUnresolved s
  | _ => s
  end.

Context {E : Type} (env : nat -> forall X, event X -> E -> E * X).

Definition active_env (i : nat) (X : Type) (e : event X) (w : actives * E) : (actives * E) * X :=
  let '(s, r) := w in
  match e in event X return (actives * E) * X with
  | ERegisterActive runID => ((table_step i _ (ERegisterActive runID) s, r), tt)
  | EUnregisterActive runID => ((table_step i _ (EUnregisterActive runID) s, r), tt)
  | EGetActive runID => ((table_step i _ (EGetActive runID) s, r), is_some (getActiveRun runID s))
  | ECancelActive runID => ((table_step i _ (ECancelActive runID) s, r), tt)
  | ESnapshotHandles _ => (w, match object i s with Some a => snapshotHandles a | None => [] end)
  | ERegisterHandle nodeID h => ((table_step i _ (ERegisterHandle nodeID h) s, r), tt)
  | EUnregisterHandle nodeID => ((table_step i _ (EUnregisterHandle nodeID) s, r), tt)
  | EMarkUnresolved => ((table_step i _ EMarkUnresolved s, r), tt)
  | EIsUnresolved => (w, match object i s with Some a => active_isUnresolved a | None => false end)
  | ECtxErr ctx =>
      if run_canceled i ctx s then (w, Some CtxCanceled)
      else let '(r, x) := env i _ (ECtxErr ctx) r in ((s, r), x)
  | e => let '(r, x) := env i _ e r in ((s, r), x)
  end.

Lemma table_after i X (e : event X) m s r :
  (memory_handle (active_env i) X e (m, (s, r))).1.2.1 = table_step i X e s.
Proof.
  destruct e; simpl; try (match goal with |- context [env i ?X ?e r] => destruct (env i X e r) end);
    try done; try (by destruct (run_canceled _ _ _)); try (by destruct (getActiveRun _ _)).
  all: match goal with |- context [let '(_, _) := ?t in _] => by destruct t end.
Qed.

(** ** What the executor of a run sees of its runners *)
Definition registers (i : nat) (a : answered) : bool :=
  Nat.eqb (an_goroutine a) i && match an_event a with ERegisterActive _ => true | _ => false end.

(** A runner or a goroutine of the run of [i] marks it unresolved. *)
Definition marks (i : nat) (a : answered) : bool :=
  Nat.eqb (holder (an_goroutine a)) i && match an_event a with EMarkUnresolved => true | _ => false end.

Definition asks (i : nat) (a : answered) : bool :=
  Nat.eqb (an_goroutine a) i && match an_event a with EIsUnresolved => true | _ => false end.

Definition said (a : answered) : bool :=
  match an_event a in event X return X -> bool with
  | EIsUnresolved => fun x => x
  | _ => fun _ => false
  end (an_answer a).

(** Has [i] registered, was its run marked after, did it ask after that? *)
Record sight := mksight { si_registered : bool; si_marked : bool; si_asked : bool }.

Definition see (i : nat) (k : sight) (a : answered) : sight :=
  mksight (si_registered k || registers i a) (si_marked k || (si_registered k && marks i a))
    (si_asked k || (si_marked k && asks i a)).

Definition seen (i : nat) (trace : list answered) : sight := foldl (see i) (mksight false false false) trace.

(** The call [a] after what was seen. *)
Definition heeds (i : nat) (k : sight) (a : answered) : Prop :=
  (si_marked k = true -> asks i a = true -> said a = true) /\
  (si_asked k = true -> an_goroutine a = i -> hands_off true (an_type a) (an_event a)).

(** [executeRun] enters the table once, and takes no run from it. *)
Definition enters (entered : bool) (X : Type) (e : event X) : Prop :=
  match e with ERegisterActive _ => entered = false | EGetActive _ => False | _ => True end.
Definition entered (b : bool) (X : Type) (e : event X) : X -> bool -> Prop :=
  match e in event X return X -> bool -> Prop with
  | ERegisterActive _ => fun _ b' => b' = true
  | _ => fun _ b' => b' = b
  end.

Lemma calm_entered {A} (p : prog A) (Q : A -> bool -> Prop) :
  emits calm p -> (forall a, Q a true) -> wp enters entered p true Q.
Proof.
  intros Hp HQ. eapply wp_mono; [|eapply (wp_emits enters entered calm (eq true)); [| |exact Hp|done]].
  - intros a b <-. apply HQ.
  - intros b X e <- [_ Hc]. by destruct e.
  - intros b X e x b' <- [_ Hc] Hs. by destruct e.
Qed.

Lemma executeRun_enters runID : wp enters entered (executeRun runID) false (fun _ _ => True).
Proof.
  unfold executeRun. apply wp_mbind. split; [done|]. intros [run|err] b ->; [|done].
  apply wp_mbind. split; [done|]. intros [] b ->.
  apply wp_mbind, calm_entered; [apply c_runGraph|]. intros g.
  apply wp_mbind, calm_entered; [apply c_conclude_run|]. intros [].
  apply wp_mbind. split; [done|]. intros [] b ->. split; [done|]. by intros [] b ->.
Qed.

(** ** The cell of the run of [i] *)

(** [i] holds a cell, which is marked when [marked]. *)
Definition holds (i : nat) (marked : bool) (s : actives) : Prop :=
  exists p a, en_own s !! i = Some p /\ en_heap s !! p = Some a /\ (marked = true -> ac_unresolved a = true).

Lemma holds_mono i b b' s : (b' = true -> b = true) -> holds i b s -> holds i b' s.
Proof. intros Hb (p & a & H1 & H2 & H3). exists p, a. split_and!; auto. Qed.

(** A write through the pointer of [j] that does not unmark. *)
Lemma holds_write i j f b b' s :
  (forall a, ac_unresolved a = true -> ac_unresolved (f a) = true) ->
  (b' = true -> b = true \/ (holder j = i /\ forall a, ac_unresolved (f a) = true)) ->
  holds i b s -> holds i b' (write j f s).
Proof.
  intros Hf Hb (p & a & H1 & H2 & H3). unfold write. destruct (pointer j s) as [q|] eqn:Eq.
  - unfold holds. simpl. destruct (decide (p = q)) as [<-|Hne].
    + exists p, (f a). rewrite list_lookup_alter_eq, H2. split_and!; [done|done|].
      intros Hb'. destruct (Hb Hb') as [Hb1|[_ Hb1]]; auto.
    + exists p, a. rewrite list_lookup_alter_ne by done. split_and!; [done|done|].
      intros Hb'. destruct (Hb Hb') as [Hb1|[Hj _]]; [auto|]. unfold pointer in Eq. rewrite Hj, H1 in Eq. congruence.
  - exists p, a. split_and!; [done|done|]. intros Hb'. destruct (Hb Hb') as [Hb1|[Hj _]]; [auto|].
    unfold pointer in Eq. rewrite Hj, H1 in Eq. done.
Qed.

Definition is_mark {X} (e : event X) : bool := match e with EMarkUnresolved => true | _ => false end.

Lemma holds_step i j X (e : event X) s b b' :
  holds i b s -> (j = i -> enters true X e) ->
  (b' = true -> b = true \/ (holder j = i /\ is_mark e = true)) ->
  holds i b' (table_step j X e s).
Proof.
  intros Hh Hj Hb.
  assert (Hsame : is_mark e = false -> holds i b' s).
  { intros Hm. eapply holds_mono; [|exact Hh]. intros Hb'. destruct (Hb Hb') as [?|[_ ?]]; congruence. }
  assert (Hwrite : forall f, is_mark e = false ->
    (forall a, ac_unresolved a = true -> ac_unresolved (f a) = true) -> holds i b' (write j f s)).
  { intros f Hm Hf. eapply holds_write; [done| |exact Hh]. intros Hb'. destruct (Hb Hb') as [?|[_ ?]]; [by left|congruence]. }
  destruct e; try (by apply Hsame); try (by apply Hwrite).
  - eapply holds_write; [done| |exact Hh]. intros Hb'. destruct (Hb Hb') as [?|[? _]]; [by left|by right].
  - destruct (Hsame eq_refl) as (p & a & H1 & H2 & H3). exists p, a. simpl. split_and!; [|by apply lookup_app_l_Some|done].
    rewrite lookup_insert_ne; [done|]. intros ->. by specialize (Hj eq_refl).
  - destruct (Hsame eq_refl) as (p & a & H1 & H2 & H3). simpl. destruct (getActiveRun runID s) as [q|]; [|by exists p, a].
    exists p, a. simpl. split_and!; [|done|done]. rewrite lookup_insert_ne; [done|]. intros ->. by apply (Hj eq_refl).
Qed.

Lemma holds_enter i runID s : holds i false (table_step i unit (ERegisterActive runID) s).
Proof.
  exists (length (en_heap s)), new_active. simpl. rewrite lookup_insert_eq.
  split_and!; [done| |done]. by rewrite list_lookup_middle.
Qed.

(** ** Under any schedule *)
Definition serve (schedule : list move) (r : E) : pool := play caps active_env schedule (no_actives, r).

Definition executing (i : nat) (p : pool (E := actives * E)) : Prop :=
  exists runID, po_started p !! i = Some (GoExecuteRun runID).

Record watched (i : nat) (p : pool) : Prop := {
  wa_length : length (po_started p) = length (po_left p);
  wa_numbers : Forall (fun a => an_goroutine a < length (po_started p))%nat (po_trace p);
  wa_enters : forall t, executing i p -> po_left p !! i = Some t ->
    wp enters entered t (si_registered (seen i (po_trace p))) (fun _ _ => True);
  wa_leaves : forall t, executing i p -> po_left p !! i = Some t ->
    exists known, wp hands_off learns t known (fun _ _ => True) /\
      (si_asked (seen i (po_trace p)) = true -> known = true);
  wa_holds : executing i p -> si_registered (seen i (po_trace p)) = true ->
    holds i (si_marked (seen i (po_trace p))) (po_env p).1;
  wa_heeds : executing i p -> forall before a after, po_trace p = before ++ a :: after ->
    heeds i (seen i before) a;
}.

Lemma seen_snoc i trace a : seen i (trace ++ [a]) = see i (seen i trace) a.
Proof. unfold seen. by rewrite foldl_app. Qed.

(** Nothing was seen of a goroutine that has not started. *)
Lemma seen_nothing i trace :
  Forall (fun a => an_goroutine a < i)%nat trace -> seen i trace = mksight false false false.
Proof.
  induction trace as [|a l IH] using rev_ind; [done|]. intros [Hl Ha]%Forall_app.
  rewrite Forall_singleton in Ha. rewrite seen_snoc, IH by done. unfold see, registers, asks. simpl.
  rewrite (proj2 (Nat.eqb_neq _ _)) by lia. done.
Qed.

(** What is marked was registered, what asked was marked. *)
Lemma seen_order i trace :
  (si_marked (seen i trace) = true -> si_registered (seen i trace) = true) /\
  (si_asked (seen i trace) = true -> si_marked (seen i trace) = true).
Proof.
  induction trace as [|a l [IH1 IH2]] using rev_ind; [done|]. rewrite seen_snoc. unfold see. simpl.
  destruct (si_registered _), (si_marked _), (si_asked _), (registers i a), (marks i a), (asks i a); simpl in *;
    split; auto.
Qed.

(** A call of [j] seen by [i]. *)
Lemma see_call i j X (e : event X) x k :
  see i k (mkAnswered j X e x) =
  mksight (si_registered k || (Nat.eqb j i && match e with ERegisterActive _ => true | _ => false end))
    (si_marked k || (si_registered k && (Nat.eqb (holder j) i && is_mark e)))
    (si_asked k || (si_marked k && (Nat.eqb j i && match e with EIsUnresolved => true | _ => false end))).
Proof. unfold see, registers, marks, asks. cbn. by destruct e. Qed.

(** The answer to the executor's question. *)
Lemma asked_marked i m s r :
  holder i = i -> holds i true s ->
  (memory_handle (active_env i) _ EIsUnresolved (m, (s, r))).2 = true.
Proof.
  intros Hi (p & a & H1 & H2 & H3). simpl. unfold object, pointer. rewrite Hi, H1. simpl. rewrite H2. by apply H3.
Qed.

Lemma enters_after i X (e : event X) x k :
  enters (si_registered k) X e ->
  entered (si_registered k) X e x (si_registered (see i k (mkAnswered i X e x))).
Proof.
  rewrite see_call, Nat.eqb_refl. simpl. intros He. destruct e; simpl in *; rewrite ?orb_false_r, ?orb_true_r; done.
Qed.

(** The executor's question is answered by the mark. *)
Lemma answer_marked i p X (e : event X) m s' x :
  holder i = i -> watched i p -> executing i p ->
  memory_handle (active_env i) X e (po_registry p, po_env p) = ((m, s'), x) ->
  si_marked (seen i (po_trace p)) = true -> asks i (mkAnswered i X e x) = true ->
  said (mkAnswered i X e x) = true.
Proof.
  intros Hi Hw Hex Eh Hm Ha. destruct (seen_order i (po_trace p)) as [Hr _].
  pose proof (wa_holds i p Hw Hex (Hr Hm)) as Hh. rewrite Hm in Hh. destruct (po_env p) as [s r].
  unfold asks in Ha. cbn in Ha. apply andb_true_iff in Ha as [_ Ha]. destruct e; try done.
  pose proof (asked_marked i (po_registry p) s r Hi Hh) as H. rewrite Eh in H. exact H.
Qed.

(** What the executor leaves of itself after a call. *)
Lemma leaves_turn i p X (e : event X) k m s' x :
  holder i = i -> watched i p -> executing i p -> po_left p !! i = Some (Vis e k) ->
  memory_handle (active_env i) X e (po_registry p, po_env p) = ((m, s'), x) ->
  exists known, wp hands_off learns (k x) known (fun _ _ => True) /\
    (si_asked (see i (seen i (po_trace p)) (mkAnswered i X e x)) = true -> known = true).
Proof.
  intros Hi Hw Hex Et Eh. destruct (wa_leaves i p Hw _ Hex Et) as (known & [_ Hk] & Hkn).
  pose proof (answer_marked i p X e m s' x Hi Hw Hex Eh) as Hsaid.
  destruct (seen_order i (po_trace p)) as [_ Hord]. rewrite see_call, Nat.eqb_refl. simpl.
  destruct (match e with EIsUnresolved => true | _ => false end) eqn:Eask.
  - assert (Hl : learns known X e x (said (mkAnswered i X e x))) by (by destruct e).
    exists (said (mkAnswered i X e x)). split; [by apply Hk|]. intros Hor. apply Hsaid.
    + apply orb_true_iff in Hor as [Hor|Hor]; [by apply Hord|]. by apply andb_true_iff in Hor as [Hor _].
    + unfold asks. cbn. by rewrite Nat.eqb_refl, Eask.
  - exists known. split; [apply Hk; by destruct e|]. rewrite andb_false_r, orb_false_r. done.
Qed.

(** The cell of the executor after a call of any goroutine. *)
Lemma holds_turn i j p X (e : event X) k m s' x :
  watched i p -> executing i p -> po_left p !! j = Some (Vis e k) ->
  memory_handle (active_env j) X e (po_registry p, po_env p) = ((m, s'), x) ->
  let after := see i (seen i (po_trace p)) (mkAnswered j X e x) in
  si_registered after = true -> holds i (si_marked after) s'.1.
Proof.
  intros Hw Hex Et Eh. destruct (po_env p) as [s r] eqn:Es.
  pose proof (table_after j X e (po_registry p) s r) as Ht. rewrite Eh in Ht. cbn in Ht. rewrite Ht.
  pose proof (wa_holds i p Hw Hex) as Ho. rewrite Es in Ho. cbn in Ho.
  destruct (seen_order i (po_trace p)) as [Hord _].
  assert (Hok : j = i -> enters (si_registered (seen i (po_trace p))) X e).
  { intros ->. by destruct (wa_enters i p Hw _ Hex Et). }
  cbv zeta. rewrite see_call. simpl. destruct (si_registered (seen i (po_trace p))); simpl.
  - intros _. eapply holds_step; [by apply Ho|done|]. intros [Hm|Hm]%orb_true_iff; [by left|right].
    apply andb_true_iff in Hm as [Hm ?]. by apply Nat.eqb_eq in Hm.
  - intros Hr. apply andb_true_iff in Hr as [Hji Hr]. apply Nat.eqb_eq in Hji as ->.
    rewrite orb_false_r. destruct (si_marked _); [by specialize (Hord eq_refl)|].
    destruct e; try done. apply holds_enter.
Qed.

Lemma watched_turn i j p :
  holder i = i -> watched i p -> watched i (make caps active_env (Turn j) p).
Proof.
  intros Hi Hw. pose proof Hw as [Hl Hn He Hv Ho Hb]. cbn [make].
  destruct (po_left p !! j) as [t|] eqn:Et; [|done]. destruct t as [[]|X e k]; [done|].
  destruct (memory_handle (active_env j) X e (po_registry p, po_env p)) as [[m s'] x] eqn:Eh.
  pose proof (lookup_lt_Some _ _ _ Et) as Hlt.
  split; cbn [po_started po_left po_trace po_env].
  - by rewrite length_insert.
  - apply Forall_app. split; [done|]. apply Forall_singleton. cbn. by rewrite Hl.
  - intros t Hex Ht. change (executing i p) in Hex. rewrite seen_snoc. destruct (decide (j = i)) as [->|Hne].
    + rewrite list_lookup_insert_eq in Ht by done. injection Ht as <-.
      destruct (He _ Hex Et) as [Hok Hk]. apply Hk. by apply enters_after.
    + rewrite list_lookup_insert_ne in Ht by done. rewrite see_call, (proj2 (Nat.eqb_neq _ _)) by done.
      simpl. rewrite orb_false_r. by apply He.
  - intros t Hex Ht. change (executing i p) in Hex. rewrite seen_snoc. destruct (decide (j = i)) as [->|Hne].
    + rewrite list_lookup_insert_eq in Ht by done. injection Ht as <-. by eapply leaves_turn.
    + rewrite list_lookup_insert_ne in Ht by done. rewrite see_call, (proj2 (Nat.eqb_neq _ _)) by done.
      simpl. rewrite andb_false_r, orb_false_r. by apply Hv.
  - intros Hex. change (executing i p) in Hex. rewrite seen_snoc. by eapply holds_turn.
  - intros Hex before a after Heq. change (executing i p) in Hex.
    apply split_snoc in Heq as [(-> & -> & ->)|(after' & -> & Heq)]; [|by eapply Hb].
    split; intros Hs Ha; cbn in Ha; try subst j.
    + destruct (decide (j = i)) as [->|Hne]; [by eapply answer_marked|].
      unfold asks in Ha. cbn in Ha. by rewrite (proj2 (Nat.eqb_neq _ _)) in Ha.
    + cbn. destruct (Hv _ Hex Et) as (known & [Hok _] & Hkn). by rewrite (Hkn Hs) in Hok.
Qed.

Lemma watched_start i g p : watched i p -> watched i (make caps active_env (Start g) p).
Proof.
  intros Hw. pose proof Hw as [Hl Hn He Hv Ho Hb].
  assert (Hcase : executing i (make caps active_env (Start g) p) ->
    executing i p \/ (i = length (po_started p) /\ seen i (po_trace p) = mksight false false false /\
                      exists runID, g = GoExecuteRun runID)).
  { intros [runID Hr]. cbn in Hr. apply lookup_app_Some in Hr as [Hr|[Hge Hr]]; [left; by exists runID|right].
    apply list_lookup_singleton_Some in Hr as [Hi ->].
    assert (Heq : i = length (po_started p)) by lia. split; [done|]. split; [|by exists runID].
    apply seen_nothing. by rewrite Heq. }
  assert (Hthread : forall t, po_left (make caps active_env (Start g) p) !! i = Some t ->
    po_left p !! i = Some t \/ (i = length (po_started p) /\ t = code caps g)).
  { intros t Ht. cbn in Ht. apply lookup_app_Some in Ht as [Ht|[Hge Ht]]; [by left|right].
    apply list_lookup_singleton_Some in Ht as [Hi <-]. split; [lia|done]. }
  assert (Hno : executing i p -> i <> length (po_started p)).
  { intros [runID Hr] ->. apply lookup_lt_Some in Hr. lia. }
  split.
  - cbn. by rewrite !length_app, Hl.
  - cbn. eapply Forall_impl; [exact Hn|]. intros a Ha. rewrite length_app. simpl in *. lia.
  - intros t [Hex|(-> & Hs & runID & ->)]%Hcase [Ht|[Hi ->]]%Hthread; cbn [make po_trace].
    + by apply He.
    + by apply Hno in Hex.
    + apply lookup_lt_Some in Ht. lia.
    + rewrite Hs. apply executeRun_enters.
  - intros t [Hex|(-> & Hs & runID & ->)]%Hcase [Ht|[Hi ->]]%Hthread; cbn [make po_trace].
    + by apply Hv.
    + by apply Hno in Hex.
    + apply lookup_lt_Some in Ht. lia.
    + exists false. rewrite Hs. split; [apply executeRun_hands_off|done].
  - intros [Hex|(-> & Hs & runID & ->)]%Hcase; cbn [make po_trace po_env]; [by apply Ho|by rewrite Hs].
  - intros [Hex|(Hi & Hs & runID & ->)]%Hcase; cbn [make po_trace]; [by apply Hb|].
    intros before a after Heq. rewrite Heq in Hn. apply Forall_app in Hn as [Hbe Hn].
    apply Forall_cons in Hn as [Ha _]. rewrite (seen_nothing i before) by (by rewrite Hi). done.
Qed.

Lemma watched_serve i schedule r : holder i = i -> watched i (serve schedule r).
Proof.
  intros Hi. unfold serve, play. induction schedule as [|mv l IH] using rev_ind.
  - split; try done; try (by intros ? [? ?]). by intros ? [] ? ?.
  - rewrite foldl_app. cbn [foldl]. destruct mv as [j|g|now spec]; [by apply watched_turn|by apply watched_start|].
    by destruct IH.
Qed.

(** What was seen stays seen. *)
Lemma seen_later i trace n m :
  (n <= m)%nat ->
  (si_registered (seen i (take n trace)) = true -> si_registered (seen i (take m trace)) = true) /\
  (si_marked (seen i (take n trace)) = true -> si_marked (seen i (take m trace)) = true) /\
  (si_asked (seen i (take n trace)) = true -> si_asked (seen i (take m trace)) = true).
Proof.
  intros Hnm. replace m with (n + (m - n))%nat by lia. rewrite <- take_take_drop. unfold seen. rewrite foldl_app.
  generalize (foldl (see i) (mksight false false false) (take n trace)) as k.
  induction (take (m - n) (list.drop n trace)) as [|a l IH]; intros k; [done|]. simpl.
  destruct (IH (see i k a)) as (H1 & H2 & H3). split_and!; intros H; [apply H1|apply H2|apply H3]; simpl; by rewrite H.
Qed.

Lemma seen_next i trace n a : trace !! n = Some a -> seen i (take (S n) trace) = see i (seen i (take n trace)) a.
Proof. intros H. by rewrite (take_S_r _ _ _ H), seen_snoc. Qed.

(** C32. A run that one of its runners left unresolved stays recoverable, however
    the goroutines are interleaved. Once a goroutine of the run of executor [i] has
    marked it unresolved in the table of active runs, the executor is told so when
    it asks, and from then on it leaves the run's status, nodes and attempts as they
    are, starts nothing and does not finalize the sample run. *)
Theorem unresolved_run_is_left (schedule : list move) (r : E) (i : nat) (runID : string)
    (n1 n2 n3 : nat) (reg mark ask : answered) :
  let p := serve schedule r in
  parent i = None -> po_started p !! i = Some (GoExecuteRun runID) ->
  (n1 < n2 < n3)%nat ->
  po_trace p !! n1 = Some reg -> registers i reg = true ->
  po_trace p !! n2 = Some mark -> marks i mark = true ->
  po_trace p !! n3 = Some ask -> asks i ask = true ->
  said ask = true /\
  forall n call, (n3 < n)%nat -> po_trace p !! n = Some call -> an_goroutine call = i ->
    hands_off true (an_type call) (an_event call).
Proof.
  intros p Hpar Hst Hn Er Hreg Em Hmark Ea Hask.
  assert (Hi : holder i = i) by (unfold holder; by rewrite Hpar).
  pose proof (wa_heeds i _ (watched_serve i schedule r Hi) (ex_intro _ runID Hst)) as Hh. fold p in Hh.
  assert (Hheeds : forall n a, po_trace p !! n = Some a -> heeds i (seen i (take n (po_trace p))) a).
  { intros n a H. eapply Hh. symmetry. by apply take_drop_middle. }
  assert (Hr : si_registered (seen i (take n2 (po_trace p))) = true).
  { apply (seen_later i _ (S n1)); [lia|]. rewrite (seen_next _ _ _ _ Er). simpl. rewrite Hreg. apply orb_true_r. }
  assert (Hm : si_marked (seen i (take n3 (po_trace p))) = true).
  { apply (seen_later i _ (S n2)); [lia|]. rewrite (seen_next _ _ _ _ Em). simpl. rewrite Hr, Hmark. apply orb_true_r. }
  split; [by apply (Hheeds _ _ Ea)|]. intros n call Hlt Hc Hg. apply (Hheeds _ _ Hc); [|done].
  apply (seen_later i _ (S n3)); [lia|]. rewrite (seen_next _ _ _ _ Ea). simpl. rewrite Hm, Hask. apply orb_true_r.
Qed.
End active.
