(* ===== verification/EngineNew.v ===== *)
(** * The engine object ([src/pkg/executor/executor.go], [DagEngine])

    The engine with what it is built over, and its constructors. [newMetrics] panics,
    here [None], when the instruments cannot be made. *)
From S2P Require Import Prelude GoStrings GoErrors Handoff HandoffClient BackendTypes ActiveRuns Metrics.

Section engine.
Context {BT : BackendTypes} {M : Meter} {R A W : Type}.

Record DagEngine := mkDagEngine {
  de_registry : R;
  de_adapter : A;
  de_handoff : Client W;
  de_metrics : Metrics;
  de_active : actives;
}.

Definition newMetrics : option Metrics := match New with Ok m => Some m | Err _ => None end.

Definition NewDagEngineWithHandoff (reg : R) (adapter : A) (client : option (Client W)) : option DagEngine :=
  let client := default (NoopClient W) client in
  match newMetrics with
  | Some m => Some (mkDagEngine reg adapter client m no_actives)
  | None => None
  end.

Definition NewDagEngine (reg : R) (adapter : A) : option DagEngine :=
  match newMetrics with
  | Some m => Some (mkDagEngine reg adapter (NoopClient W) m no_actives)
  | None => None
  end.

Definition DagEngine_Metrics (e : DagEngine) : Metrics := de_metrics e.

(** The engine without a handoff client is that with the no-op one; an engine starts
    with no active run. *)
Lemma NewDagEngine_noop reg adapter : NewDagEngine reg adapter = NewDagEngineWithHandoff reg adapter None.
Proof. unfold NewDagEngine, NewDagEngineWithHandoff. cbn [default from_option id]. by destruct newMetrics. Qed.

Lemma NewDagEngine_idle reg adapter client e :
  NewDagEngineWithHandoff reg adapter client = Some e -> forall runID, getActiveRun runID (de_active e) = None.
Proof.
  unfold NewDagEngineWithHandoff. destruct newMetrics; [|done]. intros [= <-] runID. apply lookup_empty.
Qed.
End engine.
