(* ===== verification/Durable.v ===== *)
(** * A server on its durable registry ([src/pkg/registry/sqlite.go], [src/pkg/executor])

    The goroutines of [Goroutines], over the SQLite registry instead of the
    in-memory one, and over the life of its file: a server opens the file, its
    goroutines make their calls in any order, calls of the driver fail, the process
    ends at any moment and another one opens the file again. Next to the tables a
    registry in memory, the [shadow], makes the calls that did not fail: the tables
    are shown to represent it, and it only takes the steps of the program. Attempts
    are allocated once and executions started behind fences, across restarts too. *)
From S2P Require Import Prelude GoStrings GoErrors GoJson Spec Validate Registry Memory Handoff Provenance BackendTypes.
From S2P Require Import Binding Placement Reconcile Prog Runner RunnerLogic RunnerWrites MemoryWorld MemoryFacts MemoryTidy.
From S2P Require Import Sqlite SqliteRefines SqliteOpen Engine Api Goroutines.

Section durable.
Context {BT : BackendTypes} {U : UnicodeTables} {RO : RangeOrder} (caps : AdapterCaps).
Context {JR : Json RunRecord} {JN : Json NodeRecord} {JA : Json AttemptRecord} {JE : Json EventRecord}.
Context {D : Driver} {OD : OpenDriver}.

(** ** Calls of the registry among the calls of a goroutine *)
Inductive routed : Type -> Type :=
  | ToRegistry {A} (o : op A) : routed (res A)
  | Elsewhere {X} (e : event X) : routed X.

(** [now] is the time the registry reads, in an allocation. *)
Definition route (now : Z) {X} (e : event X) : routed X :=
  match e in event X return routed X with
  | EGetRun runID => ToRegistry (OGetRun runID)
  | EListRuns => ToRegistry OListRuns
  | EGetNode runID nodeID => ToRegistry (OGetNode runID nodeID)
  | EListNodes runID => ToRegistry (OListNodes runID)
  | EListAttempts runID nodeID => ToRegistry (OListAttempts runID nodeID)
  | EGetCurrentAttempt runID nodeID => ToRegistry (OGetCurrentAttempt runID nodeID)
  | EUpdateRun runID f => ToRegistry (OUpdateRun runID (infallible f))
  | EUpdateNode runID nodeID f => ToRegistry (OUpdateNode runID nodeID (infallible f))
  | EUpsertAttempt record => ToRegistry (OUpsertAttempt record)
  | EAppendEvent record => ToRegistry (OAppendEvent record)
  | EAllocateCurrentAttempt runID nodeID => ToRegistry (OAllocate now runID nodeID)
  | EOpenSemanticAttempt runID nodeID attemptID at_ => ToRegistry (OOpen runID nodeID attemptID at_)
  | EPersistBackendHandle runID nodeID attemptID json => ToRegistry (OHandle runID nodeID attemptID json)
  | EPersistCancellationIntent runID nodeID attemptID at_ reason =>
      ToRegistry (OIntent runID nodeID attemptID at_ reason)
  | EPersistProcessCompleted runID nodeID attemptID at_ => ToRegistry (OCompleted runID nodeID attemptID at_)
  | e => Elsewhere e
  end.

Section calls.
Context {E : Type} (env : forall X, event X -> E -> E * X).

(** The time of an allocation is drawn from the clock. *)
Definition clock {X} (e : event X) (s : E) : E * Z :=
  match e with EAllocateCurrentAttempt _ _ => env _ ENow s | _ => (s, 0%Z) end.

(** A call of a goroutine of a durable server, the driver's calls ending as in
    [outcomes]. *)
Definition durable_handle (outcomes : list (option GoError)) (X : Type) (e : event X) (w : Tables * E)
    : (Tables * E) * X :=
  let '(d, s) := w in
  let '(s, now) := clock e s in
  match route now e in routed X return (Tables * E) * X with
  | ToRegistry o => let '((d, _), r) := on_sqlite o (d, outcomes) in ((d, s), r)
  | Elsewhere e => let '(s, x) := env _ e s in ((d, s), x)
  end.

(** The in-memory server routes its calls alike. *)
Lemma memory_routed X (e : event X) m s :
  memory_handle env X e (m, s) =
  let '(s, now) := clock e s in
  match route now e in routed X return (MemoryRegistry * E) * X with
  | ToRegistry o => let '(m, r) := on_memory o m in ((m, s), r)
  | Elsewhere e => let '(s, x) := env _ e s in ((m, s), x)
  end.
Proof. by destruct e. Qed.
End calls.

(** The registry in memory after the same call, if it did not fail. *)
Definition shadow_call (now : Z) {X} (e : event X) (x : X) (m : MemoryRegistry) : MemoryRegistry :=
  match route now e in routed X return X -> MemoryRegistry with
  | ToRegistry o => fun r => if is_ok r then (on_memory o m).1 else m
  | Elsewhere _ => fun _ => m
  end x.

(** The registry in memory that does not fail. *)
Definition intended_call (now : Z) {X} (e : event X) (m : MemoryRegistry) : MemoryRegistry :=
  match route now e with ToRegistry o => (on_memory o m).1 | Elsewhere _ => m end.

Context {E : Type} (env : nat -> forall X, event X -> E -> E * X) (reboot : E -> E) (path : string).

(** ** The life of a server *)

(** The file, the open registry of the running process if there is one, and its
    goroutines; the numbers of a process follow those of the processes before. *)
Record server := mkserver {
  sv_file : File;
  sv_open : option DB;
  sv_shadow : MemoryRegistry;
  sv_env : E;
  sv_started : list goroutine;
  sv_left : list (prog unit);
  sv_trace : list answered;
}.

#[local] Instance eta_server : Eta server := fun p =>
  mkserver (sv_file p) (sv_open p) (sv_shadow p) (sv_env p) (sv_started p) (sv_left p) (sv_trace p).

Definition sv_tables (p : server) : Tables := fi_tables (sv_file p).

Inductive happening :=
  | Boot (outcomes : list (option GoError))
  | Call (i : nat) (outcomes : list (option GoError))
  | Spawn (g : goroutine)
  | Accept (now : Z) (spec : ExecutableRunSpec) (outcomes : list (option GoError))
  | Crash.

(** The first call of goroutine [i]. *)
Definition call (i : nat) (outcomes : list (option GoError)) (p : server) : server :=
  match sv_left p !! i with
  | Some (Vis e k) =>
      let now := (clock (env i) e (sv_env p)).2 in
      let '((d, s), x) := durable_handle (env i) outcomes _ e (sv_tables p, sv_env p) in
      mkserver ((sv_file p) <| fi_tables := d |>) (sv_open p) (shadow_call now e x (sv_shadow p)) s
        (sv_started p) (<[i := k x]> (sv_left p)) (sv_trace p ++ [mkAnswered i _ e x])
  | _ => p
  end.

(** A submission that the guard accepts is stored. *)
Definition accept (now : Z) (spec : ExecutableRunSpec) (outcomes : list (option GoError)) (p : server) : server :=
  match ValidateExecutableRunSpec spec with
  | Some _ => p
  | None =>
      let '((d, _), r) := SQLite_CreateRun (accepted_run now spec) (pending_nodes spec) (sv_tables p, outcomes) in
      p <| sv_file := (sv_file p) <| fi_tables := d |> |>
        <| sv_shadow := if is_ok r then (CreateRun (sv_shadow p) (accepted_run now spec) (pending_nodes spec)).1
                        else sv_shadow p |>
  end.

Definition happen (h : happening) (p : server) : server :=
  match sv_open p, h with
  | None, Boot outcomes =>
      let '(f, r) := NewSQLiteRegistry path (sv_file p) outcomes in
      p <| sv_file := f |> <| sv_open := match r with Ok db => Some db | Err _ => None end |>
  | Some _, Call i outcomes => call i outcomes p
  | Some _, Spawn g => p <| sv_started := sv_started p ++ [g] |> <| sv_left := sv_left p ++ [code caps g] |>
  | Some _, Accept now spec outcomes => accept now spec outcomes p
  | Some _, Crash =>
      p <| sv_open := None |> <| sv_env := reboot (sv_env p) |>
        <| sv_left := (fun _ => Ret tt) <$> sv_left p |>
  | _, _ => p
  end.

(** No file yet. *)
Definition before (s : E) : server := mkserver new_file None NewMemoryRegistry s [] [] [].

Definition live (history : list happening) (s : E) : server := foldl (fun p h => happen h p) (before s) history.

(** ** Records that survive their encoding *)
Record saved (m : MemoryRegistry) : Prop := {
  saved_run : forall id x, mr_runs m !! id = Some x -> round_trips x;
  saved_node : forall id n x, get_node m id n = Some x -> round_trips x;
  saved_attempt : forall id n a x, get_attempt m id n a = Some x -> round_trips x;
  saved_event : forall id es x, mr_events m !! id = Some es -> x ∈ es -> round_trips x;
}.

Lemma saved_kept m : tidy m -> saved m -> well_kept m.
Proof.
  intros [H1 _ H3] [G1 G2 G3 G4]. split; [done| | |done].
  - intros id n x H. split; [by eapply G2|]. by apply H3.
  - intros id n a x H. split; [by eapply G3|]. by apply H1.
Qed.

(** What the next call means to store. *)
Definition intended (h : happening) (p : server) : MemoryRegistry :=
  match h with
  | Call i _ =>
      match sv_left p !! i with
      | Some (Vis e k) => intended_call (clock (env i) e (sv_env p)).2 e (sv_shadow p)
      | _ => sv_shadow p
      end
  | Accept now spec _ => (CreateRun (sv_shadow p) (accepted_run now spec) (pending_nodes spec)).1
  | _ => sv_shadow p
  end.

(** Every record that is stored, or would be, survives its encoding. *)
Fixpoint all_saved (history : list happening) (p : server) : Prop :=
  match history with
  | [] => True
  | h :: history => saved (intended h p) /\ all_saved history (happen h p)
  end.

(** ** Answers of the durable registry *)
Definition listing {A} (o : op A) : bool := match o with OListRuns => true | _ => false end.

Lemma same_ok {A} (o : op A) x r : listing o = false -> same_answer o (Ok x) r -> r = Ok x.
Proof. destruct o; simpl; try done; intros _ H; destruct r; try done; congruence. Qed.

Lemma same_err {A} (o : op A) err r : same_answer o (Err err) r -> is_ok r = false.
Proof. destruct o; simpl; try done; intros H; destruct r; done. Qed.

(** A call of the in-memory registry that fails changes nothing. *)
Lemma memory_refused {A} (o : op A) m : is_ok (on_memory o m).2 = false -> (on_memory o m).1 = m.
Proof.
  assert (Hm : forall id n a f, is_ok (lockedMutateAttempt m id n a f).2 = false ->
    (lockedMutateAttempt m id n a f).1 = m).
  { intros id n a f. unfold lockedMutateAttempt. repeat case_match; done. }
  destruct o; simpl; try done; try apply Hm.
  - unfold CreateRun. by case_match.
  - unfold UpdateRun. repeat case_match; done.
  - unfold UpdateNode. repeat case_match; done.
  - unfold UpsertAttempt. repeat case_match; done.
  - unfold AppendEvent. by case_match.
  - unfold AllocateCurrentAttempt. repeat case_match; done.
  - unfold OpenSemanticAttempt. destruct (lockedGetNode m runID nodeID); [|done]. case_match; [done|].
    pose proof (Hm runID nodeID attemptID (open_fence openedAt)) as Hr.
    by destruct (lockedMutateAttempt _ _ _ _ _) as [m' [|]]; simpl in *; [|auto].
  - pose proof (Hm runID nodeID attemptID (fun a => a <| ar_BackendHandleJSON := handleJSON |>)) as Hr.
    unfold PersistBackendHandle. destruct (lockedMutateAttempt _ _ _ _ _) as [m' [|]]; simpl in *; [|auto].
    by case_match.
Qed.

(** What an answer says to a goroutine: a fact, the attempts it shows, and the one
    it hands out. *)
Record reading (X : Type) := mkReading {
  rd_fact : X -> Prop;
  rd_gains : X -> knowledge;
  rd_hands : X -> option (string * string * string);
}.
Arguments rd_fact {X} _ _.
Arguments rd_gains {X} _ _.
Arguments rd_hands {X} _ _.

(** An answer that says nothing. *)
Definition silent {X} (rd : reading X) (x : X) : Prop := rd_fact rd x /\ rd_gains rd x = ∅ /\ rd_hands rd x = None.

(** A registry that follows, with an answer that is true of it. *)
Record answers_well (b : Z) (m m' : MemoryRegistry) {X} (rd : reading X) (x : X) : Prop := {
  aw_follows : follows b m m';
  aw_fact : rd_fact rd x;
  aw_known : known m' (rd_gains rd x);
  aw_fresh : forall id n a, rd_hands rd x = Some (id, n, a) ->
    get_attempt m id n a = None /\ is_Some (get_attempt m' id n a);
}.

Lemma silent_well b m m' {X} (rd : reading X) x : follows b m m' -> silent rd x -> answers_well b m m' rd x.
Proof. intros Hf (H1 & H2 & H3). split; [done|done| |by rewrite H3]. rewrite H2. apply known_none. Qed.

(** The tables answer as the registry in memory or with a failure. *)
Lemma op_answers b d m {A} (o : op A) (rd : reading (res A)) outcomes :
  sim d m -> good b m -> saved (on_memory o m).1 -> distinct_nodes o ->
  answers_well b m (on_memory o m).1 rd (on_memory o m).2 ->
  (forall err, silent rd (Err err)) -> (listing o = true -> forall r, silent rd r) ->
  let '((d', _), r) := on_sqlite o (d, outcomes) in
  let m' := if is_ok r then (on_memory o m).1 else m in
  sim d' m' /\ answers_well b m m' rd r.
Proof.
  intros Hs Hg Hsv Hd Hm Herr Hlist.
  assert (Hk : well_kept (on_memory o m).1).
  { apply saved_kept; [|done]. by destruct (aw_follows _ _ _ _ _ Hm) as [(_ & Ht & _) _]. }
  destruct (every_op_refines o d m Hs Hk Hd outcomes) as (d' & rest & r & -> & [[H1 H2]|(e & -> & _ & ->)]).
  - destruct r as [x|err]; cbn [is_ok].
    + split; [done|]. destruct (listing o) eqn:El; [|by rewrite (same_ok o x _ El H2) in Hm].
      apply silent_well; [apply Hm|by apply Hlist].
    + apply same_err in H2. rewrite (memory_refused o m H2) in H1. split; [done|].
      apply silent_well; [by apply follows_refl|done].
  - split; [done|]. apply silent_well; [by apply follows_refl|done].
Qed.

Definition reads (i : nat) {X} (e : event X) : reading X :=
  mkReading X (facts X e) (gained X e) (fun x => allocation (mkAnswered i X e x)).

(** A failed call says nothing, nor does a list of runs; no goroutine creates a run. *)
Definition route_ok {X} (rt : routed X) : reading X -> Prop :=
  match rt in routed X return reading X -> Prop with
  | ToRegistry o => fun rd =>
      (forall err, silent rd (Err err)) /\ (listing o = true -> forall r, silent rd r) /\ distinct_nodes o
  | Elsewhere _ => fun _ => True
  end.

Lemma reads_ok i now X (e : event X) : route_ok (route now e) (reads i e).
Proof. by destruct e. Qed.

Lemma memory_answers_well b i m s k X (e : event X) :
  (b + 1 < int64_max)%Z -> good b m -> known m k -> allowed k X e ->
  let w := memory_handle (env i) X e (m, s) in answers_well (b + 1) m w.1.1 (reads i e) w.2.
Proof.
  intros Hb Hg Hk Ha w. destruct (answer_follows (env i) b m s k X e Hb Hg Hk Ha) as (H1 & H2 & H3).
  split; [done|done|done|]. intros id n a. by apply (allocation_fresh env b).
Qed.

Lemma call_answers b i outcomes d m s k X (e : event X) :
  (b + 1 < int64_max)%Z -> sim d m -> good b m -> known m k -> allowed k X e ->
  let now := (clock (env i) e s).2 in
  saved (intended_call now e m) ->
  let w := durable_handle (env i) outcomes X e (d, s) in
  let m' := shadow_call now e w.2 m in
  sim w.1.1 m' /\ answers_well (b + 1) m m' (reads i e) w.2.
Proof.
  intros Hb Hs Hg Hk Ha. pose proof (memory_answers_well b i m s k X e Hb Hg Hk Ha) as Hm.
  rewrite memory_routed in Hm. unfold durable_handle, shadow_call, intended_call.
  destruct (clock (env i) e s) as [s1 now]. cbn [snd]. cbv zeta in *.
  pose proof (reads_ok i now X e) as Hr. revert Hm Hr. generalize (reads i e) as rd.
  generalize (route now e) as rt. clear e Ha. intros rt. destruct rt as [A o|X e]; intros rd Hm Hr Hsv.
  - destruct (on_memory o m) as [m1 r1] eqn:Em. destruct Hr as (H1 & H2 & H3).
    assert (Hg' : good (b + 1) m) by (by eapply good_mono; [|done]; lia).
    pose proof (op_answers (b + 1) d m o rd outcomes Hs Hg') as H. rewrite Em in H. specialize (H Hsv H3 Hm H1 H2).
    destruct (on_sqlite o (d, outcomes)) as [[d' rest] r]. exact H.
  - destruct (env i X e s1) as [s2 x]. by split.
Qed.

(** ** Through the life of a server *)
Record kept (b : Z) (p : server) : Prop := {
  kept_sim : sim (sv_tables p) (sv_shadow p);
  kept_held : held b (sv_shadow p) (sv_left p) (sv_trace p);
}.

Lemma kept_call b p i outcomes :
  (b + 1 < int64_max)%Z -> saved (intended (Call i outcomes) p) -> kept b p -> kept (b + 1) (call i outcomes p).
Proof.
  intros Hb Hsv [Hs Hh]. unfold call, intended in *.
  assert (Hsame : kept (b + 1) p) by (split; [done|eapply held_mono; [|done]; lia]).
  destruct (sv_left p !! i) as [[[]|X e k]|] eqn:Ei; [done| |done]. cbv zeta.
  destruct (held_next _ _ _ _ _ _ _ _ Hh Ei) as (kn & Hkn & Hal & Hcont).
  pose proof (call_answers b i outcomes _ _ (sv_env p) kn X e Hb Hs (held_good _ _ _ _ Hh) Hkn Hal Hsv) as [H1 H2].
  destruct (durable_handle (env i) outcomes X e (sv_tables p, sv_env p)) as [[d s] x].
  destruct H2 as [H2 H3 H4 H5]. split; [done|].
  eapply held_answered; [exact Hh|done|exact Hkn|done|by apply Hcont|done].
Qed.

Lemma kept_accept b p now spec outcomes :
  (0 <= b)%Z -> saved (intended (Accept now spec outcomes) p) -> kept b p -> kept b (accept now spec outcomes p).
Proof.
  intros Hb Hsv [Hs Hh]. unfold accept. destruct (ValidateExecutableRunSpec spec) eqn:Ev; [done|].
  destruct (validated_nodes spec Ev) as (_ & _ & Hnd). cbn [intended] in Hsv.
  set (o := OCreateRun (accepted_run now spec) (pending_nodes spec)).
  assert (Hf : follows b (sv_shadow p) (on_memory o (sv_shadow p)).1).
  { apply follows_CreateRun; [done|apply pending_untouched|apply Hh]. }
  pose proof (op_answers b (sv_tables p) (sv_shadow p) o
    (mkReading _ (fun _ => True) (fun _ => ∅) (fun _ => None)) outcomes Hs (held_good _ _ _ _ Hh) Hsv) as H.
  cbn [distinct_nodes o] in H. rewrite pending_names in H. specialize (H Hnd).
  change (on_sqlite o) with (SQLite_CreateRun (accepted_run now spec) (pending_nodes spec)) in H.
  destruct (SQLite_CreateRun _ _ _) as [[d rest] r]. destruct H as [H1 [H2 _ _ _]].
  - by apply silent_well.
  - done.
  - done.
  - split; [exact H1|]. eapply held_follows; [exact H2|exact Hh].
Qed.

(** The process ends: what was left of its goroutines is gone. *)
Lemma held_crash b m left trace : held b m left trace -> held b m ((fun _ => Ret tt) <$> left) trace.
Proof.
  intros [H1 H2 H3 H4]. split; [done| |done|done]. apply Forall_fmap, Forall_true. intros t. exists ∅.
  split; [apply known_none|done].
Qed.

Lemma kept_happen b p h :
  (0 <= b)%Z -> (b + 1 < int64_max)%Z -> saved (intended h p) -> kept b p -> kept (b + 1) (happen h p).
Proof.
  intros H0 Hb Hsv Hk. assert (Hk' : kept (b + 1) p) by (destruct Hk; split; [done|eapply held_mono; [|done]; lia]).
  destruct Hk' as [Hs Hh]. unfold happen. destruct (sv_open p) as [db|] eqn:Eo, h as [outcomes|i outcomes|g|now spec outcomes|]; try done.
  - by apply kept_call.
  - split; [done|]. by apply held_start.
  - apply kept_accept; [lia|done|done].
  - split; [done|]. by apply held_crash.
  - destruct (NewSQLiteRegistry path (sv_file p) outcomes) as [f r] eqn:Ef.
    destruct (opening_spec _ _ _ _ _ Ef) as ([Ht _] & _). split; [|done].
    unfold sv_tables in *. cbn. by rewrite Ht.
Qed.

Lemma kept_live b p history :
  (0 <= b)%Z -> (b + Z.of_nat (length history) < int64_max)%Z -> all_saved history p -> kept b p ->
  kept (b + Z.of_nat (length history)) (foldl (fun p h => happen h p) p history).
Proof.
  revert b p. induction history as [|h l IH]; intros b p H0 Hb Hsv Hk; simpl.
  { by rewrite Z.add_0_r. }
  cbn [length] in Hb. destruct Hsv as [Hh Hsv].
  replace (b + Z.of_nat (S (length l)))%Z with (b + 1 + Z.of_nat (length l))%Z by lia.
  apply IH; [lia|lia|done|]. apply kept_happen; [lia|lia|done|done].
Qed.

Lemma kept_before s : kept 0 (before s).
Proof.
  split; [by split; [apply wf_empty|done..]|].
  split; [apply good_empty|done|by intros ? ? ? ?%not_elem_of_nil|apply NoDup_nil_2].
Qed.

(** C9. However the goroutines of a server are interleaved, whatever calls of the
    driver fail and whenever the process ends and starts again on the same file, the
    tables represent the registry of an in-memory server on which the calls that
    did not fail were made: every stored row is a record of the program, under its
    own names, and the registry only took the steps of the program. The records must
    survive their encoding. *)
Theorem tables_represent_program (history : list happening) (s : E) :
  (Z.of_nat (length history) < int64_max)%Z -> all_saved history (before s) ->
  let p := live history s in
  sim (sv_tables p) (sv_shadow p) /\ program_reachable (sv_shadow p) /\ tidy (sv_shadow p).
Proof.
  intros Hl Hsv p. destruct (kept_live 0 (before s) history) as [H1 H2]; [done|done|done|apply kept_before|].
  destruct (held_good _ _ _ _ H2) as (H3 & H4 & _). by split_and!.
Qed.

(** C10. No attempt is allocated twice in the life of the file: not by two goroutines,
    not by two processes, not after a failure of the driver; and the row of an
    attempt that was handed out is never lost. *)
Theorem durable_attempts_allocated_once (history : list happening) (s : E) :
  (Z.of_nat (length history) < int64_max)%Z -> all_saved history (before s) ->
  let p := live history s in
  NoDup (allocations (sv_trace p)) /\
  forall id n a, (id, n, a) ∈ allocations (sv_trace p) -> is_Some (db_attempts (sv_tables p) !! (id, n, a)).
Proof.
  intros Hl Hsv p. destruct (kept_live 0 (before s) history) as [H1 H2]; [done|done|done|apply kept_before|].
  destruct H2 as [_ _ H3 H4]. split; [done|]. intros id n a Hin. destruct (H3 _ _ _ Hin) as [x Hx].
  pose proof (sim_attempt _ _ H1 id n a) as Hr. fold p in Hr, Hx. change (foldl _ _ history) with p in *.
  rewrite Hx in Hr. destruct (db_attempts (sv_tables p) !! (id, n, a)); [eauto|done].
Qed.

(** ** Executions through the life of a server *)

(** No call of the driver fails with an error that is private to the executor. *)
Definition driver_errors (h : happening) : Prop :=
  match h with
  | Call _ outcomes => forall err, Some err ∈ outcomes -> errors_is err errNodeRetry = false
  | _ => True
  end.

Lemma intended_tidy b i m s k X (e : event X) :
  (b + 1 < int64_max)%Z -> good b m -> known m k -> allowed k X e ->
  tidy (intended_call (clock (env i) e s).2 e m).
Proof.
  intros Hb Hg Hk Ha. destruct (memory_answers_well b i m s k X e Hb Hg Hk Ha) as [[(_ & Ht & _) _] _ _ _].
  rewrite memory_routed in Ht. unfold intended_call. destruct (clock (env i) e s) as [s1 now]. cbn [snd].
  destruct (route now e) as [A o|X' e']; [by destruct (on_memory o m)|by destruct Hg as (_ & ? & _)].
Qed.

Lemma durable_believable i outcomes d m s X (e : event X) :
  driver_errors (Call i outcomes) -> sim d m -> tidy (intended_call (clock (env i) e s).2 e m) ->
  saved (intended_call (clock (env i) e s).2 e m) ->
  believable e (durable_handle (env i) outcomes X e (d, s)).2.
Proof.
  intros Hd Hs Ht Hsv. apply believable_update. destruct e; try done. unfold durable_handle, intended_call in *.
  cbn [clock route snd] in *. set (o := OUpdateNode runID nodeID (infallible f)) in *.
  destruct (every_op_refines o d m Hs (saved_kept _ Ht Hsv) I outcomes)
    as (d' & rest & r & -> & [[_ H]|(err & -> & Herr & _)]); cbn [snd].
  - cbn [same_answer o] in H. rewrite H. apply update_foreign.
  - intros err' [= <-]. by apply Hd.
Qed.

Definition server_ordered (p : server) : Prop := ordered (sv_started p) (sv_left p) (sv_trace p).

Lemma ordered_happen b p h :
  (0 <= b)%Z -> (b + 1 < int64_max)%Z -> saved (intended h p) -> driver_errors h -> kept b p ->
  server_ordered p -> server_ordered (happen h p).
Proof.
  intros H0 Hb Hsv Hd [Hs Hh] Ho. unfold happen, server_ordered in *.
  destruct (sv_open p) as [db|] eqn:Eo, h as [outcomes|i outcomes|g|now spec outcomes|]; try done.
  - unfold call, intended in *. destruct (sv_left p !! i) as [[[]|X e k]|] eqn:Ei; [done| |done]. cbv zeta.
    destruct (held_next _ _ _ _ _ _ _ _ Hh Ei) as (kn & Hkn & Hal & _).
    pose proof (intended_tidy b i _ (sv_env p) kn X e Hb (held_good _ _ _ _ Hh) Hkn Hal) as Ht.
    pose proof (durable_believable i outcomes _ _ (sv_env p) X e Hd Hs Ht Hsv) as Hx.
    destruct (durable_handle (env i) outcomes X e (sv_tables p, sv_env p)) as [[d s] x].
    by apply ordered_answered.
  - by apply ordered_start.
  - unfold accept. destruct (ValidateExecutableRunSpec spec); [done|]. by destruct (SQLite_CreateRun _ _ _) as [[d rest] r].
  - by apply ordered_end.
  - by destruct (NewSQLiteRegistry path (sv_file p) outcomes) as [f r].
Qed.

Lemma ordered_live b p history :
  (0 <= b)%Z -> (b + Z.of_nat (length history) < int64_max)%Z -> all_saved history p ->
  Forall driver_errors history -> kept b p -> server_ordered p ->
  server_ordered (foldl (fun p h => happen h p) p history).
Proof.
  revert b p. induction history as [|h l IH]; intros b p H0 Hb Hsv Hd Hk Ho; simpl; [done|].
  cbn [length] in Hb. destruct Hsv as [Hh Hsv]. apply Forall_cons in Hd as [Hd Hds].
  apply (IH (b + 1)%Z); [lia|lia|done|done| |].
  - apply kept_happen; [lia|lia|done|done].
  - apply (ordered_happen b); [lia|lia|done|done|done|done].
Qed.

(** C11. Through the life of the file a goroutine starts at most one execution, only
    a node's runner does, and only after it opened itself, in the tables, the fence
    of an attempt of its own node: however the goroutines are interleaved, whatever
    calls of the driver fail and whenever a process ends and another one starts on
    the same file. What is left of an ended process starts nothing. *)
Theorem durable_starts_stay_behind_fences (history : list happening) (s : E) :
  (Z.of_nat (length history) < int64_max)%Z -> all_saved history (before s) -> Forall driver_errors history ->
  let p := live history s in
  (forall i, (length (starts i (sv_trace p)) <= 1)%nat) /\ behind_fences (sv_started p) (sv_trace p).
Proof.
  intros Hl Hsv Hd p.
  assert (Ho : server_ordered p).
  { apply (ordered_live 0); [done|done|done|done|apply kept_before|apply ordered_idle]. }
  split; [|exact (or_fences _ _ _ Ho)]. intros i. by eapply ordered_once.
Qed.
End durable.
