(* ===== verification/ApiGrpc.v ===== *)
(** * The run service over gRPC ([src/pkg/api/grpc.go])

    The request and response structures with their tags, the handler of every
    method, the table [RegisterRunService] registers, and every method of
    [RunServiceClient], each with the name it was written with. A message on the
    wire is the text of its JSON, as [jsonCodec] writes it. A handler that is given
    another request than its own panics, which is [None]. *)
From S2P Require Import Prelude GoStrings GoErrors GoJson JsonTree JsonText Spec RecordJson Registry Api.

(** ** Messages *)
Record SubmitRunRequest := mkSubmitRunRequest { smq_Spec : ExecutableRunSpec }.
Record GetRunRequest := mkGetRunRequest { grq_RunID : string }.
Record GetRunResponse := mkGetRunResponse { grs_Run : RunRecord }.
Record ListRunNodesRequest := mkListRunNodesRequest { lnq_RunID : string }.
Record ListRunNodesResponse := mkListRunNodesResponse { lns_Nodes : list NodeRecord }.
Record ListNodeAttemptsRequest := mkListNodeAttemptsRequest { laq_RunID : string; laq_NodeID : string }.
Record ListNodeAttemptsResponse := mkListNodeAttemptsResponse { las_Attempts : list AttemptRecord }.
Record ListRunEventsRequest := mkListRunEventsRequest { leq_RunID : string; leq_Limit : Z }.
Record ListRunEventsResponse := mkListRunEventsResponse { les_Events : list EventRecord }.
Record CancelRunRequest := mkCancelRunRequest { crq_RunID : string; crq_Reason : string }.

#[export] Instance eta_SubmitRunRequest : Eta SubmitRunRequest := fun x => mkSubmitRunRequest (smq_Spec x).
#[export] Instance eta_SubmitRunResponse : Eta SubmitRunResponse := fun x =>
  mkSubmitRunResponse (sr_RunID x) (sr_Status x) (sr_AcceptedAt x).
#[export] Instance eta_GetRunRequest : Eta GetRunRequest := fun x => mkGetRunRequest (grq_RunID x).
#[export] Instance eta_GetRunResponse : Eta GetRunResponse := fun x => mkGetRunResponse (grs_Run x).
#[export] Instance eta_ListRunNodesRequest : Eta ListRunNodesRequest := fun x => mkListRunNodesRequest (lnq_RunID x).
#[export] Instance eta_ListRunNodesResponse : Eta ListRunNodesResponse := fun x => mkListRunNodesResponse (lns_Nodes x).
#[export] Instance eta_ListNodeAttemptsRequest : Eta ListNodeAttemptsRequest := fun x =>
  mkListNodeAttemptsRequest (laq_RunID x) (laq_NodeID x).
#[export] Instance eta_ListNodeAttemptsResponse : Eta ListNodeAttemptsResponse := fun x =>
  mkListNodeAttemptsResponse (las_Attempts x).
#[export] Instance eta_ListRunEventsRequest : Eta ListRunEventsRequest := fun x =>
  mkListRunEventsRequest (leq_RunID x) (leq_Limit x).
#[export] Instance eta_ListRunEventsResponse : Eta ListRunEventsResponse := fun x =>
  mkListRunEventsResponse (les_Events x).
#[export] Instance eta_CancelRunRequest : Eta CancelRunRequest := fun x => mkCancelRunRequest (crq_RunID x) (crq_Reason x).
#[export] Instance eta_CancelRunResponse : Eta CancelRunResponse := fun x =>
  mkCancelRunResponse (cr_RunID x) (cr_Accepted x) (cr_Status x) (cr_AcceptedAt x).

(** *** The tags *)
Definition SubmitRunRequest_fields : list (field SubmitRunRequest) := [jfield "spec" false smq_Spec].
#[export] Instance SubmitRunRequest_json : JsonType SubmitRunRequest :=
  struct_json (mkSubmitRunRequest zero_ExecutableRunSpec) SubmitRunRequest_fields.

Definition SubmitRunResponse_fields : list (field SubmitRunResponse) := [
  jfield "runId" false sr_RunID;
  jfield "status" false sr_Status;
  jfield "acceptedAt" false sr_AcceptedAt (H := time_json)
].
#[export] Instance SubmitRunResponse_json : JsonType SubmitRunResponse :=
  struct_json (mkSubmitRunResponse "" RunStatusUnset 0) SubmitRunResponse_fields.

Definition GetRunRequest_fields : list (field GetRunRequest) := [jfield "runId" false grq_RunID].
#[export] Instance GetRunRequest_json : JsonType GetRunRequest :=
  struct_json (mkGetRunRequest "") GetRunRequest_fields.

Definition GetRunResponse_fields : list (field GetRunResponse) := [jfield "run" false grs_Run].
#[export] Instance GetRunResponse_json : JsonType GetRunResponse :=
  struct_json (mkGetRunResponse zero_RunRecord) GetRunResponse_fields.

Definition ListRunNodesRequest_fields : list (field ListRunNodesRequest) := [jfield "runId" false lnq_RunID].
#[export] Instance ListRunNodesRequest_json : JsonType ListRunNodesRequest :=
  struct_json (mkListRunNodesRequest "") ListRunNodesRequest_fields.

Definition ListRunNodesResponse_fields : list (field ListRunNodesResponse) := [jfield "nodes" false lns_Nodes].
#[export] Instance ListRunNodesResponse_json : JsonType ListRunNodesResponse :=
  struct_json (mkListRunNodesResponse []) ListRunNodesResponse_fields.

Definition ListNodeAttemptsRequest_fields : list (field ListNodeAttemptsRequest) := [
  jfield "runId" false laq_RunID;
  jfield "nodeId" false laq_NodeID
].
#[export] Instance ListNodeAttemptsRequest_json : JsonType ListNodeAttemptsRequest :=
  struct_json (mkListNodeAttemptsRequest "" "") ListNodeAttemptsRequest_fields.

Definition ListNodeAttemptsResponse_fields : list (field ListNodeAttemptsResponse) :=
  [jfield "attempts" false las_Attempts].
#[export] Instance ListNodeAttemptsResponse_json : JsonType ListNodeAttemptsResponse :=
  struct_json (mkListNodeAttemptsResponse []) ListNodeAttemptsResponse_fields.

Definition ListRunEventsRequest_fields : list (field ListRunEventsRequest) := [
  jfield "runId" false leq_RunID;
  jfield "limit" true leq_Limit
].
#[export] Instance ListRunEventsRequest_json : JsonType ListRunEventsRequest :=
  struct_json (mkListRunEventsRequest "" 0) ListRunEventsRequest_fields.

Definition ListRunEventsResponse_fields : list (field ListRunEventsResponse) := [jfield "events" false les_Events].
#[export] Instance ListRunEventsResponse_json : JsonType ListRunEventsResponse :=
  struct_json (mkListRunEventsResponse []) ListRunEventsResponse_fields.

Definition CancelRunRequest_fields : list (field CancelRunRequest) := [
  jfield "runId" false crq_RunID;
  jfield "reason" true crq_Reason
].
#[export] Instance CancelRunRequest_json : JsonType CancelRunRequest :=
  struct_json (mkCancelRunRequest "" "") CancelRunRequest_fields.

Definition CancelRunResponse_fields : list (field CancelRunResponse) := [
  jfield "runId" false cr_RunID;
  jfield "accepted" false cr_Accepted;
  jfield "status" false cr_Status;
  jfield "acceptedAt" false cr_AcceptedAt (H := time_json)
].
#[export] Instance CancelRunResponse_json : JsonType CancelRunResponse :=
  struct_json (mkCancelRunResponse "" false RunStatusUnset 0) CancelRunResponse_fields.

(** [jsonCodec] *)
Definition jsonCodec_Marshal {A} `{JsonType A} (v : A) : res string := Marshal (Json := tree_codec) v.
Definition jsonCodec_Unmarshal {A} `{JsonType A} (data : string) : res A := Unmarshal (Json := tree_codec) data.

(** The values of [any] that handlers and interceptors exchange. *)
Inductive any :=
  | ASubmitRunRequest (in_ : SubmitRunRequest) | ASubmitRunResponse (out : SubmitRunResponse)
  | AGetRunRequest (in_ : GetRunRequest) | AGetRunResponse (out : GetRunResponse)
  | AListRunNodesRequest (in_ : ListRunNodesRequest) | AListRunNodesResponse (out : ListRunNodesResponse)
  | AListNodeAttemptsRequest (in_ : ListNodeAttemptsRequest)
  | AListNodeAttemptsResponse (out : ListNodeAttemptsResponse)
  | AListRunEventsRequest (in_ : ListRunEventsRequest) | AListRunEventsResponse (out : ListRunEventsResponse)
  | ACancelRunRequest (in_ : CancelRunRequest) | ACancelRunResponse (out : CancelRunResponse).

(** [jsonCodec.Marshal] of an [any]. *)
Definition marshal_any (v : any) : res string :=
  match v with
  | ASubmitRunRequest x => jsonCodec_Marshal x | ASubmitRunResponse x => jsonCodec_Marshal x
  | AGetRunRequest x => jsonCodec_Marshal x | AGetRunResponse x => jsonCodec_Marshal x
  | AListRunNodesRequest x => jsonCodec_Marshal x | AListRunNodesResponse x => jsonCodec_Marshal x
  | AListNodeAttemptsRequest x => jsonCodec_Marshal x | AListNodeAttemptsResponse x => jsonCodec_Marshal x
  | AListRunEventsRequest x => jsonCodec_Marshal x | AListRunEventsResponse x => jsonCodec_Marshal x
  | ACancelRunRequest x => jsonCodec_Marshal x | ACancelRunResponse x => jsonCodec_Marshal x
  end.

Definition ServiceName : string := "jumi.v1.RunService".

Section server.
Context {W : Type} `{Registry W} `{Engine W} {U : UnicodeTables} {RO : RangeOrder}.

(** [internal] is the status the library makes of a message it cannot read. *)
Context (internal : GoError -> GoError) (now : Z).

(** ** The methods of [Service] on their requests *)
Definition RunService_SubmitRun (w : W) (req : SubmitRunRequest) : W * res SubmitRunResponse :=
  SubmitRun w now (smq_Spec req).

Definition RunService_GetRun (w : W) (req : GetRunRequest) : W * res GetRunResponse :=
  (w, match Service_GetRun w (grq_RunID req) with
      | Err err => Err err | Ok record => Ok (mkGetRunResponse record) end).

Definition RunService_ListRunNodes (w : W) (req : ListRunNodesRequest) : W * res ListRunNodesResponse :=
  (w, match ListRunNodes w (lnq_RunID req) with
      | Err err => Err err | Ok nodes => Ok (mkListRunNodesResponse nodes) end).

Definition RunService_ListNodeAttempts (w : W) (req : ListNodeAttemptsRequest)
    : W * res ListNodeAttemptsResponse :=
  (w, match ListNodeAttempts w (laq_RunID req) (laq_NodeID req) with
      | Err err => Err err | Ok attempts => Ok (mkListNodeAttemptsResponse attempts) end).

Definition RunService_ListRunEvents (w : W) (req : ListRunEventsRequest) : W * res ListRunEventsResponse :=
  (w, match ListRunEvents w (leq_RunID req) (leq_Limit req) with
      | Err err => Err err | Ok events => Ok (mkListRunEventsResponse events) end).

Definition RunService_CancelRun (w : W) (req : CancelRunRequest) : W * res CancelRunResponse :=
  CancelRun w now (crq_RunID req) (crq_Reason req).

(** ** The handlers *)

(** The decoder the library gives to a handler. *)
Definition dec {A} `{JsonType A} (data : string) : res A :=
  match jsonCodec_Unmarshal data with Err err => Err (internal err) | Ok in_ => Ok in_ end.

(** [grpc.UnaryHandler] and [grpc.UnaryServerInterceptor], which gets the request,
    the name of the method and the handler. *)
Definition UnaryHandler : Type := W -> any -> option (W * res any).
Definition Interceptor : Type := W -> any -> string -> UnaryHandler -> option (W * res any).
Definition MethodHandler : Type := W -> string -> option Interceptor -> option (W * res any).

(** The answer of a method as an [any]. *)
Definition boxed {A} (box : A -> any) (r : W * res A) : option (W * res any) :=
  Some (r.1, match r.2 with Err err => Err err | Ok x => Ok (box x) end).

Definition submitRunHandler : MethodHandler := fun w data interceptor =>
  match dec data with
  | Err err => Some (w, Err err)
  | Ok in_ =>
      match interceptor with
      | None => boxed ASubmitRunResponse (RunService_SubmitRun w in_)
      | Some interceptor =>
          let handler w req :=
            match req with
            | ASubmitRunRequest req => boxed ASubmitRunResponse (RunService_SubmitRun w req)
            | _ => None
            end in
          interceptor w (ASubmitRunRequest in_) ("/" +:+ ServiceName +:+ "/SubmitRun") handler
      end
  end.

Definition getRunHandler : MethodHandler := fun w data interceptor =>
  match dec data with
  | Err err => Some (w, Err err)
  | Ok in_ =>
      match interceptor with
      | None => boxed AGetRunResponse (RunService_GetRun w in_)
      | Some interceptor =>
          let handler w req :=
            match req with
            | AGetRunRequest req => boxed AGetRunResponse (RunService_GetRun w req)
            | _ => None
            end in
          interceptor w (AGetRunRequest in_) ("/" +:+ ServiceName +:+ "/GetRun") handler
      end
  end.

Definition listRunNodesHandler : MethodHandler := fun w data interceptor =>
  match dec data with
  | Err err => Some (w, Err err)
  | Ok in_ =>
      match interceptor with
      | None => boxed AListRunNodesResponse (RunService_ListRunNodes w in_)
      | Some interceptor =>
          let handler w req :=
            match req with
            | AListRunNodesRequest req => boxed AListRunNodesResponse (RunService_ListRunNodes w req)
            | _ => None
            end in
          interceptor w (AListRunNodesRequest in_) ("/" +:+ ServiceName +:+ "/ListRunNodes") handler
      end
  end.

Definition listNodeAttemptsHandler : MethodHandler := fun w data interceptor =>
  match dec data with
  | Err err => Some (w, Err err)
  | Ok in_ =>
      match interceptor with
      | None => boxed AListNodeAttemptsResponse (RunService_ListNodeAttempts w in_)
      | Some interceptor =>
          let handler w req :=
            match req with
            | AListNodeAttemptsRequest req =>
                boxed AListNodeAttemptsResponse (RunService_ListNodeAttempts w req)
            | _ => None
            end in
          interceptor w (AListNodeAttemptsRequest in_) ("/" +:+ ServiceName +:+ "/ListNodeAttempts") handler
      end
  end.

Definition listRunEventsHandler : MethodHandler := fun w data interceptor =>
  match dec data with
  | Err err => Some (w, Err err)
  | Ok in_ =>
      match interceptor with
      | None => boxed AListRunEventsResponse (RunService_ListRunEvents w in_)
      | Some interceptor =>
          let handler w req :=
            match req with
            | AListRunEventsRequest req => boxed AListRunEventsResponse (RunService_ListRunEvents w req)
            | _ => None
            end in
          interceptor w (AListRunEventsRequest in_) ("/" +:+ ServiceName +:+ "/ListRunEvents") handler
      end
  end.

Definition cancelRunHandler : MethodHandler := fun w data interceptor =>
  match dec data with
  | Err err => Some (w, Err err)
  | Ok in_ =>
      match interceptor with
      | None => boxed ACancelRunResponse (RunService_CancelRun w in_)
      | Some interceptor =>
          let handler w req :=
            match req with
            | ACancelRunRequest req => boxed ACancelRunResponse (RunService_CancelRun w req)
            | _ => None
            end in
          interceptor w (ACancelRunRequest in_) ("/" +:+ ServiceName +:+ "/CancelRun") handler
      end
  end.

(** ** The server *)
Record MethodDesc := mkMethodDesc { md_MethodName : string; md_Handler : MethodHandler }.

(** The table [RegisterRunService] registers under [ServiceName]. *)
Definition RegisterRunService : list MethodDesc := [
  mkMethodDesc "SubmitRun" submitRunHandler;
  mkMethodDesc "GetRun" getRunHandler;
  mkMethodDesc "ListRunNodes" listRunNodesHandler;
  mkMethodDesc "ListNodeAttempts" listNodeAttemptsHandler;
  mkMethodDesc "ListRunEvents" listRunEventsHandler;
  mkMethodDesc "CancelRun" cancelRunHandler
].

(** What the gRPC server does with a call: the method of that name is looked up in
    the table, and [status_of] turns the error of a handler into the status the
    client sees. *)
Definition serve (status_of : GoError -> GoError) (unknown : GoError) (interceptor : option Interceptor)
    (w : W) (full : string) (data : string) : option (W * res string) :=
  match find_first (fun d => streq ("/" +:+ ServiceName +:+ "/" +:+ md_MethodName d) full) RegisterRunService with
  | None => Some (w, Err unknown)
  | Some d =>
      match md_Handler d w data interceptor with
      | None => None
      | Some (w, Err err) => Some (w, Err (status_of err))
      | Some (w, Ok resp) =>
          match marshal_any resp with
          | Err err => Some (w, Err (status_of err))
          | Ok out => Some (w, Ok out)
          end
      end
  end.
End server.

(** ** The client *)
Section client.
Context {W : Type} (internal : GoError -> GoError).

(** What happens to a method's name and a message between the two ends. *)
Context (transport : W -> string -> string -> W * res string).

(** [conn.Invoke] into a new response. *)
Definition Invoke {A B} `{JsonType A} `{JsonType B} (w : W) (method : string) (req : A) : W * res B :=
  match jsonCodec_Marshal req with
  | Err err => (w, Err (internal err))
  | Ok data =>
      match transport w method data with
      | (w, Err err) => (w, Err err)
      | (w, Ok out) =>
          (w, match jsonCodec_Unmarshal out with Err err => Err (internal err) | Ok resp => Ok resp end)
      end
  end.

Definition Client_SubmitRun (w : W) (req : SubmitRunRequest) : W * res SubmitRunResponse :=
  Invoke w ("/" +:+ ServiceName +:+ "/SubmitRun") req.

Definition Client_GetRun (w : W) (req : GetRunRequest) : W * res GetRunResponse :=
  Invoke w ("/" +:+ ServiceName +:+ "/GetRun") req.

Definition Client_ListRunNodes (w : W) (req : ListRunNodesRequest) : W * res ListRunNodesResponse :=
  Invoke w ("/" +:+ ServiceName +:+ "/ListRunNodes") req.

Definition Client_ListNodeAttempts (w : W) (req : ListNodeAttemptsRequest)
    : W * res ListNodeAttemptsResponse :=
  Invoke w ("/" +:+ ServiceName +:+ "/ListNodeAttempts") req.

Definition Client_ListRunEvents (w : W) (req : ListRunEventsRequest) : W * res ListRunEventsResponse :=
  Invoke w ("/" +:+ ServiceName +:+ "/ListRunEvents") req.

Definition Client_CancelRun (w : W) (req : CancelRunRequest) : W * res CancelRunResponse :=
  Invoke w ("/" +:+ ServiceName +:+ "/CancelRun") req.
End client.
