(* ===== verification/ApiGrpcFacts.v ===== *)
(** * A client of the served run service

    The messages survive the wire, and a call of [RunServiceClient] against the
    table of [RegisterRunService] does what the method of the service does. *)
From S2P Require Import Prelude GoStrings GoErrors GoJson GoTimeText JsonTree JsonText JsonTextFacts Spec RecordJson RecordJsonFacts.
From S2P Require Import Registry Memory Api ApiGrpc.

(** ** The messages *)
#[export] Instance SubmitRunRequest_law : JsonLaw SubmitRunRequest.
Proof. refine {| jt_ok x := jt_ok (smq_Spec x) |}; [|done]. message_law SubmitRunRequest_fields x. Defined.

#[export] Instance SubmitRunResponse_law : JsonLaw SubmitRunResponse.
Proof.
  refine {| jt_ok x :=
      jt_ok (sr_RunID x) /\ jt_ok (sr_Status x) /\ jt_ok (H := time_json) (sr_AcceptedAt x) |}; [|done].
  message_law SubmitRunResponse_fields x.
Defined.

#[export] Instance GetRunRequest_law : JsonLaw GetRunRequest.
Proof. refine {| jt_ok x := jt_ok (grq_RunID x) |}; [|done]. message_law GetRunRequest_fields x. Defined.

#[export] Instance GetRunResponse_law : JsonLaw GetRunResponse.
Proof. refine {| jt_ok x := jt_ok (grs_Run x) |}; [|done]. message_law GetRunResponse_fields x. Defined.

#[export] Instance ListRunNodesRequest_law : JsonLaw ListRunNodesRequest.
Proof. refine {| jt_ok x := jt_ok (lnq_RunID x) |}; [|done]. message_law ListRunNodesRequest_fields x. Defined.

#[export] Instance ListRunNodesResponse_law : JsonLaw ListRunNodesResponse.
Proof. refine {| jt_ok x := jt_ok (lns_Nodes x) |}; [|done]. message_law ListRunNodesResponse_fields x. Defined.

#[export] Instance ListNodeAttemptsRequest_law : JsonLaw ListNodeAttemptsRequest.
Proof.
  refine {| jt_ok x := jt_ok (laq_RunID x) /\ jt_ok (laq_NodeID x) |}; [|done].
  message_law ListNodeAttemptsRequest_fields x.
Defined.

#[export] Instance ListNodeAttemptsResponse_law : JsonLaw ListNodeAttemptsResponse.
Proof.
  refine {| jt_ok x := jt_ok (las_Attempts x) |}; [|done]. message_law ListNodeAttemptsResponse_fields x.
Defined.

#[export] Instance ListRunEventsRequest_law : JsonLaw ListRunEventsRequest.
Proof.
  refine {| jt_ok x := jt_ok (leq_RunID x) /\ jt_ok (leq_Limit x) |}; [|done].
  message_law ListRunEventsRequest_fields x.
Defined.

#[export] Instance ListRunEventsResponse_law : JsonLaw ListRunEventsResponse.
Proof. refine {| jt_ok x := jt_ok (les_Events x) |}; [|done]. message_law ListRunEventsResponse_fields x. Defined.

#[export] Instance CancelRunRequest_law : JsonLaw CancelRunRequest.
Proof.
  refine {| jt_ok x := jt_ok (crq_RunID x) /\ jt_ok (crq_Reason x) |}; [|done].
  message_law CancelRunRequest_fields x.
Defined.

#[export] Instance CancelRunResponse_law : JsonLaw CancelRunResponse.
Proof.
  refine {| jt_ok x :=
      jt_ok (cr_RunID x) /\ jt_ok (cr_Accepted x) /\ jt_ok (cr_Status x) /\
      jt_ok (H := time_json) (cr_AcceptedAt x) |}; [|done].
  message_law CancelRunResponse_fields x.
Defined.

#[export] Instance SubmitRunRequest_written : Written SubmitRunRequest.
Proof. struct_written SubmitRunRequest_fields. Qed.
#[export] Instance SubmitRunResponse_written : Written SubmitRunResponse.
Proof. struct_written SubmitRunResponse_fields. Qed.
#[export] Instance GetRunRequest_written : Written GetRunRequest.
Proof. struct_written GetRunRequest_fields. Qed.
#[export] Instance GetRunResponse_written : Written GetRunResponse.
Proof. struct_written GetRunResponse_fields. Qed.
#[export] Instance ListRunNodesRequest_written : Written ListRunNodesRequest.
Proof. struct_written ListRunNodesRequest_fields. Qed.
#[export] Instance ListRunNodesResponse_written : Written ListRunNodesResponse.
Proof. struct_written ListRunNodesResponse_fields. Qed.
#[export] Instance ListNodeAttemptsRequest_written : Written ListNodeAttemptsRequest.
Proof. struct_written ListNodeAttemptsRequest_fields. Qed.
#[export] Instance ListNodeAttemptsResponse_written : Written ListNodeAttemptsResponse.
Proof. struct_written ListNodeAttemptsResponse_fields. Qed.
#[export] Instance ListRunEventsRequest_written : Written ListRunEventsRequest.
Proof. struct_written ListRunEventsRequest_fields. Qed.
#[export] Instance ListRunEventsResponse_written : Written ListRunEventsResponse.
Proof. struct_written ListRunEventsResponse_fields. Qed.
#[export] Instance CancelRunRequest_written : Written CancelRunRequest.
Proof. struct_written CancelRunRequest_fields. Qed.
#[export] Instance CancelRunResponse_written : Written CancelRunResponse.
Proof. struct_written CancelRunResponse_fields. Qed.

(** ** Both ends *)
Section both.
Context {W : Type} `{Registry W} `{Engine W} {U : UnicodeTables} {RO : RangeOrder}.
Context (internal status_of : GoError -> GoError) (unknown : GoError) (now : Z).

(** An interceptor that hands the call on, as logging or metrics do. *)
Definition transparent (i : Interceptor (W := W)) : Prop :=
  forall w q full h, i w q full h = h w q.

Context (interceptor : option (Interceptor (W := W))) (transport : W -> string -> string -> W * res string).
Hypothesis Hhands : forall i, interceptor = Some i -> transparent i.

(** The transport hands the server's answers back. *)
Definition served : Prop := forall w full data answer,
  serve internal now status_of unknown interceptor w full data = Some answer -> transport w full data = answer.

(** What the client sees of the answer of a method. *)
Definition seen {A B} (f : A -> B) (r : W * res A) : W * res B :=
  (r.1, match r.2 with Err err => Err (status_of err) | Ok x => Ok (f x) end).

Definition looked_up (full : string) : option (MethodDesc (W := W)) :=
  find_first (fun d => streq ("/" +:+ ServiceName +:+ "/" +:+ md_MethodName d) full)
    (RegisterRunService internal now).

(** What every handler does with a request it could read. *)
Definition handles {A B} `{JsonType A} (h : MethodHandler (W := W)) (box : B -> any) (m : W -> A -> W * res B) : Prop :=
  forall w data in_, dec internal data = Ok in_ -> h w data interceptor = boxed box (m w in_).

Ltac handler := intros w data in_ Hd; cbv beta; rewrite Hd; destruct interceptor as [i|] eqn:Ei;
  [by rewrite (Hhands i eq_refl)|done].

Lemma submitRunHandler_handles : handles (submitRunHandler internal now) ASubmitRunResponse (RunService_SubmitRun now).
Proof. unfold handles, submitRunHandler. handler. Qed.
Lemma getRunHandler_handles : handles (getRunHandler internal) AGetRunResponse RunService_GetRun.
Proof. unfold handles, getRunHandler. handler. Qed.
Lemma listRunNodesHandler_handles : handles (listRunNodesHandler internal) AListRunNodesResponse RunService_ListRunNodes.
Proof. unfold handles, listRunNodesHandler. handler. Qed.
Lemma listNodeAttemptsHandler_handles :
  handles (listNodeAttemptsHandler internal) AListNodeAttemptsResponse RunService_ListNodeAttempts.
Proof. unfold handles, listNodeAttemptsHandler. handler. Qed.
Lemma listRunEventsHandler_handles : handles (listRunEventsHandler internal) AListRunEventsResponse RunService_ListRunEvents.
Proof. unfold handles, listRunEventsHandler. handler. Qed.
Lemma cancelRunHandler_handles : handles (cancelRunHandler internal now) ACancelRunResponse (RunService_CancelRun now).
Proof. unfold handles, cancelRunHandler. handler. Qed.

(** Whatever arrives, no handler panics. *)
Lemma serve_answers (w : W) full data :
  is_Some (serve internal now status_of unknown interceptor w full data).
Proof.
  unfold serve. destruct (find_first _ _) as [d|] eqn:Ed; [|done]. apply find_first_Some in Ed as [Ed _].
  assert (Hh : is_Some (md_Handler d w data interceptor)).
  { unfold RegisterRunService in Ed. rewrite !elem_of_cons in Ed.
    destruct_or! Ed; subst; cbn [md_Handler]; [..|by apply not_elem_of_nil in Ed].
    all: unfold submitRunHandler, getRunHandler, listRunNodesHandler, listNodeAttemptsHandler, listRunEventsHandler,
      cancelRunHandler; destruct (dec internal data); [|done].
    all: destruct interceptor as [i|] eqn:Ei; [by rewrite (Hhands i eq_refl)|done]. }
  destruct Hh as [[w' [resp|err]] ->]; [|done]. by destruct (marshal_any resp).
Qed.

(** A value that survives its JSON is read as it was written. *)
Lemma over_the_wire {A} `{L : JsonLaw A} `{!Written A} (x : A) :
  jt_ok x -> exists data, jsonCodec_Marshal x = Ok data /\ jsonCodec_Unmarshal data = Ok x.
Proof. intros Hx. by apply codec_round. Qed.

(** A call under a name that is registered with the handler of [m]. *)
Lemma call_arrives {A B} `{LA : JsonLaw A} `{!Written A} `{LB : JsonLaw B} `{!Written B}
    (name full : string) (h : MethodHandler) (box : B -> any) (m : W -> A -> W * res B) (w : W) (req : A) :
  served -> looked_up full = Some (mkMethodDesc name h) -> handles h box m ->
  (forall x, marshal_any (box x) = jsonCodec_Marshal x) ->
  jt_ok req -> (forall x, (m w req).2 = Ok x -> jt_ok x) ->
  Invoke internal transport w full req = seen id (m w req).
Proof.
  intros Hs Hl Hh Hbox Hreq Hresp. unfold Invoke. destruct (over_the_wire req Hreq) as (data & -> & Hu).
  specialize (Hs w full data). unfold serve in Hs. unfold looked_up in Hl. rewrite Hl in Hs. cbn [md_Handler] in Hs.
  rewrite (Hh w data req) in Hs by (unfold dec; by rewrite Hu). unfold boxed in Hs. unfold seen.
  destruct (m w req) as [w' [x|err]]; cbn [fst snd] in *; [|by rewrite (Hs _ eq_refl)].
  destruct (over_the_wire x (Hresp x eq_refl)) as (out & Ho & Hi). rewrite Hbox, Ho in Hs.
  by rewrite (Hs _ eq_refl), Hi.
Qed.

Ltac arrive name h Hq :=
  etrans; [eapply (call_arrives name); [eassumption|reflexivity|exact h|reflexivity|exact Hq|]|].

(** The method reads the registry and wraps what it read. *)
Ltac read_with Hr r :=
  unfold RunService_GetRun, RunService_ListRunNodes, RunService_ListNodeAttempts, RunService_ListRunEvents, seen;
  revert Hr; cbn [fst snd grq_RunID lnq_RunID laq_RunID laq_NodeID leq_RunID leq_Limit];
  destruct r; intros Hr; first [done|intros x [= <-]; exact (Hr _ eq_refl)].

(** C27. Every method of the client, called on a server of the service through any
    interceptor that hands calls on, does what the method of the service of that
    name does with the same arguments: the same new state and the same result, or
    the status of the same error. The request and the response must survive their
    JSON, which values do whose strings are UTF-8, whose integers fit and whose
    times have years of four digits. *)
Theorem client_reaches_service (w : W) :
  served ->
  (forall spec, jt_ok spec -> (forall resp, (SubmitRun w now spec).2 = Ok resp -> jt_ok resp) ->
     Client_SubmitRun internal transport w (mkSubmitRunRequest spec) = seen id (SubmitRun w now spec)) /\
  (forall runID, jt_ok runID -> (forall run, Service_GetRun w runID = Ok run -> jt_ok run) ->
     Client_GetRun internal transport w (mkGetRunRequest runID) =
     seen mkGetRunResponse (w, Service_GetRun w runID)) /\
  (forall runID, jt_ok runID -> (forall nodes, ListRunNodes w runID = Ok nodes -> jt_ok nodes) ->
     Client_ListRunNodes internal transport w (mkListRunNodesRequest runID) =
     seen mkListRunNodesResponse (w, ListRunNodes w runID)) /\
  (forall runID nodeID, jt_ok runID -> jt_ok nodeID ->
     (forall attempts, ListNodeAttempts w runID nodeID = Ok attempts -> jt_ok attempts) ->
     Client_ListNodeAttempts internal transport w (mkListNodeAttemptsRequest runID nodeID) =
     seen mkListNodeAttemptsResponse (w, ListNodeAttempts w runID nodeID)) /\
  (forall runID limit, jt_ok runID -> jt_ok limit ->
     (forall events, ListRunEvents w runID limit = Ok events -> jt_ok events) ->
     Client_ListRunEvents internal transport w (mkListRunEventsRequest runID limit) =
     seen mkListRunEventsResponse (w, ListRunEvents w runID limit)) /\
  (forall runID reason, jt_ok runID -> jt_ok reason ->
     (forall resp, (CancelRun w now runID reason).2 = Ok resp -> jt_ok resp) ->
     Client_CancelRun internal transport w (mkCancelRunRequest runID reason) =
     seen id (CancelRun w now runID reason)).
Proof.
  intros Hs. split_and!.
  - intros spec Hq Hr. arrive "SubmitRun" submitRunHandler_handles Hq; done.
  - intros runID Hq Hr. arrive "GetRun" getRunHandler_handles Hq; read_with Hr (Service_GetRun w runID).
  - intros runID Hq Hr. arrive "ListRunNodes" listRunNodesHandler_handles Hq; read_with Hr (ListRunNodes w runID).
  - intros runID nodeID Hq Hq' Hr.
    arrive "ListNodeAttempts" listNodeAttemptsHandler_handles (conj Hq Hq'); read_with Hr (ListNodeAttempts w runID nodeID).
  - intros runID limit Hq Hq' Hr.
    arrive "ListRunEvents" listRunEventsHandler_handles (conj Hq Hq'); read_with Hr (ListRunEvents w runID limit).
  - intros runID reason Hq Hq' Hr. arrive "CancelRun" cancelRunHandler_handles (conj Hq Hq'); done.
Qed.
End both.

(** ** On a registry with one run *)
#[local] Instance no_engine : Engine MemoryRegistry := {|
  eng_Admit w _ := (w, None);
  eng_Cancel w _ reason := (w, if streq reason "" then Some (ErrNew "no reason") else None);
|}.

#[local] Existing Instance ascii_tables.
#[local] Existing Instance elements_order.

Module Wire.
Definition record : RunRecord := zero_RunRecord <| rr_RunID := "r" |> <| rr_Status := RunStatusRunning |>.

Definition one_run : MemoryRegistry := (reg_CreateRun NewMemoryRegistry record []).1.

(** An interceptor that hands on. *)
Definition logged : Interceptor (W := MemoryRegistry) := fun w q full handler => handler w q.

(** The server, as the connection of a client. *)
Definition conn (w : MemoryRegistry) (full data : string) : MemoryRegistry * res string :=
  match serve id 7 id (ErrNew "unknown method") (Some logged) w full data with
  | Some answer => answer
  | None => (w, Err (ErrNew "panic"))
  end.

Lemma conn_served : served id id (ErrNew "unknown method") 7 (Some logged) conn.
Proof. intros w full data answer Ha. unfold conn. by rewrite Ha. Qed.

Lemma logged_transparent i : Some logged = Some i -> transparent i.
Proof. by intros [= <-]. Qed.

(** Without unfolding what is said of the nodes of an empty graph. *)
Ltac solve_ok :=
  hnf; lazymatch goal with
  | |- _ /\ _ => split; solve_ok
  | |- True => exact I
  | |- Forall _ _ => exact (Forall_nil_2 _)
  | |- _ = _ => vm_compute; reflexivity
  | |- _ -> False => vm_compute; discriminate
  end.

Lemma run_ok : jt_ok record.
Proof. solve_ok. Qed.
End Wire.

(** A call as it is written and answered. *)
Example canceled_over_the_wire :
  Client_CancelRun id Wire.conn Wire.one_run (mkCancelRunRequest "r" "because") =
    (Wire.one_run, Ok (mkCancelRunResponse "r" true RunStatusRunning 7)) /\
  Wire.conn Wire.one_run "/jumi.v1.RunService/CancelRuns" "" = (Wire.one_run, Err (ErrNew "unknown method")).
Proof. split; vm_compute; reflexivity. Qed.

Lemma client_reaches_service_witness :
  Client_GetRun id Wire.conn Wire.one_run (mkGetRunRequest "r") =
  (Wire.one_run, Ok (mkGetRunResponse Wire.record)).
Proof.
  refine (proj1 (proj2 (client_reaches_service id id (ErrNew "unknown method") 7 (Some Wire.logged) Wire.conn
    Wire.logged_transparent Wire.one_run Wire.conn_served)) "r" _ _).
  - reflexivity.
  - intros run [= <-]. exact Wire.run_ok.
Defined.
