(* ===== verification/Main.v ===== *)
(** * The command ([src/cmd/jumi/main.go], [lifecycle.go])

    What [jumi serve] is configured to from its environment and in which order it
    starts, the HTTP endpoints it serves, how it shuts down, and
    [jumi lifecycle-check]. What the platform does with a call is a parameter; [log.Fatal] ends the start with its
    message; package [flag] hands over parsed values. *)
From S2P Require Import Prelude GoStrings GoErrors GoStrconv Spec Registry Handoff HandoffClient HandoffGrpc HandoffHttp Api Sqlite SqliteOpen.

(** ** Configuration from the environment *)
Section env.
Context (Getenv : string -> string).

Definition envOrDefault (key fallback : string) : string :=
  let value := Getenv key in if negb (streq value "") then value else fallback.

(** [strconv.Atoi] on 64 bits. *)
Definition envIntOrDefault (key : string) (fallback : Z) : Z :=
  let value := Getenv key in
  if streq value "" then fallback
  else match ParseInt value with Some parsed => parsed | None => fallback end.

(** [strconv.ParseBool] *)
Definition ParseBool (s : string) : option bool :=
  if existsb (streq s) ["1"; "t"; "T"; "TRUE"; "true"; "True"] then Some true
  else if existsb (streq s) ["0"; "f"; "F"; "FALSE"; "false"; "False"] then Some false
  else None.

Definition envBoolOrDefault (key : string) (fallback : bool) : bool :=
  let value := Getenv key in
  if streq value "" then fallback
  else match ParseBool value with Some parsed => parsed | None => fallback end.
End env.

Inductive registry_choice := InMemory | Durable (path : string).
Inductive handoff_choice := ChooseGRPC (target : string) | ChooseHTTP (client : HTTPClient) | ChooseNoop.

(** ** Starting *)

(** What the calls of the start answer: the environment, the file at a path and the
    calls of the SQLite driver on it, the configurations of client-go, the gRPC
    library, the runtime and the observer, the recovery and the network. *)
Class Platform := {
  Getenv : string -> string;
  sqlite_driver :: OpenDriver;
  sqlite_file : string -> File;
  sqlite_calls : list (option GoError);
  clientcmd_BuildConfigFromFlags : string -> option GoError;
  rest_InClusterConfig : option GoError;
  clientcmd_ClientConfig : option GoError;
  NewForConfig : option GoError;
  NewRuntime : string -> string -> Z -> option GoError;
  NewK8sObserver : string -> string -> option GoError;
  grpc_NewClient : string -> option GoError;
  engine_Recover : option GoError;
  net_Listen : string -> option GoError;
}.

Inductive step :=
  | StepRegistry (r : registry_choice)
  | StepRuntime (namingSalt namespace : string) (maxConcurrency : Z)
  | StepObserver (available : bool)
  | StepHandoff (h : handoff_choice)
  | StepRecover (err : option GoError)
  | StepListen (addr : string)
  | StepServe (httpAddr grpcAddr : string).

Inductive started := Fatal (message : string) | Serving.

Section serve.
Context {P : Platform}.

(** The registry at a path, opened. *)
Definition open_registry (path : string) : res DB :=
  (NewSQLiteRegistry path (sqlite_file path) sqlite_calls).2.

Definition buildRegistry : string + registry_choice :=
  let path := envOrDefault Getenv "JUMI_REGISTRY_PATH" "jumi-registry.db" in
  if streq path "memory" || streq path ":memory:in-process" then inr InMemory
  else match open_registry path with
       | Err err => inl ("jumi: open durable registry at " +:+ path +:+ ": " +:+ error_text err)
       | Ok _ => inr (Durable path)
       end.

(** The configuration of the cluster: a file that was named, that of a pod, or the
    default files. *)
Definition BuildK8sRestConfig (kubeconfigPath : string) : option GoError :=
  if negb (streq kubeconfigPath "") then clientcmd_BuildConfigFromFlags kubeconfigPath
  else match rest_InClusterConfig with
       | None => None
       | Some _ => clientcmd_ClientConfig
       end.

Definition newHandoffClientFromEnv : res handoff_choice :=
  let grpcTarget := Getenv "JUMI_AH_GRPC_TARGET" in
  if negb (streq grpcTarget "") then
    match NewGRPCClient grpc_NewClient grpcTarget with
    | Err err => Err (Wrapf ("initialize handoff grpc client for " +:+ grpcTarget) err)
    | Ok _ => Ok (ChooseGRPC grpcTarget)
    end
  else
    let baseURL := Getenv "JUMI_AH_URL" in
    if streq baseURL "" then
      if envBoolOrDefault Getenv "JUMI_ALLOW_NOOP_HANDOFF" false then Ok ChooseNoop
      else Err (Errorf "missing handoff configuration: set JUMI_AH_GRPC_TARGET or JUMI_AH_URL, or set JUMI_ALLOW_NOOP_HANDOFF=true for development-only noop mode")
    else Ok (ChooseHTTP (NewHTTPClient baseURL (seconds 5))).

(** From the engine to the servers: the sweep, whose error is logged, the
    listener, the servers. *)
Definition serve_steps (steps : list step) : list step * started :=
  let steps := steps ++ [StepRecover engine_Recover] in
  let httpAddr := envOrDefault Getenv "JUMI_HTTP_ADDR" ":8080" in
  let grpcAddr := envOrDefault Getenv "JUMI_GRPC_ADDR" ":9090" in
  let steps := steps ++ [StepListen grpcAddr] in
  match net_Listen grpcAddr with
  | Some err => (steps, Fatal (error_text err))
  | None => (steps ++ [StepServe httpAddr grpcAddr], Serving)
  end.

(** [runServe] up to the servers. *)
Definition runServe : list step * started :=
  match buildRegistry with
  | inl message => ([], Fatal message)
  | inr reg =>
      let steps := [StepRegistry reg] in
      let namespace := envOrDefault Getenv "JUMI_NAMESPACE" "default" in
      let kubeconfigPath := Getenv "JUMI_KUBECONFIG" in
      let namingSalt := Getenv "JUMI_NAMING_SALT" in
      if streq namingSalt "" then
        (steps, Fatal "JUMI_NAMING_SALT is required: set a stable secret for deterministic job naming")
      else
        let maxConcurrent := envIntOrDefault Getenv "JUMI_MAX_CONCURRENT_RELEASE" 10 in
        match BuildK8sRestConfig kubeconfigPath with
        | Some err => (steps, Fatal ("k8s config: " +:+ error_text err))
        | None =>
            match NewForConfig with
            | Some err => (steps, Fatal ("k8s clientset: " +:+ error_text err))
            | None =>
                let steps := steps ++ [StepRuntime namingSalt namespace maxConcurrent] in
                match NewRuntime namingSalt namespace maxConcurrent with
                | Some err => (steps, Fatal ("spawner runtime: " +:+ error_text err))
                | None =>
                    let steps := steps ++ [StepObserver (negb (is_some (NewK8sObserver namespace kubeconfigPath)))] in
                    match newHandoffClientFromEnv with
                    | Err err => (steps, Fatal (error_text err))
                    | Ok handoff => serve_steps (steps ++ [StepHandoff handoff])
                    end
                end
            end
        end
  end.

(** ** Shutting down

    What ends the servers: a signal, or the error of one of them, on which
    [log.Fatal] ends the process and runs no deferred call. *)
Inductive ending := OnSignal | OnServerError (err : GoError).

Inductive teardown := StopHTTP (drain : Z) | StopGRPC | CloseHandoff | CloseRegistry.

(** The only client with a [Close] is that of gRPC. *)
Definition closeIfPossible (client : handoff_choice) : list teardown :=
  match client with ChooseGRPC _ => [CloseHandoff] | ChooseHTTP _ | ChooseNoop => [] end.

Definition closeReg (reg : registry_choice) : list teardown :=
  match reg with Durable _ => [CloseRegistry] | InMemory => [] end.

(** The end of [runServe]: the servers are stopped, and what the start deferred is
    done, last first; the message of a fatal error. *)
Definition shut_down (reg : registry_choice) (client : handoff_choice) (e : ending) : list teardown * option string :=
  match e with
  | OnServerError err => ([], Some (error_text err))
  | OnSignal => ([StopHTTP (seconds 5); StopGRPC] ++ closeIfPossible client ++ closeReg reg, None)
  end.

(** [main]: the subcommand, and the exit code of an unknown one. *)
Inductive command := CmdServe | CmdLifecycleCheck (args : list string) | CmdUnknown (exit : Z).

Definition main (args : list string) : command :=
  match args with
  | [] => CmdServe
  | cmd :: rest =>
      if streq cmd "serve" then CmdServe
      else if streq cmd "lifecycle-check" then CmdLifecycleCheck rest
      else CmdUnknown 2
  end.
End serve.

(** ** The HTTP endpoints *)
Record AdapterStatus := mkAdapterStatus {
  as_Ready : bool;
  as_ReleaseBounded : bool;
  as_ReleaseInflight : Z;
  as_ReleaseSlotsAvailable : Z;
  as_ReleaseMaxConcurrent : Z;
}.

Inductive http_body := BodyText (s : string) | BodyStatus (s : StatusSnapshot) | BodyError (s : string) | BodyMetrics.

(** [http.Error] ends its text with a newline. *)
Definition http_error_text (s : string) : string := s +:+ bytes_of [10]%N.

Section endpoints.
Context {W : Type} `{Registry W}.

(** The adapter as a [backend.StatusProvider], if it is one. *)
Definition readyz (adapter : option AdapterStatus) : Z * http_body :=
  match adapter with
  | Some status => if negb (as_Ready status) then (503%Z, BodyText (http_error_text "backend not ready")) else (200%Z, BodyText "ready")
  | None => (200%Z, BodyText "ready")
  end.

Definition backend_snapshot (adapter : option AdapterStatus) : BackendSnapshot :=
  match adapter with
  | Some s => mkBackendSnapshot (as_Ready s) (as_ReleaseBounded s) (as_ReleaseInflight s)
                (as_ReleaseSlotsAvailable s) (as_ReleaseMaxConcurrent s)
  | None => mkBackendSnapshot true false 0 0 0
  end.

Definition statusz (w : W) (adapter : option AdapterStatus) : Z * http_body :=
  match SnapshotFromRegistry w (backend_snapshot adapter) with
  | Err err => (500%Z, BodyError (error_text err))
  | Ok snapshot => (200%Z, BodyStatus snapshot)
  end.

(** The routes of [newHTTPServer]. *)
Definition serve_http (w : W) (adapter : option AdapterStatus) (path : string) : Z * http_body :=
  if streq path "/healthz" then (200%Z, BodyText "ok")
  else if streq path "/readyz" then readyz adapter
  else if streq path "/statusz" then statusz w adapter
  else if streq path "/metrics" then (200%Z, BodyMetrics)
  else (404%Z, BodyText (http_error_text "404 page not found")).
End endpoints.

(** ** [jumi lifecycle-check] *)
Record lifecycle_flags := mkLifecycleFlags {
  lf_ahGRPC : string;
  lf_ahHTTP : string;
  lf_sampleRunID : string;
  lf_timeout : Z;
}.

(** What the check prints and its exit code. *)
Record checked := mkChecked { ck_exit : Z; ck_stdout : option SampleRunLifecycle; ck_stderr : string }.

Definition buildLifecycleClient {P : Platform} (grpcTarget httpURL : string) (timeout : Z) : res handoff_choice :=
  if negb (streq grpcTarget "") then
    match NewGRPCClient grpc_NewClient grpcTarget with
    | Err err => Err (Wrapf "grpc client" err)
    | Ok _ => Ok (ChooseGRPC grpcTarget)
    end
  else Ok (ChooseHTTP (NewHTTPClient httpURL timeout)).

(** The answer of the client to the lookup, reported. *)
Definition report (sampleRunID : string) (answer : res (SampleRunLifecycle * bool)) : checked :=
  match answer with
  | Err err => mkChecked 1 None ("error: " +:+ error_text err)
  | Ok (_, false) => mkChecked 1 None ("not found: sample run " +:+ sampleRunID +:+ " has no lifecycle record")
  | Ok (lifecycle, true) => mkChecked 0 (Some lifecycle) ""
  end.

(** [ask] is the lookup of the sample run with the client that was built. *)
Definition runLifecycleCheck {P : Platform} (flags : lifecycle_flags)
    (ask : handoff_choice -> GetSampleRunLifecycleRequest -> res (SampleRunLifecycle * bool)) : checked :=
  if streq (lf_sampleRunID flags) "" then mkChecked 2 None "error: --sample-run-id is required"
  else if streq (lf_ahGRPC flags) "" && streq (lf_ahHTTP flags) "" then
    mkChecked 2 None "error: one of --ah-grpc or --ah-http is required"
  else if negb (streq (lf_ahGRPC flags) "") && negb (streq (lf_ahHTTP flags) "") then
    mkChecked 2 None "error: --ah-grpc and --ah-http are mutually exclusive"
  else
    match buildLifecycleClient (lf_ahGRPC flags) (lf_ahHTTP flags) (lf_timeout flags) with
    | Err err => mkChecked 2 None ("error: " +:+ error_text err)
    | Ok client =>
        report (lf_sampleRunID flags) (ask client (mkGetSampleRunLifecycleRequest (lf_sampleRunID flags)))
    end.

(** ** Starting safely *)

(** What was chosen in the steps taken. *)
Definition asked_for_memory {P : Platform} : Prop :=
  Getenv "JUMI_REGISTRY_PATH" = "memory" \/ Getenv "JUMI_REGISTRY_PATH" = ":memory:in-process".

Definition asked_for_noop {P : Platform} : Prop :=
  Getenv "JUMI_AH_GRPC_TARGET" = "" /\ Getenv "JUMI_AH_URL" = "" /\
  ParseBool (Getenv "JUMI_ALLOW_NOOP_HANDOFF") = Some true.

Definition registry_safe {P : Platform} (r : registry_choice) : Prop :=
  match r with
  | InMemory => asked_for_memory
  | Durable path => path <> "" /\ is_ok (open_registry path) = true
  end.

Definition handoff_safe {P : Platform} (h : handoff_choice) : Prop :=
  match h with
  | ChooseNoop => asked_for_noop
  | ChooseGRPC target => target <> "" /\ grpc_NewClient target = None
  | ChooseHTTP client => (0 < hc_Timeout client)%Z
  end.

Lemma buildRegistry_safe {P : Platform} r : buildRegistry = inr r -> registry_safe r.
Proof.
  unfold buildRegistry, envOrDefault. destruct (streq (Getenv "JUMI_REGISTRY_PATH") "") eqn:E; cbn [negb].
  - cbn. destruct (open_registry _) eqn:En; [|done]. intros [= <-]. split; [done|]. by rewrite En.
  - str_tests. destruct (streq _ "memory" || streq _ ":memory:in-process") eqn:Em.
    + intros [= <-]. apply orb_true_iff in Em as [?%streq_eq|?%streq_eq]; [by left|by right].
    + destruct (open_registry _) eqn:En; [|done]. intros [= <-]. split; [done|]. by rewrite En.
Qed.

Lemma newHandoff_safe {P : Platform} h : newHandoffClientFromEnv = Ok h -> handoff_safe h.
Proof.
  unfold newHandoffClientFromEnv. destruct (streq (Getenv "JUMI_AH_GRPC_TARGET") "") eqn:Eg; cbn [negb].
  - str_tests. destruct (streq (Getenv "JUMI_AH_URL") "") eqn:Eu; str_tests.
    + unfold envBoolOrDefault. destruct (streq (Getenv "JUMI_ALLOW_NOOP_HANDOFF") ""); [done|].
      destruct (ParseBool _) as [[]|] eqn:Ep; [|done|done]. by intros [= <-].
    + intros [= <-]. done.
  - str_tests. unfold NewGRPCClient. destruct (grpc_NewClient _) eqn:En; [done|]. by intros [= <-].
Qed.

(** C35. When [jumi serve] serves, it has taken exactly the steps of a complete start
    in their order: a registry that is durable unless a volatile one was asked for,
    a non-empty naming salt, a handoff client that is a real one unless the no-op
    one was asked for, and the recovery of the runs left by the last process before
    any request is served. *)
Theorem serving_is_safe {P : Platform} steps :
  runServe = (steps, Serving) ->
  exists reg salt ns maxc obs h err http grpc,
    steps = [StepRegistry reg; StepRuntime salt ns maxc; StepObserver obs; StepHandoff h;
             StepRecover err; StepListen grpc; StepServe http grpc] /\
    registry_safe reg /\ salt <> "" /\ handoff_safe h /\ net_Listen grpc = None.
Proof.
  unfold runServe. destruct buildRegistry as [|reg] eqn:Er; [done|].
  destruct (streq (Getenv "JUMI_NAMING_SALT") "") eqn:Es; [done|].
  destruct (BuildK8sRestConfig _); [done|]. destruct NewForConfig; [done|].
  destruct (NewRuntime _ _ _); [done|]. destruct newHandoffClientFromEnv as [h|] eqn:Eh; [|done].
  unfold serve_steps. destruct (net_Listen _) eqn:El; [done|]. intros [= <-].
  do 9 eexists. split; [reflexivity|].
  split; [by apply buildRegistry_safe|]. split; [by apply streq_neq|].
  split; [by apply newHandoff_safe|done].
Qed.
