(* ===== verification/MainFacts.v ===== *)
(** * The command on concrete platforms

    [lifecycle-check] over both transports, and witnesses. *)
From S2P Require Import Prelude GoStrings GoErrors Handoff HandoffClient Ahv1 HandoffGrpc HandoffHttp HandoffFacts HandoffWorld Sqlite SqliteOpen Main.

Section check.
Context {P : Platform} {W : Type} `{HandoffService W}.

(** The lookup against a service that is served at the URL of the client and behind
    gRPC. *)
Definition ask_service (w : W) (now : Z) (ctx : context) (choice : handoff_choice)
    (req : GetSampleRunLifecycleRequest) : res (SampleRunLifecycle * bool) :=
  match choice with
  | ChooseHTTP c => (HTTP_GetSampleRunLifecycle (H := served_http (hc_baseURL c)) c w ctx req).2
  | ChooseGRPC _ =>
      (GRPC_GetSampleRunLifecycle (H := served_grpc) (mkGrpcState w now []) ctx req).2
  | ChooseNoop => Noop_GetSampleRunLifecycle req
  end.

(** [lifecycle-check] reports the same over gRPC and over HTTP: the same lifecycle
    on standard output and the same exit code, 0 exactly when the service knows the
    sample run. *)
Theorem lifecycle_check_transports (w : W) now ctx id timeout target url :
  service_ok -> id <> "" -> target <> "" -> url <> "" -> grpc_NewClient target = None ->
  let over_grpc := runLifecycleCheck (mkLifecycleFlags target "" id timeout) (ask_service w now ctx) in
  let over_http := runLifecycleCheck (mkLifecycleFlags "" url id timeout) (ask_service w now ctx) in
  ck_stdout over_grpc = (sv_lifecycle w id).2 /\ ck_stdout over_http = (sv_lifecycle w id).2 /\
  ck_exit over_grpc = ck_exit over_http /\
  (ck_exit over_http = 0%Z <-> is_Some (sv_lifecycle w id).2).
Proof.
  intros Hs Hid Ht Hu Hn. apply streq_neq in Hid, Ht, Hu.
  unfold runLifecycleCheck, buildLifecycleClient, NewGRPCClient. cbn [lf_sampleRunID lf_ahGRPC lf_ahHTTP lf_timeout].
  rewrite Hid, Ht, Hu, Hn, (streq_refl ""). cbn [andb negb ask_service].
  generalize (NewHTTPClient url timeout) as c. intros [base limit]. cbn [hc_baseURL].
  pose proof (http_lifecycle base limit w ctx (mkGetSampleRunLifecycleRequest id) Hs) as Hh.
  pose proof (grpc_lifecycle (mkGRPCClient false) (mkGrpcState w now []) ctx
    (mkGetSampleRunLifecycleRequest id)) as Hg.
  cbn [cl_GetSampleRunLifecycle HTTP_Client GRPC_Client lr_SampleRunID gs_world] in Hh, Hg.
  rewrite Hh, Hg.
  destruct (sv_lifecycle w id) as [w' [l|]]; cbn.
  - split_and!; done.
  - by split_and!.
Qed.
End check.

(** ** Witnesses *)

(** A platform on which every call succeeds, with a little environment. *)
Definition plain_platform (env : list (string * string)) : Platform := {|
  Getenv key := default "" (snd <$> find_first (fun p => streq p.1 key) env);
  sqlite_driver := OpenDemo.driver;
  sqlite_file _ := new_file;
  sqlite_calls := [];
  clientcmd_BuildConfigFromFlags _ := None;
  rest_InClusterConfig := Some (ErrNew "not in a cluster");
  clientcmd_ClientConfig := None;
  NewForConfig := None;
  NewRuntime _ _ _ := None;
  NewK8sObserver _ _ := Some (ErrNew "no kueue");
  grpc_NewClient _ := None;
  engine_Recover := Some (ErrNew "database is locked");
  net_Listen _ := None;
|}.

Definition demo_env : list (string * string) :=
  [("JUMI_NAMING_SALT", "salt"); ("JUMI_AH_URL", "http://ah/"); ("JUMI_MAX_CONCURRENT_RELEASE", "many")].

Lemma serving_is_safe_witness :
  let P := plain_platform demo_env in
  exists steps : list step, runServe = (steps, Serving) /\
  exists reg salt ns maxc obs h err http grpc,
    steps = [StepRegistry reg; StepRuntime salt ns maxc; StepObserver obs; StepHandoff h;
             StepRecover err; StepListen grpc; StepServe http grpc] /\
    registry_safe reg /\ salt <> "" /\ handoff_safe h /\ net_Listen grpc = None.
Proof.
  intros P. eexists. split; [vm_compute; reflexivity|].
  apply (serving_is_safe (P := P)). vm_compute. reflexivity.
Defined.

Lemma lifecycle_check_transports_witness :
  let P := plain_platform [] in
  let check := runLifecycleCheck (mkLifecycleFlags "" "http://ah/" "s 1" 5) (ask_service [] 7 no_deadline) in
  ck_stdout check = Some demo_lifecycle /\ ck_exit check = 0%Z.
Proof.
  intros P check.
  destruct (lifecycle_check_transports (P := P) [] 7 no_deadline "s 1" 5 "ah:9090" "http://ah/"
    demo_service_ok ltac:(done) ltac:(done) ltac:(done) eq_refl) as (_ & H1 & _ & H2).
  split; [exact H1|]. apply (proj2 H2). by eexists.
Defined.
