(* ===== verification/SmokeClient.v ===== *)
(** * The smoke client ([src/tools/jumi-smoke/main.go])

    Reads a spec from a file, submits it and polls the run until it has ended. A
    turn of the polling loop is what it reads: the run, its nodes, the clock, and
    whether the context had ended when the next poll was due. *)
From S2P Require Import Prelude GoStrings GoErrors GoJson JsonTree JsonText Spec RecordJson Api.
From Stdlib Require Import Ascii.

Record turn := mkTurn {
  tn_run : res RunRecord;
  tn_nodes : res (list NodeRecord);
  tn_now : Z;
  tn_ctx : option GoError;
}.

Definition timeout_error (status : RunStatus) : GoError :=
  Errorf ("timeout waiting for terminal status, last status=" +:+ RunStatus_string status).

(** One turn: [None] polls again. *)
Definition wait_turn (deadline : Z) (t : turn) : option (res (RunRecord * list NodeRecord)) :=
  match tn_run t with
  | Err err => Some (Err err)
  | Ok run =>
      match tn_nodes t with
      | Err err => Some (Err err)
      | Ok nodes =>
          match rr_Status run with
          | RunStatusSucceeded | RunStatusFailed | RunStatusCanceled => Some (Ok (run, nodes))
          | status =>
              if (deadline <? tn_now t)%Z then Some (Err (timeout_error status))
              else match tn_ctx t with
                   | Some err => Some (Err err)
                   | None => None
                   end
          end
      end
  end.

(** The loop of [waitForTerminalRun] over the turns it takes. *)
Fixpoint wait_turns (deadline : Z) (turns : list turn) : option (res (RunRecord * list NodeRecord)) :=
  match turns with
  | [] => None
  | t :: turns =>
      match wait_turn deadline t with
      | Some answer => Some answer
      | None => wait_turns deadline turns
      end
  end.

Definition waitForTerminalRun (start timeout : Z) (turns : list turn) : option (res (RunRecord * list NodeRecord)) :=
  wait_turns (start + timeout) turns.

(** [strings.ContainsAny(value, " \t")] *)
Definition quoteIfNeeded {U : UnicodeTables} (value : string) : string :=
  if str_forall (fun c => negb (Ascii.eqb c " "%char || Ascii.eqb c (ascii_of_N 9))) value then value
  else Quote value.

(** The line of an event; [at_] is its time in RFC 3339. *)
Definition event_line {U : UnicodeTables} (at_ : string) (event : EventRecord) : string :=
  let part (label value : string) := if streq value "" then [] else [label +:+ value] in
  str_join " " ([at_; ev_Type event]
    ++ part "node=" (ev_NodeID event)
    ++ (if streq (ev_Message event) "" then [] else ["message=" +:+ quoteIfNeeded (ev_Message event)])
    ++ part "stopCause=" (ev_StopCause event)
    ++ part "failureReason=" (ev_FailureReason event)).

(** ** The command *)
Record smoke_flags := mkSmokeFlags {
  sf_specPath : string;
  sf_runID : string;
  sf_sampleRunID : string;
  sf_nowRun : bool;
  sf_timeout : Z;
  sf_wait : bool;
  sf_showEvents : bool;
}.

(** The spec that is submitted. *)
Definition overridden (flags : smoke_flags) (now : Z) (spec : ExecutableRunSpec) : ExecutableRunSpec :=
  let run := es_Run spec in
  let run := if negb (streq (sf_runID flags) "") then run <| rm_RunID := sf_runID flags |> else run in
  let run := if negb (streq (sf_sampleRunID flags) "") then run <| rm_SampleRunID := sf_sampleRunID flags |> else run in
  let run := if sf_nowRun flags then run <| rm_SubmittedAt := now |> else run in
  spec <| es_Run := run |>.

(** The spec in a file, as JSON. *)
Definition loadSpec (os_ReadFile : string -> res string) (path : string) : res ExecutableRunSpec :=
  match os_ReadFile path with
  | Err err => Err err
  | Ok data => Unmarshal (Json := tree_codec) data
  end.

(** What the calls of [main] answer: reading a file, connecting, submitting,
    polling, listing the events. *)
Record smoke_world := mkSmokeWorld {
  sw_ReadFile : string -> res string;
  sw_connect : option GoError;
  sw_submit : ExecutableRunSpec -> res SubmitRunResponse;
  sw_turns : list turn;
  sw_events : res (list EventRecord);
}.

(** The exit code of [main]; [None] while it is still polling. *)
Definition smoke_main (flags : smoke_flags) (now start : Z) (w : smoke_world) : option Z :=
  if streq (sf_specPath flags) "" then Some 2%Z
  else
    match loadSpec (sw_ReadFile w) (sf_specPath flags) with
    | Err _ => Some 1%Z
    | Ok spec =>
        match sw_connect w with
        | Some _ => Some 1%Z
        | None =>
            match sw_submit w (overridden flags now spec) with
            | Err _ => Some 1%Z
            | Ok _ =>
                if negb (sf_wait flags) then Some 0%Z
                else
                  match waitForTerminalRun start (sf_timeout flags) (sw_turns w) with
                  | None => None
                  | Some (Err _) => Some 1%Z
                  | Some (Ok (run, _)) =>
                      if sf_showEvents flags && negb (is_ok (sw_events w)) then Some 1%Z
                      else if bool_decide (rr_Status run <> RunStatusSucceeded) then Some 1%Z
                      else Some 0%Z
                  end
            end
        end
    end.

(** ** Waiting ends *)

(** The clock of the turns: a poll interval passes between two of them. *)
Fixpoint paced (poll : Z) (from : Z) (turns : list turn) : Prop :=
  match turns with
  | [] => True
  | t :: turns => (from <= tn_now t)%Z /\ paced poll (tn_now t + poll) turns
  end.

Definition ended_run (run : RunRecord) : Prop := RunStatus_IsTerminal (rr_Status run) = true.

Lemma wait_turn_terminal deadline t run nodes :
  wait_turn deadline t = Some (Ok (run, nodes)) ->
  tn_run t = Ok run /\ tn_nodes t = Ok nodes /\ ended_run run.
Proof.
  unfold wait_turn, ended_run. destruct (tn_run t) as [r|]; [|done]. destruct (tn_nodes t) as [ns|]; [|done].
  destruct (rr_Status r) eqn:E; try (destruct (deadline <? tn_now t)%Z; [done|]; by destruct (tn_ctx t));
    intros [= <- <-]; by rewrite E.
Qed.

Lemma wait_turn_late deadline t : (deadline < tn_now t)%Z -> is_Some (wait_turn deadline t).
Proof.
  intros H. apply Z.ltb_lt in H. unfold wait_turn. destruct (tn_run t) as [r|]; [|by eexists].
  destruct (tn_nodes t); [|by eexists]. rewrite H. destruct (rr_Status r); by eexists.
Qed.

Lemma wait_turns_seen deadline turns run nodes :
  wait_turns deadline turns = Some (Ok (run, nodes)) ->
  exists t, t ∈ turns /\ tn_run t = Ok run /\ tn_nodes t = Ok nodes /\ ended_run run.
Proof.
  induction turns as [|t turns IH]; [done|]. cbn. destruct (wait_turn deadline t) eqn:E.
  - intros [= ->]. exists t. split; [apply elem_of_cons; by left|]. by apply wait_turn_terminal in E.
  - intros H. destruct (IH H) as (t' & Hin & Ht). exists t'. split; [|done]. apply elem_of_cons. by right.
Qed.

Lemma wait_turns_end poll deadline turns from :
  (0 < poll)%Z -> paced poll from turns ->
  (deadline < from + Z.of_nat (length turns) * poll - poll)%Z -> turns <> [] ->
  is_Some (wait_turns deadline turns).
Proof.
  intros Hp. revert from. induction turns as [|t turns IH]; intros from Hpace Hd Hne; [done|].
  destruct Hpace as [Hfrom Hpace]. cbn [wait_turns]. destruct (wait_turn deadline t) eqn:E; [by eexists|].
  destruct turns as [|t' turns].
  - exfalso. destruct (wait_turn_late deadline t) as [x Hx]; [cbn in Hd; lia|congruence].
  - apply (IH (tn_now t + poll)%Z); [done| |done]. cbn [length] in *. lia.
Qed.

(** C40. Waiting for a run ends: on a clock that advances by the poll interval
    between two turns, after at most [timeout / poll + 2] of them, with a run only
    when a poll read it with its nodes and it had ended. *)
Theorem waitForTerminalRun_ends start timeout poll turns :
  (0 < poll)%Z -> (0 <= timeout)%Z -> paced poll start turns ->
  (timeout / poll + 2 <= Z.of_nat (length turns))%Z ->
  exists answer, waitForTerminalRun start timeout turns = Some answer /\
    forall run nodes, answer = Ok (run, nodes) ->
      ended_run run /\ exists t, t ∈ turns /\ tn_run t = Ok run /\ tn_nodes t = Ok nodes.
Proof.
  intros Hp Ht Hpace Hl.
  assert (Hq : (timeout < (timeout / poll + 1) * poll)%Z).
  { pose proof (Z.mul_succ_div_gt timeout poll Hp). lia. }
  assert (Hm : ((timeout / poll + 1) * poll <= (Z.of_nat (length turns) - 1) * poll)%Z)
    by (apply Z.mul_le_mono_nonneg_r; lia).
  destruct (wait_turns_end poll (start + timeout) turns start) as [answer Ha]; [done|done|lia| |].
  - intros ->. cbn in Hl. pose proof (Z.div_pos timeout poll Ht Hp). lia.
  - exists answer. split; [done|]. intros run nodes ->.
    destruct (wait_turns_seen _ _ _ _ Ha) as (t & Hin & H1 & H2 & H3). split; [done|]. by exists t.
Qed.

(** A run that never ends, polled every two seconds for three. *)
Definition busy (now : Z) : turn :=
  mkTurn (Ok (zero_RunRecord <| rr_Status := RunStatusRunning |>)) (Ok []) now None.

Lemma waitForTerminalRun_ends_witness :
  waitForTerminalRun 10 3 [busy 10; busy 12; busy 14] = Some (Err (timeout_error RunStatusRunning)) /\
  exists answer, waitForTerminalRun 10 3 [busy 10; busy 12; busy 14] = Some answer.
Proof.
  split; [vm_compute; reflexivity|].
  destruct (waitForTerminalRun_ends 10 3 2 [busy 10; busy 12; busy 14]) as (answer & H & _).
  - lia.
  - lia.
  - unfold paced, busy, tn_now. lia.
  - vm_compute. discriminate.
  - by exists answer.
Defined.
