(* ===== verification/Summary.v ===== *)
(** * The smoke summary ([src/tools/kubeslint-smoke-summary/main.go],
      [spec_profiles.go])

    The two profiles of indicators, and the results the tool derives from the
    lifecycle of the sample run, the artifact inventory and the churn of objects in
    the cluster, and the tool itself, from its flags to the file it writes. The
    evaluation of a profile, and the types of its result beyond what the tool sets,
    are those of kube-slint. Titles and descriptions are left out. *)
From S2P Require Import Prelude GoStrings GoErrors Metrics.

(** ** Floating point

    The conversion of an integer to [float64]: rounded to 53 significant bits,
    ties to even. The values here are whole numbers, and are compared as such. *)
Definition round_even (q r half : Z) : Z :=
  if (r <? half)%Z then q else if (half <? r)%Z then (q + 1)%Z else if Z.even q then q else (q + 1)%Z.

Definition float64 (z : Z) : Z :=
  if (Z.abs z <? 2 ^ 53)%Z then z
  else
    let e := (Z.log2 (Z.abs z) - 52)%Z in
    (Z.sgn z * (round_even (Z.abs z / 2 ^ e) (Z.abs z mod 2 ^ e) (2 ^ (e - 1)) * 2 ^ e))%Z.

Definition int_sub (x y : Z) : Z := wrap64 (x - y).

(** ** Profiles *)
Inductive ComputeMode := ComputeDelta | ComputeEnd.
Inductive RuleOp := OpLT | OpGT.

(** [spec.SLISpec]; the rule fails the indicator when its value compares so with
    the target. *)
Record SLISpec := mkSLISpec {
  sli_ID : string;
  sli_Unit : string;
  sli_Kind : string;
  sli_Input : string;
  sli_Compute : ComputeMode;
  sli_Judge : option (RuleOp * Z);
}.

Definition jumiAHMinimumSpecs : list SLISpec := [
  mkSLISpec "jumi_jobs_created_delta" "count" "delta_counter"
    "jumi_jobs_created_total" ComputeDelta None;
  mkSLISpec "jumi_fast_fail_trigger_delta" "count" "delta_counter"
    "jumi_fast_fail_trigger_total" ComputeDelta None;
  mkSLISpec "jumi_artifacts_registered_delta" "count" "delta_counter"
    "jumi_artifacts_registered_total" ComputeDelta None;
  mkSLISpec "jumi_input_resolve_requests_delta" "count" "delta_counter"
    "jumi_input_resolve_requests_total" ComputeDelta None;
  mkSLISpec "jumi_input_remote_fetch_delta" "count" "delta_counter"
    "jumi_input_remote_fetch_total" ComputeDelta None;
  mkSLISpec "jumi_input_materializations_delta" "count" "delta_counter"
    "jumi_input_materializations_total" ComputeDelta None;
  mkSLISpec "jumi_sample_runs_finalized_delta" "count" "delta_counter"
    "jumi_sample_runs_finalized_total" ComputeDelta None;
  mkSLISpec "jumi_gc_evaluate_requests_delta" "count" "delta_counter"
    "jumi_gc_evaluate_requests_total" ComputeDelta None;
  mkSLISpec "ah_artifacts_registered_delta" "count" "delta_counter"
    "ah_artifacts_registered_total" ComputeDelta None;
  mkSLISpec "ah_resolve_requests_delta" "count" "delta_counter"
    "ah_resolve_requests_total" ComputeDelta None;
  mkSLISpec "ah_fallback_delta" "count" "delta_counter"
    "ah_fallback_total" ComputeDelta None;
  mkSLISpec "ah_gc_backlog_bytes_end" "bytes" "gauge"
    "ah_gc_backlog_bytes" ComputeEnd None
].

Definition jumiAHSmokeGuardrailSpecs : list SLISpec := [
  mkSLISpec "jumi_jobs_created_smoke" "count" "delta_counter"
    "jumi_jobs_created_total" ComputeDelta (Some (OpLT, 2%Z));
  mkSLISpec "jumi_artifacts_registered_smoke" "count" "delta_counter"
    "jumi_artifacts_registered_total" ComputeDelta (Some (OpLT, 1%Z));
  mkSLISpec "jumi_input_resolve_requests_smoke" "count" "delta_counter"
    "jumi_input_resolve_requests_total" ComputeDelta (Some (OpLT, 1%Z));
  mkSLISpec "jumi_input_remote_fetch_smoke" "count" "delta_counter"
    "jumi_input_remote_fetch_total" ComputeDelta (Some (OpLT, 1%Z));
  mkSLISpec "jumi_input_materializations_smoke" "count" "delta_counter"
    "jumi_input_materializations_total" ComputeDelta (Some (OpLT, 1%Z));
  mkSLISpec "jumi_sample_runs_finalized_smoke" "count" "delta_counter"
    "jumi_sample_runs_finalized_total" ComputeDelta (Some (OpLT, 1%Z));
  mkSLISpec "jumi_gc_evaluate_requests_smoke" "count" "delta_counter"
    "jumi_gc_evaluate_requests_total" ComputeDelta (Some (OpLT, 1%Z));
  mkSLISpec "ah_artifacts_registered_smoke" "count" "delta_counter"
    "ah_artifacts_registered_total" ComputeDelta (Some (OpLT, 1%Z));
  mkSLISpec "ah_resolve_requests_smoke" "count" "delta_counter"
    "ah_resolve_requests_total" ComputeDelta (Some (OpLT, 1%Z));
  mkSLISpec "ah_fallback_smoke" "count" "delta_counter"
    "ah_fallback_total" ComputeDelta (Some (OpLT, 0%Z));
  mkSLISpec "ah_gc_backlog_bytes_smoke" "bytes" "gauge"
    "ah_gc_backlog_bytes" ComputeEnd (Some (OpGT, 0%Z))
].

Definition pickSpecs {U : UnicodeTables} (profile : string) : res (list SLISpec) :=
  if streq profile "smoke" then Ok jumiAHSmokeGuardrailSpecs
  else if streq profile "minimum" then Ok jumiAHMinimumSpecs
  else Err (Errorf ("unknown profile " +:+ Quote profile)).

(** ** The fixture *)
Record k8sChurnSample := mkK8sChurnSample {
  ks_JobsTotal : Z;
  ks_JobsForRun : Z;
  ks_JobsActive : Z;
  ks_JobsFailed : Z;
  ks_PodsTotal : Z;
  ks_PodsForRun : Z;
}.

Record k8sChurn := mkK8sChurn { kc_Start : k8sChurnSample; kc_End : k8sChurnSample }.

Record ahLifecycle := mkAhLifecycle {
  al_Finalized : bool;
  al_GCEligible : bool;
  al_GCBlockedReason : string;
  al_RetainedArtifactCount : Z;
  al_RetainedArtifactBytes : Z;
}.

Record ahArtifact := mkAhArtifact { aa_Digest : string; aa_URI : string; aa_SizeBytes : Z }.

(** What the derived results are computed from. *)
Record fixture := mkFixture {
  fx_AHLifecycle : option ahLifecycle;
  fx_AHArtifacts : list ahArtifact;
  fx_K8sChurn : option k8sChurn;
}.

(** ** Results *)
Inductive Status := StatusPass | StatusFail.

#[export] Instance Status_eq_dec : EqDecision Status.
Proof. solve_decision. Defined.

Record SLIResult := mkSLIResult {
  sr_ID : string;
  sr_Unit : string;
  sr_Kind : string;
  sr_Value : Z;
  sr_Status : Status;
  sr_InputsUsed : list string;
}.

Definition boolValue (v : bool) : Z := if v then 1 else 0.
Definition boolStatus (v : bool) : Status := if v then StatusPass else StatusFail.

Definition statusForPositiveOrZero (value : Z) (expectPositive : bool) : Status :=
  if expectPositive then boolStatus (0 <? value)%Z else boolStatus (value =? 0)%Z.

Definition statusAtLeast (value min : Z) : Status := boolStatus (min <=? value)%Z.
Definition statusZero (value : Z) : Status := boolStatus (value =? 0)%Z.

Definition complete (a : ahArtifact) : bool :=
  negb (streq (aa_Digest a) "") && negb (streq (aa_URI a) "") && (0 <=? aa_SizeBytes a)%Z.

(** The loop of [artifactMetadataCompleteness]. *)
Fixpoint completeness (artifacts : list ahArtifact) (count total : Z) (all : bool) : Z * Z * bool :=
  match artifacts with
  | [] => (count, total, all)
  | a :: artifacts =>
      if complete a then completeness artifacts (int_add count 1) (int_add total (aa_SizeBytes a)) all
      else completeness artifacts count total false
  end.

Definition artifactMetadataCompleteness (artifacts : list ahArtifact) : Z * Z * bool :=
  let some := match artifacts with [] => false | _ => true end in
  let '(count, total, all) := completeness artifacts 0 0 some in
  (count, total, match artifacts with [] => false | _ => all end).

Definition completenessStatus (total : nat) (allComplete : bool) : Status :=
  boolStatus (negb ((total =? 0)%nat || negb allComplete)).

Definition appendLifecycleDerivedResults (fix_ : fixture) (results : list SLIResult) : list SLIResult :=
  match fx_AHLifecycle fix_ with
  | None => results
  | Some lc =>
      let artifacts := fx_AHArtifacts fix_ in
      let retentionWindowActive :=
        al_Finalized lc && negb (al_GCEligible lc) && streq (al_GCBlockedReason lc) "retention_window_active" in
      let retainedBytes := float64 (al_RetainedArtifactBytes lc) in
      let '(completeCount, totalBytes, allComplete) := artifactMetadataCompleteness artifacts in
      let lifecycleBytesMatch :=
        match artifacts with [] => false | _ => (totalBytes =? al_RetainedArtifactBytes lc)%Z end in
      results ++ [
        mkSLIResult "ah_lifecycle_finalized_smoke" "bool" "derived_state" (boolValue (al_Finalized lc))
          (boolStatus (al_Finalized lc)) ["ahLifecycle.finalized"];
        mkSLIResult "ah_retention_window_active_smoke" "bool" "derived_state" (boolValue retentionWindowActive)
          (boolStatus retentionWindowActive)
          ["ahLifecycle.finalized"; "ahLifecycle.gcEligible"; "ahLifecycle.gcBlockedReason"];
        mkSLIResult "ah_retained_artifact_bytes_smoke" "bytes" "derived_gauge" retainedBytes
          (statusForPositiveOrZero retainedBytes (0 <? al_RetainedArtifactCount lc)%Z)
          ["ahLifecycle.retainedArtifactCount"; "ahLifecycle.retainedArtifactBytes"];
        mkSLIResult "ah_artifact_metadata_complete_smoke" "count" "derived_state" (float64 completeCount)
          (completenessStatus (length artifacts) allComplete)
          ["ahArtifacts.digest"; "ahArtifacts.uri"; "ahArtifacts.sizeBytes"];
        mkSLIResult "ah_inventory_lifecycle_bytes_match_smoke" "bool" "derived_state" (boolValue lifecycleBytesMatch)
          (boolStatus lifecycleBytesMatch)
          ["ahLifecycle.retainedArtifactBytes"; "ahArtifacts.sizeBytes"]
      ]
  end.

Definition appendK8sChurnDerivedResults (fix_ : fixture) (results : list SLIResult) : list SLIResult :=
  match fx_K8sChurn fix_ with
  | None => results
  | Some churn =>
      let jobDelta := float64 (int_sub (ks_JobsTotal (kc_End churn)) (ks_JobsTotal (kc_Start churn))) in
      let podDelta := float64 (int_sub (ks_PodsTotal (kc_End churn)) (ks_PodsTotal (kc_Start churn))) in
      let runJobs := float64 (ks_JobsForRun (kc_End churn)) in
      let runPods := float64 (ks_PodsForRun (kc_End churn)) in
      let failedJobs := float64 (ks_JobsFailed (kc_End churn)) in
      let activeJobs := float64 (ks_JobsActive (kc_End churn)) in
      results ++ [
        mkSLIResult "k8s_namespace_jobs_total_delta_churn" "count" "derived_delta" jobDelta StatusPass
          ["k8sChurn.start.jobsTotal"; "k8sChurn.end.jobsTotal"];
        mkSLIResult "k8s_namespace_pods_total_delta_churn" "count" "derived_delta" podDelta StatusPass
          ["k8sChurn.start.podsTotal"; "k8sChurn.end.podsTotal"];
        mkSLIResult "k8s_jobs_for_run_churn" "count" "derived_gauge" runJobs (statusAtLeast runJobs 1)
          ["k8sChurn.end.jobsForRun"];
        mkSLIResult "k8s_pods_for_run_churn" "count" "derived_gauge" runPods (statusAtLeast runPods 1)
          ["k8sChurn.end.podsForRun"];
        mkSLIResult "k8s_failed_jobs_end_churn" "count" "derived_gauge" failedJobs (statusZero failedJobs)
          ["k8sChurn.end.jobsFailed"];
        mkSLIResult "k8s_active_jobs_end_churn" "count" "derived_gauge" activeJobs (statusZero activeJobs)
          ["k8sChurn.end.jobsActive"]
      ]
  end.

(** [summary.Reliability], what the tool reads and sets; a score is a number of
    hundredths. *)
Record Reliability := mkReliability {
  rl_ConfigSourceType : string;
  rl_ConfigSourcePath : string;
  rl_StartSkewMs : option Z;
  rl_EndSkewMs : option Z;
  rl_CollectionStatus : string;
  rl_EvaluationStatus : string;
  rl_ConfidenceScore : option Z;
}.

#[export] Instance eta_Reliability : Eta Reliability := fun r =>
  mkReliability (rl_ConfigSourceType r) (rl_ConfigSourcePath r) (rl_StartSkewMs r) (rl_EndSkewMs r)
    (rl_CollectionStatus r) (rl_EvaluationStatus r) (rl_ConfidenceScore r).

Definition normalizeReplayReliability (r : option Reliability) : option Reliability :=
  match r with
  | None => None
  | Some r =>
      let r := r <| rl_ConfigSourceType := "injected" |> <| rl_ConfigSourcePath := "fixture_replay" |>
                 <| rl_StartSkewMs := None |> <| rl_EndSkewMs := None |> in
      Some (if streq (rl_CollectionStatus r) "Complete" && streq (rl_EvaluationStatus r) "Complete"
            then r <| rl_ConfidenceScore := Some 100%Z |> else r)
  end.

(** The part of [main] after the evaluation of the profile. *)
Definition derived (fix_ : fixture) (normalize : bool) (results : list SLIResult) (r : option Reliability)
    : list SLIResult * option Reliability :=
  let r := if normalize then normalizeReplayReliability r else r in
  (appendK8sChurnDerivedResults fix_ (appendLifecycleDerivedResults fix_ results), r).

(** ** The tool

    The fixture file: what [engine.ExecuteStandard] is asked with, its metrics being
    maps of floating-point numbers, and what the derived results are computed from. *)
Section tool.
Context {Values : Type} {U : UnicodeTables}.

Record fixture_file := mkFixtureFile {
  ff_RunID : string;
  ff_StartedAt : Z;
  ff_FinishedAt : Z;
  ff_Method : string;
  ff_Tags : gmap string string;
  ff_Evidence : gmap string string;
  ff_StartMetrics : Values;
  ff_EndMetrics : Values;
  ff_derived : fixture;
}.

(** The samples of the two ends of the window. *)
Record staticFetcher := mkStaticFetcher { sf_start : Z * Values; sf_end : Z * Values }.

Definition Fetch (f : staticFetcher) (at_ : Z) : Z * Values :=
  if (at_ =? (sf_start f).1)%Z then sf_start f else sf_end f.

(** [summary.Summary], what the tool reads and sets. *)
Record Summary := mkSummary {
  su_Results : list SLIResult;
  su_Warnings : nat;
  su_Reliability : option Reliability;
}.

Record ExecuteRequest := mkExecuteRequest {
  eq_Method : string;
  eq_RunID : string;
  eq_StartedAt : Z;
  eq_FinishedAt : Z;
  eq_Tags : gmap string string;
  eq_Format : string;
  eq_EvidencePaths : gmap string string;
  eq_Specs : list SLISpec;
  eq_OutPath : string;
}.

(** The files, the JSON of a fixture, and kube-slint: the evaluation of a profile
    over a fetcher, which answers a pointer, its name for the default method, and the
    writer of a summary. *)
Record tool_calls := mkToolCalls {
  os_ReadFile : string -> res string;
  unmarshal_fixture : string -> res fixture_file;
  OutsideSnapshot : string;
  ExecuteStandard : staticFetcher -> ExecuteRequest -> res (option Summary);
  writer_Write : string -> Summary -> option GoError;
}.
Context (calls : tool_calls).

Definition loadFixture (path : string) : res fixture_file :=
  match os_ReadFile calls path with
  | Err err => Err err
  | Ok data => unmarshal_fixture calls data
  end.

Record tool_flags := mkToolFlags {
  tf_in : string;
  tf_out : string;
  tf_profile : string;
  tf_normalizeReliability : bool;
}.

(** How [main] ends: with an exit code and a message, in a nil dereference, or
    having written a summary and printed its lines. *)
Inductive tool_end :=
  | Exited (code : Z) (stderr : string)
  | NilDereference
  | Wrote (path : string) (sum : Summary) (stdout : list string).

Definition request (flags : tool_flags) (fix_ : fixture_file) (specs : list SLISpec) : ExecuteRequest :=
  mkExecuteRequest
    (if negb (streq (ff_Method fix_) "") then ff_Method fix_ else OutsideSnapshot calls)
    (ff_RunID fix_) (ff_StartedAt fix_) (ff_FinishedAt fix_) (ff_Tags fix_) "v4" (ff_Evidence fix_)
    specs (tf_out flags).

(** The summary with what is derived, written and reported. *)
Definition finish (flags : tool_flags) (fix_ : fixture_file) (sum : Summary) : tool_end :=
  let '(results, r) := derived (ff_derived fix_) (tf_normalizeReliability flags) (su_Results sum) (su_Reliability sum) in
  let sum := mkSummary results (su_Warnings sum) r in
  match writer_Write calls (tf_out flags) sum with
  | Some err => Exited 1 ("rewrite normalized summary: " +:+ error_text err)
  | None =>
      match r with
      | None => NilDereference
      | Some r =>
          Wrote (tf_out flags) sum
            ["generated summary: " +:+ tf_out flags;
             "results=" +:+ pretty (length results) +:+ " warnings=" +:+ pretty (su_Warnings sum) +:+
             " collection=" +:+ rl_CollectionStatus r +:+ " evaluation=" +:+ rl_EvaluationStatus r]
      end
  end.

Definition tool_main (flags : tool_flags) : tool_end :=
  if streq (tf_in flags) "" || streq (tf_out flags) "" then Exited 2 "-in and -out are required"
  else
    match loadFixture (tf_in flags) with
    | Err err => Exited 1 ("load fixture: " +:+ error_text err)
    | Ok fix_ =>
        match pickSpecs (tf_profile flags) with
        | Err err => Exited 1 ("pick specs: " +:+ error_text err)
        | Ok specs =>
            let fetcher := mkStaticFetcher (ff_StartedAt fix_, ff_StartMetrics fix_)
                                           (ff_FinishedAt fix_, ff_EndMetrics fix_) in
            match ExecuteStandard calls fetcher (request flags fix_ specs) with
            | Err err => Exited 1 ("execute summary: " +:+ error_text err)
            | Ok None => NilDereference
            | Ok (Some sum) => finish flags fix_ sum
            end
        end
    end.
End tool.
