(* ===== verification/SummaryFacts.v ===== *)
(** * What the smoke summary says

    The conversion to floating point changes no verdict; the derived results pass
    exactly for a run that was finalized and retained as it should be; every JUMI
    indicator of a profile reads a counter that JUMI exports. *)
From S2P Require Import Prelude GoStrings GoErrors Metrics Summary.

(** ** Rounding keeps the sign *)
Lemma round_even_ge q r half : (q <= round_even q r half)%Z.
Proof. unfold round_even. repeat case_match; lia. Qed.

Lemma float64_sign z : Z.sgn (float64 z) = Z.sgn z.
Proof.
  unfold float64. destruct (Z.ltb_spec (Z.abs z) (2 ^ 53)) as [H|H]; [done|].
  set (e := (Z.log2 (Z.abs z) - 52)%Z).
  assert (H53 : (53 <= Z.log2 (Z.abs z))%Z) by (apply Z.log2_le_pow2; lia).
  assert (He : (0 < 2 ^ e)%Z) by (apply Z.pow_pos_nonneg; unfold e; lia).
  assert (Hq : (1 <= Z.abs z / 2 ^ e)%Z).
  { apply Z.div_le_lower_bound; [done|]. rewrite Z.mul_1_r.
    transitivity (2 ^ Z.log2 (Z.abs z))%Z; [apply Z.pow_le_mono_r; unfold e; lia|].
    apply Z.log2_spec. lia. }
  pose proof (round_even_ge (Z.abs z / 2 ^ e) (Z.abs z mod 2 ^ e) (2 ^ (e - 1))) as Hr.
  rewrite Z.sgn_mul. rewrite (Z.sgn_pos (_ * _)) by nia. rewrite Z.mul_1_r. by destruct z.
Qed.

Lemma float64_zero z : (float64 z =? 0)%Z = (z =? 0)%Z.
Proof.
  pose proof (float64_sign z) as H.
  destruct (Z.eqb_spec (float64 z) 0) as [E|E], (Z.eqb_spec z 0) as [F|F]; try done; exfalso; lia.
Qed.

Lemma float64_pos z : (0 <? float64 z)%Z = (0 <? z)%Z.
Proof.
  pose proof (float64_sign z) as H.
  destruct (Z.ltb_spec 0 (float64 z)), (Z.ltb_spec 0 z); try done; exfalso; lia.
Qed.

(** ** The inventory *)
Definition sizes (artifacts : list ahArtifact) : Z := foldr (fun a n => (aa_SizeBytes a + n)%Z) 0%Z artifacts.

Lemma completeness_all artifacts count total all c t b :
  completeness artifacts count total all = (c, t, b) ->
  b = all && forallb complete artifacts.
Proof.
  revert count total all. induction artifacts as [|a l IH]; intros count total all; cbn.
  - intros [= _ _ <-]. by rewrite andb_true_r.
  - destruct (complete a); intros H; apply IH in H; rewrite H; [done|]. by rewrite andb_false_r.
Qed.

Lemma complete_size a : complete a = true -> (0 <= aa_SizeBytes a)%Z.
Proof. unfold complete. rewrite !andb_true_iff, Z.leb_le. by intros [_ H]. Qed.

Lemma sizes_nonneg artifacts : forallb complete artifacts = true -> (0 <= sizes artifacts)%Z.
Proof.
  induction artifacts as [|a l IH]; cbn; [lia|]. rewrite andb_true_iff. intros [Ha%complete_size Hl].
  specialize (IH Hl). unfold sizes in *. lia.
Qed.

Lemma completeness_total artifacts count total all c t b :
  forallb complete artifacts = true -> (0 <= total)%Z -> (total + sizes artifacts <= int64_max)%Z ->
  completeness artifacts count total all = (c, t, b) -> t = (total + sizes artifacts)%Z.
Proof.
  revert count total all. induction artifacts as [|a l IH]; intros count total all; cbn.
  - unfold sizes. cbn [foldr]. intros _ _ _ [= _ <- _]. lia.
  - rewrite andb_true_iff. intros [Ha Hl] Ht Hm. rewrite Ha. pose proof (complete_size a Ha) as Hs.
    pose proof (sizes_nonneg l Hl) as Hn. fold (sizes l) in *.
    unfold int_add. rewrite (wrap64_id (total + _)) by (unfold int64_max in *; lia).
    intros H. apply IH in H; [lia|done|lia|lia].
Qed.

(** ** The lifecycle verdicts *)
Record retained_as_expected (lc : ahLifecycle) (artifacts : list ahArtifact) : Prop := {
  re_finalized : al_Finalized lc = true;
  re_not_eligible : al_GCEligible lc = false;
  re_reason : al_GCBlockedReason lc = "retention_window_active";
  re_bytes : if (0 <? al_RetainedArtifactCount lc)%Z then (0 < al_RetainedArtifactBytes lc)%Z
             else al_RetainedArtifactBytes lc = 0%Z;
  re_artifacts : artifacts <> [];
  re_complete : Forall (fun a => aa_Digest a <> "" /\ aa_URI a <> "" /\ (0 <= aa_SizeBytes a)%Z) artifacts;
  re_sum : al_RetainedArtifactBytes lc = sizes artifacts;
}.

Lemma boolStatus_pass b : boolStatus b = StatusPass <-> b = true.
Proof. by destruct b. Qed.

Lemma if_boolStatus (c x y : bool) :
  (if c then boolStatus x else boolStatus y) = boolStatus (if c then x else y).
Proof. by destruct c. Qed.

Lemma complete_forall artifacts :
  forallb complete artifacts = true <->
  Forall (fun a => aa_Digest a <> "" /\ aa_URI a <> "" /\ (0 <= aa_SizeBytes a)%Z) artifacts.
Proof.
  assert (H : forall a, complete a = true <->
    aa_Digest a <> "" /\ aa_URI a <> "" /\ (0 <= aa_SizeBytes a)%Z).
  { intros a. unfold complete. rewrite !andb_true_iff, !negb_true_iff, !streq_neq, Z.leb_le. tauto. }
  induction artifacts as [|a l IH]; [by split|].
  cbn [forallb]. by rewrite andb_true_iff, Forall_cons, H, IH.
Qed.

(** The results derived from the lifecycle of a sample run all pass exactly when
    the run was finalized and is held back by its retention window, retains bytes if
    and only if it retains artifacts, and its inventory is not empty, complete, and
    adds up to the retained bytes, unless the sizes overflow; no results are derived
    without a lifecycle, and none of the earlier ones is touched. *)
Theorem lifecycle_results_pass (fix_ : fixture) results :
  (sizes (fx_AHArtifacts fix_) <= int64_max)%Z ->
  exists derived, appendLifecycleDerivedResults fix_ results = results ++ derived /\
    match fx_AHLifecycle fix_ with
    | None => derived = []
    | Some lc =>
        Forall (fun r => sr_Status r = StatusPass) derived <->
        retained_as_expected lc (fx_AHArtifacts fix_)
    end.
Proof.
  intros Hmax. unfold appendLifecycleDerivedResults. destruct (fx_AHLifecycle fix_) as [lc|].
  2:{ exists []. by rewrite app_nil_r. }
  unfold artifactMetadataCompleteness. set (arts := fx_AHArtifacts fix_) in *.
  destruct (completeness arts 0 0 _) as [[c t] b] eqn:E.
  pose proof (completeness_all _ _ _ _ _ _ _ E) as Hb.
  pose proof (fun H => completeness_total _ _ _ _ _ _ _ H (Z.le_refl 0) Hmax E) as Ht. clear E.
  eexists. split; [reflexivity|]. rewrite !Forall_cons, Forall_nil. cbn [sr_Status].
  unfold statusForPositiveOrZero, completenessStatus. rewrite float64_pos, float64_zero.
  rewrite if_boolStatus, !boolStatus_pass, !andb_true_iff, !negb_true_iff, streq_eq.
  destruct (decide (arts = [])) as [Hn|Hn].
  { split; [|intros []; done]. rewrite Hn. cbn. by intros (_ & _ & _ & ? & _). }
  assert (Hc : match arts with [] => false | _ => b end = b /\
    match arts with [] => false | _ => (t =? al_RetainedArtifactBytes lc)%Z end =
      (t =? al_RetainedArtifactBytes lc)%Z /\ (length arts =? 0)%nat = false /\
    b = forallb complete arts) by (rewrite Hb; by destruct arts).
  destruct Hc as (-> & -> & -> & Hb'). rewrite orb_false_l, negb_false_iff.
  split.
  - intros (Hf & ((_ & Hg) & Hr) & Hy & Hcm & Hm & _). rewrite Hb' in Hcm.
    assert (Hall : forallb complete arts = true) by (by destruct (forallb complete arts)).
    specialize (Ht Hall). split; try done.
    + destruct (0 <? al_RetainedArtifactCount lc)%Z; [by apply Z.ltb_lt|by apply Z.eqb_eq].
    + by apply complete_forall.
    + apply Z.eqb_eq in Hm. lia.
  - intros []. assert (Hall : forallb complete arts = true) by (by apply complete_forall).
    specialize (Ht Hall). rewrite Hb', Hall. repeat split; try done.
    + destruct (0 <? al_RetainedArtifactCount lc)%Z; [by apply Z.ltb_lt|by apply Z.eqb_eq].
    + apply Z.eqb_eq. lia.
Qed.

Definition sample_fixture : fixture :=
  mkFixture (Some (mkAhLifecycle true false "retention_window_active" 2 30))
    [mkAhArtifact "sha256:a" "http://x/a" 10; mkAhArtifact "sha256:b" "http://x/b" 20] None.

Lemma lifecycle_results_pass_witness :
  exists derived, appendLifecycleDerivedResults sample_fixture [] = derived /\ length derived = 5 /\
    Forall (fun r => sr_Status r = StatusPass) derived.
Proof.
  destruct (lifecycle_results_pass sample_fixture []) as (d & Hd & Hp); [vm_compute; discriminate|].
  exists d. split; [exact Hd|]. split.
  - rewrite app_nil_l in Hd. rewrite <- Hd. reflexivity.
  - apply Hp. split; try reflexivity; [discriminate|].
    repeat constructor; discriminate.
Defined.

(** ** The indicators and the counters

    An indicator over a counter of JUMI, as a check on the profile it is in: it is
    the change of a counter that [Metrics.New] makes, under the name of the exposition,
    which appends [_total]. *)
Definition all_counters : list Counter := fst <$> counters.

Definition reads_counter (s : SLISpec) : bool :=
  negb (has_prefix "jumi_" (sli_Input s)) ||
  (match sli_Compute s with ComputeDelta => true | ComputeEnd => false end &&
   existsb (fun c => streq (sli_Input s) (counter_name c +:+ "_total")) all_counters).

Lemma profiles_read_counters {U : UnicodeTables} profile specs :
  pickSpecs profile = Ok specs ->
  Forall (fun s => has_prefix "jumi_" (sli_Input s) = true ->
    sli_Compute s = ComputeDelta /\ exists c, sli_Input s = (counter_name c +:+ "_total")%string) specs.
Proof.
  intros H. assert (Hs : forallb reads_counter specs = true).
  { unfold pickSpecs in H. destruct (streq profile "smoke"); [by injection H as <-|].
    destruct (streq profile "minimum"); [by injection H as <-|done]. }
  clear H. induction specs as [|s l IH]; [constructor|]. cbn [forallb] in Hs.
  apply andb_true_iff in Hs as [Hs Hl]. constructor; [|by apply IH]. intros Hj.
  unfold reads_counter in Hs. rewrite Hj in Hs. cbn [negb orb] in Hs.
  apply andb_true_iff in Hs as [Hc Hs]. split; [by destruct (sli_Compute s)|].
  apply existsb_exists in Hs as (c & _ & Hs%streq_eq). by exists c.
Qed.

(** ** The tool *)

(** The fetcher answers the sample of each end of a window that has two. *)
Lemma Fetch_ends {V : Type} (f : @staticFetcher V) :
  (sf_start f).1 <> (sf_end f).1 -> Fetch f (sf_start f).1 = sf_start f /\ Fetch f (sf_end f).1 = sf_end f.
Proof.
  intros H. unfold Fetch. rewrite Z.eqb_refl. split; [done|]. destruct (Z.eqb_spec (sf_end f).1 (sf_start f).1); congruence.
Qed.

(** The tool reports a summary only when every step succeeded and the summary is on
    the disk; it keeps every result of the profile and adds the derived ones. *)
Theorem tool_reports_what_it_wrote {V : Type} {U : UnicodeTables} (calls : @tool_calls V) flags path sum out :
  tool_main calls flags = Wrote path sum out ->
  exists fix_ specs sum0,
    loadFixture calls (tf_in flags) = Ok fix_ /\ pickSpecs (tf_profile flags) = Ok specs /\
    ExecuteStandard calls
      (mkStaticFetcher (ff_StartedAt fix_, ff_StartMetrics fix_) (ff_FinishedAt fix_, ff_EndMetrics fix_))
      (request calls flags fix_ specs) = Ok (Some sum0) /\
    path = tf_out flags /\ writer_Write calls path sum = None /\
    su_Results sum = appendK8sChurnDerivedResults (ff_derived fix_)
                       (appendLifecycleDerivedResults (ff_derived fix_) (su_Results sum0)).
Proof.
  unfold tool_main. destruct (_ || _); [done|]. destruct (loadFixture _ _) as [fix_|]; [|done].
  destruct (pickSpecs _) as [specs|]; [|done]. destruct (ExecuteStandard _ _ _) as [[sum0|]|] eqn:E; [|done..].
  unfold finish, derived. destruct (writer_Write _ _ _) eqn:Ew; [done|].
  destruct (if tf_normalizeReliability flags then _ else _) as [r|] eqn:Er; [|done]. intros [= <- <- <-].
  exists fix_, specs, sum0. done.
Qed.
