(* ===== verification/Scenarios.v ===== *)
(** * Runs of the executor on concrete worlds

    A small backend, handoff service and clock; the executor's [RunE] and the
    engine's operations evaluated on them and the in-memory registry; and the
    witnesses of the theorems about the executor on that registry. *)
From S2P Require Import Prelude GoStrings GoErrors Spec Registry Memory Handoff Provenance.
From S2P Require Import BackendTypes Binding Placement Reconcile Prog Runner RunnerTermination.
From S2P Require Import MemoryWorld MemoryFacts Engine EngineFacts Api ApiFacts Validate.

(** Handles and prepared nodes are job names. *)
Definition demo_backend : BackendTypes := {| Handle := string; PreparedNode := string |}.

(** A backend that answers the same way every time: does waiting for a job
    succeed, report a failed job, or fail to answer? *)
Inductive wait_script := WaitSucceeds | WaitReportsFailure | WaitErrs.

Record demo := mkDemo {
  d_clock : Z;
  d_started : list string;
  d_canceled : list string;
  d_unresolved : bool;
}.

#[export] Instance eta_demo : Eta demo := fun d =>
  mkDemo (d_clock d) (d_started d) (d_canceled d) (d_unresolved d).

Definition demo0 : demo := mkDemo 100 [] [] false.

Definition demo_failure : GoError := ErrNew "demo".

Definition failed_result : ExecutionResult :=
  zero_ExecutionResult <| er_TerminalStopCause := "failed" |>
    <| er_TerminalFailureReason := "exit_1" |>.

(** [contexts_done]: does a context with a timeout report that it is over? *)
Definition demo_env (wait : wait_script) (contexts_done : bool) (X : Type)
    (e : @event demo_backend X) (s : demo) : demo * X :=
  match e in event X return demo * X with
  | ENow => (s <| d_clock := (d_clock s + 1)%Z |>, d_clock s)
  | ECtxErr _ => (s, if contexts_done then Some CtxDeadlineExceeded else None)
  | ESleep _ _ => (s, None)
  | EMetric _ => (s, tt)
  | EPrepareNode _ _ node => (s, Ok ("job-" +:+ n_NodeID node))
  | EStartNode _ job => (s <| d_started := d_started s ++ [job] |>, Ok job)
  | EObserveNode _ _ => (s, Ok None)
  | EWaitNode ctx _ =>
      (s, match ctx with
          | CtxCancel _ => Err CtxCanceled
          | _ => match wait with
                 | WaitSucceeds => Ok (zero_ExecutionResult <| er_Succeeded := true |>)
                 | WaitReportsFailure => Ok failed_result
                 | WaitErrs => Err demo_failure
                 end
          end)
  | ECancelNode _ job => (s <| d_canceled := d_canceled s ++ [job] |>, Ok tt)
  | EMarshalHandle job => (s, Ok (Some job))
  | EUnmarshalHandle data => (s, Ok (Some data))
  | EResolveByIdentity _ _ node _ => (s, ("job-" +:+ n_NodeID node, ResolveUnknown, None))
  | ECollectOutputMetadata _ _ _ => (s, Ok ∅)
  | EResolveBinding _ _ => (s, Err demo_failure)
  | ERegisterArtifact _ _ => (s, Ok tt)
  | ENotifyNodeTerminal _ _ => (s, Ok tt)
  | EFinalizeSampleRun _ => (s, Ok tt)
  | EEvaluateGC _ => (s, Ok tt)
  | ERegisterHandle _ _ => (s, tt)
  | EUnregisterHandle _ => (s, tt)
  | EMarkUnresolved => (s <| d_unresolved := true |>, tt)
  | EGoExecuteRun _ | EGoRecoverCanceledRun _ | EGoWatcher _ _ | ERegisterActive _
  | EUnregisterActive _ | ECancelActive _ | ETrySendFirstErr _ | ETrySendFastFailRoot _
  | EDagCreateNode _ => (s, tt)
  | EGetActive _ | EIsUnresolved => (s, d_unresolved s)
  | ESnapshotHandles _ => (s, d_started s)
  | ETryReceiveFirstErr => (s, None)
  | ETryReceiveFastFailRoot => (s, None)
  | EDagInit | EDagAddEdge _ _ | EDagAddStartEdge _ | EDagFinish => (s, Ok tt)
  | EDagSetNodeRunners _ => (s, [])
  | EDagConnectRunner | EDagGetReady _ | EDagStart => (s, true)
  | EDagWait _ => (s, negb (d_unresolved s))
  | _ => (s, Err demo_failure)
  end.

Lemma demo_honest wait done : @honest_env demo_backend demo (demo_env wait done).
Proof. intros X e s. by destruct e. Qed.

(** One run with one node. *)
Definition demo_node : Node := zero_Node <| n_NodeID := "n" |> <| n_Image := "img" |>.

Definition demo_registry : MemoryRegistry :=
  (CreateRun NewMemoryRegistry
     (zero_RunRecord <| rr_RunID := "r" |> <| rr_Status := RunStatusRunning |>)
     [zero_NodeRecord <| nr_RunID := "r" |> <| nr_NodeID := "n" |>
        <| nr_Status := NodeStatusPending |>]).1.

Definition no_caps : AdapterCaps :=
  {| cap_HandlePersister := false; cap_AttemptResolver := false;
     cap_OutputMetadataProvider := false |}.
Definition persisting : AdapterCaps :=
  {| cap_HandlePersister := true; cap_AttemptResolver := false;
     cap_OutputMetadataProvider := false |}.

(** [RunE] of a fresh runner on the demo world. *)
Definition demo_run (wait : wait_script) (done : bool) (caps : AdapterCaps) (node : Node)
    (w : MemoryRegistry * demo) : (MemoryRegistry * demo) * option (option GoError) :=
  let '(w, (_, r)) :=
    run (memory_handle (BT := demo_backend) (RO := elements_order) (demo_env wait done))
      (RunE (U := ascii_tables) caps "r" node enough_fuel CtxLive new_runner) w in
  (w, r).

Definition demo_start : MemoryRegistry * demo := (demo_registry, demo0).

Lemma RunE_terminates_witness :
  get_node demo_registry "r" "n" <> None /\
  (demo_run WaitSucceeds false no_caps demo_node demo_start).2 <> None.
Proof.
  split; [by vm_compute|]. unfold demo_run, demo_start.
  pose proof (RunE_terminates (BT := demo_backend) (RO := elements_order) (U := ascii_tables)
    (demo_env WaitSucceeds false) no_caps "r" demo_node CtxLive new_runner demo_registry demo0
    (zero_NodeRecord <| nr_RunID := "r" |> <| nr_NodeID := "n" |> <| nr_Status := NodeStatusPending |>)
    (demo_honest WaitSucceeds false) eq_refl ltac:(vm_compute; done)) as H.
  destruct (run _ _ _) as [w [r x]]. exact H.
Defined.

Definition node_of (w : MemoryRegistry * demo) : option NodeRecord := get_node w.1 "r" "n".
Definition attempt_of_node (w : MemoryRegistry * demo) (k : Z) : option AttemptRecord :=
  get_attempt w.1 "r" "n" (DeterministicAttemptID "r" "n" k).

(** A job that succeeds: one start, the attempt is completed and the node
    succeeded. *)
Example happy_path :
  let w := demo_run WaitSucceeds false persisting demo_node demo_start in
  w.2 = Some None /\ d_started w.1.2 = ["job-n"] /\ d_unresolved w.1.2 = false /\
  nr_Status <$> node_of w.1 = Some NodeStatusSucceeded /\
  ar_Status <$> attempt_of_node w.1 1 = Some AttemptStatusCompleted /\
  nr_AttemptCount <$> node_of w.1 = Some 1%Z.
Proof. cbv zeta. split_and!; vm_compute; reflexivity. Qed.

(** A job that fails: the node fails with the backend's reason, and is not started
    again by a second executor. *)
Example failed_job :
  let w := demo_run WaitReportsFailure false persisting demo_node demo_start in
  let w' := demo_run WaitReportsFailure false persisting demo_node w.1 in
  w.2 = Some (Some (Errorf "exit_1")) /\ nr_Status <$> node_of w.1 = Some NodeStatusFailed /\
  d_started w'.1.2 = ["job-n"].
Proof. cbv zeta. split_and!; vm_compute; reflexivity. Qed.

(** An executor that loses the backend after the start leaves the node unresolved;
    with a persisted handle the next executor waits for the same job. *)
Example lost_backend_reattached :
  let w := demo_run WaitErrs false persisting demo_node demo_start in
  let w' := demo_run WaitSucceeds false persisting demo_node w.1 in
  w.2 = Some (Some errReconcileUnresolved) /\ d_unresolved w.1.2 = true /\
  w'.2 = Some None /\ d_started w'.1.2 = ["job-n"] /\
  nr_Status <$> node_of w'.1 = Some NodeStatusSucceeded.
Proof. cbv zeta. split_and!; vm_compute; reflexivity. Qed.

(** ** What the development found

    Erasing the fence: once the job is started, [runAttemptBody] writes the
    attempt again as a fresh record, which drops the time at which its submission
    window was opened and its handle. *)
Example started_attempt_forgets_the_fence :
  let w := demo_run WaitErrs false persisting demo_node demo_start in
  (attempt_of_node w.1 1 ≫= ar_SubmissionWindowOpenedAt) = None /\
  ar_BackendHandleJSON <$> attempt_of_node w.1 1 = Some "" /\
  d_started w.1.2 = ["job-n"].
Proof. cbv zeta. split_and!; vm_compute; reflexivity. Qed.

(** So when the node's own copy of the handle is not there (a backend without a
    handle persister here), the next executor takes the attempt for one that never
    reached the backend and starts the job a second time, with one attempt
    allowed. *)
Example second_start_after_restart :
  let w := demo_run WaitErrs false no_caps demo_node demo_start in
  let w' := demo_run WaitErrs false no_caps demo_node w.1 in
  effectiveMaxAttempts (rtp_MaxAttempts (n_RetryPolicy demo_node)) = 1%Z /\
  d_started w'.1.2 = ["job-n"; "job-n"] /\ nr_AttemptCount <$> node_of w'.1 = Some 2%Z.
Proof. cbv zeta. split_and!; vm_compute; reflexivity. Qed.

(** A node that runs out of its time is canceled, but [RunE] answers nil, which
    the graph takes for success, and the job is not canceled in the backend. *)
Example timeout_answers_success :
  let node := demo_node <| n_TimeoutPolicy := {| tp_Seconds := 5 |} |> in
  let w := demo_run WaitErrs true persisting node demo_start in
  w.2 = Some None /\ nr_Status <$> node_of w.1 = Some NodeStatusCanceled /\
  d_canceled w.1.2 = [].
Proof. cbv zeta. split_and!; vm_compute; reflexivity. Qed.

(** ** The engine on the demo world *)
Definition demo_run_record : RunRecord :=
  zero_RunRecord <| rr_RunID := "r" |> <| rr_Status := RunStatusRunning |>.
Definition demo_node_record : NodeRecord :=
  zero_NodeRecord <| nr_RunID := "r" |> <| nr_NodeID := "n" |> <| nr_Status := NodeStatusPending |>.

Local Notation demo_exec := (run (memory_handle (BT := demo_backend) (RO := elements_order)
  (demo_env WaitSucceeds false))).

Lemma demo_registry_reachable : program_reachable demo_registry.
Proof. apply rtc_once, ps_CreateRun. by repeat constructor. Qed.

Lemma finalizeRun_on_memory_witness :
  mr_runs demo_registry !! "r" = Some demo_run_record /\
  exists now m' s', demo_exec (finalizeRun "r" true "") (demo_registry, demo0) = ((m', s'), None) /\
    mr_runs m' !! "r" = Some (ended now [demo_node_record] RunStatusSucceeded "" demo_run_record).
Proof.
  split; [reflexivity|].
  pose proof (finalizeRun_on_memory (BT := demo_backend) (RO := elements_order)
    (demo_env WaitSucceeds false) "r" true "" demo_registry demo0 demo_run_record [demo_node_record]
    eq_refl ltac:(vm_compute; reflexivity)) as H.
  cbn in H. destruct H as (m' & s' & He & Hr & _). eexists _, m', s'. split; [exact He|].
  rewrite Hr. apply lookup_insert_eq.
Defined.

Lemma Cancel_on_memory_witness :
  mr_runs demo_registry !! "r" = Some demo_run_record /\
  exists now m' s', demo_exec (Cancel "r" "") (demo_registry, demo0) =
    ((m', s'), None) /\
    get_node m' "r" "n" = Some (canceled_node "" now demo_node_record).
Proof.
  split; [reflexivity|].
  destruct (Cancel_on_memory (BT := demo_backend) (RO := elements_order)
    (demo_env WaitSucceeds false) "r" "" demo_registry demo0 demo_run_record)
    as (now & m' & s' & He & _ & Hn & _).
  - exact demo_registry_reachable.
  - reflexivity.
  - exists now, m', s'. split; [exact He|]. rewrite Hn. reflexivity.
Defined.

Lemma watch_tick_stops_witness :
  (demo_exec (watch_tick "r" true) (demo_registry, demo0)).2 = false.
Proof.
  rewrite (watch_tick_stops (BT := demo_backend) (RO := elements_order)
    (demo_env WaitSucceeds false) "r" true demo_registry demo0 [demo_node_record]).
  - reflexivity.
  - vm_compute. reflexivity.
Defined.

(** A node that is already releasing is ended as canceled at once, its attempt's
    intent is not noted, and the job is canceled only if its handle is known. *)
Example cancel_of_releasing :
  let m := (UpdateNode demo_registry "r" "n"
    (fun x => Ok (tt, x <| nr_Status := NodeStatusReleasing |> <| nr_CurrentAttemptID := "a" |>))).1 in
  let w := (demo_exec (Cancel "r" "user") (m, demo0)).1 in
  nr_Status <$> node_of w = Some NodeStatusCanceled /\ d_canceled w.2 = [].
Proof. cbv zeta. split; vm_compute; reflexivity. Qed.

(** ** The run service *)

(** A submission to an empty registry: the run is accepted. *)
Lemma SubmitRun_on_memory_witness :
  ValidateExecutableRunSpec (U := ascii_tables) (RO := elements_order) ex_spec = None /\
  exists t m' s',
    SubmitRun (U := ascii_tables) (RO := elements_order)
      (H := beside_registry (H := MemoryRegistry_registry (RO := elements_order)))
      (H0 := dag_engine (BT := demo_backend) (U := ascii_tables) (RO := elements_order)
               (demo_env WaitSucceeds false))
      (NewMemoryRegistry, demo0) 7 ex_spec =
      ((m', s'), Ok (mkSubmitRunResponse (rm_RunID (es_Run ex_spec)) RunStatusAccepted 7)) /\
    submitted ex_spec 7 t NewMemoryRegistry m' /\ program_reachable m'.
Proof.
  split; [vm_compute; reflexivity|].
  exact (SubmitRun_on_memory (BT := demo_backend) (U := ascii_tables) (RO := elements_order)
    (demo_env WaitSucceeds false) ex_spec 7 NewMemoryRegistry demo0 (rtc_refl _ _)).
Defined.

Lemma SnapshotFromRegistry_on_memory_witness :
  let backend := mkBackendSnapshot true false 0 0 0 in
  countb run_active (snd <$> map_to_list (mr_runs demo_registry)) = 1%Z /\
  exists errors, errors ≡ₚ (snd <$> map_to_list (mr_runs demo_registry)) ≫= recent_errors demo_registry /\
    SnapshotFromRegistry (H := beside_registry (H := MemoryRegistry_registry (RO := elements_order)))
      (demo_registry, demo0) backend =
    Ok (mkStatusSnapshot 1
          (over_active (waiting demo_registry) (snd <$> map_to_list (mr_runs demo_registry)))
          true false 0 0 0 errors).
Proof.
  cbv zeta. split; [vm_compute; reflexivity|].
  apply (SnapshotFromRegistry_on_memory (RO := elements_order) demo_registry demo0
    (mkBackendSnapshot true false 0 0 0)).
  - apply wf_create, wf_empty.
  - intros id run Hr.
    assert (H : mr_runs demo_registry =
      {[ "r" := zero_RunRecord <| rr_RunID := "r" |> <| rr_Status := RunStatusRunning |> ]}) by reflexivity.
    rewrite H in Hr. apply lookup_singleton_Some in Hr as [<- <-]. reflexivity.
Defined.
