(* ===== verification/GoroutineWorld.v ===== *)
(** * Schedules of goroutines on a concrete world

    The backend of [Scenarios] serves the goroutines of one server: a run is
    submitted, its node is given to two runners at once, and canceled meanwhile. *)
From S2P Require Import Prelude GoStrings GoErrors Spec Registry Memory Handoff Provenance BackendTypes.
From S2P Require Import Binding Placement Reconcile Prog Runner RunnerWrites MemoryWorld MemoryFacts MemoryTidy Engine Api Goroutines ActiveRuns Scenarios.

Definition demo_spec : ExecutableRunSpec :=
  zero_ExecutableRunSpec <| es_Run := zero_RunMetadata <| rm_RunID := "r" |> |>
    <| es_Graph := zero_Graph <| g_Nodes := [demo_node] |> |>.

Definition two_runners : list move :=
  [Submit 5 demo_spec; Start (GoRunE 2 CtxLive "r" demo_node); Start (GoRunE 2 CtxLive "r" demo_node)].

(** Goroutine [i] makes [n] calls. *)
Definition turns (n i : nat) : list move := repeat (Turn i) n.
Definition alternate (n : nat) : list move := concat (repeat [Turn 0; Turn 1] n).

Definition demo_play (schedule : list move) : pool :=
  play (BT := demo_backend) (U := ascii_tables) (RO := elements_order) persisting
    (fun _ => demo_env WaitSucceeds false) schedule demo0.

(** Call by call: one runner gets the attempt, the other's allocation is refused,
    and one execution is started. *)
Example in_turn :
  let p := demo_play (two_runners ++ alternate 60) in
  allocations (po_trace p) = [("r", "n", "r-n-attempt-1")] /\ d_started (po_env p) = ["job-n"] /\
  nr_Status <$> get_node (po_registry p) "r" "n" = Some NodeStatusSucceeded.
Proof. cbv zeta. split_and!; vm_compute; reflexivity. Qed.

(** When the second runner comes after the first has allocated and before it opens
    its fence, it resumes the same attempt; both ask the backend for the same
    job, and there is still one attempt. *)
Example second_resumes :
  let p := demo_play (two_runners ++ turns 8 0 ++ turns 60 1 ++ turns 60 0) in
  allocations (po_trace p) = [("r", "n", "r-n-attempt-1")] /\
  d_started (po_env p) = ["job-n"; "job-n"] /\
  length (starts 0 (po_trace p)) = 1%nat /\ length (starts 1 (po_trace p)) = 1%nat.
Proof. cbv zeta. split_and!; vm_compute; reflexivity. Qed.

(** A cancellation before the runner looks at its node: nothing is started. *)
Example canceled_first :
  let p := demo_play (two_runners ++ [Start (GoCancel "r" "")] ++ turns 20 2 ++ alternate 60) in
  allocations (po_trace p) = [] /\ d_started (po_env p) = [] /\
  nr_Status <$> get_node (po_registry p) "r" "n" = Some NodeStatusCanceled.
Proof. cbv zeta. split_and!; vm_compute; reflexivity. Qed.

Definition demo_schedule : list move := two_runners ++ turns 8 0 ++ turns 60 1 ++ turns 60 0.

Lemma any_schedule_keeps_registry_witness :
  program_reachable (po_registry (demo_play demo_schedule)) /\
  tidy (po_registry (demo_play demo_schedule)).
Proof. apply any_schedule_keeps_registry. vm_compute. done. Defined.

Lemma attempts_allocated_once_witness :
  ("r", "n", "r-n-attempt-1") ∈ allocations (po_trace (demo_play demo_schedule)) /\
  NoDup (allocations (po_trace (demo_play demo_schedule))).
Proof.
  split.
  - destruct second_resumes as (H & _). unfold demo_schedule. rewrite H. by apply list_elem_of_singleton.
  - apply attempts_allocated_once. vm_compute. done.
Defined.

(** ** A run left unresolved

    The backend fails to answer the wait of the runner (goroutine 1), which the
    executor of the run (goroutine 0) started; the graph then reports a failure. *)
Definition runner_of (i : nat) : option nat := match i with 1%nat => Some 0%nat | _ => None end.

Definition unresolved_schedule : list move :=
  [Submit 5 demo_spec; Start (GoExecuteRun "r"); Start (GoRunE 2 CtxLive "r" demo_node)]
  ++ turns 14 0 ++ turns 60 1 ++ turns 40 0.

Local Notation unresolved_pool :=
  (serve (BT := demo_backend) (U := ascii_tables) (RO := elements_order) persisting runner_of
    (fun _ => demo_env WaitErrs false) unresolved_schedule (demo0 <| d_unresolved := true |>)).

(** Does the [n]-th call satisfy [f]? *)
Definition at_call (p : pool (BT := demo_backend) (E := @actives demo_backend * demo)) (n : nat) (f : answered -> bool) : bool :=
  match po_trace p !! n with Some a => f a | None => false end.

Lemma unresolved_calls :
  at_call unresolved_pool 1 (registers 0) && at_call unresolved_pool 46 (marks runner_of 0)
  && at_call unresolved_pool 49 (asks 0) = true.
Proof. vm_compute. reflexivity. Qed.

Lemma unresolved_started : po_started unresolved_pool !! 0%nat = Some (GoExecuteRun "r").
Proof. vm_compute. reflexivity. Qed.

Lemma unresolved_run_is_left_witness : at_call unresolved_pool 49 said = true.
Proof.
  pose proof (fun reg mark ask => unresolved_run_is_left (BT := demo_backend) (U := ascii_tables)
    (RO := elements_order) persisting runner_of (fun _ => demo_env WaitErrs false) unresolved_schedule
    (demo0 <| d_unresolved := true |>) 0%nat "r" 1%nat 46%nat 49%nat reg mark ask eq_refl) as H.
  cbv zeta in H.
  pose proof unresolved_calls as Hc. pose proof unresolved_started as Hs. revert H Hc Hs.
  match goal with |- context [po_trace ?q] => generalize q end. unfold at_call. intros p H Hc Hs.
  destruct (po_trace p !! 1%nat) as [reg|]; [|discriminate].
  destruct (po_trace p !! 46%nat) as [mark|]; [|by rewrite andb_false_r in Hc].
  destruct (po_trace p !! 49%nat) as [ask|]; [|by rewrite andb_false_r in Hc].
  apply andb_true_iff in Hc as [[H1 H2]%andb_true_iff H3].
  apply (H reg mark ask); [done|lia|done..].
Defined.

(** The run and its node are left as they were shown before: running. *)
Example unresolved_stays_running :
  (rr_Status <$> mr_runs (po_registry unresolved_pool) !! "r",
   nr_Status <$> get_node (po_registry unresolved_pool) "r" "n",
   existsb is_start (po_trace unresolved_pool)) = (Some RunStatusRunning, Some NodeStatusRunning, true).
Proof. vm_compute. reflexivity. Qed.

(** A run that is canceled after it was admitted and before its graph is built is
    shown as running again: [runGraph] writes the status without looking at it. *)
Example canceled_shown_running :
  let canceled := two_runners ++ [Start (GoCancel "r" "stop")] ++ turns 20 2 in
  let p := demo_play canceled in
  let q := demo_play (canceled ++ [Start (GoExecuteRun "r")] ++ turns 12 3) in
  rr_Status <$> mr_runs (po_registry p) !! "r" = Some RunStatusCanceled /\
  rr_Status <$> mr_runs (po_registry q) !! "r" = Some RunStatusRunning.
Proof. cbv zeta. split; vm_compute; reflexivity. Qed.
