(* ===== verification/DurableWorld.v ===== *)
(** * The life of a file on a concrete world

    The backend of [Scenarios] serves a server on the SQLite registry, with the JSON
    of the records as it is stored: the disk is full while the file is created, a
    process ends between two calls of a runner, and the next one goes on. *)
From S2P Require Import Prelude GoStrings GoErrors GoJson Spec Registry Memory Handoff Provenance BackendTypes.
From S2P Require Import Binding Placement Reconcile Prog Runner RunnerWrites RecordJson MemoryWorld MemoryFacts MemoryTidy.
From S2P Require Import Sqlite SqliteRefines SqliteOpen Engine Api Goroutines Durable Scenarios GoroutineWorld.

#[local] Existing Instances tree_codec.
#[local] Instance sqlite_driver : Driver := { ErrConstraint := ErrNew "UNIQUE constraint failed" }.
#[local] Existing Instance OpenDemo.driver.

(** ** Does a registry survive its encoding? *)
Definition survives {A} `{Json A} `{EqDecision A} (x : A) : bool :=
  match Marshal x with
  | Ok data => match Unmarshal data with Ok y => bool_decide (y = x) | Err _ => false end
  | Err _ => false
  end.

Lemma survives_ok {A} `{Json A} `{EqDecision A} (x : A) : survives x = true -> round_trips x.
Proof.
  unfold survives, round_trips. destruct (Marshal x) as [data|]; [|done]. intros Hx. exists data. split; [done|].
  destruct (Unmarshal data) as [y|]; [|done]. by apply bool_decide_eq_true_1 in Hx as ->.
Qed.

Definition saved_b (m : MemoryRegistry) : bool :=
  bool_decide (map_Forall (fun _ x => survives x = true) (mr_runs m)) &&
  bool_decide (map_Forall (fun _ ns => map_Forall (fun _ x => survives x = true) ns) (mr_nodes m)) &&
  bool_decide (map_Forall (fun _ ns => map_Forall (fun _ xs =>
    map_Forall (fun _ x => survives x = true) xs) ns) (mr_attempts m)) &&
  bool_decide (map_Forall (fun _ es => Forall (fun x => survives x = true) es) (mr_events m)).

Lemma saved_ok m : saved_b m = true -> saved m.
Proof.
  unfold saved_b. rewrite !andb_true_iff, !bool_decide_eq_true. intros [[[H1 H2] H3] H4]. split.
  - intros id x Hx. by apply survives_ok, (H1 id).
  - intros id n x Hx. unfold get_node in Hx. destruct (mr_nodes m !! id) as [ns|] eqn:E; [|done].
    by apply survives_ok, (H2 id ns E n).
  - intros id n a x Hx. unfold get_attempt, node_attempts in Hx.
    destruct (mr_attempts m !! id) as [ns|] eqn:E; simpl in Hx; [|by rewrite lookup_empty in Hx].
    destruct (ns !! n) as [xs|] eqn:En; simpl in Hx; [|by rewrite lookup_empty in Hx]. by apply survives_ok, (H3 id ns E n xs En a).
  - intros id es x Hes Hx. specialize (H4 id es Hes). cbn in H4. rewrite Forall_forall in H4. by apply survives_ok, H4.
Qed.

(** ** A history *)
Local Notation demo_happen := (happen (BT := demo_backend) (U := ascii_tables) (RO := elements_order) persisting
  (fun _ => demo_env WaitSucceeds false) id "jumi-registry.db").
Local Notation demo_before := (before (BT := demo_backend) demo0).
Definition disk_full : GoError := ErrNew "disk full".

Definition calls (n i : nat) : list happening := repeat (Call i []) n.

Definition first_life : list happening :=
  [Boot [None; Some disk_full]; Boot []; Accept 5 demo_spec [None; None; Some disk_full]; Accept 5 demo_spec [];
   Spawn (GoRunE 2 CtxLive "r" demo_node)] ++ calls 8 0 ++ [Crash].
Definition second_life : list happening :=
  [Boot []; Spawn (GoRunE 2 CtxLive "r" demo_node)] ++ calls 60 1.

Local Notation demo_live history := (live (BT := demo_backend) (U := ascii_tables) (RO := elements_order) persisting
  (fun _ => demo_env WaitSucceeds false) id "jumi-registry.db" history demo0).

(** Opened a second time the file is complete, and the second submission is stored.
    The second runner resumes the attempt the first one allocated. *)
Example goes_on :
  let p := demo_live first_life in
  let q := demo_live (first_life ++ second_life) in
  sv_open p = None /\ allocations (sv_trace p) = [("r", "n", "r-n-attempt-1")] /\
  nw_status <$> db_nodes (sv_tables p) !! ("r", "n") = Some "Starting" /\ d_started (sv_env p) = [] /\
  allocations (sv_trace q) = [("r", "n", "r-n-attempt-1")] /\
  nw_status <$> db_nodes (sv_tables q) !! ("r", "n") = Some "Succeeded" /\ d_started (sv_env q) = ["job-n"].
Proof. cbv zeta. split_and!; vm_compute; reflexivity. Qed.

(** The process ends after [n] calls of its runner, and another one takes over. *)
Definition interrupted_at (n : nat) : list happening :=
  [Boot []; Accept 5 demo_spec []; Spawn (GoRunE 2 CtxLive "r" demo_node)] ++ calls n 0 ++ [Crash] ++ second_life.

(** Wherever the first process ends, the two start at most one execution between
    them, and allocate one attempt. *)
Example one_start_over_two_lives :
  forallb (fun n => let p := demo_live (interrupted_at n) in
    Nat.leb (length (d_started (sv_env p))) 1 && Nat.eqb (length (allocations (sv_trace p))) 1) (seq 0 40) = true.
Proof. vm_compute. reflexivity. Qed.

(** When it ends with the fence open, and the job is not found by its identity, the
    node is left to an operator: the next process starts nothing. *)
Example fence_stays :
  let p := demo_live (interrupted_at 15) in
  d_started (sv_env p) = [] /\ nw_status <$> db_nodes (sv_tables p) !! ("r", "n") = Some "Releasing".
Proof. cbv zeta. split; vm_compute; reflexivity. Qed.

(** ** Witnesses *)
Fixpoint all_saved_b (history : list happening) (p : server (BT := demo_backend)) : bool :=
  match history with
  | [] => true
  | h :: history =>
      saved_b (intended (BT := demo_backend) (RO := elements_order) (fun _ => demo_env WaitSucceeds false) h p)
      && all_saved_b history (demo_happen h p)
  end.

Lemma all_saved_ok history p : all_saved_b history p = true ->
  all_saved (BT := demo_backend) (U := ascii_tables) (RO := elements_order) persisting
    (fun _ => demo_env WaitSucceeds false) id "jumi-registry.db" history p.
Proof.
  revert p. induction history as [|h l IH]; intros p; [done|]. cbn [all_saved_b all_saved].
  intros [H1 H2]%andb_true_iff. split; [by apply saved_ok|by apply IH].
Qed.

Lemma history_saved : all_saved_b (first_life ++ second_life) demo_before = true.
Proof. vm_compute. reflexivity. Qed.

Lemma tables_represent_program_witness :
  let p := demo_live (first_life ++ second_life) in
  sim (sv_tables p) (sv_shadow p) /\ program_reachable (sv_shadow p) /\ tidy (sv_shadow p).
Proof.
  apply (tables_represent_program (BT := demo_backend) (U := ascii_tables) (RO := elements_order) persisting
    (fun _ => demo_env WaitSucceeds false) id "jumi-registry.db" (first_life ++ second_life) demo0).
  - vm_compute. done.
  - exact (all_saved_ok _ _ history_saved).
Defined.

Lemma handed_out : allocations (sv_trace (demo_live (first_life ++ second_life))) = [("r", "n", "r-n-attempt-1")].
Proof. vm_compute. reflexivity. Qed.

Lemma durable_attempts_allocated_once_witness :
  is_Some (db_attempts (sv_tables (demo_live (first_life ++ second_life))) !! ("r", "n", "r-n-attempt-1")).
Proof.
  pose proof (durable_attempts_allocated_once (BT := demo_backend) (U := ascii_tables) (RO := elements_order) persisting
    (fun _ => demo_env WaitSucceeds false) id "jumi-registry.db" (first_life ++ second_life) demo0) as H.
  apply H; [vm_compute; done|exact (all_saved_ok _ _ history_saved)|].
  rewrite handed_out.
  by apply list_elem_of_singleton.
Defined.

Lemma history_foreign : Forall driver_errors (first_life ++ second_life).
Proof.
  apply Forall_app. split; repeat (apply Forall_cons; split); try apply Forall_nil_2; try done.
  all: cbn; intros err H; by apply not_elem_of_nil in H.
Qed.

(** Of the two runners, the second one starts the execution. *)
Lemma durable_starts_stay_behind_fences_witness :
  let p := demo_live (first_life ++ second_life) in
  length (starts 1 (sv_trace p)) = 1%nat /\ behind_fences (sv_started p) (sv_trace p).
Proof.
  split; [vm_compute; reflexivity|].
  apply (durable_starts_stay_behind_fences (BT := demo_backend) (U := ascii_tables) (RO := elements_order) persisting
    (fun _ => demo_env WaitSucceeds false) id "jumi-registry.db" (first_life ++ second_life) demo0).
  - vm_compute. done.
  - exact (all_saved_ok _ _ history_saved).
  - exact history_foreign.
Defined.
