(* ===== verification/ClusterWorld.v ===== *)
(** * A small cluster

    Instances of the interfaces of [K8sTypes] to evaluate the client and the
    adapter with: jobs in a map, the runtime that creates them under the identity
    of the attempt, and the laws, which hold of them. *)
From S2P Require Import Prelude GoStrings GoErrors GoPath GoJson Spec Provenance K8sTypes JobClient LabelFacts JobClientFacts JobWatchFacts BackendTypes Contract Adapter AdapterFacts.

Record cluster {Q : Quantities} := mkCluster {
  cl_jobs : gmap (string * string) Job;
  cl_created : nat;
  cl_pods : list Pod;
}.
Arguments mkCluster {Q}.

#[export] Instance text_quantities : Quantities := {| Quantity := string; ParseQuantity s := Some s |}.

#[export] Instance lax_rules : LabelRules := {|
  IsQualifiedName k := if streq k "" then ["name part must be non-empty"] else [];
  IsValidLabelValue v :=
    if streq v "" || legal_label_value v then [] else ["a valid label must be an empty string or consist of"];
|}.

#[export] Instance lax_laws : LabelLaws.
Proof.
  split.
  - intros v H. cbn. by rewrite H, orb_true_r.
  - intros k H. cbn. destruct (streq k "") eqn:E; [|done]. apply streq_eq in E as ->.
    unfold program_labels in H. rewrite !elem_of_cons, elem_of_nil in H. naive_solver.
Qed.

#[export] Instance named_states : SpawnerRuntime := {|
  AttemptStateSubmitted := "submitted";
  AttemptStatePending := "pending";
  AttemptStateRunning := "running";
  AttemptStateSucceeded := "succeeded";
  AttemptStateFailed := "failed";
  AttemptStateCancelled := "cancelled";
  AttemptState_IsTerminal s := bool_decide (s ∈ ["succeeded"; "failed"; "cancelled"]);
  ReasonOOMKilled := "OOMKilled";
  ReasonNodeLost := "NodeLost";
  ReasonBackoffExceeded := "BackoffExceeded";
  ReasonDeadlineExceeded := "DeadlineExceeded";
  ReasonImagePullFailed := "ImagePullFailed";
  ReasonKueueWaiting := "KueueWaiting";
  ReasonSystemCancel := "SystemCancel";
  ReasonWatchDisconnected := "WatchDisconnected";
  ReasonResourceVersionTooOld := "ResourceVersionTooOld";
  ErrJobConflict := ErrNew "job conflict";
  NewK8sJobBackendRef := mkBackendRef;
|}.

#[export] Instance named_laws : SpawnerLaws.
Proof. by split. Qed.

Definition already_exists : GoError := ErrNew "already exists".
Definition not_found : GoError := ErrNew "not found".

Definition named (j : Job) (uid : string) : Job :=
  {| job_APIVersion := job_APIVersion j; job_Kind := job_Kind j; job_Name := job_Name j;
     job_Namespace := job_Namespace j; job_UID := uid; job_ResourceVersion := "1";
     job_Labels := job_Labels j; job_Annotations := job_Annotations j; job_Suspend := job_Suspend j;
     job_BackoffLimit := job_BackoffLimit j; job_TTLSecondsAfterFinished := job_TTLSecondsAfterFinished j;
     job_TemplateLabels := job_TemplateLabels j; job_TemplateAnnotations := job_TemplateAnnotations j;
     job_TemplateSpec := job_TemplateSpec j; job_Conditions := job_Conditions j |}.

#[export] Instance small_cluster : Cluster cluster := {|
  jobs_Create c ns j :=
    match cl_jobs c !! (ns, job_Name j) with
    | Some _ => (c, Err already_exists)
    | None =>
        let j' := named j ("uid-" +:+ pretty (cl_created c)) in
        (mkCluster (<[(ns, job_Name j) := j']> (cl_jobs c)) (S (cl_created c)) (cl_pods c), Ok j')
    end;
  jobs_Get c ns name := match cl_jobs c !! (ns, name) with Some j => Ok j | None => Err not_found end;
  jobs_Delete c ns name uid :=
    match cl_jobs c !! (ns, name) with
    | None => (c, Some not_found)
    | Some j =>
        if match uid with Some u => negb (streq (job_UID j) u) | None => false end
        then (c, Some (ErrNew "precondition failed"))
        else (mkCluster (delete (ns, name) (cl_jobs c)) (cl_created c) (cl_pods c), None)
    end;
  pods_List c _ _ := Ok (cl_pods c);
  pods_Get c _ name :=
    match find_first (fun p => streq (pod_Name p) name) (cl_pods c) with
    | Some p => Ok p | None => Err not_found end;
  IsAlreadyExists e := bool_decide (e = already_exists);
  IsNotFound e := bool_decide (e = not_found);
|}.

#[export] Instance small_cluster_laws : ClusterLaws cluster.
Proof.
  split; cbn.
  - intros c ns j old H. exists already_exists. destruct (cl_jobs c !! (ns, job_Name j)); [done|done].
  - intros c c' ns j e. destruct (cl_jobs c !! (ns, job_Name j)); [by intros [= <- <-]|done].
  - intros c c' ns j made. destruct (cl_jobs c !! (ns, job_Name j)); [done|].
    intros [= <- <-]. cbn. by rewrite lookup_insert_eq.
  - intros c ns name j uid. destruct (cl_jobs c !! (ns, name)) as [k|]; [|done]. intros [= ->] Hne.
    by rewrite (proj2 (streq_neq _ _) Hne).
  - intros c ns name ns' name' p Hne. destruct (cl_jobs c !! (ns, name)) as [k|]; [|done].
    destruct p as [u|]; [destruct (negb _); [done|]|]; cbn; by rewrite lookup_delete_ne.
Qed.

Section runtime.
Context {U : UnicodeTables} {RO : RangeOrder}.

#[export] Instance creating_runtime : Runtime cluster := {|
  rt_ResolveIdentity x := Ok (mkAttemptIdentity "jumi" ("job-" +:+ x) ("marker-" +:+ x));
  rt_SubmitAttempt c r :=
    let x := arq_AttemptID r in
    match Create c (mkJobCreateRequest "jumi" ("job-" +:+ x) ("marker-" +:+ x) r) with
    | (c, Ok ref) => (c, Ok (mkAttemptHandle x ref))
    | (c, Err err) => (c, Err err)
    end;
  rt_CancelAttempt c h := Delete c (ah_BackendRef h);
|}.

#[export] Instance creating_laws : RuntimeLaws cluster.
Proof.
  split.
  - by intros x id [= <-].
  - intros c r c' h. cbn. destruct (Create c _) as [c1 [ref|]] eqn:E; [|done]. intros [= <- <-].
    by eexists _, ref.
Qed.
End runtime.

(** ** Codecs: the fields one after the other, for values without slashes *)
#[export] Instance json_handle : Json persistedRuntimeHandle := {|
  Marshal p :=
    let r := ah_BackendRef (prh_AttemptHandle p) in
    Ok (join_slash [ah_AttemptID (prh_AttemptHandle p); br_Namespace r; br_Name r; br_UID r; prh_QueueName p]);
  Unmarshal s :=
    match split_slash s with
    | [x; ns; name; uid; queue] =>
        Ok (mkPersistedRuntimeHandle (mkAttemptHandle x (mkBackendRef ns name uid)) queue)
    | _ => Err (ErrNew "unexpected end of input")
    end;
|}.

#[export] Instance json_contract : Json nodeContractFile := {|
  Marshal c := Ok (join_slash [ncf_RunID c; ncf_NodeID c; ncf_AttemptID c]);
  Unmarshal s := Err (ErrNew "contracts are not read");
|}.

(** A manifest of one artifact. *)
#[export] Instance json_manifest : Json ArtifactManifest := {|
  Marshal m := Err (ErrNew "manifests are not written");
  Unmarshal s :=
    match split_slash s with
    | [run; node; attempt; output; uri] =>
        Ok ((((zero_ArtifactManifest <| am_RunID := run |>) <| am_NodeID := node |>)
              <| am_AttemptID := attempt |>)
              <| am_Artifacts := [(zero_ArtifactRecord <| arec_OutputName := output |>) <| arec_URI := uri |>] |>)
    | _ => Err (ErrNew "unexpected end of input")
    end;
|}.

(** ** The theorems on it *)
#[local] Existing Instance ascii_tables.
#[local] Existing Instance elements_order.

Lemma identityLabelValue_legal_witness :
  identityLabelValue "Run 7" = "run-7-" +:+ shortHash "Run 7" /\
  legal_label_value (identityLabelValue "Run 7") = true /\ identityLabelValue "run-7" = "run-7".
Proof.
  split; [vm_compute; reflexivity|].
  split; [apply (proj1 identityLabelValue_legal)|].
  apply (proj2 identityLabelValue_legal); [apply ascii_tables_ok|vm_compute; reflexivity|reflexivity].
Defined.

(** An attempt of one node. *)
Definition demo_attempt (attempt : string) : AttemptRequest := {|
  arq_AttemptID := attempt; arq_RunID := "r"; arq_CorrelationID := "t"; arq_ImageRef := "img";
  arq_Command := ["run"]; arq_WorkingDir := ""; arq_Env := Some {[ "JUMI_NODE_ID" := "n" ]};
  arq_Resources := mkRtResources "1" ""; arq_ServiceAccountName := ""; arq_Mounts := [];
  arq_Placement := None; arq_UserLabels := Some {[ labelKueueQueueName := "q" ]};
  arq_UserAnnotations := None; arq_TTLSecondsAfterFinished := 60; arq_AttemptTimeout := 0 |}.

Definition demo_create (marker : string) : JobCreateRequest :=
  mkJobCreateRequest "jumi" "job-a" marker (demo_attempt "a").

Lemma validateK8sJobCreateRequest_accepts_witness :
  names_attempt (demo_create "m") /\
  (validateK8sJobCreateRequest (demo_create "m") = None <->
   names_attempt (demo_create "m") /\ placement_ok None /\
  (forall k v, map_of (arq_UserLabels (demo_attempt "a")) !! k = Some v -> user_label_ok k v)).
Proof.
  split; [|apply (validateK8sJobCreateRequest_accepts (LL := lax_laws) (demo_create "m"))].
  vm_compute. split_and!; [done|by left|done].
Defined.

Definition empty_cluster : cluster := mkCluster ∅ 0 [].

(** The cluster after a submission, and its reference. *)
Definition demo_submitted : cluster := (Create empty_cluster (demo_create "m")).1.
Definition demo_ref : BackendRef := mkBackendRef "jumi" "job-a" "uid-0".

Definition demo_job : Job :=
  match jobs_Get demo_submitted "jumi" "job-a" with Ok j => j | Err _ => buildK8sJob (demo_create "m") end.

Lemma Ok_inj {A : Type} {x y : A} : Ok x = Ok y -> x = y.
Proof. congruence. Qed.

Lemma demo_creates : Create empty_cluster (demo_create "m") = (demo_submitted, Ok demo_ref).
Proof. vm_compute. reflexivity. Qed.

Lemma demo_creates_again : Create demo_submitted (demo_create "m") = (demo_submitted, Ok demo_ref).
Proof. vm_compute. reflexivity. Qed.

Lemma demo_get : jobs_Get demo_submitted "jumi" "job-a" = Ok demo_job.
Proof. vm_compute. reflexivity. Qed.

Lemma demo_uid : job_UID demo_job = "uid-0".
Proof. vm_compute. reflexivity. Qed.

Lemma demo_other_marker : ~ bears "m2" demo_job.
Proof. intros [H|H]; vm_compute in H; discriminate. Qed.

Lemma demo_other_valid : validateK8sJobCreateRequest (demo_create "m2") = None.
Proof. vm_compute. reflexivity. Qed.

#[local] Opaque demo_submitted demo_job.

Lemma Create_idempotent_witness :
  Create empty_cluster (demo_create "m") = (demo_submitted, Ok demo_ref) /\
  Create demo_submitted (demo_create "m") = (demo_submitted, Ok demo_ref) /\
  Create demo_submitted (demo_create "m2") = (demo_submitted, Err ErrJobConflict).
Proof.
  split; [exact demo_creates|].
  destruct (Create_idempotent empty_cluster demo_submitted (demo_create "m") demo_ref ltac:(done) demo_creates)
    as [H1 (j & Hg & _ & _ & H2)]. split; [exact H1|].
  apply (proj2 (H2 (demo_create "m2") demo_other_valid eq_refl eq_refl ltac:(done))).
  assert (E : Ok demo_job = Ok j) by (rewrite <- demo_get; exact Hg).
  rewrite <- (Ok_inj E). exact demo_other_marker.
Defined.

Lemma Delete_only_its_job_witness :
  let stale := mkBackendRef "jumi" "job-a" "uid-9" in
  jobs_Get demo_submitted "jumi" "job-a" = Ok demo_job /\
  jobs_Get (delete_after (Ok (named demo_job "uid-9")) demo_submitted stale).1 "jumi" "job-a" = Ok demo_job.
Proof.
  intros stale. split; [exact demo_get|].
  apply (Delete_only_its_job (KL := small_cluster_laws)).
  - done.
  - exact demo_get.
  - rewrite demo_uid. intros [=].
Defined.

(** Its job, once it has completed. *)
Definition done_job (j : Job) : Job :=
  {| job_APIVersion := job_APIVersion j; job_Kind := job_Kind j; job_Name := job_Name j;
     job_Namespace := job_Namespace j; job_UID := job_UID j; job_ResourceVersion := "2";
     job_Labels := job_Labels j; job_Annotations := job_Annotations j; job_Suspend := job_Suspend j;
     job_BackoffLimit := job_BackoffLimit j; job_TTLSecondsAfterFinished := job_TTLSecondsAfterFinished j;
     job_TemplateLabels := job_TemplateLabels j; job_TemplateAnnotations := job_TemplateAnnotations j;
     job_TemplateSpec := job_TemplateSpec j;
     job_Conditions := [mkJobCondition JobComplete ConditionTrue "" "" 9] |}.

Definition demo_wakes : list wake := [WakePodClosed; WakeJob EvModified (ObjJob (done_job demo_job)) 9 true].

Definition demo_watch : watched := watchJob demo_submitted 5 demo_ref true None true demo_wakes.

Lemma demo_ending : ending demo_job demo_ref (WakeJob EvModified (ObjJob (done_job demo_job)) 9 true) = true.
Proof. vm_compute. reflexivity. Qed.

Lemma demo_watch_states : je_State <$> wd_events demo_watch = [AttemptStateSucceeded].
Proof. vm_compute. reflexivity. Qed.

Lemma watchJob_protocol_witness :
  wd_returned demo_watch = true /\
  je_State <$> wd_events demo_watch = [AttemptStateSucceeded] /\
  protocol (no_such_job demo_submitted demo_ref \/ true = false \/ ended_within demo_wakes) demo_watch.
Proof.
  destruct (watchJob_protocol demo_submitted 5 demo_ref true None true demo_wakes) as [H1 H2].
  split; [|split; [exact demo_watch_states|exact H1]].
  apply H2. intros job Hj. apply Exists_cons_tl, Exists_cons_hd.
  assert (E : Ok demo_job = Ok job) by (rewrite <- demo_get; exact Hj).
  rewrite <- (Ok_inj E). exact demo_ending.
Defined.

Lemma watchJob_success_on_evidence_witness :
  exists j, seen demo_submitted demo_ref demo_wakes j /\
    (br_UID demo_ref = "" \/ job_UID j = br_UID demo_ref) /\ completed j.
Proof.
  apply (watchJob_success_on_evidence demo_submitted 5 demo_ref true None true demo_wakes
           (mkJobEvent AttemptStateSucceeded "" "" 9)).
  - vm_compute. left.
  - reflexivity.
Defined.

(** Outputs of a pod that left its manifest. *)
Definition finished_pod : Pod :=
  mkPod "pod-1" ∅ "host-1" PodSucceeded
    [mkContainerStatus "main" (Some (mkContainerTerminated 0 7 " r/n/a/out/s3:b ")) None].

Definition all_parts : SpawnerK8sAdapter := mkSpawnerK8sAdapter true true true true true "jumi".

Definition demo_handle : AnyHandle := RuntimeHandle (mkRuntimeHandle (mkAttemptHandle "a" demo_ref) "q").

Definition out_node : Node :=
  ((zero_Node <| n_NodeID := "n" |>) <| n_Outputs := ["out"; "log"] |>)
    <| n_Env := Some (<["JUMI_RUN_ID" := "r"]> {[ "JUMI_ATTEMPT_ID" := "a" ]}) |>.

Lemma CollectOutputMetadata_ok_witness :
  let c := mkCluster (cl_jobs demo_submitted) 1 [finished_pod] in
  exists out, CollectOutputMetadata all_parts c (fun _ _ _ => Err not_found) demo_handle out_node = Ok out /\
    out <> ∅.
Proof.
  intros c. eexists. split; [vm_compute; reflexivity|].
  refine (proj1 (CollectOutputMetadata_ok all_parts c (fun _ _ _ => Err not_found) demo_handle out_node _ _)).
  vm_compute. reflexivity.
Defined.

(** A failed attempt. *)
Definition failed_watch (h : AttemptHandle) : res (list waited) :=
  Ok [WaitEvent (mkAttemptEvent "running" "" ""); WaitEvent (mkAttemptEvent "failed" "OOMKilled" ""); WaitClosed].

Lemma WaitNode_shows_success_only_witness :
  exists count answer, WaitNode all_parts demo_handle failed_watch = Some (count, answer) /\
    er_TerminalFailureReason answer.1 = "oom_killed" /\
    (forall r, executor_sees answer = Ok r -> r = mkExecutionResult true "finished" "" None).
Proof.
  eexists _, _. split; [vm_compute; reflexivity|]. split; [reflexivity|].
  refine (proj1 (WaitNode_shows_success_only all_parts demo_handle failed_watch _ _ _)).
  vm_compute. reflexivity.
Defined.

(** A node that is started on the empty cluster. *)
Definition start_node : Node :=
  ((zero_Node <| n_NodeID := "n" |>)
    <| n_Env := Some (<["JUMI_NODE_ID" := "n"]> {[ "JUMI_ATTEMPT_ID" := "a" ]}) |>)
    <| n_Kueue := Some (zero_KueueHints <| kh_QueueName := "q" |>) |>.

Definition start_run : RunRecord := zero_RunRecord <| rr_RunID := "r" |>.
Definition no_environment (_ : string) : string := "".

Definition start_request : AttemptRequest := toAttemptRequest no_environment start_run start_node.

Lemma started_handle_is_recovered_witness :
  let prepared := RuntimePrepared (mkPreparedRuntimeNode start_request "q") in
  exists c' h, (StartNode all_parts empty_cluster prepared).1.1 = c' /\
    rh_queueName h = "q" /\
    ResolveByIdentity all_parts c' "a" = (Some (RuntimeHandle h), ResolveFound, None).
Proof.
  intros prepared. eexists _, (mkRuntimeHandle (mkAttemptHandle "a" (mkBackendRef "jumi" "job-a" "uid-0")) "q").
  split; [reflexivity|]. split; [reflexivity|].
  refine (proj2 (started_handle_is_recovered no_environment all_parts empty_cluster _ start_run start_node
    [IncK8sNodePrepare] [IncK8sNodeStart] prepared _ "a" _ _ _ _ _ _ _)).
  - reflexivity.
  - reflexivity.
  - vm_compute. reflexivity.
  - intros id j _ H. destruct id as [ns name m]. cbn in H. by rewrite lookup_empty in H.
  - reflexivity.
  - vm_compute. reflexivity.
  - eexists. split; vm_compute; reflexivity.
Defined.

Lemma injectOutputContractEnv_keeps_witness :
  let env := <["JUMI_OUTPUT_ROOT" := "/data"]> ∅ in
  injectOutputContractEnv env start_run out_node !! "JUMI_OUTPUT_ROOT" = Some "/data" /\
  injectOutputContractEnv env start_run out_node !! "JUMI_OUTPUT_NAMES" = Some "log,out".
Proof.
  intros env. split; [|vm_compute; reflexivity].
  apply injectOutputContractEnv_keeps; [reflexivity|by left].
Defined.
