(* ===== verification/AdapterRunner.v ===== *)
(** * The executor on the Kubernetes adapter

    The node runner with its waiting answered by the adapter, and the executor
    evaluated on the adapter, its job client and a small cluster. *)
From S2P Require Import Prelude GoStrings GoErrors GoJson Spec Registry Memory Handoff Provenance.
From S2P Require Import BackendTypes Binding Placement Reconcile Prog Runner RunnerLogic RunnerTermination MemoryWorld MemoryFacts.
From S2P Require Import K8sTypes JobClient Contract Adapter AdapterFacts ClusterWorld.

(** ** No failed execution is recorded *)
Section failure.
Context {U : UnicodeTables} {R : SpawnerRuntime} {RL : SpawnerLaws}.
Context (caps : AdapterCaps) (runID : string) (r_node : Node).

(** A write that makes neither the attempt nor the node a failed one: what ends them
    says that they were canceled, or that they succeeded. *)
Definition records_no_failure (X : Type) (e : event X) : Prop :=
  match e with
  | EUpsertAttempt record =>
      ar_Status record = AttemptStatusErrored -> ar_TerminalStopCause record = "canceled"
  | EUpdateNode _ _ f => forall n, nr_Status (f n).2 = NodeStatusFailed -> nr_Status n = NodeStatusFailed
  | _ => True
  end.

(** Waiting answers what the executor is shown of the adapter's answer; the other
    calls answer anything. *)
Definition adapter_waits (_ : unit) (X : Type) (e : event X) : X -> unit -> Prop :=
  match e in event X return X -> unit -> Prop with
  | EWaitNode _ handle => fun x _ =>
      exists a watch count answer,
        WaitNode a handle watch = Some (count, answer) /\ x = executor_sees answer
  | _ => fun _ _ => True
  end.

Local Notation wpW := (wpM (fun _ : unit => records_no_failure) adapter_waits).
Local Notation quietly := (emitsM records_no_failure).

Lemma wpW_quiet {A} (m : M A) r s : quietly m -> wpW m r s (fun _ _ _ => True).
Proof.
  intros H. apply (wpM_emits (S := unit) _ _ records_no_failure (fun _ => True)); auto.
Qed.

Ltac quiet_solve := emits_auto; try (by simpl).

Lemma quiet_metric m : quietly (metric m).
Proof. unfold metric. quiet_solve. Qed.
Lemma quiet_now : quietly now.
Proof. unfold now. quiet_solve. Qed.
Lemma quiet_event e : quietly (appendEvent e).
Proof. unfold appendEvent. quiet_solve. Qed.
#[local] Hint Resolve quiet_metric quiet_now quiet_event : emits.
Lemma quiet_fallback a : quietly (recordLocalityFallbackFailure runID r_node a).
Proof. unfold recordLocalityFallbackFailure. quiet_solve. Qed.
Lemma quiet_fallbackOK a : quietly (recordLocalityFallbackSuccess runID r_node a).
Proof. unfold recordLocalityFallbackSuccess. quiet_solve. Qed.
Lemma quiet_canceled : quietly (isRunCanceled runID).
Proof. unfold isRunCanceled. quiet_solve. Qed.
Lemma quiet_sample : quietly (sampleRunID runID).
Proof. unfold sampleRunID. quiet_solve. Qed.
#[local] Hint Resolve quiet_sample : emits.
Lemma quiet_notify ctx st a : quietly (notifyNodeTerminal runID r_node ctx st a).
Proof. unfold notifyNodeTerminal. quiet_solve. Qed.
Lemma quiet_notify_failed a st e : quietly (notify_failed runID r_node a st e).
Proof. unfold notify_failed. quiet_solve. Qed.
Lemma quiet_reason reason : quietly (effectiveCancellationReason runID reason).
Proof. unfold effectiveCancellationReason. quiet_solve. Qed.
Lemma quiet_ctx ctx : quietly (ctxErr ctx).
Proof. unfold ctxErr. quiet_solve. Qed.
Lemma quiet_unresolved a : quietly (reconcileUnresolved runID r_node a).
Proof. unfold reconcileUnresolved, setNode, updateNode, markUnresolved. quiet_solve. Qed.
#[local] Hint Resolve quiet_notify quiet_notify_failed quiet_reason : emits.
Lemma quiet_cancel a reason : quietly (cancelNode runID r_node a reason).
Proof. unfold cancelNode, setNode, updateNode. quiet_solve. Qed.
Lemma quiet_defer a f c : quietly (deferFinalizationAfterSuccess runID r_node a f c).
Proof. unfold deferFinalizationAfterSuccess, setNode, updateNode, markUnresolved. quiet_solve. Qed.
Lemma quiet_register_outputs ctx a s m l : quietly (register_outputs r_node ctx a s m l).
Proof. induction l; simpl; quiet_solve. Qed.
#[local] Hint Resolve quiet_register_outputs : emits.
Lemma quiet_outputs ctx h a n : quietly (registerNodeOutputs caps runID r_node ctx h a n).
Proof. unfold registerNodeOutputs, collectOutputMetadata. quiet_solve. Qed.
#[local] Hint Resolve quiet_fallback quiet_fallbackOK quiet_canceled quiet_ctx quiet_unresolved
  quiet_cancel quiet_defer quiet_outputs : emits.

Lemma waitAndFinalize_quiet ctx handle a t node r s :
  wpW (waitAndFinalize caps runID r_node ctx handle a t node) r s (fun _ _ _ => True).
Proof.
  unfold waitAndFinalize. apply wpM_bind, wpM_call; [done|].
  intros w [] (ad & watch & count & answer & Hw & ->).
  pose proof (WaitNode_success ad handle watch count answer Hw) as Hok.
  destruct (executor_sees answer) as [result|e].
  - rewrite (Hok result eq_refl). apply wpW_quiet. cbn [negb er_Succeeded]. unfold setNode, updateNode.
    quiet_solve.
  - apply wpW_quiet. quiet_solve.
Qed.

(** C17. With the Kubernetes adapter a failed execution is never recorded. Waiting for
    a job, after starting it or after reattaching to it, whatever the runtime sends
    and whatever every other call answers, the executor writes neither an attempt nor
    a node as failed: a job that failed stays an execution whose outcome is unknown. *)
Theorem failed_execution_is_never_recorded ctx handle attemptID startedAt node r :
  wpW (waitAndFinalize caps runID r_node ctx handle attemptID startedAt node) r tt (fun _ _ _ => True) /\
  wpW (runFromHandle caps runID r_node ctx handle attemptID) r tt (fun _ _ _ => True).
Proof.
  split; [apply waitAndFinalize_quiet|]. unfold runFromHandle, registerHandle, unregisterHandle.
  do 3 (apply wpM_bind; eapply wpM_mono; [|apply wpW_quiet; quiet_solve]; intros ? ? ? _).
  apply wpM_bind. eapply wpM_mono; [|apply waitAndFinalize_quiet]. intros ? ? ? _.
  apply wpW_quiet. quiet_solve.
Qed.
End failure.

(** ** The executor on a small cluster *)
Section kube.
#[local] Existing Instance ascii_tables.
#[local] Existing Instance elements_order.

(** The clock, the cluster, whether the run was marked unresolved, and the events
    that the runtime sends for every attempt. *)
Record kube := mkKube {
  ku_clock : Z; ku_cluster : cluster; ku_unresolved : bool; ku_fate : list AttemptEvent }.

#[local] Instance eta_kube : Eta kube := fun k =>
  mkKube (ku_clock k) (ku_cluster k) (ku_unresolved k) (ku_fate k).

Definition kube_failure : GoError := ErrNew "not served".

(** What the channel of an attempt delivers. *)
Definition kube_watch (k : kube) (_ : AttemptHandle) : res (list waited) :=
  Ok ((WaitEvent <$> ku_fate k) ++ [WaitClosed]).

Definition kube_env (X : Type) (e : event X) (k : kube) : kube * X :=
  match e in event X return kube * X with
  | ENow => (k <| ku_clock := (ku_clock k + 1)%Z |>, ku_clock k)
  | ECtxErr _ => (k, None)
  | ESleep _ _ => (k, None)
  | EMetric _ => (k, tt)
  | EPrepareNode _ run node => (k, (PrepareNode no_environment all_parts run node).2)
  | EStartNode _ prepared =>
      let '(c, _, r) := StartNode all_parts (ku_cluster k) prepared in (k <| ku_cluster := c |>, r)
  | EObserveNode _ _ => (k, Ok None)
  | EWaitNode _ handle =>
      (k, match WaitNode all_parts handle (kube_watch k) with
          | Some (_, answer) => executor_sees answer
          | None => Err kube_failure
          end)
  | ECancelNode _ handle =>
      let '(c, _, err) := CancelNode all_parts (ku_cluster k) handle in
      (k <| ku_cluster := c |>, match err with Some err => Err err | None => Ok tt end)
  | EMarshalHandle handle => (k, MarshalHandle handle)
  | EUnmarshalHandle data =>
      (k, match UnmarshalHandle data with Ok h => Ok (Some h) | Err err => Err err end)
  | EResolveByIdentity _ _ _ attemptID =>
      let '(h, outcome, err) := ResolveByIdentity all_parts (ku_cluster k) attemptID in
      (k, (default (OtherHandle "<nil>") h, outcome, err))
  | ECollectOutputMetadata _ handle node =>
      (k, CollectOutputMetadata all_parts (ku_cluster k) (fun _ _ _ => Err kube_failure) handle node)
  | EResolveBinding _ _ => (k, Err kube_failure)
  | ERegisterArtifact _ _ => (k, Ok tt)
  | ENotifyNodeTerminal _ _ => (k, Ok tt)
  | EFinalizeSampleRun _ => (k, Ok tt)
  | EEvaluateGC _ => (k, Ok tt)
  | EMarkUnresolved => (k <| ku_unresolved := true |>, tt)
  | ERegisterHandle _ _ | EUnregisterHandle _ | EGoExecuteRun _ | EGoRecoverCanceledRun _
  | EGoWatcher _ _ | ERegisterActive _ | EUnregisterActive _ | ECancelActive _
  | ETrySendFirstErr _ | ETrySendFastFailRoot _ | EDagCreateNode _ => (k, tt)
  | EGetActive _ | EIsUnresolved => (k, ku_unresolved k)
  | ESnapshotHandles _ => (k, [])
  | ETryReceiveFirstErr => (k, None)
  | ETryReceiveFastFailRoot => (k, None)
  | EDagInit | EDagAddEdge _ _ | EDagAddStartEdge _ | EDagFinish => (k, Ok tt)
  | EDagSetNodeRunners _ => (k, [])
  | EDagConnectRunner | EDagGetReady _ | EDagStart => (k, true)
  | EDagWait _ => (k, negb (ku_unresolved k))
  | _ => (k, Err kube_failure)
  end.

Definition kube_caps : AdapterCaps :=
  {| cap_HandlePersister := true; cap_AttemptResolver := true; cap_OutputMetadataProvider := true |}.

Definition kube_node : Node := (zero_Node <| n_NodeID := "n" |>) <| n_Image := "img" |>.

Definition kube_registry : MemoryRegistry :=
  (CreateRun NewMemoryRegistry
     ((zero_RunRecord <| rr_RunID := "r" |>) <| rr_Status := RunStatusRunning |>)
     [((zero_NodeRecord <| nr_RunID := "r" |>) <| nr_NodeID := "n" |>)
        <| nr_Status := NodeStatusPending |>]).1.

Definition kube_start (fate : list AttemptEvent) : MemoryRegistry * kube :=
  (kube_registry, mkKube 100 empty_cluster false fate).

(** [RunE] of a fresh runner, as after a restart. *)
Definition kube_run (w : MemoryRegistry * kube) : (MemoryRegistry * kube) * option (option GoError) :=
  let '(w, (_, r)) :=
    run (memory_handle kube_env) (RunE kube_caps "r" kube_node enough_fuel CtxLive new_runner) w in
  (w, r).

Definition kube_node_status (w : MemoryRegistry * kube) : option NodeStatus :=
  nr_Status <$> get_node w.1 "r" "n".

Definition succeeds : list AttemptEvent :=
  [mkAttemptEvent AttemptStateRunning "" ""; mkAttemptEvent AttemptStateSucceeded "" ""].
Definition fails : list AttemptEvent :=
  [mkAttemptEvent AttemptStateRunning "" ""; mkAttemptEvent AttemptStateFailed "OOMKilled" ""].

(** A job that succeeds: one job, a node that succeeded. *)
Example kube_success :
  let w := kube_run (kube_start succeeds) in
  w.2 = Some None /\ kube_node_status w.1 = Some NodeStatusSucceeded /\
  size (cl_jobs (ku_cluster w.1.2)) = 1.
Proof. cbv zeta. split_and!; vm_compute; reflexivity. Qed.

(** A job that fails leaves its node running and unresolved; so does every later
    executor, which finds the same job and hears the same failure. *)
Example kube_failed_job_stays_unresolved :
  let w := kube_run (kube_start fails) in
  let w' := kube_run w.1 in
  w.2 = Some (Some errReconcileUnresolved) /\ kube_node_status w.1 = Some NodeStatusRunning /\
  w'.2 = Some (Some errReconcileUnresolved) /\ kube_node_status w'.1 = Some NodeStatusRunning /\
  size (cl_jobs (ku_cluster w'.1.2)) = 1.
Proof. cbv zeta. split_and!; vm_compute; reflexivity. Qed.
End kube.
